(* ===== verification/_CoqProject ===== *)
-Q . S2P
Prelude.v
GoStrings.v
GoErrors.v
GoTime.v
FieldPath.v
Json.v
Paved.v
Wildcards.v
Conditions.v
Meta.v
Policies.v
Prog.v
Errors.v
Managed.v
Applicator.v
ManagedApi.v
Reference.v
FloatValues.v
ProviderConfig.v
Gate.v
RateLimiter.v
RateLimiterThreads.v
Events.v
Watch.v
PackageParser.v
PackageBackend.v
UnstructuredClient.v
Password.v
Certificates.v
Webhook.v
Unstructured.v
Composite.v
Claim.v
Composed.v
Constructors.v
Interfaces.v
Fakes.v
TestDoubles.v
Logging.v
Setup.v
Resources.v
UsageProtection.v
Heap.v
VersionOption.v
MockClient.v
FakeCopies.v
DeepCopy.v
ManagedReconciler.v
ManagedSafety.v
Resolver.v
ChangeLog.v
Metrics.v
Lifecycle.v
Convergence.v
Components.v
Composition.v
Jitter.v
