(* ===== verification/Prelude.v ===== *)
(** * A verification library for crossplane-runtime

    crossplane-runtime is the library the controllers of Crossplane are built
    from.  At its centre is the managed resource reconciler, which drives an
    external resource towards the state a Kubernetes object describes; around
    it are components the reconciler calls (publishers of connection secrets,
    finalizers, updaters of critical annotations, reference resolvers), other
    reconcilers (of ProviderConfigs and of custom resource definitions), and
    the data structures they share (metadata, conditions, policies, field paths
    into JSON-like objects, unstructured resources).

    ** How the code is modelled

    Pure functions are Rocq functions.  Go's [error] is the inductive type
    [GoErrors.error], nil is [None], and a panic is an outcome of its own.
    Methods that change an object through a pointer return the new object.
    JSON-like data is the inductive type [Json.any]; maps are finite maps, and
    where Go ranges over a map the order is a parameter or an oracle.

    Code that talks to the API server, an external system or a clock is a
    program over a signature of effects (Prog.v): a tree that performs an effect
    and continues with its answer.  Nothing is assumed of the answers, so a
    theorem about all executions of a program covers every failure, every
    conflict and every change another client makes.  [wp] is a weakest
    precondition calculus over the traces of programs.

    ** Files

    - Prelude.v: notations, tactics and lemmas on lists and integers.
    - GoStrings.v, GoErrors.v, GoTime.v: strings, strconv, errors (pkg/errors
      and the error helpers of pkg/resource), times and RFC 3339.
    - FieldPath.v, Json.v, Paved.v, Wildcards.v: pkg/fieldpath.  Parsing and
      printing of paths are inverse; the lexer halts; what SetValue sets is
      read back and nothing else changes; arrays stay within the maximum index;
      deleting deletes; expanding wildcards yields exactly the matching paths.
    - Conditions.v: apis/common/condition.go and pkg/conditions.  One condition
      per type; equality up to order and transition times.
    - Meta.v: pkg/meta.  Finalizers as sets, controller references, and the
      annotations that say whether a creation is left in doubt.
    - Policies.v: pkg/reconciler/managed/policies.go and pkg/feature.
    - Prog.v: programs with effects.  Errors.v: the rest of pkg/errors, trees of
      errors, what Is and As find in them, and requeueing on conflicts.
    - Managed.v, ManagedReconciler.v, ManagedSafety.v:
      pkg/reconciler/managed/reconciler.go.  The state of a reconcile, the whole
      of Reconcile as a program whose phases carry their line numbers, and the
      theorems about its traces: when the external resource may be created,
      updated and deleted, and the finalizer removed; what a paused, observe
      only or doubtful resource is protected from; that outcomes of creations
      are recorded and connections closed; which errors are returned; and that
      a reconcile in which nothing fails creates or finalizes.
    - Lifecycle.v: reconciles of one object one after the other, which may stop
      at any call and may read outdated versions, against an API server with
      optimistic concurrency.  Create is never called while the outcome of an
      earlier Create is not recorded.
    - Convergence.v: reconciles in a cluster that does what it is asked.  Two of
      them bring a wanted resource about and up to date, or delete an unwanted
      one and release the object.
    - Components.v, Composition.v: what a Reconciler is put together from
      (connectors and clients, typed and not, function adapters, publishers,
      initializers, options) and the reconciler with the default components.
      Reconcile then runs over the components' own effects, by a handler that
      keeps the connected client, and the theorems about its traces carry over:
      a client is only called once Connect has returned it, creation is guarded
      and recorded in terms of API calls.
    - Jitter.v: the hook that adds jitter to poll intervals, in IEEE arithmetic.
      For every random number the interval stays within the jitter.
    - ChangeLog.v, Metrics.v: changelogger.go, metrics.go and pkg/statemetrics.
      Each change is logged exactly once; what the recorders count.
    - Applicator.v, ManagedApi.v, Resolver.v: pkg/resource/api.go, the applicators and apply
      options of pkg/resource/resource.go, and pkg/reconciler/managed/api.go.
      Secrets of others are never patched, critical annotations survive
      conflicts, finalizers are added and removed by one update.
    - Reference.v, FloatValues.v: pkg/reference, cluster scoped and namespaced
      resolvers as two instances of one interface; the adapters of floats with
      what strconv prints and parses, and which floats survive them.
    - ProviderConfig.v: pkg/reconciler/providerconfig and the usage trackers and
      credential extractors of pkg/resource/providerconfig.go.
      UsageProtection.v: how the reconciler is made, and the trackers and the
      reconciler together over a server that stores usages: a ProviderConfig in
      use keeps its finalizer.
    - Gate.v: pkg/gate under every interleaving of its critical sections, and
      pkg/reconciler/customresourcesgate.
    - RateLimiter.v, RateLimiterThreads.v: the rate limited reconciler, and
      requests for different items at the same time, which have the outcome of
      one after the other.
    - Events.v, Webhook.v: the event recorder and the webhooks.  Watch.v: predicates, watches and late
      initialisation of pkg/resource.
    - PackageParser.v, PackageBackend.v: pkg/parser, from a directory to parsed
      and linted packages.
    - Unstructured.v, Composite.v, Claim.v, Composed.v, UnstructuredClient.v:
      pkg/resource/unstructured, accessors over paved objects and the client
      that unwraps them.  Constructors.v: making them, and the shape of all
      resources that are made and changed through the packages, on which every
      setter takes effect.
    - Interfaces.v, Fakes.v, TestDoubles.v: pkg/resource/interfaces.go as type
      classes with embedding, the fakes of pkg/resource/fake as instances, and
      an abstract specification of legacy composites that fakes and unstructured
      resources both implement, so that code cannot tell them apart.
    - FakeCopies.v: the copies the fakes make of themselves through JSON, with
      the rules of encoding/json for the fields of embedded structs, and which
      fields the copies have.
    - MockClient.v: pkg/test.  The mock client, code over the client run with
      it, and the comparers of errors and of conditions.
    - Heap.v, DeepCopy.v: Go's memory with pointers, slices and maps, what structs
      in it stand for, and the generated functions that copy API types and
      unstructured resources.  A copy is equal to the original and shares no
      memory with it.
    - Logging.v, Setup.v, Resources.v: pkg/logging with the filter of klog's
      messages, default limits and options, and the rest of pkg/resource: tags
      of external resources, statuses, retries, finalizers.  VersionOption.v:
      the apply option that writes through a pointer.
    - Password.v, Certificates.v: pkg/password and pkg/certificates.

    ** Interfaces to code outside the repository

    Type classes hold what the sources use of other packages, with the laws
    their documentation states: [KErrors] (k8s.io/apimachinery's API errors),
    [MetaV1] (metav1 and schema), [Json] (encoding/json), [LenientParser] (the
    fallback of time.Parse), [Mergo], [MapRange] (the order of ranging over a
    map), [ObjectTyper], [UnstructuredMeta], [UnstructuredSetters],
    [UnstructuredOwners], [LogSink] and [Logr] (go-logr/logr), [GVKText],
    [ManagedType] and [KindNames] (what reflection and schemes say of a kind),
    [StructPB] (protobuf structures), [Aggregates] (lists of errors),
    [ChangePredicates], [StatusJson] (how encoding/json treats the status of an
    object) and [AferoWalk] (the walk of a directory).  Those that properties rely on have an instance, which
    the concrete runs below the theorems use.

    ** Fuel and bounds

    The lexer of field paths runs with the length of its input plus one as
    fuel, which is shown to be enough; wildcard expansion takes its fuel as an
    argument, and a theorem says how much is enough, and when no amount is.
    A file reader is run with as much fuel as a theorem says it needs, and the
    loop of the state recorder with as much as it is given ticks.
    Retries are bounded by the backoff's five attempts.  Indices and lengths
    are natural numbers, parsed indices are below 2^32, and integers read from
    strings are checked against 64 bits.

    ** What is not modelled

    What the reconcilers log, contexts and timeouts (a call that times out is
    one that fails), Go's scheduler other than in Gate.v and
    RateLimiterThreads.v, messages and stubs generated by protoc, aliases of
    apis/common/v1, registration with Prometheus and controller-runtime, and the
    fake manager and scheme of tests.  Conversions between Go structs and JSON
    are parameters.  Objects are values except in the files over Heap.v, where
    sharing of memory is what matters: the copy Reconcile makes of an object for
    the change log is the object, and the annotations that are kept for a retry
    are not changed by decoding an answer into the object.  Calls that are
    deferred are not made after a panic.  The comparison of fakes and
    unstructured resources is about legacy composites. *)

From Stdlib Require Export Ascii NArith ZArith Lia.
From stdpp Require Export prelude gmap strings fin_maps list.

#[global] Set Default Proof Using "Type".
#[global] Set Warnings "-clear-no-such-hyp".

(** ** Notations and tactics of the development *)

Declare Scope go_scope.
Delimit Scope go_scope with go.

Create HintDb golib discriminated.
Create Rewrite HintDb golen.

(** [split_match] does the case analysis of the [match] or [if] the goal (or
    a hypothesis) is stuck on, and keeps the equation. *)
Ltac split_match :=
  match goal with
  | |- context [match ?x with _ => _ end] => destruct x eqn:?
  | H : context [match ?x with _ => _ end] |- _ => destruct x eqn:?
  end.

(** [crush] closes the routine goals left by a case analysis. *)
Ltac crush := repeat (simplify_eq/=; try split_match); try done; try lia.

(** ** Lists *)

(** Slices: Go's [append(l[:i], l[i+1:]...)], the value it denotes. *)
Definition remove_at {A} (i : nat) (l : list A) : list A := take i l ++ drop (S i) l.

Lemma length_remove_at {A} (i : nat) (l : list A) :
  i < length l -> length (remove_at i l) = pred (length l).
Proof. intros. unfold remove_at. rewrite length_app, length_take, length_drop. lia. Qed.

Lemma lookup_remove_at_lt {A} (i j : nat) (l : list A) :
  j < i -> remove_at i l !! j = l !! j.
Proof.
  intros Hj. unfold remove_at. destruct (decide (j < length l)) as [Hl|Hl].
  - rewrite lookup_app_l by (rewrite length_take; lia). by apply lookup_take_lt.
  - rewrite !lookup_ge_None_2; [done|lia|].
    rewrite length_app, length_take, length_drop. lia.
Qed.

Lemma lookup_remove_at_ge {A} (i j : nat) (l : list A) :
  i <= j -> i < length l -> remove_at i l !! j = l !! S j.
Proof.
  intros Hj Hl. unfold remove_at.
  rewrite lookup_app_r by (rewrite length_take; lia).
  rewrite length_take, lookup_drop. f_equal. lia.
Qed.

Lemma remove_at_app {A} (l1 l2 : list A) (x : A) :
  remove_at (length l1) (l1 ++ x :: l2) = l1 ++ l2.
Proof.
  unfold remove_at. rewrite take_app_length.
  replace (S (length l1)) with (length (l1 ++ [x])) by (rewrite length_app; simpl; lia).
  replace (l1 ++ x :: l2) with ((l1 ++ [x]) ++ l2) by (rewrite <- app_assoc; done).
  by rewrite drop_app_length.
Qed.

(** Go's [for i := range l] with an early exit: the first index whose element
    satisfies the test. *)
Fixpoint find_index {A} (f : A -> bool) (l : list A) : option nat :=
  match l with
  | [] => None
  | x :: l' => if f x then Some 0 else S <$> find_index f l'
  end.

Lemma find_index_Some {A} (f : A -> bool) (l : list A) (i : nat) :
  find_index f l = Some i ->
  exists l1 x l2, l = l1 ++ x :: l2 /\ length l1 = i /\ f x = true /\ Forall (fun y => f y = false) l1.
Proof.
  revert i. induction l as [|y l IH]; intros i; simpl; [done|].
  destruct (f y) eqn:Hy.
  - intros [= <-]. exists [], y, l. done.
  - destruct (find_index f l) as [k|]; intros [= <-].
    destruct (IH k eq_refl) as (l1 & x & l2 & -> & <- & Hx & Hl1).
    exists (y :: l1), x, l2. split_and!; [done..|by constructor].
Qed.

Lemma find_index_None {A} (f : A -> bool) (l : list A) :
  find_index f l = None <-> Forall (fun y => f y = false) l.
Proof.
  induction l as [|y l IH]; simpl.
  - split; [constructor|done].
  - destruct (f y) eqn:Hy.
    + split; [done|]. intros H. inv H. congruence.
    + destruct (find_index f l); simpl.
      * split; [done|]. intros H. inv H. apply IH in H3. done.
      * split; [|done]. intros _. constructor; [done|]. by apply IH.
Qed.

Lemma find_index_app_not {A} (f : A -> bool) (l1 l2 : list A) :
  Forall (fun y => f y = false) l1 ->
  find_index f (l1 ++ l2) = (fun i => length l1 + i) <$> find_index f l2.
Proof.
  induction 1 as [|y l1 Hy _ IH]; simpl.
  - by destruct (find_index f l2).
  - rewrite Hy, IH. by destruct (find_index f l2).
Qed.

(** ** Machine integers *)

(** [uint] is 64 bits wide on the platforms Crossplane runs on. *)
Definition u64 (n : N) : N := (n mod 2 ^ 64)%N.

Lemma u64_small (n : N) : (n < 2 ^ 64)%N -> u64 n = n.
Proof. apply N.mod_small. Qed.

#[export] Hint Rewrite @length_app @length_take @length_drop @length_insert : golen.
