(* ===== verification/GoStrings.v ===== *)
(** * Go strings

    The part of Go's [strings], [strconv] and [unicode/utf8] packages the
    sources use.  A Go string is a read-only sequence of bytes: [string] here
    is Stdlib's (a list of 8-bit [ascii]s), and code that slices a string by
    byte offsets works on the list of its bytes ([s2b]).

    Searching a string for one of the ASCII runes the sources look for
    (period, brackets, quotes, newline) byte by byte finds the same offsets as
    Go's rune iteration: every byte of a multi-byte UTF-8 sequence, and every
    invalid byte (decoded as U+FFFD), is at least 0x80. *)

From S2P Require Import Prelude.

Abbreviation bytes := (list ascii).

Definition s2b (s : string) : bytes := Strings.String.list_ascii_of_string s.
Definition b2s (b : bytes) : string := Strings.String.string_of_list_ascii b.

Lemma b2s_s2b (s : string) : b2s (s2b s) = s.
Proof. apply Strings.String.string_of_list_ascii_of_string. Qed.

Lemma s2b_b2s (b : bytes) : s2b (b2s b) = b.
Proof. apply Strings.String.list_ascii_of_string_of_list_ascii. Qed.

Lemma s2b_app (s t : string) : s2b (s +:+ t) = s2b s ++ s2b t.
Proof. induction s as [|c s IH]; simpl; [done|]. unfold s2b in *. simpl. by rewrite IH. Qed.

Lemma b2s_app (a b : bytes) : b2s (a ++ b) = b2s a +:+ b2s b.
Proof. induction a as [|c a IH]; simpl; [done|]. unfold b2s in *. simpl. by rewrite IH. Qed.

Lemma s2b_inj (s t : string) : s2b s = s2b t -> s = t.
Proof. intros H. by rewrite <- (b2s_s2b s), H, b2s_s2b. Qed.

Lemma b2s_empty (b : bytes) : b2s b = "" <-> b = [].
Proof. destruct b; split; done. Qed.

Lemma s2b_empty (s : string) : s2b s = [] <-> s = "".
Proof. destruct s; split; done. Qed.

Definition ascii_eqb (a b : ascii) : bool := Ascii.eqb a b.

Lemma ascii_eqb_eq (a b : ascii) : ascii_eqb a b = true <-> a = b.
Proof. apply Ascii.eqb_eq. Qed.

Lemma ascii_eqb_neq (a b : ascii) : ascii_eqb a b = false <-> a <> b.
Proof. apply Ascii.eqb_neq. Qed.

(** [strings.IndexRune(s, c)] for an ASCII rune; -1 is [None]. *)
Definition IndexRune (b : bytes) (c : ascii) : option nat := find_index (ascii_eqb c) b.

(** [strings.ContainsRune(s, c)]. *)
Definition ContainsRune (b : bytes) (c : ascii) : bool :=
  match IndexRune b c with Some _ => true | None => false end.

Lemma ContainsRune_false (b : bytes) (c : ascii) :
  ContainsRune b c = false <-> Forall (fun x => x <> c) b.
Proof.
  unfold ContainsRune, IndexRune. destruct (find_index _ b) as [i|] eqn:E.
  - split; [done|]. apply find_index_Some in E as (l1 & x & l2 & -> & _ & Hx & _).
    intros [_ Hf]%Forall_app. inv Hf. apply ascii_eqb_eq in Hx. congruence.
  - apply find_index_None in E. split; [|done]. intros _.
    eapply Forall_impl; [exact E|]. intros x Hx. apply ascii_eqb_neq in Hx. congruence.
Qed.

Lemma IndexRune_app_not (b1 b2 : bytes) (c : ascii) :
  Forall (fun x => x <> c) b1 ->
  IndexRune (b1 ++ b2) c = (fun i => length b1 + i) <$> IndexRune b2 c.
Proof.
  intros H. apply find_index_app_not. eapply Forall_impl; [exact H|].
  intros x Hx. apply ascii_eqb_neq. congruence.
Qed.

Lemma IndexRune_cons_eq (b : bytes) (c : ascii) : IndexRune (c :: b) c = Some 0.
Proof. unfold IndexRune. simpl. by rewrite (proj2 (ascii_eqb_eq c c) eq_refl). Qed.

(** [strings.TrimLeft(s, cutset)] and [strings.Trim(s, cutset)], the cutset as
    a test. *)
Fixpoint TrimLeft (cut : ascii -> bool) (b : bytes) : bytes :=
  match b with
  | [] => []
  | c :: b' => if cut c then TrimLeft cut b' else b
  end.

Definition TrimRight (cut : ascii -> bool) (b : bytes) : bytes :=
  reverse (TrimLeft cut (reverse b)).

Definition Trim (cut : ascii -> bool) (b : bytes) : bytes := TrimRight cut (TrimLeft cut b).

Lemma TrimLeft_head (cut : ascii -> bool) (b : bytes) :
  match TrimLeft cut b with [] => True | c :: _ => cut c = false end.
Proof. induction b as [|c b IH]; simpl; [done|]. by destruct (cut c) eqn:E. Qed.

Lemma TrimLeft_suffix (cut : ascii -> bool) (b : bytes) : TrimLeft cut b `suffix_of` b.
Proof.
  induction b as [|c b IH]; simpl; [done|]. destruct (cut c); [|done].
  by apply suffix_cons_r.
Qed.

(** A string is left alone by [Trim] when neither end is in the cutset. *)
Definition untrimmed (cut : ascii -> bool) (b : bytes) : bool :=
  match head b, last b with
  | Some c, Some d => negb (cut c) && negb (cut d)
  | _, _ => true
  end.

Lemma TrimLeft_id (cut : ascii -> bool) (b : bytes) :
  (forall c, head b = Some c -> cut c = false) -> TrimLeft cut b = b.
Proof. destruct b as [|c b]; simpl; [done|]. intros H. by rewrite (H c). Qed.

Lemma Trim_untrimmed (cut : ascii -> bool) (b : bytes) : untrimmed cut b = true -> Trim cut b = b.
Proof.
  unfold untrimmed, Trim, TrimRight. intros H.
  assert (TrimLeft cut b = b) as ->.
  { apply TrimLeft_id. intros c Hc. rewrite Hc in H.
    destruct (last b) eqn:E; [by destruct (cut c)|].
    apply last_None in E. by subst. }
  rewrite TrimLeft_id; [apply reverse_involutive|].
  intros c. rewrite head_reverse. intros Hc. rewrite Hc in H.
  destruct (head b) eqn:E; [by destruct (cut c), (cut a)|].
  by destruct b.
Qed.

(** Trimming a string twice is trimming it once. *)
Lemma Trim_is_untrimmed (cut : ascii -> bool) (b : bytes) : untrimmed cut (Trim cut b) = true.
Proof.
  unfold untrimmed, Trim, TrimRight.
  pose proof (TrimLeft_head cut b) as Hx. revert Hx. generalize (TrimLeft cut b) as x. intros x Hx.
  pose proof (TrimLeft_head cut (reverse x)) as Hy.
  pose proof (TrimLeft_suffix cut (reverse x)) as [k Hk].
  revert Hy Hk. generalize (TrimLeft cut (reverse x)) as y. intros y Hy Hk.
  rewrite last_reverse. destruct y as [|d y']; [done|].
  apply (f_equal reverse) in Hk. rewrite reverse_involutive, reverse_app in Hk.
  destruct (reverse (d :: y')) as [|c z] eqn:Er; [done|]. simpl.
  destruct x as [|c'' x']; [done|]. simplify_eq/=. by rewrite Hx, Hy.
Qed.

(** [strings.TrimPrefix(s, prefix)] for a one-byte prefix. *)
Definition TrimPrefix1 (c : ascii) (b : bytes) : bytes :=
  match b with
  | x :: b' => if ascii_eqb x c then b' else b
  | [] => []
  end.

(** ** [strconv] *)

Definition digit (d : N) : ascii := ascii_of_N (48 + d).

(** The value of a decimal digit. *)
Definition digit_val (c : ascii) : option N :=
  let n := N_of_ascii c in
  if ((48 <=? n) && (n <=? 57))%N then Some (n - 48)%N else None.

Lemma digit_val_digit (d : N) : (d < 10)%N -> digit_val (digit d) = Some d.
Proof.
  intros H. unfold digit_val, digit. rewrite N_ascii_embedding by lia.
  replace (48 <=? 48 + d)%N with true by (symmetry; apply N.leb_le; lia).
  replace (48 + d <=? 57)%N with true by (symmetry; apply N.leb_le; lia).
  simpl. f_equal. lia.
Qed.

(** [strconv.FormatUint(n, 10)], [fmt]'s [%d]. *)
Fixpoint digits (fuel : nat) (n : N) : bytes :=
  match fuel with
  | O => []
  | S f => if (n <? 10)%N then [digit n] else digits f (n / 10)%N ++ [digit (n mod 10)%N]
  end.

Definition FormatUint (n : N) : bytes := digits (S (N.size_nat n)) n.

(** The digits of a string read from the left. *)
Fixpoint read_digits (acc : N) (b : bytes) : option N :=
  match b with
  | [] => Some acc
  | c :: b' => match digit_val c with
               | Some d => read_digits (acc * 10 + d)%N b'
               | None => None
               end
  end.

(** [strconv.ParseUint(s, 10, bits)]; [None] is an error (syntax or range). *)
Definition ParseUint (b : bytes) (bits : N) : option N :=
  match b with
  | [] => None
  | _ => match read_digits 0 b with
         | Some n => if (n <? 2 ^ bits)%N then Some n else None
         | None => None
         end
  end.

Lemma read_digits_app (acc : N) (b1 b2 : bytes) :
  read_digits acc (b1 ++ b2) =
  match read_digits acc b1 with Some n => read_digits n b2 | None => None end.
Proof. revert acc. induction b1 as [|c b1 IH]; intros acc; simpl; [done|]. destruct (digit_val c); [apply IH|done]. Qed.

Lemma read_digits_digits (fuel : nat) (n : N) :
  (n < 2 ^ N.of_nat fuel)%N -> fuel <> 0 -> read_digits 0 (digits fuel n) = Some n.
Proof.
  revert n. induction fuel as [|f IH]; intros n Hn Hf; [done|]. clear Hf. simpl.
  destruct (N.ltb_spec n 10) as [Hlt|Hge].
  - simpl. by rewrite digit_val_digit.
  - rewrite read_digits_app.
    rewrite Nat2N.inj_succ, N.pow_succ_r' in Hn.
    assert (n / 10 < 2 ^ N.of_nat f)%N.
    { apply N.Div0.div_lt_upper_bound. lia. }
    assert (f <> 0). { intros ->. simpl in *. lia. }
    rewrite IH by done. simpl. rewrite digit_val_digit by (apply N.mod_lt; lia).
    f_equal. pose proof (N.div_mod n 10). lia.
Qed.

Lemma Pos_size_nat (p : positive) : N.of_nat (Pos.size_nat p) = Npos (Pos.size p).
Proof.
  induction p as [p IH|p IH|]; cbn [Pos.size_nat Pos.size]; [..|done].
  all: by rewrite Nat2N.inj_succ, IH.
Qed.

Lemma N_size_bound (n : N) : (n < 2 ^ N.of_nat (S (N.size_nat n)))%N.
Proof.
  rewrite Nat2N.inj_succ, N.pow_succ_r'.
  destruct n as [|p]; [simpl; lia|].
  pose proof (N.size_gt (Npos p)) as H. cbn [N.size_nat N.size] in *.
  rewrite Pos_size_nat. lia.
Qed.

Lemma digits_nonempty (fuel : nat) (n : N) : digits (S fuel) n <> [].
Proof. simpl. destruct (n <? 10)%N; [done|]. by destruct (digits fuel (n / 10)). Qed.

(** Printing an index and reading it back. *)
Lemma ParseUint_FormatUint (n : N) (bits : N) :
  (n < 2 ^ bits)%N -> ParseUint (FormatUint n) bits = Some n.
Proof.
  intros H. unfold ParseUint, FormatUint.
  pose proof (read_digits_digits (S (N.size_nat n)) n (N_size_bound n) ltac:(lia)) as R.
  destruct (digits (S (N.size_nat n)) n) as [|c b] eqn:E.
  { by apply digits_nonempty in E. }
  rewrite R. replace (n <? 2 ^ bits)%N with true; [done|]. symmetry. by apply N.ltb_lt.
Qed.

Lemma ParseUint_bound (b : bytes) (bits n : N) : ParseUint b bits = Some n -> (n < 2 ^ bits)%N.
Proof.
  unfold ParseUint. destruct b; [done|]. destruct (read_digits _ _); [|done].
  destruct (N.ltb_spec n0 (2 ^ bits)%N); [|done]. by intros [= <-].
Qed.

Definition is_digit (c : ascii) : bool := match digit_val c with Some _ => true | None => false end.

Lemma is_digit_digit (d : N) : (d < 10)%N -> is_digit (digit d) = true.
Proof. intros H. unfold is_digit. by rewrite digit_val_digit. Qed.

Lemma FormatUint_digits (n : N) : Forall (fun c => is_digit c = true) (FormatUint n).
Proof.
  unfold FormatUint. generalize (S (N.size_nat n)) as fuel. intros fuel. revert n.
  induction fuel as [|f IH]; intros n; simpl; [constructor|].
  destruct (N.ltb_spec n 10).
  - repeat constructor. by apply is_digit_digit.
  - apply Forall_app. split; [apply IH|]. repeat constructor.
    apply is_digit_digit, N.mod_lt. lia.
Qed.

Lemma ParseUint_digits (b : bytes) (bits n : N) :
  ParseUint b bits = Some n -> Forall (fun c => is_digit c = true) b.
Proof.
  unfold ParseUint. destruct b as [|c b]; [done|].
  generalize (c :: b) as l. generalize 0%N as acc. intros acc l. revert acc.
  induction l as [|x l IH]; intros acc H; [constructor|]. simpl in H.
  destruct (digit_val x) as [d|] eqn:E; [|done]. constructor; [by unfold is_digit; rewrite E|].
  by apply (IH (acc * 10 + d)%N).
Qed.

(** [strconv.FormatInt(z, 10)] *)
Definition FormatInt (z : Z) : bytes :=
  if (z <? 0)%Z then "-"%char :: FormatUint (Z.to_N (- z)) else FormatUint (Z.to_N z).

(** [strconv.ParseInt(s, 10, 64)] *)
Definition ParseInt (b : bytes) : option Z :=
  match b with
  | "-"%char :: b' => n ← ParseUint b' 64; if (n <=? 2 ^ 63)%N then Some (- Z.of_N n)%Z else None
  | "+"%char :: b' => n ← ParseUint b' 64; if (n <? 2 ^ 63)%N then Some (Z.of_N n) else None
  | _ => n ← ParseUint b 64; if (n <? 2 ^ 63)%N then Some (Z.of_N n) else None
  end.

Lemma FormatUint_head (n : N) : exists c b, FormatUint n = c :: b /\ is_digit c = true.
Proof.
  destruct (FormatUint n) as [|c b] eqn:E; [by apply digits_nonempty in E|].
  pose proof (FormatUint_digits n) as H. rewrite E in H. apply Forall_cons in H as [H _]. by exists c, b.
Qed.

Lemma ParseInt_FormatInt (z : Z) : (- 2 ^ 63 <= z < 2 ^ 63)%Z -> ParseInt (FormatInt z) = Some z.
Proof.
  intros H. unfold FormatInt. destruct (Z.ltb_spec z 0) as [Hz|Hz].
  - cbn [ParseInt]. rewrite ParseUint_FormatUint by lia. cbn [mbind option_bind].
    rewrite (proj2 (N.leb_le _ _)) by lia. f_equal. lia.
  - pose proof (ParseUint_FormatUint (Z.to_N z) 64 ltac:(lia)) as HP.
    destruct (FormatUint_head (Z.to_N z)) as (c & b & E & Hc). rewrite E in *.
    assert (ParseInt (c :: b) = n ← ParseUint (c :: b) 64; if (n <? 2 ^ 63)%N then Some (Z.of_N n) else None) as ->.
    { destruct c as [[] [] [] [] [] [] [] []]; try done; by vm_compute in Hc. }
    rewrite HP. cbn [mbind option_bind]. rewrite (proj2 (N.ltb_lt _ _)) by lia. f_equal. lia.
Qed.
