(* ===== verification/GoErrors.v ===== *)
(** * Errors (pkg/errors, and the error helpers of pkg/resource)

    Go's [error] interface values as an inductive type with one constructor
    per concrete type the sources build or inspect.  The nil error is [None].
    Whether an API server error is a conflict or a "not found" is decided by
    k8s.io/apimachinery, which is not part of the repository: the tests are the
    fields of the class [KErrors], with the laws its documentation states. *)

From S2P Require Import Prelude.

Inductive error :=
| errorString (msg : string)                  (* errors.New, errors.Errorf without %w *)
| wrapError (msg : string) (err : error)      (* fmt.Errorf("%s: %w", msg, err) *)
| statusError (reason msg : string)           (* a kerrors.APIStatus *)
| contextCanceled                             (* context.Canceled *)
| notFoundError (err : error)                 (* fieldpath.notFoundError *)
| notControllableError (err : error)          (* resource.notControllableError *)
| notAllowedError (err : error)               (* resource.notAllowedError *)
| missingRefError (err : error).              (* resource.missingRefError *)

#[global] Instance error_eq_dec : EqDecision error.
Proof. solve_decision. Defined.

(** [err.Error()]. The marker types embed an error and promote its method. *)
Fixpoint Error (e : error) : string :=
  match e with
  | errorString m => m
  | wrapError m e' => m +:+ ": " +:+ Error e'
  | statusError _ m => m
  | contextCanceled => "context canceled"
  | notFoundError e' | notControllableError e' | notAllowedError e' | missingRefError e' => Error e'
  end.

Definition New (text : string) : option error := Some (errorString text).

(** [errors.Wrap] and [errors.WithMessage]: nil stays nil. *)
Definition WithMessage (err : option error) (message : string) : option error :=
  match err with
  | None => None
  | Some e => Some (wrapError message e)
  end.

Definition Wrap (err : option error) (message : string) : option error := WithMessage err message.

(** [errors.Cause]: the first error of the chain without an [Unwrap] method.
    The marker types embed the [error] interface, which has no [Unwrap]. *)
Fixpoint Cause (e : error) : error :=
  match e with
  | wrapError _ e' => Cause e'
  | _ => e
  end.

Definition CauseOf (err : option error) : option error := Cause <$> err.

(** [errors.Is(err, context.Canceled)] *)
Fixpoint IsCanceled (e : error) : bool :=
  match e with
  | contextCanceled => true
  | wrapError _ e' => IsCanceled e'
  | _ => false
  end.

(** ** The errors of k8s.io/apimachinery/pkg/api/errors *)

(** A test of the reason of an API error: false on nil, looks through wrapped
    errors, and false on errors that did not come from the API server. *)
Class APIReason (isr : option error -> bool) : Prop := {
  reason_nil : isr None = false;
  reason_wrap m e : isr (Some (wrapError m e)) = isr (Some e);
  reason_new m : isr (Some (errorString m)) = false
}.

Class KErrors := {
  IsConflict : option error -> bool;
  IsNotFound : option error -> bool;
  conflict_reason :: APIReason IsConflict;
  notfound_reason :: APIReason IsNotFound
}.

(** An implementation that compares the status reason, as the API documents. *)
Definition has_reason (r : string) (err : option error) : bool :=
  match err with
  | None => false
  | Some e => match Cause e with
              | statusError r' _ => bool_decide (r = r')
              | _ => false
              end
  end.

#[global] Instance has_reason_APIReason (r : string) : APIReason (has_reason r).
Proof. by split. Qed.

Definition KErrorsStd : KErrors :=
  {| IsConflict := has_reason "Conflict"; IsNotFound := has_reason "NotFound" |}.

Lemma Wrap_None (m : string) : Wrap None m = None.
Proof. done. Qed.

Lemma Wrap_eq_None (err : option error) (m : string) : Wrap err m = None <-> err = None.
Proof. by destruct err. Qed.

Lemma reason_Wrap (isr : option error -> bool) `{!APIReason isr} (err : option error) (m : string) :
  isr (Wrap err m) = isr err.
Proof. destruct err; [apply reason_wrap|done]. Qed.

Lemma reason_CauseOf (isr : option error -> bool) `{!APIReason isr} (err : option error) :
  isr (CauseOf err) = isr err.
Proof.
  destruct err as [e|]; [|done]. unfold CauseOf. simpl.
  induction e; simpl; [done| |done..]. by rewrite reason_wrap.
Qed.

(** ** Reconcile results (pkg/errors/reconcile.go) *)

(** [reconcile.Result]; durations are nanoseconds. *)
Record Result := MkResult { Requeue : bool; RequeueAfter : Z }.

Definition emptyResult : Result := MkResult false 0.
Definition requeueResult : Result := MkResult true 0.

Section kerrors.
Context `{!KErrors}.

Definition SilentlyRequeueOnConflict (result : Result) (err : option error) : Result * option error :=
  if IsConflict (CauseOf err) then (requeueResult, None) else (result, err).

(** ** Error helpers of pkg/resource/resource.go *)

Definition Ignore (isr : option error -> bool) (err : option error) : option error :=
  if isr err then None else err.

Fixpoint IgnoreAny (err : option error) (isr : list (option error -> bool)) : option error :=
  match isr with
  | [] => err
  | f :: isr' => if f err then None else IgnoreAny err isr'
  end.

Definition IgnoreNotFound (err : option error) : option error := Ignore IsNotFound err.

Definition IsAPIError (err : option error) : bool :=
  match err with Some (statusError _ _) => true | _ => false end.

Definition IsAPIErrorWrapped (err : option error) : bool := IsAPIError (CauseOf err).

Definition IsNotControllable (err : option error) : bool :=
  match err with Some (notControllableError _) => true | _ => false end.

Definition IsNotAllowed (err : option error) : bool :=
  match err with Some (notAllowedError _) => true | _ => false end.

Definition IsMissingReference (err : option error) : bool :=
  match err with Some (missingRefError _) => true | _ => false end.

(** A conflict, however deeply wrapped, is turned into an explicit requeue
    without an error; anything else is passed through. *)
Lemma SilentlyRequeueOnConflict_spec (result : Result) (err : option error) :
  SilentlyRequeueOnConflict result err =
  if IsConflict err then (requeueResult, None) else (result, err).
Proof. unfold SilentlyRequeueOnConflict. by rewrite reason_CauseOf by apply _. Qed.

Lemma SilentlyRequeueOnConflict_idem (result : Result) (err : option error) :
  let '(r, e) := SilentlyRequeueOnConflict result err in
  SilentlyRequeueOnConflict r e = (r, e).
Proof.
  rewrite SilentlyRequeueOnConflict_spec. destruct (IsConflict err) eqn:E.
  - rewrite SilentlyRequeueOnConflict_spec, reason_nil; done.
  - by rewrite SilentlyRequeueOnConflict_spec, E.
Qed.

Lemma IgnoreAny_spec (err : option error) (isr : list (option error -> bool)) :
  IgnoreAny err isr = if existsb (fun f => f err) isr then None else err.
Proof. induction isr as [|f isr IH]; simpl; [done|]. by destruct (f err). Qed.

End kerrors.

(** ** How a call that mutates its argument ends *)

(** The call returned nil, returned an error, or panicked. *)
Inductive outcome :=
| Done
| Failed (e : error)
| Panicked (why : string).

Definition is_panic (o : outcome) : bool := match o with Panicked _ => true | _ => false end.
