(* ===== verification/GoTime.v ===== *)
(** * Instants and RFC 3339 timestamps

    What pkg/meta uses of Go's package time: [Time] values (the instant in
    nanoseconds since the zero time, January 1 of year 1 UTC, and the offset
    of its location in seconds), [Format(time.RFC3339)] and
    [time.Parse(time.RFC3339, s)].  [Parse] tries a strict parser first,
    modelled here, and falls back on the generic layout parser for strings that
    one rejects: the fallback is an argument about which nothing is assumed. *)

From S2P Require Import Prelude GoStrings.
#[local] Open Scope Z_scope.

Record Time := MkTime { instant : Z; zone : Z }.

Definition second : Z := 1000000000.

Definition zeroTime : Time := MkTime 0 0.
Definition IsZero (t : Time) : bool := instant t =? 0.
Definition After (t u : Time) : bool := instant u <? instant t.

(** ** The Gregorian calendar *)

Definition isLeap (y : Z) : bool := (y mod 4 =? 0) && (negb (y mod 100 =? 0) || (y mod 400 =? 0)).

(** Days from January 1 of year 1 to January 1 of year [y]. *)
Definition daysBeforeYear (y : Z) : Z :=
  365 * (y - 1) + (y - 1) / 4 - (y - 1) / 100 + (y - 1) / 400.

Definition daysIn (leap : bool) : list Z :=
  [31; if leap then 29 else 28; 31; 30; 31; 30; 31; 31; 30; 31; 30; 31].

Definition yearOf (d : Z) : Z :=
  let n400 := d / 146097 in let r := d mod 146097 in
  let n100 := Z.min 3 (r / 36524) in let r := r - n100 * 36524 in
  let n4 := r / 1461 in let r := r - n4 * 1461 in
  400 * n400 + 100 * n100 + 4 * n4 + Z.min 3 (r / 365) + 1.

(** Month and day of a day of the year, counting from zero. *)
Fixpoint monthDay (month : Z) (months : list Z) (yday : Z) : Z * Z :=
  match months with
  | [] => (month, yday + 1)
  | n :: months' => if yday <? n then (month, yday + 1) else monthDay (month + 1) months' (yday - n)
  end.

(** Days of the year before the first of [month]. *)
Fixpoint daysBeforeMonth (months : list Z) (month : nat) : Z :=
  match month, months with
  | S (S m), n :: months' => n + daysBeforeMonth months' (S m)
  | _, _ => 0
  end.

Definition daysFromCivil (y month day : Z) : Z :=
  daysBeforeYear y + daysBeforeMonth (daysIn (isLeap y)) (Z.to_nat month) + (day - 1).

Lemma yearOf_bounds (d : Z) : 0 <= d -> daysBeforeYear (yearOf d) <= d < daysBeforeYear (yearOf d + 1).
Proof. intros H. unfold daysBeforeYear, yearOf. Z.to_euclidean_division_equations. lia. Qed.

Lemma daysBeforeYear_next (y : Z) :
  daysBeforeYear (y + 1) = daysBeforeYear y + (if isLeap y then 366 else 365).
Proof.
  unfold daysBeforeYear, isLeap.
  destruct (Z.eqb_spec (y mod 4) 0), (Z.eqb_spec (y mod 100) 0), (Z.eqb_spec (y mod 400) 0);
    cbn [negb andb orb]; Z.to_euclidean_division_equations; lia.
Qed.

(** Every day of a year is read back from its month and day, which are in range. *)
Definition day_ok (leap : bool) (yday : Z) : bool :=
  let '(m, d) := monthDay 1 (daysIn leap) yday in
  (daysBeforeMonth (daysIn leap) (Z.to_nat m) + (d - 1) =? yday) && (1 <=? m) && (m <=? 12) && (1 <=? d) &&
  match nth_error (daysIn leap) (Z.to_nat (m - 1)) with Some n => d <=? n | None => false end.

Lemma day_ok_all (leap : bool) (yday : Z) :
  0 <= yday < (if leap then 366 else 365) -> day_ok leap yday = true.
Proof.
  assert (forallb (fun n => day_ok true (Z.of_nat n)) (seq 0 366) = true) as H1 by (vm_compute; reflexivity).
  assert (forallb (fun n => day_ok false (Z.of_nat n)) (seq 0 365) = true) as H2 by (vm_compute; reflexivity).
  intros H. rewrite <- (Z2Nat.id yday) by lia.
  destruct leap; [rewrite forallb_forall in H1; apply H1|rewrite forallb_forall in H2; apply H2]; apply in_seq; lia.
Qed.

(** ** Printing *)

Definition digit2 (n : Z) : bytes := [digit (Z.to_N (n / 10 mod 10)); digit (Z.to_N (n mod 10))].

(** [appendInt(b, year, 4)] *)
Definition year4 (y : Z) : bytes :=
  if y <? 0 then "-"%char :: (if - y <? 10000 then digit2 (- y / 100) ++ digit2 (- y mod 100) else FormatUint (Z.to_N (- y)))
  else if y <? 10000 then digit2 (y / 100) ++ digit2 (y mod 100)
  else FormatUint (Z.to_N y).

Definition formatZone (offset : Z) : bytes :=
  if offset =? 0 then ["Z"%char]
  else
    let z := Z.abs (Z.quot offset 60) in
    (if Z.quot offset 60 <? 0 then "-"%char else "+"%char) :: digit2 (z / 60) ++ [":"%char] ++ digit2 (z mod 60).

(** [t.Format(time.RFC3339)] *)
Definition FormatRFC3339 (t : Time) : bytes :=
  let secs := instant t / second + zone t in
  let d := secs / 86400 in
  let s := secs mod 86400 in
  let y := yearOf d in
  let '(m, day) := monthDay 1 (daysIn (isLeap y)) (d - daysBeforeYear y) in
  year4 y ++ ["-"%char] ++ digit2 m ++ ["-"%char] ++ digit2 day ++ ["T"%char] ++
  digit2 (s / 3600) ++ [":"%char] ++ digit2 (s / 60 mod 60) ++ [":"%char] ++ digit2 (s mod 60) ++
  formatZone (zone t).

(** ** Parsing *)

(** [parseUint(s, min, max)] of format_rfc3339.go *)
Definition parseRange (b : bytes) (lo hi : Z) : option Z :=
  match read_digits 0 b with
  | Some n => let x := Z.of_N n in if (lo <=? x) && (x <=? hi) then Some x else None
  | None => None
  end.

Fixpoint takeDigits (b : bytes) : bytes :=
  match b with
  | c :: b' => if is_digit c then c :: takeDigits b' else []
  | [] => []
  end.

(** [parseNanoseconds]: at most nine digits count, padded with zeros. *)
Definition nanoseconds (frac : bytes) : Z :=
  let f := take 9 frac in
  match read_digits 0 f with
  | Some n => Z.of_N n * 10 ^ (9 - Z.of_nat (length f))
  | None => 0
  end.

(** The fractional second and what follows it. *)
Definition parseFraction (b : bytes) : Z * bytes :=
  match b with
  | c :: rest =>
      if ascii_eqb c "." then
        match takeDigits rest with
        | [] => (0, b)
        | ds => (nanoseconds ds, drop (length ds) rest)
        end
      else (0, b)
  | [] => (0, b)
  end.

(** The offset of the zone at the end of the string, in seconds. *)
Definition parseZone (b : bytes) : option Z :=
  match b with
  | [c] => if ascii_eqb c "Z" then Some 0 else None
  | [sign; h1; h2; colon; m1; m2] =>
      match parseRange [h1; h2] 0 23, parseRange [m1; m2] 0 59 with
      | Some hr, Some mm =>
          let off := (hr * 60 + mm) * 60 in
          if negb (ascii_eqb colon ":") then None
          else if ascii_eqb sign "-" then Some (- off)
          else if ascii_eqb sign "+" then Some off else None
      | _, _ => None
      end
  | _ => None
  end.

(** The strict parser [parseRFC3339]. *)
Definition parseStrict (b : bytes) : option Time :=
  match b with
  | y1 :: y2 :: y3 :: y4 :: s1 :: m1 :: m2 :: s2 :: d1 :: d2 :: sT :: h1 :: h2 :: c1 :: i1 :: i2 :: c2 :: e1 :: e2 :: rest =>
      match parseRange [y1; y2; y3; y4] 0 9999, parseRange [m1; m2] 1 12 with
      | Some year, Some month =>
          let dim := default 31 (nth_error (daysIn (isLeap year)) (Z.to_nat (month - 1))) in
          match parseRange [d1; d2] 1 dim, parseRange [h1; h2] 0 23,
                parseRange [i1; i2] 0 59, parseRange [e1; e2] 0 59 with
          | Some day, Some hour, Some mins, Some sec =>
              if ascii_eqb s1 "-" && ascii_eqb s2 "-" && ascii_eqb sT "T" && ascii_eqb c1 ":" && ascii_eqb c2 ":" then
                let '(nsec, rest) := parseFraction rest in
                match parseZone rest with
                | Some off =>
                    let secs := daysFromCivil year month day * 86400 + hour * 3600 + mins * 60 + sec in
                    Some (MkTime ((secs - off) * second + nsec) off)
                | None => None
                end
              else None
          | _, _, _, _ => None
          end
      | _, _ => None
      end
  | _ => None
  end.

(** The generic layout parser that [time.Parse] falls back on. *)
Class LenientParser := parseLenient : bytes -> option Time.

(** [time.Parse(time.RFC3339, s)]; [None] is an error. *)
Definition ParseRFC3339 `{!LenientParser} (b : bytes) : option Time :=
  match parseStrict b with
  | Some t => Some t
  | None => parseLenient b
  end.

Example Format1 : b2s (FormatRFC3339 (MkTime ((daysFromCivil 2024 2 29 * 86400 + 3723) * second + 5) 0)) = "2024-02-29T01:02:03Z".
Proof. vm_compute. reflexivity. Qed.

Example Parse1 : parseStrict (s2b "2024-02-29T01:02:03.25+01:30") =
  Some (MkTime ((daysFromCivil 2024 2 29 * 86400 + 3723 - 5400) * second + 250000000) 5400).
Proof. vm_compute. reflexivity. Qed.

Example Parse2 : parseStrict (s2b "2023-02-29T01:02:03Z") = None.
Proof. vm_compute. reflexivity. Qed.

(** ** Reading a timestamp back *)

Lemma read_digits_digit2 (acc : N) (n : Z) :
  0 <= n < 100 -> read_digits acc (digit2 n) = Some (acc * 100 + Z.to_N n)%N.
Proof.
  intros H. unfold digit2. cbn [read_digits].
  rewrite digit_val_digit by (Z.to_euclidean_division_equations; lia).
  rewrite digit_val_digit by (Z.to_euclidean_division_equations; lia).
  f_equal. Z.to_euclidean_division_equations. lia.
Qed.

Lemma parseRange_digit2 (n lo hi : Z) :
  0 <= n < 100 -> lo <= n <= hi -> parseRange (digit2 n) lo hi = Some n.
Proof.
  intros H Hr. unfold parseRange. rewrite read_digits_digit2 by done. cbn zeta.
  replace (Z.of_N (0 * 100 + Z.to_N n)) with n by lia.
  by rewrite (proj2 (Z.leb_le lo n)), (proj2 (Z.leb_le n hi)) by lia.
Qed.

Lemma parseRange_year (y : Z) :
  0 <= y < 10000 -> parseRange (digit2 (y / 100) ++ digit2 (y mod 100)) 0 9999 = Some y.
Proof.
  intros H. unfold parseRange.
  rewrite read_digits_app, read_digits_digit2 by (Z.to_euclidean_division_equations; lia).
  cbn [mbind option_bind].
  rewrite read_digits_digit2 by (Z.to_euclidean_division_equations; lia). cbn zeta.
  replace (Z.of_N ((0 * 100 + Z.to_N (y / 100)) * 100 + Z.to_N (y mod 100))) with y
    by (Z.to_euclidean_division_equations; lia).
  by rewrite (proj2 (Z.leb_le 0 y)), (proj2 (Z.leb_le y 9999)) by lia.
Qed.

Lemma parseZone_formatZone (off : Z) :
  off mod 60 = 0 -> -86400 < off < 86400 -> parseZone (formatZone off) = Some off.
Proof.
  intros Hm Hb. unfold formatZone. destruct (Z.eqb_spec off 0) as [->|Hn]; [done|].
  set (z := Z.abs (Z.quot off 60)). cbn [app digit2].
  assert (0 <= z < 1440) as Hz by (unfold z; Z.to_euclidean_division_equations; lia).
  assert (parseRange (digit2 (z / 60)) 0 23 = Some (z / 60)) as H1
    by (apply parseRange_digit2; Z.to_euclidean_division_equations; lia).
  assert (parseRange (digit2 (z mod 60)) 0 59 = Some (z mod 60)) as H2
    by (apply parseRange_digit2; Z.to_euclidean_division_equations; lia).
  unfold digit2 in *. cbn [app parseZone]. rewrite H1, H2. cbn [negb ascii_eqb].
  destruct (Z.ltb_spec (Z.quot off 60) 0); simpl; f_equal; unfold z; Z.to_euclidean_division_equations; lia.
Qed.

Lemma parseFraction_zone (off : Z) : parseFraction (formatZone off) = (0, formatZone off).
Proof. unfold formatZone. destruct (off =? 0); [done|]. by destruct (_ <? 0). Qed.

(** The times [FormatRFC3339] prints without loss of more than the fraction of
    a second: from year 1 to 9999 in their zone, whose offset is in minutes. *)
Definition printable (t : Time) : bool :=
  let secs := instant t / second + zone t in
  (0 <=? secs) && (secs / 86400 <? daysBeforeYear 10000) && (zone t mod 60 =? 0) &&
  (-86400 <? zone t) && (zone t <? 86400).

(** [parseStrict] on the pieces [FormatRFC3339] prints. *)
Lemma parseStrict_pieces (y m d h i e off : Z) :
  0 <= y < 10000 -> 1 <= m <= 12 ->
  1 <= d <= default 31 (nth_error (daysIn (isLeap y)) (Z.to_nat (m - 1))) -> d < 100 ->
  0 <= h <= 23 -> 0 <= i <= 59 -> 0 <= e <= 59 -> off mod 60 = 0 -> -86400 < off < 86400 ->
  parseStrict (year4 y ++ ["-"%char] ++ digit2 m ++ ["-"%char] ++ digit2 d ++ ["T"%char] ++
    digit2 h ++ [":"%char] ++ digit2 i ++ [":"%char] ++ digit2 e ++ formatZone off) =
  Some (MkTime ((daysFromCivil y m d * 86400 + h * 3600 + i * 60 + e - off) * second) off).
Proof.
  intros Hy Hm Hd Hd' Hh Hi He Ho Ho'.
  pose proof (parseRange_year y Hy) as Py.
  pose proof (parseRange_digit2 m 1 12 ltac:(lia) Hm) as Pm.
  pose proof (parseRange_digit2 d 1 _ ltac:(lia) Hd) as Pd.
  pose proof (parseRange_digit2 h 0 23 ltac:(lia) Hh) as Ph.
  pose proof (parseRange_digit2 i 0 59 ltac:(lia) Hi) as Pi.
  pose proof (parseRange_digit2 e 0 59 ltac:(lia) He) as Pe.
  unfold year4. rewrite (proj2 (Z.ltb_ge y 0)), (proj2 (Z.ltb_lt y 10000)) by lia.
  unfold digit2 in *. cbn [app] in *. cbn [parseStrict]. rewrite Py, Pm. cbn zeta. rewrite Pd, Ph, Pi, Pe.
  cbn [ascii_eqb]. simpl andb. cbn iota. rewrite parseFraction_zone, parseZone_formatZone by done.
  cbn iota. f_equal. f_equal. lia.
Qed.

Lemma yearOf_range (d : Z) : 0 <= d < daysBeforeYear 10000 -> 1 <= yearOf d < 10000.
Proof.
  intros H. change (daysBeforeYear 10000) with 3652059 in H. unfold yearOf.
  Z.to_euclidean_division_equations. lia.
Qed.

Lemma parseStrict_Format (t : Time) :
  printable t = true ->
  parseStrict (FormatRFC3339 t) = Some (MkTime (instant t / second * second) (zone t)).
Proof.
  unfold printable. rewrite !andb_true_iff, !Z.leb_le, !Z.ltb_lt, Z.eqb_eq. intros ((((H0 & H1) & H2) & H3) & H4).
  unfold FormatRFC3339. set (secs := instant t / second + zone t) in *. cbn zeta.
  set (d := secs / 86400) in *.
  assert (0 <= d) as Hd by (unfold d; Z.to_euclidean_division_equations; lia).
  pose proof (yearOf_bounds d Hd) as Hb. rewrite daysBeforeYear_next in Hb.
  pose proof (day_ok_all (isLeap (yearOf d)) (d - daysBeforeYear (yearOf d)) ltac:(lia)) as Hok.
  unfold day_ok in Hok. destruct (monthDay 1 _ _) as [m day].
  rewrite !andb_true_iff in Hok. destruct Hok as ((((E1 & E2) & E3) & E4) & E5).
  apply Z.eqb_eq in E1. apply Z.leb_le in E2, E3, E4.
  destruct (nth_error _ (Z.to_nat (m - 1))) as [n|] eqn:En; [|done]. apply Z.leb_le in E5.
  assert (n <= 31) as Hn.
  { apply nth_error_In in En. assert (Forall (fun x => x <= 31) (daysIn (isLeap (yearOf d)))) as Hf.
    { unfold daysIn. repeat constructor; try lia. by destruct (isLeap _). }
    rewrite Forall_forall in Hf. apply Hf. by apply list_elem_of_In. }
  rewrite parseStrict_pieces; [..|done|lia].
  - unfold daysFromCivil. f_equal. f_equal.
    assert (d * 86400 + secs mod 86400 = secs) as Hs by (unfold d; Z.to_euclidean_division_equations; lia).
    assert (secs mod 86400 / 3600 * 3600 + secs mod 86400 / 60 mod 60 * 60 + secs mod 86400 mod 60 = secs mod 86400)
      as Ht by (clear; generalize (secs mod 86400); intros x; Z.to_euclidean_division_equations; lia).
    unfold secs in *. lia.
  - pose proof (yearOf_range d ltac:(lia)). lia.
  - lia.
  - rewrite En. simpl. lia.
  - lia.
  - clear -secs. Z.to_euclidean_division_equations. lia.
  - clear -secs. Z.to_euclidean_division_equations. lia.
  - clear -secs. Z.to_euclidean_division_equations. lia.
Qed.
