(* ===== verification/FieldPath.v ===== *)
(** * Field paths (pkg/fieldpath/fieldpath.go)

    The lexer as the state machine it is in the source: a [stateFn] is one of
    five states, [step] runs one of them on the lexer's record, [run] is the
    loop of [lexer.run] (with fuel), and [Parse] consumes the emitted items.
    The channel between the two goroutines is unbuffered and only the consumer
    reads it, so the items arrive in the order they were sent: it is the list
    [items]. *)

From S2P Require Import Prelude GoStrings GoErrors.

(** ** Segments *)

(** [Segment] with its [SegmentType] tag. *)
Inductive Segment :=
| SegmentField (Field : string)
| SegmentIndex (Index : N).

#[global] Instance Segment_eq_dec : EqDecision Segment.
Proof. solve_decision. Defined.

Abbreviation Segments := (list Segment).

Definition period : ascii := ".".
Definition leftBracket : ascii := "[".
Definition rightBracket : ascii := "]".
Definition wildcard : string := "*".

(** Whether [Segments.String] puts a field between brackets. *)
Definition bracketed (f : string) : bool :=
  bool_decide (f = wildcard) || ContainsRune (s2b f) period.

Definition writeSegment (s : Segment) : bytes :=
  match s with
  | SegmentField f =>
      if bracketed f then leftBracket :: s2b f ++ [rightBracket] else period :: s2b f
  | SegmentIndex i => leftBracket :: FormatUint i ++ [rightBracket]
  end.

Definition writeSegments (sg : Segments) : bytes := mjoin (writeSegment <$> sg).

(** [Segments.String] *)
Definition SegmentsString (sg : Segments) : string := b2s (TrimPrefix1 period (writeSegments sg)).

Definition quote (c : ascii) : bool := ascii_eqb c "'" || ascii_eqb c "034".

Definition Field (s : bytes) : Segment := SegmentField (b2s (Trim quote s)).

Definition FieldOrIndex (s : bytes) : Segment :=
  match ParseUint s 32 with
  | Some i => SegmentIndex i
  | None => Field s
  end.

(** ** The lexer *)

Inductive itemType :=
| itemError | itemPeriod | itemLeftBracket | itemRightBracket
| itemField | itemFieldOrIndex | itemEOL.

Record item := MkItem { ityp : itemType; ipos : nat; ival : bytes }.

Record lexer := MkLexer { input : bytes; pos : nat; start : nat; items : list item }.

Inductive stateFn := LexField | LexPeriod | LexLeftBracket | LexFieldOrIndex | LexRightBracket.

Definition emit (t : itemType) (l : lexer) : lexer :=
  if decide (pos l <= start l) then l
  else MkLexer (input l) (pos l) (pos l)
         (items l ++ [MkItem t (start l) (take (pos l - start l) (drop (start l) (input l)))]).

Definition errorf (l : lexer) (p : nat) (msg : string) : lexer :=
  MkLexer (input l) (pos l) (start l) (items l ++ [MkItem itemError p (s2b msg)]).

Definition set_pos (p : nat) (l : lexer) : lexer := MkLexer (input l) p (start l) (items l).

Definition unexpected (c : ascii) : string := "unexpected '" +:+ b2s [c] +:+ "'".

Definition is_delim (c : ascii) : bool :=
  ascii_eqb c rightBracket || ascii_eqb c leftBracket || ascii_eqb c period.

(** The loop of [lexField]: the offset and the value of the first delimiter. *)
Fixpoint scanField (b : bytes) : option (nat * ascii) :=
  match b with
  | [] => None
  | r :: b' => if is_delim r then Some (0, r) else prod_map S id <$> scanField b'
  end.

Definition lexField (l : lexer) : lexer * option stateFn :=
  match scanField (drop (pos l) (input l)) with
  | Some (i, r) =>
      if ascii_eqb r rightBracket then
        (errorf l (pos l + i) (unexpected rightBracket), None)
      else if ascii_eqb r leftBracket then
        (emit itemField (set_pos (pos l + i) l), Some LexLeftBracket)
      else
        (emit itemField (set_pos (pos l + i) l), Some LexPeriod)
  | None =>
      (emit itemEOL (emit itemField (set_pos (length (input l)) l)), None)
  end.

Definition lexPeriod (l : lexer) : lexer * option stateFn :=
  if decide (pos l = 0 \/ pos l + 1 = length (input l)) then
    (errorf l (pos l) (unexpected period), None)
  else
    let l := emit itemPeriod (set_pos (pos l + 1) l) in
    match head (drop (pos l) (input l)) with
    | Some r =>
        if ascii_eqb r period then (errorf l (pos l) (unexpected period), None)
        else if ascii_eqb r leftBracket then (errorf l (pos l) (unexpected leftBracket), None)
        else (l, Some LexField)
    | None => (l, Some LexField)
    end.

Definition lexLeftBracket (l : lexer) : lexer * option stateFn :=
  if negb (ContainsRune (drop (pos l) (input l)) rightBracket) then
    (errorf l (pos l) ("unterminated '" +:+ b2s [leftBracket] +:+ "'"), None)
  else
    (emit itemLeftBracket (set_pos (pos l + 1) l), Some LexFieldOrIndex).

(** [rbi] is never -1: [lexLeftBracket] checked that a right bracket follows.
    Were it, Go would slice with a bad bound and panic; the branch is here for
    totality and is never taken ([lex_inv]). *)
Definition lexFieldOrIndex (l : lexer) : lexer * option stateFn :=
  match IndexRune (drop (pos l) (input l)) rightBracket with
  | None => (l, None)
  | Some rbi =>
      if decide (rbi = 0) then (errorf l (pos l) (unexpected rightBracket), None)
      else
        match IndexRune (take rbi (drop (pos l) (input l))) leftBracket with
        | Some lbi => (errorf l (pos l + lbi) (unexpected leftBracket), None)
        | None => (emit itemFieldOrIndex (set_pos (pos l + rbi) l), Some LexRightBracket)
        end
  end.

Definition lexRightBracket (l : lexer) : lexer * option stateFn :=
  (emit itemRightBracket (set_pos (pos l + 1) l), Some LexField).

Definition step (st : stateFn) (l : lexer) : lexer * option stateFn :=
  match st with
  | LexField => lexField l
  | LexPeriod => lexPeriod l
  | LexLeftBracket => lexLeftBracket l
  | LexFieldOrIndex => lexFieldOrIndex l
  | LexRightBracket => lexRightBracket l
  end.

(** [lexer.run]; [None] when the fuel runs out. *)
Fixpoint run (fuel : nat) (st : stateFn) (l : lexer) : option lexer :=
  match fuel with
  | O => None
  | S f => match step st l with
           | (l', None) => Some l'
           | (l', Some st') => run f st' l'
           end
  end.

Definition lexFuel (b : bytes) : nat := 4 * length b + 3.

Definition lex (b : bytes) : option lexer := run (lexFuel b) LexField (MkLexer b 0 0 []).

(** The consumer's loop in [Parse]. *)
Fixpoint collect (its : list item) (segments : Segments) : Segments + error :=
  match its with
  | [] => inl segments
  | i :: its' =>
      match ityp i with
      | itemField => collect its' (segments ++ [Field (ival i)])
      | itemFieldOrIndex => collect its' (segments ++ [FieldOrIndex (ival i)])
      | itemError =>
          inr (errorString (b2s (ival i ++ s2b " at position " ++ FormatUint (N.of_nat (ipos i)))))
      | _ => collect its' segments
      end
  end.

Definition outOfFuel : error := errorString "out of fuel".

Definition Parse (path : string) : Segments + error :=
  match lex (s2b path) with
  | Some l => collect (items l) []
  | None => inr outOfFuel
  end.

(** The examples of the package comment. *)
Example Parse_valid1 : Parse "spec.containers[0].name" =
  inl [SegmentField "spec"; SegmentField "containers"; SegmentIndex 0; SegmentField "name"].
Proof. reflexivity. Qed.

Example Parse_valid2 : Parse "metadata.annotations['crossplane.io/external-name']" =
  inl [SegmentField "metadata"; SegmentField "annotations"; SegmentField "crossplane.io/external-name"].
Proof. vm_compute. reflexivity. Qed.

Example Parse_valid3 : Parse "data[.config.yml]" = inl [SegmentField "data"; SegmentField ".config.yml"].
Proof. reflexivity. Qed.

Example Parse_invalid1 : Parse "spec.containers.[0].name" = inr (errorString "unexpected '[' at position 16").
Proof. vm_compute. reflexivity. Qed.

(** ** Termination *)

Lemma scanField_Some (b : bytes) (i : nat) (r : ascii) :
  scanField b = Some (i, r) ->
  exists b1 b2, b = b1 ++ r :: b2 /\ length b1 = i /\ is_delim r = true /\
    Forall (fun c => is_delim c = false) b1.
Proof.
  revert i. induction b as [|c b IH]; intros i; simpl; [done|].
  destruct (is_delim c) eqn:Hc.
  - intros [= <- <-]. exists [], b. done.
  - destruct (scanField b) as [[k r']|]; [|done]. simpl. intros [= <- ->].
    destruct (IH k eq_refl) as (b1 & b2 & -> & <- & Hr & Hb1).
    exists (c :: b1), b2. split_and!; [done..|by constructor].
Qed.

Lemma scanField_app (b1 b2 : bytes) :
  Forall (fun c => is_delim c = false) b1 ->
  scanField (b1 ++ b2) = prod_map (Nat.add (length b1)) id <$> scanField b2.
Proof.
  induction 1 as [|c b1 Hc _ IH]; simpl.
  - by destruct (scanField b2) as [[]|].
  - rewrite Hc, IH. by destruct (scanField b2) as [[]|].
Qed.

Lemma scanField_None (b : bytes) :
  scanField b = None -> Forall (fun c => is_delim c = false) b.
Proof.
  induction b as [|c b IH]; simpl; [constructor|].
  destruct (is_delim c) eqn:Hc; [done|]. destruct (scanField b) as [[]|]; [done|].
  intros _. constructor; auto.
Qed.

Lemma input_emit (t : itemType) (l : lexer) : input (emit t l) = input l.
Proof. unfold emit. by case_decide. Qed.

Lemma pos_emit (t : itemType) (l : lexer) : pos (emit t l) = pos l.
Proof. unfold emit. by case_decide. Qed.

(** What holds of the lexer's position when a state function is entered. *)
Definition lex_pos (st : stateFn) (l : lexer) : Prop :=
  match st with
  | LexField => pos l <= length (input l)
  | LexFieldOrIndex => ContainsRune (drop (pos l) (input l)) rightBracket = true
  | LexPeriod => head (drop (pos l) (input l)) = Some period
  | LexLeftBracket => head (drop (pos l) (input l)) = Some leftBracket
  | LexRightBracket => head (drop (pos l) (input l)) = Some rightBracket
  end.

Definition rank (st : stateFn) : nat :=
  match st with
  | LexField => 2 | LexPeriod => 1 | LexLeftBracket => 1 | LexFieldOrIndex => 3 | LexRightBracket => 2
  end.

Definition measure (st : stateFn) (l : lexer) : nat := 4 * (length (input l) - pos l) + rank st.

Lemma head_drop_lt {A} (n : nat) (l : list A) (x : A) : head (drop n l) = Some x -> n < length l.
Proof.
  intros H. assert (length (drop n l) <> 0) by (destruct (drop n l); done).
  rewrite length_drop in *. lia.
Qed.

Lemma drop_split {A} (n : nat) (l b1 b2 : list A) :
  drop n l = b1 ++ b2 -> drop (n + length b1) l = b2.
Proof. intros H. rewrite <- drop_drop, H. apply drop_app_length. Qed.

Lemma IndexRune_Some (b : bytes) (c : ascii) (i : nat) :
  IndexRune b c = Some i ->
  exists b1 b2, b = b1 ++ c :: b2 /\ length b1 = i /\ Forall (fun x => x <> c) b1.
Proof.
  intros (b1 & x & b2 & -> & <- & Hx & Hb)%find_index_Some.
  apply ascii_eqb_eq in Hx as <-. exists b1, b2. split_and!; [done..|].
  eapply Forall_impl; [exact Hb|]. intros y Hy. apply ascii_eqb_neq in Hy. congruence.
Qed.

Lemma ContainsRune_nil (c : ascii) : ContainsRune [] c = false.
Proof. done. Qed.

Lemma ContainsRune_tail (b : bytes) (c d : ascii) :
  c <> d -> ContainsRune (d :: b) c = ContainsRune b c.
Proof.
  intros H. unfold ContainsRune, IndexRune. simpl.
  rewrite (proj2 (ascii_eqb_neq c d)) by done. by destruct (find_index _ b).
Qed.

(** Every state function makes progress, so the lexer halts. *)
Lemma step_decreases (st : stateFn) (l l' : lexer) (st' : stateFn) :
  lex_pos st l -> step st l = (l', Some st') ->
  lex_pos st' l' /\ measure st' l' < measure st l /\ input l' = input l.
Proof.
  unfold measure. destruct st; simpl; intros Hp Hs.
  - unfold lexField in Hs.
    destruct (scanField (drop (pos l) (input l))) as [[i r]|] eqn:E; [|done].
    apply scanField_Some in E as (b1 & b2 & Hd & <- & Hr & _).
    pose proof (drop_split _ _ _ _ Hd) as Hd'.
    assert (pos l + length b1 < length (input l)).
    { apply (head_drop_lt _ _ r). by rewrite Hd'. }
    destruct (ascii_eqb r rightBracket) eqn:E1; [done|].
    destruct (ascii_eqb r leftBracket) eqn:E2; simplify_eq;
      simpl; rewrite !pos_emit, !input_emit; simpl; rewrite Hd'; simpl.
    + apply ascii_eqb_eq in E2. subst. split_and!; [done|lia|done].
    + unfold is_delim in Hr. rewrite E1, E2 in Hr. apply ascii_eqb_eq in Hr. subst.
      split_and!; [done|lia|done].
  - unfold lexPeriod in Hs. case_decide; [done|]. rewrite pos_emit, input_emit in Hs. simpl in Hs.
    pose proof (head_drop_lt _ _ _ Hp).
    assert (l' = emit itemPeriod (set_pos (pos l + 1) l) /\ st' = LexField) as [-> ->].
    { destruct (head _) as [r|]; [|by simplify_eq]. by repeat case_match; simplify_eq. }
    simpl. rewrite pos_emit, input_emit. simpl. split_and!; [lia|lia|done].
  - unfold lexLeftBracket in Hs. destruct (ContainsRune _ _) eqn:E; simplify_eq/=.
    rewrite pos_emit, input_emit. simpl.
    pose proof (head_drop_lt _ _ _ Hp). split_and!; [|lia|done].
    destruct (drop (pos l) (input l)) as [|x b] eqn:D; [done|]. simplify_eq/=.
    pose proof (drop_split (pos l) (input l) [leftBracket] b D) as D'. simpl in D'. rewrite D'.
    by rewrite ContainsRune_tail in E.
  - unfold lexFieldOrIndex in Hs. destruct (IndexRune _ _) as [i|] eqn:E; [|done].
    case_decide; [done|]. destruct (IndexRune (take _ _) _); [done|]. simplify_eq/=.
    rewrite pos_emit, input_emit. simpl.
    apply IndexRune_Some in E as (b1 & b2 & Hd & <- & _).
    pose proof (drop_split _ _ _ _ Hd) as Hd'.
    pose proof (head_drop_lt _ _ rightBracket ltac:(by rewrite Hd')).
    rewrite Hd'. split_and!; [done|lia|done].
  - unfold lexRightBracket in Hs. simplify_eq. simpl. rewrite pos_emit, input_emit. simpl.
    pose proof (head_drop_lt _ _ _ Hp). split_and!; [lia|lia|done].
Qed.

Lemma run_terminates (fuel : nat) (st : stateFn) (l : lexer) :
  lex_pos st l -> measure st l < fuel -> is_Some (run fuel st l).
Proof.
  revert st l. induction fuel as [|f IH]; intros st l Hp Hm; [lia|]. simpl.
  destruct (step st l) as [l' [st'|]] eqn:E; [|by eexists].
  destruct (step_decreases _ _ _ _ Hp E) as (Hp' & Hm' & _). apply IH; [done|lia].
Qed.

Lemma lex_terminates (b : bytes) : is_Some (lex b).
Proof. apply run_terminates; [simpl; lia|]. unfold measure, lexFuel. simpl. lia. Qed.

(** ** Reading back what [Segments.String] prints *)

(** A complete run of the lexer from a state, as a relation. *)
Inductive Lex : stateFn -> lexer -> lexer -> Prop :=
| Lex_done st l l' : step st l = (l', None) -> Lex st l l'
| Lex_step st st' l l1 l' : step st l = (l1, Some st') -> Lex st' l1 l' -> Lex st l l'.

Lemma Lex_run (fuel : nat) (st : stateFn) (l l' : lexer) :
  Lex st l l' -> is_Some (run fuel st l) -> run fuel st l = Some l'.
Proof.
  intros H. revert fuel. induction H as [st l l' H|st st' l l1 l' H _ IH];
    intros [|f]; simpl; rewrite ?H; [by intros []|done|by intros []|apply IH].
Qed.

Lemma run_Lex (fuel : nat) (st : stateFn) (l l' : lexer) : run fuel st l = Some l' -> Lex st l l'.
Proof.
  revert st l. induction fuel as [|f IH]; intros st l; simpl; [done|].
  destruct (step st l) as [l1 [st'|]] eqn:E; intros H.
  - eapply Lex_step; eauto.
  - simplify_eq. by apply Lex_done.
Qed.

(** The fields that print to something that reads back as the same field. *)
Definition wf_field (f : string) : bool :=
  bool_decide (f <> "") && negb (ContainsRune (s2b f) leftBracket) &&
  negb (ContainsRune (s2b f) rightBracket) && untrimmed quote (s2b f).

Definition wf_segment (s : Segment) : bool :=
  match s with
  | SegmentField f => wf_field f
  | SegmentIndex i => (i <? 2 ^ 32)%N
  end.

(** The lexer between two segments: everything up to [pre] is consumed. *)
Definition at_ (pre rest : bytes) (its : list item) : lexer :=
  MkLexer (pre ++ rest) (length pre) (length pre) its.

Lemma drop_at (pre rest : bytes) : drop (length pre) (pre ++ rest) = rest.
Proof. apply drop_app_length. Qed.

Lemma emit_at (t : itemType) (pre mid rest : bytes) (its : list item) :
  mid <> [] ->
  emit t (MkLexer (pre ++ mid ++ rest) (length pre + length mid) (length pre) its) =
  at_ (pre ++ mid) rest (its ++ [MkItem t (length pre) mid]).
Proof.
  intros Hm. unfold emit, at_. simpl. destruct mid as [|c mid]; [done|].
  case_decide as H; [simpl in H; lia|].
  rewrite drop_at, length_app, <- app_assoc.
  replace (length pre + length (c :: mid) - length pre) with (length (c :: mid)) by lia.
  by rewrite take_app_length.
Qed.

Lemma emit_at_nil (t : itemType) (pre rest : bytes) (its : list item) :
  emit t (at_ pre rest its) = at_ pre rest its.
Proof. unfold emit, at_. simpl. case_decide; [done|lia]. Qed.

(** What may follow a field name: the end, a period or a left bracket. *)
Definition separated (rest : bytes) : Prop :=
  rest = [] \/ head rest = Some period \/ head rest = Some leftBracket.

(** A field name up to a separator is one item. *)
Lemma lexField_skip (pre f rest : bytes) (its : list item) :
  f <> [] -> Forall (fun c => is_delim c = false) f -> separated rest ->
  lexField (at_ pre (f ++ rest) its) =
  lexField (at_ (pre ++ f) rest (its ++ [MkItem itemField (length pre) f])).
Proof.
  intros Hf Hd Hr. unfold lexField.
  set (l := at_ pre (f ++ rest) its).
  set (l' := at_ (pre ++ f) rest (its ++ [MkItem itemField (length pre) f])).
  assert (forall p, p = length pre + length f -> emit itemField (set_pos p l) = l') as Hl.
  { intros p ->. by apply emit_at. }
  assert (forall p, p = length pre + length f -> emit itemField (set_pos p l') = l') as Hl'.
  { intros p ->. unfold l'. rewrite <- length_app. apply emit_at_nil. }
  assert (drop (pos l) (input l) = f ++ rest) as -> by apply drop_at.
  assert (drop (pos l') (input l') = rest) as -> by apply drop_at.
  rewrite scanField_app by done. destruct Hr as [->|Hr].
  - simpl. rewrite Hl, Hl'; [done|..]; rewrite !length_app; simpl; lia.
  - destruct rest as [|c rest]; [by destruct Hr|]. simpl in Hr.
    assert (scanField (c :: rest) = Some (0, c)) as ->.
    { destruct Hr; simplify_eq; done. }
    simpl. rewrite Hl, Hl' by (simpl; rewrite ?length_app; lia).
    by destruct Hr; simplify_eq.
Qed.

(** Each state function on a lexer that stands between two tokens. *)
Lemma drop_at_ (pre rest : bytes) (its : list item) :
  drop (pos (at_ pre rest its)) (input (at_ pre rest its)) = rest.
Proof. apply drop_at. Qed.

Lemma emit_at_pos (t : itemType) (pre mid rest : bytes) (its : list item) (n : nat) :
  mid <> [] -> n = length pre + length mid ->
  emit t (set_pos n (at_ pre (mid ++ rest) its)) =
  at_ (pre ++ mid) rest (its ++ [MkItem t (length pre) mid]).
Proof. intros Hm ->. by apply emit_at. Qed.

Lemma lexField_bracket (pre rest : bytes) (its : list item) :
  lexField (at_ pre (leftBracket :: rest) its) =
  (at_ pre (leftBracket :: rest) its, Some LexLeftBracket).
Proof.
  unfold lexField. rewrite drop_at_. simpl. rewrite Nat.add_0_r. f_equal.
  apply (emit_at_nil itemField).
Qed.

Lemma lexField_period (pre rest : bytes) (its : list item) :
  lexField (at_ pre (period :: rest) its) = (at_ pre (period :: rest) its, Some LexPeriod).
Proof.
  unfold lexField. rewrite drop_at_. simpl. rewrite Nat.add_0_r. f_equal.
  apply (emit_at_nil itemField).
Qed.

Lemma lexField_end (pre : bytes) (its : list item) :
  lexField (at_ pre [] its) = (at_ pre [] its, None).
Proof.
  unfold lexField. rewrite drop_at_. simpl. f_equal.
  replace (length (pre ++ [])) with (length pre) by (by rewrite app_nil_r).
  change (set_pos (length pre) (at_ pre [] its)) with (at_ pre [] its).
  by rewrite !emit_at_nil.
Qed.

Lemma lexLeftBracket_at (pre rest : bytes) (its : list item) :
  ContainsRune rest rightBracket = true ->
  lexLeftBracket (at_ pre (leftBracket :: rest) its) =
  (at_ (pre ++ [leftBracket]) rest (its ++ [MkItem itemLeftBracket (length pre) [leftBracket]]),
   Some LexFieldOrIndex).
Proof.
  intros H. unfold lexLeftBracket. rewrite drop_at_, ContainsRune_tail, H by done. simpl.
  f_equal. by apply (emit_at_pos _ pre [leftBracket]).
Qed.

Lemma lexFieldOrIndex_at (pre body rest : bytes) (its : list item) :
  body <> [] -> Forall (fun c => c <> leftBracket) body -> Forall (fun c => c <> rightBracket) body ->
  lexFieldOrIndex (at_ pre (body ++ rightBracket :: rest) its) =
  (at_ (pre ++ body) (rightBracket :: rest) (its ++ [MkItem itemFieldOrIndex (length pre) body]),
   Some LexRightBracket).
Proof.
  intros Hb Hl Hr. unfold lexFieldOrIndex.
  rewrite drop_at_, IndexRune_app_not, IndexRune_cons_eq by done. simpl. rewrite Nat.add_0_r.
  case_decide as E; [by destruct body|]. rewrite take_app_length.
  apply ContainsRune_false in Hl. unfold ContainsRune in Hl.
  destruct (IndexRune body leftBracket); [done|]. f_equal. by apply emit_at_pos.
Qed.

Lemma lexRightBracket_at (pre rest : bytes) (its : list item) :
  lexRightBracket (at_ pre (rightBracket :: rest) its) =
  (at_ (pre ++ [rightBracket]) rest (its ++ [MkItem itemRightBracket (length pre) [rightBracket]]),
   Some LexField).
Proof. unfold lexRightBracket. f_equal. by apply (emit_at_pos _ pre [rightBracket]). Qed.

Lemma lexPeriod_at (pre rest : bytes) (c : ascii) (its : list item) :
  pre <> [] -> head rest = Some c -> c <> period -> c <> leftBracket ->
  lexPeriod (at_ pre (period :: rest) its) =
  (at_ (pre ++ [period]) rest (its ++ [MkItem itemPeriod (length pre) [period]]), Some LexField).
Proof.
  intros Hp Hh Hc Hc'. unfold lexPeriod.
  case_decide as E.
  { exfalso. unfold at_ in E. simpl in E. rewrite length_app in E. simpl in E.
    destruct pre; [done|]. destruct rest; [done|]. simpl in *. lia. }
  assert (emit itemPeriod (set_pos (pos (at_ pre (period :: rest) its) + 1)
            (at_ pre (period :: rest) its)) =
          at_ (pre ++ [period]) rest (its ++ [MkItem itemPeriod (length pre) [period]])) as ->
    by (by apply (emit_at_pos _ pre [period])).
  rewrite drop_at_, Hh.
  rewrite (proj2 (ascii_eqb_neq c period)), (proj2 (ascii_eqb_neq c leftBracket)) by done. done.
Qed.

Lemma collect_app (its1 its2 : list item) (acc : Segments) :
  collect (its1 ++ its2) acc =
  match collect its1 acc with inl s => collect its2 s | inr e => inr e end.
Proof. revert acc. induction its1 as [|i its1 IH]; intros acc; simpl; [done|]. by destruct (ityp i). Qed.

(** The bracketed texts [Segments.String] writes read back as their segment. *)
Definition in_brackets (s : Segment) : bool :=
  match s with SegmentField f => bracketed f | SegmentIndex _ => true end.

Definition bracket_body (s : Segment) : bytes :=
  match s with SegmentField f => s2b f | SegmentIndex i => FormatUint i end.

Lemma digit_not (c d : ascii) : is_digit c = true -> is_digit d = false -> c <> d.
Proof. intros H1 H2 ->. congruence. Qed.

Lemma wf_field_spec (f : string) :
  wf_field f = true ->
  s2b f <> [] /\ Forall (fun c => c <> leftBracket) (s2b f) /\
  Forall (fun c => c <> rightBracket) (s2b f) /\ Field (s2b f) = SegmentField f.
Proof.
  unfold wf_field. rewrite !andb_true_iff, !negb_true_iff, !ContainsRune_false, bool_decide_eq_true.
  intros [[[Hf Hl] Hr] Ht]. split_and!; [by rewrite s2b_empty|done..|].
  unfold Field. by rewrite Trim_untrimmed, b2s_s2b.
Qed.

Lemma bracketed_not_digits (f : string) : bracketed f = true -> ParseUint (s2b f) 32 = None.
Proof.
  unfold bracketed. intros H. destruct (ParseUint (s2b f) 32) as [n|] eqn:E; [|done].
  apply ParseUint_digits in E. apply orb_true_iff in H as [H|H].
  - apply bool_decide_eq_true in H. subst. by inv E.
  - exfalso. assert (ContainsRune (s2b f) period = false) by
      (apply ContainsRune_false; eapply Forall_impl; [exact E|]; intros c Hc; by apply digit_not).
    congruence.
Qed.

Lemma bracket_body_spec (s : Segment) :
  wf_segment s = true -> in_brackets s = true ->
  bracket_body s <> [] /\ Forall (fun c => c <> leftBracket) (bracket_body s) /\
  Forall (fun c => c <> rightBracket) (bracket_body s) /\ FieldOrIndex (bracket_body s) = s.
Proof.
  destruct s as [f|i]; simpl.
  - intros (H1 & H2 & H3 & H4)%wf_field_spec Hb. split_and!; [done..|].
    unfold FieldOrIndex. by rewrite bracketed_not_digits.
  - intros Hi%N.ltb_lt _. pose proof (FormatUint_digits i) as Hd. split_and!.
    + unfold FormatUint. apply digits_nonempty.
    + eapply Forall_impl; [exact Hd|]. intros c Hc. by apply digit_not.
    + eapply Forall_impl; [exact Hd|]. intros c Hc. by apply digit_not.
    + unfold FieldOrIndex. by rewrite ParseUint_FormatUint.
Qed.

Lemma Lex_skip (pre f rest : bytes) (its : list item) (l' : lexer) :
  f <> [] -> Forall (fun c => is_delim c = false) f -> separated rest ->
  Lex LexField (at_ (pre ++ f) rest (its ++ [MkItem itemField (length pre) f])) l' ->
  Lex LexField (at_ pre (f ++ rest) its) l'.
Proof.
  intros Hf Hd Hr H. pose proof (lexField_skip pre f rest its Hf Hd Hr) as E.
  inv H.
  - apply Lex_done. simpl in *. congruence.
  - eapply Lex_step; [|eassumption]. simpl in *. congruence.
Qed.

Lemma writeSegments_separated (segs : Segments) : separated (writeSegments segs).
Proof.
  unfold writeSegments, separated. destruct segs as [|[f|i] segs]; simpl; [by left|..]; right.
  - destruct (bracketed f); simpl; [by right|by left].
  - by right.
Qed.

Lemma plain_field_delim (f : string) :
  wf_field f = true -> bracketed f = false -> Forall (fun c => is_delim c = false) (s2b f).
Proof.
  intros (_ & Hl & Hr & _)%wf_field_spec [_ Hp]%orb_false_iff.
  apply ContainsRune_false in Hp. rewrite Forall_forall in *. intros c Hc. unfold is_delim.
  rewrite !orb_false_iff, !ascii_eqb_neq. auto.
Qed.

(** The lexer reads the printed segments back, from a position that is not the
    start of the input (or the start, if the first segment is in brackets). *)
Lemma lex_segments (segs : Segments) (pre : bytes) (its : list item) :
  forallb wf_segment segs = true ->
  (pre <> [] \/ head (writeSegments segs) <> Some period) ->
  exists l' its', Lex LexField (at_ pre (writeSegments segs) its) l' /\
    items l' = its ++ its' /\ forall acc, collect its' acc = inl (acc ++ segs).
Proof.
  revert pre its. induction segs as [|s segs IH]; intros pre its Hwf Hpre.
  { exists (at_ pre [] its), []. split_and!.
    - apply Lex_done. apply lexField_end.
    - simpl. by rewrite app_nil_r.
    - intros acc. simpl. by rewrite app_nil_r. }
  simpl in Hwf. apply andb_true_iff in Hwf as [Hs Hwf].
  destruct (in_brackets s) eqn:Hb.
  - destruct (bracket_body_spec s Hs Hb) as (Hne & Hl & Hr & Hfi).
    assert (writeSegments (s :: segs) = leftBracket :: bracket_body s ++ rightBracket :: writeSegments segs) as ->.
    { unfold writeSegments. simpl. destruct s as [f|i]; simpl in *; rewrite ?Hb; simpl; by rewrite <- app_assoc. }
    set (rest := writeSegments segs).
    edestruct (IH ((pre ++ [leftBracket]) ++ bracket_body s ++ [rightBracket])) as (l' & its' & HL & Hit & Hc);
      [done|left; by destruct pre|].
    exists l'. eexists (_ :: _ :: _ :: its'). split_and!.
    + eapply Lex_step; [apply lexField_bracket|].
      eapply Lex_step; [apply lexLeftBracket_at|].
      { unfold ContainsRune. by rewrite IndexRune_app_not, IndexRune_cons_eq by done. }
      eapply Lex_step; [by apply lexFieldOrIndex_at|].
      eapply Lex_step; [apply lexRightBracket_at|].
      rewrite <- (app_assoc _ (bracket_body s) [rightBracket]). exact HL.
    + rewrite Hit. by rewrite <- !app_assoc.
    + intros acc. simpl. rewrite Hfi, Hc. by rewrite <- app_assoc.
  - destruct s as [f|i]; [|done]. simpl in Hb, Hs.
    destruct (wf_field_spec f Hs) as (Hne & Hl & Hr & Hfd).
    pose proof (plain_field_delim f Hs Hb) as Hd.
    assert (writeSegments (SegmentField f :: segs) = period :: s2b f ++ writeSegments segs) as Hw.
    { unfold writeSegments. simpl. by rewrite Hb. }
    rewrite Hw in *. simpl in Hpre. destruct Hpre as [Hpre|]; [|done].
    edestruct (IH ((pre ++ [period]) ++ s2b f)) as (l' & its' & HL & Hit & Hc);
      [done|left; by destruct pre|].
    exists l'. eexists (_ :: _ :: its'). split_and!.
    + eapply Lex_step; [apply lexField_period|].
      assert (exists c, head (s2b f ++ writeSegments segs) = Some c /\ c <> period /\ c <> leftBracket)
        as (c & Hh & Hc1 & Hc2).
      { destruct (s2b f) as [|c b]; [done|]. exists c. inv Hd. inv Hl. split_and!; [done| |done].
        by intros ->. }
      eapply Lex_step; [by eapply lexPeriod_at|].
      apply Lex_skip; [done..|apply writeSegments_separated|]. exact HL.
    + rewrite Hit. by rewrite <- !app_assoc.
    + intros acc. simpl. rewrite Hfd, Hc. by rewrite <- app_assoc.
Qed.

Lemma Parse_Lex (path : string) (l : lexer) :
  Lex LexField (at_ [] (s2b path) []) l -> Parse path = collect (items l) [].
Proof.
  intros H. unfold Parse, lex. pose proof (lex_terminates (s2b path)) as Ht. unfold lex in Ht.
  pose proof (Lex_run _ _ _ _ H Ht) as E. unfold at_ in E. simpl in E. by rewrite E.
Qed.

Lemma Parse_String (segs : Segments) :
  forallb wf_segment segs = true -> Parse (SegmentsString segs) = inl segs.
Proof.
  intros Hwf. unfold SegmentsString.
  destruct (decide (head (writeSegments segs) = Some period)) as [Hp|Hp].
  - destruct segs as [|[f|i] segs]; [done| |done]. unfold writeSegments in *. simpl in *.
    apply andb_true_iff in Hwf as [Hf Hwf]. destruct (bracketed f) eqn:Hb; [done|].
    destruct (wf_field_spec f Hf) as (Hne & _ & _ & Hfd).
    destruct (lex_segments segs (s2b f) [MkItem itemField 0 (s2b f)] Hwf (or_introl Hne))
      as (l' & its' & HL & Hit & Hc).
    rewrite (Parse_Lex _ l').
    + rewrite Hit. simpl. by rewrite Hfd, Hc.
    + simpl. rewrite s2b_b2s.
      apply Lex_skip; [done|by apply plain_field_delim|apply writeSegments_separated|exact HL].
  - destruct (lex_segments segs [] [] Hwf (or_intror Hp)) as (l' & its' & HL & Hit & Hc).
    rewrite (Parse_Lex _ l').
    + by rewrite Hit, Hc.
    + rewrite s2b_b2s. destruct (writeSegments segs) as [|c b]; [done|]. simpl.
      simpl in Hp. rewrite (proj2 (ascii_eqb_neq c period)) by congruence. exact HL.
Qed.

(** ** What [Parse] returns *)

(** The values the lexer emits. *)
Definition good_item (i : item) : Prop :=
  match ityp i with
  | itemField => ival i <> [] /\ Forall (fun c => is_delim c = false) (ival i)
  | itemFieldOrIndex =>
      ival i <> [] /\ Forall (fun c => c <> leftBracket) (ival i) /\
      Forall (fun c => c <> rightBracket) (ival i)
  | _ => True
  end.

Definition lex_inv (l : lexer) : Prop := start l = pos l /\ Forall good_item (items l).

Lemma good_errorf (l : lexer) (p : nat) (m : string) :
  Forall good_item (items l) -> Forall good_item (items (errorf l p m)).
Proof. intros H. simpl. apply Forall_app. split; [done|]. by repeat constructor. Qed.

Lemma inv_emit (t : itemType) (l : lexer) (n : nat) :
  lex_inv l -> (n <> 0 -> good_item (MkItem t (start l) (take n (drop (pos l) (input l))))) ->
  lex_inv (emit t (set_pos (pos l + n) l)).
Proof.
  intros [Hs Hg] Hn. unfold emit, lex_inv. simpl. case_decide as E; simpl.
  - split; [lia|done].
  - split; [done|]. apply Forall_app. split; [done|]. repeat constructor.
    rewrite Hs in *. replace (pos l + n - pos l) with n by lia. apply Hn. lia.
Qed.

Lemma take_nonempty (n : nat) (b : bytes) : n <> 0 -> b <> [] -> take n b <> [].
Proof. destruct n, b; done. Qed.

Lemma inv_lexField (l l' : lexer) (o : option stateFn) :
  lex_inv l -> lexField l = (l', o) -> Forall good_item (items l') /\ (is_Some o -> lex_inv l').
Proof.
  intros Hi H. unfold lexField in H.
  destruct (scanField (drop (pos l) (input l))) as [[i r]|] eqn:E.
  - apply scanField_Some in E as (b1 & b2 & Hd & <- & Hr & Hb).
    assert (lex_inv (emit itemField (set_pos (pos l + length b1) l))) as He.
    { apply inv_emit; [done|]. intros Hn. rewrite Hd, take_app_length. split; [|done].
      by destruct b1. }
    destruct (ascii_eqb r rightBracket).
    { simplify_eq. split; [apply good_errorf, Hi|]. by intros []. }
    destruct (ascii_eqb r leftBracket); simplify_eq; (split; [apply He|done]).
  - apply scanField_None in E. simplify_eq. split; [|by intros []].
    assert (lex_inv (emit itemField (set_pos (length (input l)) l)) \/ length (input l) < pos l) as [He|Hlt].
    { destruct (decide (length (input l) < pos l)); [by right|left].
      replace (length (input l)) with (pos l + (length (input l) - pos l)) by lia.
      apply inv_emit; [done|]. intros Hn.
      rewrite take_ge by (rewrite length_drop; lia). split; [|done].
      intros Hd. simpl in Hd. apply (f_equal length) in Hd. rewrite length_drop in Hd. simpl in Hd. lia. }
    + replace (emit itemEOL (emit itemField (set_pos (length (input l)) l)))
        with (emit itemField (set_pos (length (input l)) l)); [apply He|].
      unfold emit at 2. case_decide as Hlt; [done|]. destruct He as [He _]. lia.
    + destruct Hi as [Hs Hg].
      assert (emit itemField (set_pos (length (input l)) l) = set_pos (length (input l)) l) as ->.
      { unfold emit. case_decide as Hlt'; [done|]. simpl in Hlt'. lia. }
      unfold emit. case_decide as Hlt'; [done|]. simpl in Hlt'. lia.
Qed.

Lemma inv_step (st : stateFn) (l l' : lexer) (o : option stateFn) :
  lex_inv l -> step st l = (l', o) -> Forall good_item (items l') /\ (is_Some o -> lex_inv l').
Proof.
  intros Hi. destruct st; simpl; intros H.
  - by eapply inv_lexField.
  - unfold lexPeriod in H.
    assert (lex_inv (emit itemPeriod (set_pos (pos l + 1) l))) as He by (by apply inv_emit).
    pose proof (proj2 Hi) as Hg. pose proof (proj2 He) as Hg'.
    repeat case_match; simplify_eq; split; auto using good_errorf; by intros [].
  - unfold lexLeftBracket in H.
    assert (lex_inv (emit itemLeftBracket (set_pos (pos l + 1) l))) as He by (by apply inv_emit).
    pose proof (proj2 Hi) as Hg. pose proof (proj2 He) as Hg'.
    repeat case_match; simplify_eq; split; auto using good_errorf; by intros [].
  - unfold lexFieldOrIndex in H. pose proof (proj2 Hi) as Hg.
    destruct (IndexRune _ _) as [rbi|] eqn:E; [|simplify_eq; split; [done|by intros []]].
    apply IndexRune_Some in E as (b1 & b2 & Hd & <- & Hb).
    rewrite Hd, take_app_length in H.
    case_decide; [simplify_eq; split; [by apply good_errorf|by intros []]|].
    destruct (IndexRune b1 leftBracket) as [k|] eqn:E2;
      [simplify_eq; split; [by apply good_errorf|by intros []]|].
    assert (lex_inv (emit itemFieldOrIndex (set_pos (pos l + length b1) l))) as He.
    { apply inv_emit; [done|]. intros _. rewrite Hd, take_app_length.
      split_and!; [by destruct b1| |done]. cbn [ival]. apply ContainsRune_false.
      unfold ContainsRune. by rewrite E2. }
    simplify_eq. split; [apply He|done].
  - unfold lexRightBracket in H. simplify_eq.
    assert (lex_inv (emit itemRightBracket (set_pos (pos l + 1) l))) as He by (by apply inv_emit).
    split; [apply He|done].
Qed.

Lemma inv_Lex (st : stateFn) (l l' : lexer) :
  Lex st l l' -> lex_inv l -> Forall good_item (items l').
Proof.
  induction 1 as [st l l' H|st st' l l1 l' H _ IH]; intros Hi.
  - exact (proj1 (inv_step _ _ _ _ Hi H)).
  - apply IH, (proj2 (inv_step _ _ _ _ Hi H)). by eexists.
Qed.

(** A segment [Parse] can return. *)
Definition parsed_segment (s : Segment) : bool :=
  match s with
  | SegmentField f =>
      negb (ContainsRune (s2b f) leftBracket) && negb (ContainsRune (s2b f) rightBracket) &&
      untrimmed quote (s2b f)
  | SegmentIndex i => (i <? 2 ^ 32)%N
  end.

Lemma Forall_Trim (P : ascii -> Prop) (cut : ascii -> bool) (b : bytes) :
  Forall P b -> Forall P (Trim cut b).
Proof.
  assert (forall b', Forall P b' -> Forall P (TrimLeft cut b')) as HL.
  { intros b' H. destruct (TrimLeft_suffix cut b') as [k Hk]. rewrite Hk in H.
    apply Forall_app in H as [_ H]. exact H. }
  intros H. unfold Trim, TrimRight. rewrite Forall_reverse. apply HL. rewrite Forall_reverse. auto.
Qed.

Lemma parsed_Field (b : bytes) :
  Forall (fun c => c <> leftBracket) b -> Forall (fun c => c <> rightBracket) b ->
  parsed_segment (Field b) = true.
Proof.
  intros Hl Hr. unfold Field, parsed_segment. rewrite s2b_b2s, Trim_is_untrimmed.
  rewrite (proj2 (ContainsRune_false _ leftBracket)), (proj2 (ContainsRune_false _ rightBracket))
    by (by apply Forall_Trim). done.
Qed.

Lemma collect_parsed (its : list item) (acc segs : Segments) :
  Forall good_item its -> forallb parsed_segment acc = true -> collect its acc = inl segs ->
  forallb parsed_segment segs = true.
Proof.
  intros H. revert acc. induction H as [|i its Hi _ IH]; intros acc Ha; simpl; [by intros [= <-]|].
  unfold good_item in Hi. destruct (ityp i); try done; try by apply IH.
  - apply IH. rewrite forallb_app, Ha. cbn [forallb andb]. rewrite parsed_Field; [done|..];
      eapply Forall_impl; try apply Hi; intros c Hc ->; done.
  - apply IH. rewrite forallb_app, Ha. cbn [forallb andb]. rewrite andb_true_r.
    unfold FieldOrIndex. destruct (ParseUint (ival i) 32) eqn:E.
    + apply ParseUint_bound in E. by apply N.ltb_lt.
    + destruct Hi as (_ & Hl & Hr). by apply parsed_Field.
Qed.

Lemma Parse_parsed (path : string) (segs : Segments) :
  Parse path = inl segs -> forallb parsed_segment segs = true.
Proof.
  destruct (lex_terminates (s2b path)) as [l Hl]. unfold Parse. rewrite Hl. intros H.
  eapply (collect_parsed _ []); [|done|exact H].
  eapply inv_Lex; [by eapply run_Lex|]. split; [done|constructor].
Qed.

(** ** Properties *)

(** C26: [Parse] reads back every sequence of well-formed segments that
    [Segments.String] prints: fields that are not empty, hold no brackets and
    do not start or end with a quote, and 32-bit indices. *)
Theorem fieldpath_roundtrip (segs : Segments) :
  forallb wf_segment segs = true -> Parse (SegmentsString segs) = inl segs.
Proof. apply Parse_String. Qed.

Lemma fieldpath_roundtrip_witness :
  Parse (SegmentsString [SegmentField "spec"; SegmentField "a.b"; SegmentIndex 42; SegmentField "*"]) =
  inl [SegmentField "spec"; SegmentField "a.b"; SegmentIndex 42; SegmentField "*"].
Proof. apply fieldpath_roundtrip. vm_compute. reflexivity. Defined.

(** Printing the segments of any path that parses gives a canonical form of
    the path: it parses to the same segments (unless a quoted field is empty,
    as in [a['']]). *)
Theorem fieldpath_canonical (path : string) (segs : Segments) :
  Parse path = inl segs -> SegmentField "" ∉ segs -> Parse (SegmentsString segs) = inl segs.
Proof.
  intros H He. apply Parse_String. apply Parse_parsed in H.
  rewrite forallb_forall in *. intros s Hs. specialize (H s Hs).
  destruct s as [f|i]; [|done]. simpl in *. unfold wf_field.
  rewrite bool_decide_eq_true_2; [done|]. intros ->. by apply He, list_elem_of_In.
Qed.

Lemma fieldpath_canonical_witness :
  Parse (SegmentsString [SegmentField "a"; SegmentField "b"; SegmentIndex 7]) =
  inl [SegmentField "a"; SegmentField "b"; SegmentIndex 7].
Proof.
  apply (fieldpath_canonical "a['b'][007]"); [vm_compute; reflexivity|].
  by apply (bool_decide_eq_true_1 (SegmentField "" ∉ _)).
Defined.

(** C27: the lexer's state machine halts on every input: from its initial
    state it reaches the nil state function, and [Parse] returns what the
    consumer makes of the items sent until then. *)
Theorem fieldpath_terminates (path : string) :
  exists l, Lex LexField (MkLexer (s2b path) 0 0 []) l /\ Parse path = collect (items l) [].
Proof.
  destruct (lex_terminates (s2b path)) as [l Hl]. exists l. split; [by eapply run_Lex|].
  unfold Parse. by rewrite Hl.
Qed.
