(* ===== verification/Json.v ===== *)
(** * JSON-like data

    The [any] values of [map[string]any] data: what encoding/json (as
    configured by k8s.io/apimachinery/pkg/util/json) unmarshals into an
    interface.  Data of this shape is a tree: no map or slice of it is
    reachable along two paths, so updating a map or an array in place is
    modelled by rebuilding the path to it. *)

From S2P Require Import Prelude GoErrors.

#[warnings="-register-all"]
Inductive any :=
| ANil
| ABool (b : bool)
| AInt (z : Z)
| AFloat (bits : Z)
| AString (s : string)
| AArray (l : list any)
| AObject (m : gmap string any).

#[global] Instance any_eq_dec : EqDecision any.
Proof.
  refine (fix go (x y : any) {struct x} : Decision (x = y) :=
    let _ : EqDecision any := go in
    match x, y with
    | ANil, ANil => left eq_refl
    | ABool a, ABool b => cast_if (decide (a = b))
    | AInt a, AInt b => cast_if (decide (a = b))
    | AFloat a, AFloat b => cast_if (decide (a = b))
    | AString a, AString b => cast_if (decide (a = b))
    | AArray a, AArray b => cast_if (decide (a = b))
    | AObject a, AObject b => cast_if (decide (a = b))
    | _, _ => right _
    end); congruence.
Defined.

(** encoding/json for the Go type [T]: [Marshal] to bytes and [Unmarshal] from
    bytes. Neither is part of the repository. *)
Class Json (T : Type) := {
  Marshal : T -> string + error;
  Unmarshal : string -> T + error
}.

(** The Go type is faithfully represented by its JSON encoding. *)
Class JsonRoundTrip (T : Type) `{!Json T} : Prop :=
  unmarshal_marshal (x : T) : exists b, Marshal x = inl b /\ Unmarshal b = inl x.

Example any_dec1 : bool_decide (AObject {["a" := AArray [AInt 1; ANil]]} = AObject {["a" := AArray [AInt 1; ANil]]}) = true.
Proof. vm_compute. reflexivity. Qed.
