(* ===== verification/Paved.v ===== *)
(** * Paved objects (pkg/fieldpath/paved.go)

    Getting, setting and deleting the value at a field path of a JSON object.
    [Paved.object] is [None] for a nil map: reading a nil map finds nothing,
    writing to it panics.  Operations that mutate the object return its new
    content together with their [outcome], because a call that fails half way
    leaves the containers it has already created. *)

From S2P Require Import Prelude GoStrings GoErrors FieldPath Json.

Record Paved := MkPaved { object : option (gmap string any); maxFieldPathIndex : N }.

Definition DefaultMaxFieldPathIndex : N := 1024.

Definition PavedOption := Paved -> Paved.

Definition Pave (obj : option (gmap string any)) (opts : list PavedOption) : Paved :=
  foldl (fun p opt => opt p) (MkPaved obj DefaultMaxFieldPathIndex) opts.

Definition WithMaxFieldPathIndex (maxIndex : N) : PavedOption :=
  fun p => MkPaved (object p) maxIndex.

Definition maxFieldPathIndexEnabled (p : Paved) : bool := (0 <? maxFieldPathIndex p)%N.

Definition UnstructuredContent (p : Paved) : gmap string any := default ∅ (object p).

Definition SetUnstructuredContent (content : option (gmap string any)) (p : Paved) : Paved :=
  MkPaved content (maxFieldPathIndex p).

(** [IsNotFound] of package fieldpath: the cause has an [IsNotFound] method. *)
Definition IsFieldNotFound (err : error) : bool :=
  match Cause err with notFoundError _ => true | _ => false end.

Definition errAt (s : Segments) (what : string) : error := errorString (SegmentsString s +:+ what).

Definition len {A} (l : list A) : N := N.of_nat (length l).

(** The object as an interface value. *)
Definition root (p : Paved) : any := AObject (default ∅ (object p)).

(** ** Getting *)

(** The loop of [getValueFromInterface]: [seen] is [s[:i]] and [rest] is
    [s[i:]]. *)
Fixpoint getFrom (seen : Segments) (it : any) (rest : Segments) : any + error :=
  match rest with
  | [] => inl ANil
  | current :: rest' =>
      match current with
      | SegmentIndex i =>
          match it with
          | AArray array =>
              if (len array <=? i)%N then
                inr (notFoundError (errAt (seen ++ [current]) ": no such element"))
              else
                match array !! N.to_nat i with
                | None => inl ANil
                | Some v => match rest' with [] => inl v | _ => getFrom (seen ++ [current]) v rest' end
                end
          | _ => inr (errAt seen ": not an array")
          end
      | SegmentField f =>
          match it with
          | AObject m =>
              match m !! f with
              | None => inr (notFoundError (errAt (seen ++ [current]) ": no such field"))
              | Some v => match rest' with [] => inl v | _ => getFrom (seen ++ [current]) v rest' end
              end
          | ANil => inr (notFoundError (errAt seen ": expected map, got nil"))
          | _ => inr (errAt seen ": not an object")
          end
      end
  end.

Definition getValueFromInterface (it : any) (s : Segments) : any + error := getFrom [] it s.

Definition getValue (p : Paved) (s : Segments) : any + error := getValueFromInterface (root p) s.

(** [fmt]'s [%q] of a string of printable runes. *)
Definition Quote (s : string) : string :=
  b2s ("034"%char :: mjoin ((fun c => if ascii_eqb c "034" || ascii_eqb c "\" then ["\"%char; c] else [c])
                             <$> s2b s) ++ ["034"%char]).

Definition errParse (err : error) (path : string) : error :=
  wrapError ("cannot parse path " +:+ Quote path) err.

Definition GetValue (p : Paved) (path : string) : any + error :=
  match Parse path with
  | inr err => inr (errParse err path)
  | inl segments => getValue p segments
  end.

Definition GetValueInto {T} `{!Json any, !Json T} (p : Paved) (path : string) : T + error :=
  match GetValue p path with
  | inr err => inr err
  | inl val =>
      match Marshal val with
      | inr err => inr (wrapError "cannot marshal value to JSON" err)
      | inl js => match Unmarshal js with
                  | inr err => inr (wrapError "cannot unmarshal value from JSON" err)
                  | inl out => inl out
                  end
      end
  end.

Definition GetString (p : Paved) (path : string) : string + error :=
  match GetValue p path with
  | inr err => inr err
  | inl (AString s) => inl s
  | inl _ => inr (errorString (path +:+ ": not a string"))
  end.

Fixpoint stringElements (a : list any) : option (list string) :=
  match a with
  | [] => Some []
  | AString s :: a' => cons s <$> stringElements a'
  | _ => None
  end.

Definition GetStringArray (p : Paved) (path : string) : list string + error :=
  match GetValue p path with
  | inr err => inr err
  | inl (AArray a) => match stringElements a with
                      | Some sa => inl sa
                      | None => inr (errorString (path +:+ ": not an array of strings"))
                      end
  | inl _ => inr (errorString (path +:+ ": not an array"))
  end.

Definition asString (a : any) : option string := match a with AString s => Some s | _ => None end.

Definition GetStringObject (p : Paved) (path : string) : gmap string string + error :=
  match GetValue p path with
  | inr err => inr err
  | inl (AObject o) =>
      if decide (map_Forall (fun _ v => is_Some (asString v)) o) then inl (omap asString o)
      else inr (errorString (path +:+ ": not an object with string field values"))
  | inl _ => inr (errorString (path +:+ ": not an object"))
  end.

Definition GetBool (p : Paved) (path : string) : bool + error :=
  match GetValue p path with
  | inr err => inr err
  | inl (ABool b) => inl b
  | inl _ => inr (errorString (path +:+ ": not a bool"))
  end.

Definition GetInteger (p : Paved) (path : string) : Z + error :=
  match GetValue p path with
  | inr err => inr err
  | inl (AInt f) => inl f
  | inl _ => inr (errorString (path +:+ ": not a (int64) number"))
  end.

(** ** Setting *)

Definition toValidJSON {T} `{!Json T, !Json any} (value : T) : any + error :=
  match Marshal value with
  | inr err => inr (wrapError "cannot marshal value to JSON" err)
  | inl j => match Unmarshal j with
             | inr err => inr (wrapError "cannot unmarshal value from JSON" err)
             | inl v => inl v
             end
  end.

Fixpoint checkIndices (max : N) (s : Segments) : option error :=
  match s with
  | [] => None
  | SegmentIndex i :: s' =>
      if (max <? i)%N then
        Some (errorString ("index " +:+ b2s (FormatUint i) +:+ " is greater than max allowed index "
                           +:+ b2s (FormatUint max)))
      else checkIndices max s'
  | SegmentField _ :: s' => checkIndices max s'
  end.

Definition validateSegments (p : Paved) (s : Segments) : option error :=
  if negb (maxFieldPathIndexEnabled p) then None else checkIndices (maxFieldPathIndex p) s.

(** [make([]any, n)] *)
Definition makeSlice (n : N) : list any := replicate (N.to_nat n) ANil.

(** What is created for the segment that follows. *)
Definition emptyFor (next : Segment) : any :=
  match next with
  | SegmentIndex n => AArray (makeSlice (u64 (n + 1)))
  | SegmentField _ => AObject ∅
  end.

(** An existing value, made long enough for the segment that follows. *)
Definition extendFor (next : Segment) (existing : any) : any :=
  match next, existing with
  | SegmentIndex n, AArray na =>
      if (n <? len na)%N then existing
      else AArray (na ++ makeSlice (u64 (n - len na + 1)))
  | _, _ => existing
  end.

(** [None]: the index expression [array[current.Index]] panics. *)
Definition prepareElement (array : list any) (current : N) (next : Segment) : option (list any) :=
  if (len array <=? current)%N then None
  else
    match array !! N.to_nat current with
    | None => None
    | Some ANil => Some (<[N.to_nat current := emptyFor next]> array)
    | Some e => Some (<[N.to_nat current := extendFor next e]> array)
    end.

Definition prepareField (obj : gmap string any) (current : string) (next : Segment) : gmap string any :=
  match obj !! current with
  | None => <[current := emptyFor next]> obj
  | Some e => <[current := extendFor next e]> obj
  end.

Definition outOfRange : outcome := Panicked "index out of range".

(** The loop of [setValue]: the new content of [target] and how it ended. *)
Fixpoint setLoop (seen : Segments) (target : any) (rest : Segments) (v : any) : any * outcome :=
  match rest with
  | [] => (target, Done)
  | current :: rest' =>
      match current with
      | SegmentIndex i =>
          match target with
          | AArray array =>
              match rest' with
              | [] =>
                  if (len array <=? i)%N then (target, outOfRange)
                  else (AArray (<[N.to_nat i := v]> array), Done)
              | next :: _ =>
                  match prepareElement array i next with
                  | None => (target, outOfRange)
                  | Some array' =>
                      match array' !! N.to_nat i with
                      | None => (AArray array', outOfRange)
                      | Some child =>
                          let '(child', o) := setLoop (seen ++ [current]) child rest' v in
                          (AArray (<[N.to_nat i := child']> array'), o)
                      end
                  end
              end
          | _ => (target, Failed (errAt seen " is not an array"))
          end
      | SegmentField f =>
          match target with
          | AObject m =>
              match rest' with
              | [] => (AObject (<[f := v]> m), Done)
              | next :: _ =>
                  let m' := prepareField m f next in
                  match m' !! f with
                  | None => (AObject m', Done)
                  | Some child =>
                      let '(child', o) := setLoop (seen ++ [current]) child rest' v in
                      (AObject (<[f := child']> m'), o)
                  end
              end
          | _ => (target, Failed (errAt seen " is not an object"))
          end
      end
  end.

(** [setValue] once the value is JSON data and the segments are validated. *)
Definition setRoot (p : Paved) (s : Segments) (v : any) : Paved * outcome :=
  match object p with
  | Some m =>
      let '(t, o) := setLoop [] (AObject m) s v in
      (MkPaved (match t with AObject m' => Some m' | _ => Some m end) (maxFieldPathIndex p), o)
  | None =>
      (p, match s with
          | [] => Done
          | SegmentIndex _ :: _ => Failed (errAt [] " is not an array")
          | SegmentField _ :: _ => Panicked "assignment to entry in nil map"
          end)
  end.

Definition setValue {T} `{!Json T, !Json any} (p : Paved) (s : Segments) (value : T) : Paved * outcome :=
  match toValidJSON value with
  | inr err => (p, Failed err)
  | inl v =>
      match validateSegments p s with
      | Some err => (p, Failed err)
      | None => setRoot p s v
      end
  end.

Definition SetValue {T} `{!Json T, !Json any} (p : Paved) (path : string) (value : T) : Paved * outcome :=
  match Parse path with
  | inr err => (p, Failed (errParse err path))
  | inl segments => setValue p segments value
  end.

Definition SetString `{!Json string, !Json any} (p : Paved) (path value : string) : Paved * outcome :=
  SetValue p path value.

(** A float64, by its IEEE 754 representation. *)
Record float64 := Float64 { float_bits : Z }.

Definition SetBool `{!Json bool, !Json any} (p : Paved) (path : string) (value : bool) : Paved * outcome :=
  SetValue p path value.

Definition SetNumber `{!Json float64, !Json any} (p : Paved) (path : string) (value : float64) : Paved * outcome :=
  SetValue p path value.

(** ** Deleting *)

(** The loop of [deleteField] that pulls the elements after [i] back. *)
Fixpoint shiftLoop (n : nat) (i : nat) (array : list any) : list any :=
  match n with
  | O => array
  | S n' => match array !! S i with
            | Some x => shiftLoop n' (S i) (<[i := x]> array)
            | None => array
            end
  end.

Definition deleteField (obj : any) (s : Segment) : any + error :=
  match s with
  | SegmentIndex i =>
      match obj with
      | AArray array =>
          if bool_decide (length array = 0) || (len array <=? i)%N then inl obj
          else inl (AArray (take (length array - 1)
                              (shiftLoop (length array - 1 - N.to_nat i) (N.to_nat i) array)))
      | _ => inr (errorString "not an array")
      end
  | SegmentField f =>
      match obj with
      | AObject m => inl (AObject (base.delete f m))
      | _ => inr (errorString "not an object")
      end
  end.

Definition errDelete (segments : Segments) (err : error) : error :=
  wrapError ("cannot delete " +:+ SegmentsString segments) err.

(** The loop of [delete]; [segments] is the whole path, for the messages. *)
Fixpoint deleteLoop (segments seen : Segments) (target : any) (rest : Segments) : any * option error :=
  match rest with
  | [] => (target, None)
  | current :: rest' =>
      match current with
      | SegmentIndex i =>
          match target with
          | AArray array =>
              if (len array <=? i)%N then (target, None)
              else
                match array !! N.to_nat i with
                | None => (target, None)
                | Some child =>
                    match rest' with
                    | [final] =>
                        match deleteField child final with
                        | inr err => (target, Some (errDelete segments err))
                        | inl o => (AArray (<[N.to_nat i := o]> array), None)
                        end
                    | _ =>
                        let '(child', err) := deleteLoop segments (seen ++ [current]) child rest' in
                        (AArray (<[N.to_nat i := child']> array), err)
                    end
                end
          | _ => (target, Some (errAt seen " is not an array"))
          end
      | SegmentField f =>
          match target with
          | AObject m =>
              match m !! f with
              | None => (target, None)
              | Some child =>
                  match rest' with
                  | [final] =>
                      match deleteField child final with
                      | inr err => (target, Some (errDelete segments err))
                      | inl o => (AObject (<[f := o]> m), None)
                      end
                  | _ =>
                      let '(child', err) := deleteLoop segments (seen ++ [current]) child rest' in
                      (AObject (<[f := child']> m), err)
                  end
              end
          | _ => (target, Some (errAt seen " is not an object"))
          end
      end
  end.

Definition delete (p : Paved) (segments : Segments) : Paved * option error :=
  let put (t : any) := match t with
                       | AObject m => match object p with
                                      | Some _ => MkPaved (Some m) (maxFieldPathIndex p)
                                      | None => p
                                      end
                       | _ => p
                       end in
  match segments with
  | [seg] =>
      match deleteField (root p) seg with
      | inr err => (p, Some (errDelete segments err))
      | inl o => (put o, None)
      end
  | _ => let '(t, err) := deleteLoop segments [] (root p) segments in (put t, err)
  end.

Definition DeleteField (p : Paved) (path : string) : Paved * option error :=
  match Parse path with
  | inr err => (p, Some (errParse err path))
  | inl segments => delete p segments
  end.

(** ** The abstract view: values at paths of a tree *)

Definition child (it : any) (c : Segment) : option any :=
  match c, it with
  | SegmentIndex i, AArray a => if (len a <=? i)%N then None else a !! N.to_nat i
  | SegmentField f, AObject m => m !! f
  | _, _ => None
  end.

Fixpoint lookup_path (it : any) (s : Segments) : option any :=
  match s with
  | [] => Some it
  | c :: s' => match child it c with Some v => lookup_path v s' | None => None end
  end.

Lemma len_lookup (a : list any) (i : N) :
  (i < len a)%N -> exists e, a !! N.to_nat i = Some e.
Proof.
  intros H. apply lookup_lt_is_Some_2. unfold len in H. lia.
Qed.

Lemma len_leb_false (a : list any) (i : N) : (len a <=? i)%N = false <-> (i < len a)%N.
Proof. apply N.leb_gt. Qed.

Lemma child_index (a : list any) (i : N) :
  (i < len a)%N -> child (AArray a) (SegmentIndex i) = a !! N.to_nat i.
Proof. intros H. simpl. by rewrite (proj2 (len_leb_false a i)). Qed.

Lemma child_index_Some (a : list any) (i : N) (x : any) :
  child (AArray a) (SegmentIndex i) = Some x <-> a !! N.to_nat i = Some x.
Proof.
  simpl. destruct (len a <=? i)%N eqn:E; [|done]. split; [done|]. intros H.
  apply N.leb_le in E. apply lookup_lt_Some in H. unfold len in E. lia.
Qed.

(** [getValueFromInterface] refines [lookup_path]. *)
Lemma getFrom_lookup (seen : Segments) (it : any) (s : Segments) (v : any) :
  s <> [] -> getFrom seen it s = inl v <-> lookup_path it s = Some v.
Proof.
  revert seen it. induction s as [|c s IH]; intros seen it Hs; [done|].
  cbn [getFrom lookup_path].
  assert (forall sn x, match s with [] => inl x | _ :: _ => getFrom sn x s end = inl v <->
                    lookup_path x s = Some v) as IH'.
  { intros sn x. destruct s as [|c' s]; [simpl; split; congruence|]. by apply IH. }
  destruct c as [f|i]; destruct it as [| | | | |a|m]; cbn [child]; try (split; done).
  - destruct (m !! f) as [x|]; [apply IH'|split; done].
  - destruct (len a <=? i)%N eqn:E; [split; done|].
    apply len_leb_false in E. destruct (len_lookup a i E) as [x ->]. apply IH'.
Qed.

Lemma getValue_lookup (p : Paved) (s : Segments) (v : any) :
  s <> [] -> getValue p s = inl v <-> lookup_path (root p) s = Some v.
Proof. apply getFrom_lookup. Qed.

(** ** Setting, at the level of trees *)

Definition small_index (s : Segment) : bool :=
  match s with SegmentIndex i => (i <? 2 ^ 32)%N | SegmentField _ => true end.

(** What [prepareElement] and [prepareField] make of an existing element. *)
Definition prepared (next : Segment) (e : any) : any :=
  match e with ANil => emptyFor next | _ => extendFor next e end.

(** An array is long enough for the index that is about to be written. *)
Definition ready (t : any) (next : Segment) : Prop :=
  match t, next with
  | AArray a, SegmentIndex i => (i < len a)%N
  | _, _ => True
  end.

Lemma len_makeSlice (n : N) : len (makeSlice n) = n.
Proof. unfold len, makeSlice. rewrite length_replicate. lia. Qed.

Lemma len_app {A} (a b : list A) : len (a ++ b) = (len a + len b)%N.
Proof. unfold len. rewrite length_app. lia. Qed.

Lemma ready_emptyFor (next : Segment) : small_index next = true -> ready (emptyFor next) next.
Proof.
  destruct next as [f|i]; simpl; [done|]. intros H%N.ltb_lt.
  rewrite len_makeSlice, u64_small; lia.
Qed.

Lemma ready_extendFor (next : Segment) (e : any) :
  small_index next = true -> ready (extendFor next e) next.
Proof.
  destruct next as [f|i]; simpl; [by destruct e|]. intros H%N.ltb_lt.
  destruct e as [| | | | |a|]; simpl; try done.
  destruct (N.ltb_spec i (len a)); simpl; [done|].
  rewrite len_app, len_makeSlice, u64_small; lia.
Qed.

Lemma ready_prepared (next : Segment) (e : any) :
  small_index next = true -> ready (prepared next e) next.
Proof. intros H. destruct e; simpl; first [by apply ready_emptyFor|by apply (ready_extendFor next)]. Qed.

Lemma prepareElement_spec (a : list any) (i : N) (next : Segment) :
  (i < len a)%N ->
  exists e, a !! N.to_nat i = Some e /\
    prepareElement a i next = Some (<[N.to_nat i := prepared next e]> a) /\
    (<[N.to_nat i := prepared next e]> a : list any) !! N.to_nat i = Some (prepared next e).
Proof.
  intros H. destruct (len_lookup a i H) as [e He]. exists e. split; [done|]. split.
  - unfold prepareElement. rewrite (proj2 (len_leb_false a i)), He by done. by destruct e.
  - apply list_lookup_insert_eq. by apply lookup_lt_Some in He.
Qed.

Lemma prepareElement_None (a : list any) (i : N) (next : Segment) :
  (len a <= i)%N -> prepareElement a i next = None.
Proof. intros H. unfold prepareElement. by rewrite (proj2 (N.leb_le _ _)). Qed.

(** What the segment before [next] holds once [prepareField] ran. *)
Definition preparedField (m : gmap string any) (f : string) (next : Segment) : any :=
  match m !! f with None => emptyFor next | Some e => extendFor next e end.

Lemma prepareField_spec (m : gmap string any) (f : string) (next : Segment) :
  prepareField m f next = <[f := preparedField m f next]> m.
Proof. unfold prepareField, preparedField. by destruct (m !! f). Qed.

Lemma ready_preparedField (m : gmap string any) (f : string) (next : Segment) :
  small_index next = true -> ready (preparedField m f next) next.
Proof.
  intros H. unfold preparedField. destruct (m !! f); [by apply ready_extendFor|by apply ready_emptyFor].
Qed.

(** One step of the loop of [setValue] on an array and on an object. *)
Lemma setLoop_array_eq (seen : Segments) (a : list any) (i : N) (next : Segment) (s : Segments) (v : any) :
  setLoop seen (AArray a) (SegmentIndex i :: next :: s) v =
  match prepareElement a i next with
  | None => (AArray a, outOfRange)
  | Some a' => match a' !! N.to_nat i with
               | None => (AArray a', outOfRange)
               | Some c => let '(c', o) := setLoop (seen ++ [SegmentIndex i]) c (next :: s) v in
                           (AArray (<[N.to_nat i := c']> a'), o)
               end
  end.
Proof. reflexivity. Qed.

Lemma setLoop_object_eq (seen : Segments) (m : gmap string any) (f : string) (next : Segment) (s : Segments) (v : any) :
  setLoop seen (AObject m) (SegmentField f :: next :: s) v =
  match prepareField m f next !! f with
  | None => (AObject (prepareField m f next), Done)
  | Some c => let '(c', o) := setLoop (seen ++ [SegmentField f]) c (next :: s) v in
              (AObject (<[f := c']> (prepareField m f next)), o)
  end.
Proof. reflexivity. Qed.

Lemma setLoop_index (seen : Segments) (a : list any) (i : N) (next : Segment) (s : Segments) (v : any) :
  (i < len a)%N ->
  exists e, a !! N.to_nat i = Some e /\
    setLoop seen (AArray a) (SegmentIndex i :: next :: s) v =
    let '(c, o) := setLoop (seen ++ [SegmentIndex i]) (prepared next e) (next :: s) v in
    (AArray (<[N.to_nat i := c]> a), o).
Proof.
  intros H. destruct (prepareElement_spec a i next H) as (e & He & Hp & Hl). exists e. split; [done|].
  rewrite setLoop_array_eq, Hp, Hl. destruct (setLoop _ _ (next :: s) v) as [c o].
  by rewrite list_insert_insert_eq.
Qed.

Lemma setLoop_field (seen : Segments) (m : gmap string any) (f : string) (next : Segment) (s : Segments) (v : any) :
  setLoop seen (AObject m) (SegmentField f :: next :: s) v =
  let '(c, o) := setLoop (seen ++ [SegmentField f]) (preparedField m f next) (next :: s) v in
  (AObject (<[f := c]> m), o).
Proof.
  rewrite setLoop_object_eq, prepareField_spec, lookup_insert_eq.
  destruct (setLoop _ _ (next :: s) v) as [c o]. by rewrite insert_insert_eq.
Qed.

Lemma setLoop_index_oob (seen : Segments) (a : list any) (i : N) (s : Segments) (v : any) :
  (len a <= i)%N -> setLoop seen (AArray a) (SegmentIndex i :: s) v = (AArray a, outOfRange).
Proof.
  intros H. destruct s as [|next s].
  - simpl. by rewrite (proj2 (N.leb_le _ _)).
  - by rewrite setLoop_array_eq, prepareElement_None.
Qed.

Lemma setLoop_no_panic (seen : Segments) (t : any) (c : Segment) (s : Segments) (v : any) :
  ready t c -> forallb small_index s = true -> is_panic (setLoop seen t (c :: s) v).2 = false.
Proof.
  revert seen t c. induction s as [|next s IH]; intros seen t c Hr Hs.
  - destruct c as [f|i], t as [| | | | |a|m]; try done. simpl in *.
    by rewrite (proj2 (len_leb_false _ _)).
  - simpl in Hs. apply andb_true_iff in Hs as [Hn Hs].
    destruct c as [f|i], t as [| | | | |a|m]; try done.
    + rewrite setLoop_field. pose proof (IH (seen ++ [SegmentField f]) _ next (ready_preparedField m f next Hn) Hs) as IH'.
      by destruct (setLoop _ _ (next :: s) v).
    + destruct (setLoop_index seen a i next s v Hr) as (e & He & ->).
      pose proof (IH (seen ++ [SegmentIndex i]) _ next (ready_prepared next e Hn) Hs) as IH'.
      by destruct (setLoop _ _ (next :: s) v).
Qed.

(** Reading a path after it was set. *)
Lemma setLoop_get (seen : Segments) (t t' : any) (s : Segments) (v : any) :
  s <> [] -> setLoop seen t s v = (t', Done) -> lookup_path t' s = Some v.
Proof.
  intros Hs. destruct s as [|c s]; [done|]. clear Hs. revert seen t t' c.
  induction s as [|next s IH]; intros seen t t' c H.
  - destruct c as [f|i], t as [| | | | |a|m]; try done; simpl in H.
    + simplify_eq. simpl. by rewrite lookup_insert_eq.
    + destruct (len a <=? i)%N eqn:E; [done|]. simplify_eq.
      apply len_leb_false in E. cbn [lookup_path].
      rewrite child_index by (unfold len in *; by rewrite length_insert).
      rewrite list_lookup_insert_eq; [done|]. unfold len in E. lia.
  - destruct c as [f|i], t as [| | | | |a|m]; try done.
    + rewrite setLoop_field in H.
      destruct (setLoop _ _ (next :: s) v) as [x o] eqn:E. simplify_eq.
      apply IH in E. cbn [lookup_path child]. by rewrite lookup_insert_eq.
    + destruct (decide (i < len a)%N) as [Hi|Hi].
      * destruct (setLoop_index seen a i next s v Hi) as (e & He & Hl). rewrite Hl in H.
        destruct (setLoop _ _ (next :: s) v) as [x o] eqn:E. simplify_eq.
        apply IH in E. cbn [lookup_path].
        rewrite child_index by (unfold len in *; by rewrite length_insert).
        rewrite list_lookup_insert_eq by (by apply lookup_lt_Some in He). exact E.
      * rewrite setLoop_index_oob in H by lia. done.
Qed.

(** Two paths that differ at some segment both of them have. *)
Fixpoint diverge (s q : Segments) : bool :=
  match s, q with
  | a :: s', b :: q' => if decide (a = b) then diverge s' q' else true
  | _, _ => false
  end.

Lemma prepared_child (next c : Segment) (e x : any) :
  child e c = Some x -> child (prepared next e) c = Some x.
Proof.
  destruct e as [| | | | |a|m]; [by destruct c..| |by destruct next].
  destruct next as [f|n]; [done|]. destruct c as [g|i]; [done|].
  simpl prepared. destruct (n <? len a)%N; [done|].
  rewrite !child_index_Some. intros H. by apply lookup_app_l_Some.
Qed.

Lemma preparedField_child (m : gmap string any) (f : string) (next c : Segment) (e x : any) :
  m !! f = Some e -> child e c = Some x -> child (preparedField m f next) c = Some x.
Proof.
  intros Hf H. unfold preparedField. rewrite Hf.
  destruct e; [by destruct c|by apply (prepared_child next) in H..].
Qed.

(** A value at a path that diverges from the one being set is left alone,
    whatever the outcome. *)
Lemma setLoop_frame (seen : Segments) (t t' : any) (s q : Segments) (v x : any) (o : outcome) :
  setLoop seen t s v = (t', o) -> diverge s q = true ->
  lookup_path t q = Some x -> lookup_path t' q = Some x.
Proof.
  revert seen t t' q o. induction s as [|c s IH]; intros seen t t' q o H Hd Hq; [done|].
  destruct q as [|b q]; [done|]. simpl in Hd.
  destruct c as [f|i], t as [| | | | |a|m]; try (cbn [setLoop] in H; by simplify_eq).
  - destruct b as [g|j]; [|done]. cbn [lookup_path child] in Hq |- *.
    destruct (m !! g) as [e|] eqn:Hg; [|done].
    destruct s as [|next s].
    + simpl in H. simplify_eq. cbn [child]. case_decide; simplify_eq.
      rewrite lookup_insert_ne, Hg by congruence. done.
    + rewrite setLoop_field in H. destruct (setLoop _ _ (next :: s) v) as [c' o'] eqn:E. simplify_eq.
      cbn [child]. case_decide as Hfg; simplify_eq.
      * rewrite lookup_insert_eq. destruct q as [|b q]; [done|].
        eapply IH; [exact E|done|]. cbn [lookup_path] in Hq |- *.
        destruct (child e b) as [y|] eqn:Hy; [|done].
        by rewrite (preparedField_child _ _ _ _ _ _ Hg Hy).
      * rewrite lookup_insert_ne, Hg by congruence. done.
  - destruct b as [g|j]; [done|]. cbn [lookup_path] in Hq |- *.
    destruct (child (AArray a) (SegmentIndex j)) as [e|] eqn:Hj; [|done].
    apply child_index_Some in Hj.
    destruct (decide (i < len a)%N) as [Hi|Hi];
      [|rewrite setLoop_index_oob in H by lia; simplify_eq; cbn [lookup_path];
        by rewrite (proj2 (child_index_Some a j e) Hj)].
    destruct s as [|next s].
    + simpl in H. rewrite (proj2 (len_leb_false _ _)) in H by done. simplify_eq.
      case_decide; simplify_eq.
      assert ((<[N.to_nat i:=v]> a : list any) !! N.to_nat j = Some e) as Hj'.
      { rewrite list_lookup_insert_ne; [done|]. intros Heq%N2Nat.inj. congruence. }
      by rewrite (proj2 (child_index_Some _ j e) Hj').
    + destruct (setLoop_index seen a i next s v Hi) as (e' & He' & Hl). rewrite Hl in H. clear Hl.
      destruct (setLoop _ _ (next :: s) v) as [c' o'] eqn:E. simplify_eq.
      case_decide as Hij; simplify_eq.
      * assert ((<[N.to_nat j:=c']> a : list any) !! N.to_nat j = Some c') as Hj'.
        { apply list_lookup_insert_eq. by apply lookup_lt_Some in Hj. }
        rewrite (proj2 (child_index_Some _ j c') Hj'). destruct q as [|b q]; [done|].
        eapply IH; [exact E|done|]. cbn [lookup_path] in Hq |- *.
        destruct (child e b) as [y|] eqn:Hy; [|done].
        by rewrite (prepared_child next _ _ _ Hy).
      * assert ((<[N.to_nat i:=c']> a : list any) !! N.to_nat j = Some e) as Hj'.
        { rewrite list_lookup_insert_ne; [done|]. intros Heq%N2Nat.inj. congruence. }
        by rewrite (proj2 (child_index_Some _ j e) Hj').
Qed.

(** ** Deleting, at the level of trees *)

Lemma length_shiftLoop (n i : nat) (a : list any) : length (shiftLoop n i a) = length a.
Proof.
  revert i a. induction n as [|n IH]; intros i a; simpl; [done|].
  destruct (a !! S i); [|done]. by rewrite IH, length_insert.
Qed.

Lemma lookup_shiftLoop (n i j : nat) (a : list any) :
  i + n < length a ->
  shiftLoop n i a !! j = if decide (i <= j < i + n) then a !! S j else a !! j.
Proof.
  revert i a. induction n as [|n IH]; intros i a Hl; simpl.
  - case_decide; [lia|done].
  - destruct (lookup_lt_is_Some_2 a (S i) ltac:(lia)) as [x Hx]. rewrite Hx.
    rewrite IH by (rewrite length_insert; lia).
    destruct (decide (j = i)) as [->|Hj].
    + rewrite decide_False by lia. rewrite decide_True by lia.
      by rewrite list_lookup_insert_eq by lia.
    + destruct (decide (S i <= j < S i + n)).
      * rewrite decide_True by lia. by rewrite list_lookup_insert_ne by lia.
      * rewrite decide_False by lia. by rewrite list_lookup_insert_ne by lia.
Qed.

(** The shifting loop of [deleteField] removes one element. *)
Lemma shiftLoop_remove_at (i : nat) (a : list any) :
  i < length a ->
  take (length a - 1) (shiftLoop (length a - 1 - i) i a) = remove_at i a.
Proof.
  intros Hi. apply list_eq. intros j.
  destruct (decide (j < length a - 1)) as [Hj|Hj].
  - rewrite lookup_take_lt, lookup_shiftLoop by lia. case_decide.
    + by rewrite lookup_remove_at_ge by lia.
    + by rewrite lookup_remove_at_lt by lia.
  - rewrite !lookup_ge_None_2; [done| |].
    + rewrite length_remove_at; lia.
    + rewrite length_take. lia.
Qed.

Lemma deleteField_index (a : list any) (i : N) :
  (i < len a)%N ->
  deleteField (AArray a) (SegmentIndex i) = inl (AArray (remove_at (N.to_nat i) a)).
Proof.
  intros H. simpl. rewrite (proj2 (len_leb_false a i)) by done. unfold len in H.
  rewrite bool_decide_eq_false_2 by lia. simpl. by rewrite shiftLoop_remove_at by lia.
Qed.

Lemma getFrom_cons (seen : Segments) (it x : any) (c n : Segment) (s : Segments) :
  child it c = Some x -> getFrom seen it (c :: n :: s) = getFrom (seen ++ [c]) x (n :: s).
Proof.
  intros H. destruct c as [f|i], it as [| | | | |a|m]; try done.
  - simpl in H. cbn [getFrom]. by rewrite H.
  - cbn [child] in H. cbn [getFrom]. destruct (len a <=? i)%N; [done|]. by rewrite H.
Qed.

(** One step of the loop of [delete] that is not the last. *)
Definition put_child (it : any) (c : Segment) (x : any) : any :=
  match c, it with
  | SegmentIndex i, AArray a => AArray (<[N.to_nat i := x]> a)
  | SegmentField f, AObject m => AObject (<[f := x]> m)
  | _, _ => it
  end.

Lemma child_put_child (it : any) (c : Segment) (x y : any) :
  child it c = Some y -> child (put_child it c x) c = Some x.
Proof.
  destruct c as [f|i], it as [| | | | |a|m]; try done.
  - simpl. by rewrite lookup_insert_eq.
  - intros H%child_index_Some. simpl put_child. apply child_index_Some.
    apply list_lookup_insert_eq. by apply lookup_lt_Some in H.
Qed.

Lemma child_put_child_ne (it : any) (c d : Segment) (x : any) :
  c <> d -> child (put_child it c x) d = child it d.
Proof.
  destruct c as [f|i], it as [| | | | |a|m], d as [g|j]; try done; intros Hne; cbn [child put_child].
  - by rewrite lookup_insert_ne by congruence.
  - unfold len. rewrite length_insert. destruct (_ <=? _)%N; [done|].
    rewrite list_lookup_insert_ne; [done|]. intros Heq%N2Nat.inj. congruence.
Qed.

Lemma deleteLoop_step (segs seen : Segments) (t x : any) (c n1 n2 : Segment) (s : Segments) :
  child t c = Some x ->
  deleteLoop segs seen t (c :: n1 :: n2 :: s) =
  let '(x', err) := deleteLoop segs (seen ++ [c]) x (n1 :: n2 :: s) in (put_child t c x', err).
Proof.
  intros H. destruct c as [f|i], t as [| | | | |a|m]; try done.
  - simpl in H. cbn [deleteLoop]. rewrite H. done.
  - cbn [child] in H. cbn [deleteLoop]. destruct (len a <=? i)%N; [done|]. rewrite H. done.
Qed.

Lemma deleteLoop_last (segs seen : Segments) (t x : any) (c final : Segment) :
  child t c = Some x ->
  deleteLoop segs seen t [c; final] =
  match deleteField x final with
  | inr err => (t, Some (errDelete segs err))
  | inl o => (put_child t c o, None)
  end.
Proof.
  intros H. destruct c as [f|i], t as [| | | | |a|m]; try done.
  - simpl in H. cbn [deleteLoop]. rewrite H. done.
  - cbn [child] in H. cbn [deleteLoop]. destruct (len a <=? i)%N; [done|]. rewrite H. done.
Qed.

(** When a segment of the path is missing, delete does nothing and get finds
    nothing; anything that is not a container of the right kind is an error. *)
Lemma deleteLoop_missing (segs seen : Segments) (t t' : any) (c : Segment) (s : Segments) :
  child t c = None -> deleteLoop segs seen t (c :: s) = (t', None) ->
  t' = t /\ forall sn q, exists e, getFrom sn t (c :: q) = inr e /\ IsFieldNotFound e = true.
Proof.
  intros H. destruct c as [f|i], t as [| | | | |a|m]; try done.
  - simpl in H. cbn [deleteLoop]. rewrite H. intros [= <-]. split; [done|].
    intros sn q. cbn [getFrom]. rewrite H. by eexists.
  - cbn [child] in H. cbn [deleteLoop]. destruct (len a <=? i)%N eqn:E.
    + intros [= <-]. split; [done|]. intros sn q. cbn [getFrom]. rewrite E. by eexists.
    + apply len_leb_false in E. destruct (len_lookup a i E) as [x Hx]. congruence.
Qed.

(** [delete] on a path of at least two segments, when it returns nil. *)
Lemma deleteLoop_spec (segs seen : Segments) (t t' : any) (s : Segments) (final : Segment) :
  s <> [] -> deleteLoop segs seen t (s ++ [final]) = (t', None) ->
  (t' = t /\ forall sn, exists e, getFrom sn t (s ++ [final]) = inr e /\ IsFieldNotFound e = true) \/
  (exists obj o, lookup_path t s = Some obj /\ deleteField obj final = inl o /\ lookup_path t' s = Some o /\
     forall q x, diverge s q = true -> lookup_path t q = Some x -> lookup_path t' q = Some x).
Proof.
  revert seen t t'. induction s as [|c s IH]; intros seen t t' Hs H; [done|]. clear Hs.
  assert (forall t1 q x y s1, child t1 c = Some y -> diverge (c :: s1) q = true ->
     lookup_path t1 q = Some x -> (exists q', q = c :: q' /\ diverge s1 q' = true /\ lookup_path y q' = Some x)
     \/ (exists b q', q = b :: q' /\ c <> b)) as Hcase.
  { intros t1 [|b q] x y s1 Hy Hd Hq; [done|]. simpl in Hd. case_decide; simplify_eq; [left|right; eauto].
    exists q. split_and!; [done..|]. cbn [lookup_path] in Hq. by rewrite Hy in Hq. }
  destruct (child t c) as [x|] eqn:Hc.
  2: { left. cbn [app] in H |- *. destruct (deleteLoop_missing _ _ _ _ _ _ Hc H) as [-> Hm]. auto. }
  assert (forall x' q z, (forall q', q = c :: q' -> lookup_path x' q' = Some z) ->
     lookup_path t q = Some z -> (exists b q', q = b :: q') -> lookup_path (put_child t c x') q = Some z) as Hput.
  { intros x' q z Hz Hq (b & q' & ->). cbn [lookup_path] in Hq |- *. destruct (decide (c = b)) as [->|Hne].
    - rewrite (child_put_child _ _ _ _ Hc). by apply Hz.
    - by rewrite child_put_child_ne. }
  destruct s as [|n s].
  - cbn [app] in H |- *. rewrite (deleteLoop_last _ _ _ _ _ _ Hc) in H.
    destruct (deleteField x final) as [o|err] eqn:Ed; simplify_eq. right. exists x, o.
    cbn [lookup_path]. rewrite Hc, (child_put_child _ _ _ _ Hc). split_and!; [done..|].
    intros q z Hd Hq. destruct (Hcase _ _ _ _ _ Hc Hd Hq) as [(q' & -> & Hd' & Hq')|(b & q' & -> & Hne)]; [done|].
    apply Hput; [congruence|done|eauto].
  - cbn [app] in H |- *. destruct (s ++ [final]) as [|n2 s2] eqn:Es; [by destruct s|].
    rewrite (deleteLoop_step _ _ _ _ _ _ _ _ Hc) in H.
    destruct (deleteLoop _ _ x (n :: n2 :: s2)) as [x' err] eqn:E. simplify_eq.
    rewrite <- Es in E. destruct (IH _ _ _ ltac:(done) E) as [[-> Hm]|(obj & o & H1 & H2 & H3 & H4)].
    + left. split.
      * clear -Hc. destruct c as [f|i], t as [| | | | |a|m]; try done; simpl.
        -- simpl in Hc. by rewrite insert_id.
        -- apply child_index_Some in Hc. by rewrite list_insert_id.
      * intros sn. rewrite (getFrom_cons _ _ _ _ _ _ Hc). rewrite <- Es. apply Hm.
    + right. exists obj, o. cbn [lookup_path]. rewrite Hc, (child_put_child _ _ _ _ Hc). split_and!; [done..|].
      intros q z Hd Hq. destruct (Hcase _ _ _ _ _ Hc Hd Hq) as [(q' & -> & Hd' & Hq')|(b & q' & -> & Hne)].
      * cbn [lookup_path]. rewrite (child_put_child _ _ _ _ Hc). by apply H4.
      * apply Hput; [congruence|done|eauto].
Qed.

(** ** Bounded arrays *)

(** No array of the tree is longer than [n]. *)
Definition bounded (n : N) (it : any) : Prop :=
  forall q a, lookup_path it q = Some (AArray a) -> (len a <= n)%N.

Definition shallow_bounded (n : N) (it : any) : Prop :=
  match it with AArray a => (len a <= n)%N | _ => True end.

Lemma bounded_child (n : N) (it x : any) (c : Segment) :
  bounded n it -> child it c = Some x -> bounded n x.
Proof. intros H Hc q a Hq. apply (H (c :: q)). cbn [lookup_path]. by rewrite Hc. Qed.

Lemma bounded_intro (n : N) (it : any) :
  shallow_bounded n it -> (forall c x, child it c = Some x -> bounded n x) -> bounded n it.
Proof.
  intros Hs Hc [|c q] a Hq.
  - simpl in Hq. by simplify_eq.
  - cbn [lookup_path] in Hq. destruct (child it c) as [x|] eqn:E; [|done]. by apply (Hc c x E q).
Qed.

Lemma bounded_shallow (n : N) (it : any) : bounded n it -> shallow_bounded n it.
Proof. intros H. destruct it; try done. by apply (H []). Qed.

Lemma bounded_put_child (n : N) (it x : any) (c : Segment) :
  bounded n it -> bounded n x -> bounded n (put_child it c x).
Proof.
  intros Hi Hx. apply bounded_intro.
  - pose proof (bounded_shallow n it Hi) as Hs. destruct c, it; try done.
    simpl in *. unfold len. by rewrite length_insert.
  - intros d y Hy. destruct (decide (c = d)) as [->|Hne].
    + destruct d as [f|i], it as [| | | | |a|m]; try done.
      * simpl in Hy. rewrite lookup_insert_eq in Hy. by simplify_eq.
      * simpl put_child in Hy. apply child_index_Some in Hy.
        apply list_lookup_insert_Some in Hy as [(_ & -> & _)|(Hne & _)]; done.
    + rewrite child_put_child_ne in Hy by done. exact (bounded_child n it y d Hi Hy).
Qed.

Lemma bounded_insert_field (n : N) (m : gmap string any) (f : string) (x : any) :
  bounded n (AObject m) -> bounded n x -> bounded n (AObject (<[f := x]> m)).
Proof. apply (bounded_put_child n (AObject m) x (SegmentField f)). Qed.

Lemma bounded_scalar (n : N) (it : any) : (forall c, child it c = None) -> shallow_bounded n it -> bounded n it.
Proof. intros H Hs. apply bounded_intro; [done|]. intros c x. by rewrite H. Qed.

Lemma bounded_nil (n : N) : bounded n ANil.
Proof. apply bounded_scalar; [by intros []|done]. Qed.

Lemma bounded_append_nils (n : N) (a : list any) (k : N) :
  bounded n (AArray a) -> (len a + k <= n)%N -> bounded n (AArray (a ++ makeSlice k)).
Proof.
  intros Ha Hk. apply bounded_intro.
  - simpl. by rewrite len_app, len_makeSlice.
  - intros [f|i] x Hx; [done|]. apply child_index_Some in Hx.
    apply lookup_app_Some in Hx as [Hx|[_ Hx]].
    + eapply bounded_child; [exact Ha|]. by apply child_index_Some.
    + apply lookup_replicate in Hx as [-> _]. apply bounded_nil.
Qed.

(** The index is within the bound, with room for the array that holds it. *)
Definition index_le (max : N) (s : Segment) : Prop :=
  match s with SegmentIndex i => (i <= max)%N /\ (i < 2 ^ 32)%N | SegmentField _ => True end.

Lemma bounded_emptyFor (n max : N) (next : Segment) :
  index_le max next -> (max + 1 <= n)%N -> bounded n (emptyFor next).
Proof.
  intros Hi Hn. destruct next as [f|i]; simpl.
  - apply bounded_scalar; [|done]. by intros [].
  - destruct Hi as [Hi Hs]. apply (bounded_append_nils n []).
    + apply bounded_scalar; [intros [f|j]; [done|]; simpl; by destruct (_ <=? _)%N|]. simpl. unfold len. simpl. lia.
    + unfold len. simpl. rewrite u64_small by lia. lia.
Qed.

Lemma bounded_extendFor (n max : N) (next : Segment) (e : any) :
  index_le max next -> (max + 1 <= n)%N -> bounded n e -> bounded n (extendFor next e).
Proof.
  intros Hi Hn He. destruct next as [f|i], e as [| | | | |a|m]; try done.
  simpl. destruct (N.ltb_spec i (len a)); [done|]. destruct Hi as [Hi Hs].
  apply bounded_append_nils; [done|]. rewrite u64_small by lia. lia.
Qed.

Lemma setLoop_bounded (n max : N) (seen : Segments) (t t' : any) (s : Segments) (v : any) (o : outcome) :
  (max + 1 <= n)%N -> Forall (index_le max) s -> bounded n v ->
  bounded n t -> setLoop seen t s v = (t', o) -> bounded n t'.
Proof.
  intros Hn Hs Hv. revert seen t t' o. induction Hs as [|c s Hc Hs IH]; intros seen t t' o Ht H;
    [simpl in H; by simplify_eq|].
  destruct c as [f|i], t as [| | | | |a|m]; try (cbn [setLoop] in H; by simplify_eq).
  - destruct s as [|next s].
    + simpl in H. simplify_eq. by apply bounded_insert_field.
    + rewrite setLoop_field in H. destruct (setLoop _ _ (next :: s) v) as [c' o'] eqn:E. simplify_eq.
      apply bounded_insert_field; [done|]. eapply IH; [|exact E]. inv Hs. unfold preparedField.
      destruct (m !! f) as [e|] eqn:Hf; [|by eapply bounded_emptyFor].
      eapply bounded_extendFor; [done..|]. by eapply (bounded_child n _ e (SegmentField f)).
  - destruct (decide (i < len a)%N) as [Hi|Hi];
      [|rewrite setLoop_index_oob in H by lia; by simplify_eq].
    destruct s as [|next s].
    + simpl in H. rewrite (proj2 (len_leb_false _ _)) in H by done. simplify_eq.
      by apply (bounded_put_child n (AArray a) v (SegmentIndex i)).
    + destruct (setLoop_index seen a i next s v Hi) as (e & He & Hl). rewrite Hl in H.
      destruct (setLoop _ _ (next :: s) v) as [c' o'] eqn:E. simplify_eq.
      apply (bounded_put_child n (AArray a) c' (SegmentIndex i)); [done|].
      eapply IH; [|exact E]. inv Hs.
      assert (bounded n e) by (eapply bounded_child; [exact Ht|by apply child_index_Some]).
      unfold prepared. destruct e; first [by eapply bounded_emptyFor|by eapply (bounded_extendFor n max next)].
Qed.

Lemma checkIndices_None (max : N) (s : Segments) :
  checkIndices max s = None ->
  Forall (fun c => match c with SegmentIndex i => (i <= max)%N | _ => True end) s.
Proof.
  induction s as [|[f|i] s IH]; simpl; [constructor|intros; constructor; auto|].
  destruct (N.ltb_spec max i); [done|]. intros. constructor; auto.
Qed.

Lemma parsed_small (s : Segments) : forallb parsed_segment s = true -> forallb small_index s = true.
Proof.
  rewrite !forallb_forall. intros H x Hx. specialize (H x Hx). by destruct x.
Qed.

Lemma parsed_index_le (max : N) (s : Segments) :
  forallb parsed_segment s = true -> checkIndices max s = None -> Forall (index_le max) s.
Proof.
  intros Hp Hc%checkIndices_None. rewrite forallb_forall in Hp. rewrite Forall_forall in *.
  intros c Hin. specialize (Hc c Hin). specialize (Hp c ltac:(by apply list_elem_of_In)).
  destruct c; [done|]. simpl in Hp. apply N.ltb_lt in Hp. done.
Qed.

(** [delete] of a parsed path, when it returns nil: either nothing was there,
    or the parent of the path is what [deleteField] makes of it. *)
Lemma deleteLoop_object (segs seen : Segments) (m : gmap string any) (s : Segments) :
  exists m', (deleteLoop segs seen (AObject m) s).1 = AObject m' /\ (m = ∅ -> m' = ∅).
Proof.
  destruct s as [|[f|i] s]; [by exists m| |by exists m]. cbn [deleteLoop].
  destruct (m !! f) as [x|] eqn:E; [|by exists m].
  assert (m = ∅ -> False) as Hm by (intros ->; by rewrite lookup_empty in E).
  destruct s as [|n [|n2 s]]; cbn zeta; repeat split_match; simplify_eq; simpl; eexists; (split; [done|]); tauto.
Qed.

Lemma delete_spec (p p' : Paved) (s : Segments) (final : Segment) :
  delete p (s ++ [final]) = (p', None) ->
  (p' = p /\ exists e, getValue p (s ++ [final]) = inr e /\ IsFieldNotFound e = true) \/
  (exists obj o, lookup_path (root p) s = Some obj /\ deleteField obj final = inl o /\
     lookup_path (root p') s = Some o /\
     forall q x, diverge s q = true -> lookup_path (root p) q = Some x -> lookup_path (root p') q = Some x).
Proof.
  assert (forall m', (object p = None -> m' = ∅) ->
    root (match object p with Some _ => MkPaved (Some m') (maxFieldPathIndex p) | None => p end) = AObject m') as Hput.
  { intros m' H. unfold root. destruct (object p) eqn:E; [done|]. rewrite E. simpl. by rewrite H. }
  destruct s as [|c s].
  - cbn [app delete]. destruct (deleteField (root p) final) as [o|] eqn:E; [|done]. intros [= <-].
    right. exists (root p), o. split_and!; [done..| |done]. simpl.
    destruct final as [f|i]; simpl in E; simplify_eq. f_equal. apply Hput. intros ->. apply delete_empty.
  - intros H. unfold delete in H.
    assert ((let '(t, err) := deleteLoop ((c :: s) ++ [final]) [] (root p) ((c :: s) ++ [final]) in
      (match t with
       | AObject m => match object p with Some _ => MkPaved (Some m) (maxFieldPathIndex p) | None => p end
       | _ => p end, err)) = (p', None)) as H'.
    { revert H. cbn [app]. by destruct (s ++ [final]) eqn:E; [destruct s|]. }
    clear H. destruct (deleteLoop_object ((c :: s) ++ [final]) [] (default ∅ (object p)) ((c :: s) ++ [final])) as (m' & Hm' & He).
    unfold root in H' at 1. destruct (deleteLoop _ _ _ _) as [t err] eqn:EL. simpl in Hm'. subst t. simplify_eq.
    destruct (deleteLoop_spec _ _ _ _ (c :: s) final ltac:(done) EL) as [[Ht Hm]|(obj & o & H1 & H2 & H3 & H4)].
    + left. split; [|apply Hm]. simplify_eq. destruct p as [[mp|] mx]; done.
    + right. exists obj, o. rewrite Hput by (intros Hn; apply He; by rewrite Hn). done.
Qed.

(** A path whose last segment is missing is not found. *)
Lemma getFrom_missing (seen : Segments) (it obj : any) (s : Segments) (f : string) :
  lookup_path it s = Some obj -> (exists m, obj = AObject m /\ m !! f = None) ->
  exists e, getFrom seen it (s ++ [SegmentField f]) = inr e /\ IsFieldNotFound e = true.
Proof.
  intros H (m & -> & Hf). revert seen it H. induction s as [|c s IH]; intros seen it H; simpl in H.
  - simplify_eq. simpl. rewrite Hf. by eexists.
  - destruct (child it c) as [x|] eqn:E; [|done]. cbn [app].
    destruct (s ++ [SegmentField f]) as [|n q] eqn:Es; [by destruct s|].
    rewrite (getFrom_cons _ _ _ _ _ _ E). by apply IH.
Qed.

Lemma lookup_path_app (it : any) (s q : Segments) :
  lookup_path it (s ++ q) = match lookup_path it s with Some x => lookup_path x q | None => None end.
Proof. revert it. induction s as [|c s IH]; intros it; simpl; [done|]. by destruct (child it c). Qed.

Lemma diverge_snoc (s q : Segments) (a : Segment) :
  diverge (s ++ [a]) q = true -> diverge s q = true \/ exists b q', q = s ++ b :: q' /\ a <> b.
Proof.
  revert q. induction s as [|c s IH]; intros [|b q]; simpl; try done.
  - case_decide; [done|]. intros _. right. by exists b, q.
  - case_decide; [|auto]. subst. intros [?|(d & q' & -> & ?)]%IH; [auto|]. right. by exists d, q'.
Qed.

Lemma delete_frame (t t' : any) (s q : Segments) (f : string) (m : gmap string any) (x : any) :
  lookup_path t s = Some (AObject m) -> lookup_path t' s = Some (AObject (base.delete f m)) ->
  (forall q x, diverge s q = true -> lookup_path t q = Some x -> lookup_path t' q = Some x) ->
  diverge (s ++ [SegmentField f]) q = true -> lookup_path t q = Some x -> lookup_path t' q = Some x.
Proof.
  intros H1 H2 H3 [Hd|(b & q' & -> & Hb)]%diverge_snoc; [by apply H3|].
  rewrite !lookup_path_app, H1, H2. cbn [lookup_path]. destruct b as [g|i]; [|done]. cbn [child].
  rewrite lookup_delete_ne by congruence. done.
Qed.

(** ** Conversions *)

(** [convert] is the converter of k8s.io/apimachinery, ToUnstructured. *)
Definition PaveObject {Obj} (convert : Obj -> option (gmap string any) * option error) (o : Obj) (opts : list PavedOption) : Paved * option error :=
  let '(u, err) := convert o in (Pave u opts, Wrap err "cannot convert object to unstructured data").

Definition MarshalJSON `{!Json any} (p : Paved) : string + error :=
  Marshal (match object p with Some m => AObject m | None => ANil end).

(** How encoding/json names what it cannot decode into a map. *)
Definition jsonKind (v : any) : string :=
  match v with
  | ANil => "null" | ABool _ => "bool" | AString _ => "string" | AArray _ => "array" | AObject _ => "object" | _ => "number"
  end.

(** Decoding into a map keeps its other entries; null makes it nil. *)
Definition UnmarshalJSON `{!Json any} (data : string) (p : Paved) : Paved * option error :=
  match Unmarshal data with
  | inl (AObject m) => (MkPaved (Some (m ∪ default ∅ (object p))) (maxFieldPathIndex p), None)
  | inl ANil => (MkPaved None (maxFieldPathIndex p), None)
  | inl v => (p, Some (errorString ("json: cannot unmarshal " +:+ jsonKind v +:+ " into Go value of type map[string]interface {}")))
  | inr err => (p, Some err)
  end.

(** What was encoded is decoded into a new object as it was; into an object that
    has fields, those the encoded one does not have stay. *)
Lemma paved_json `{!Json any} (p q : Paved) (m : gmap string any) (b : string) :
  object p = Some m -> MarshalJSON p = inl b -> Unmarshal b = inl (AObject m) ->
  (UnmarshalJSON b q).2 = None /\
  (forall f, UnstructuredContent (UnmarshalJSON b q).1 !! f = match m !! f with Some v => Some v | None => UnstructuredContent q !! f end) /\
  (object q = None -> object (UnmarshalJSON b q).1 = Some m).
Proof.
  intros Hp Hb Hu. unfold UnmarshalJSON. rewrite Hu. cbn. split_and!; [done| |].
  - intros f. rewrite lookup_union. unfold UnstructuredContent. by destruct (m !! f), (default ∅ (object q) !! f).
  - intros ->. cbn. by rewrite map_union_empty.
Qed.

(** ** Properties *)

(** The literals of JSON, enough to run [SetBool] on concrete objects. *)
Definition JsonLiterals : Json any := {|
  Marshal v := match v with
               | ANil => inl "null" | ABool true => inl "true" | ABool false => inl "false"
               | _ => inr (errorString "unsupported")
               end;
  Unmarshal b := if bool_decide (b = "null") then inl ANil
                 else if bool_decide (b = "true") then inl (ABool true)
                 else if bool_decide (b = "false") then inl (ABool false)
                 else inr (errorString "invalid character")
|}.

Definition JsonBool : Json bool := {|
  Marshal (v : bool) := inl (if v then "true" else "false");
  Unmarshal b := if bool_decide (b = "true") then inl true
                 else if bool_decide (b = "false") then inl false
                 else inr (errorString "invalid character")
|}.

Definition demo : Paved :=
  Pave (Some {["spec" := AObject {["keep" := AInt 7; "items" := AArray [AString "x"; AString "y"; AString "z"]]}]}) [].

Section properties.
Context {T : Type} `{!Json T, !Json any}.
Implicit Types (p : Paved) (value : T) (v x : any).

(** A call of [SetValue] that returns nil, opened up. *)
Lemma SetValue_Done p p' (path : string) (s : Segments) value :
  Parse path = inl s -> s <> [] -> SetValue p path value = (p', Done) ->
  exists m m' v, object p = Some m /\ object p' = Some m' /\ toValidJSON value = inl v /\
    setLoop [] (AObject m) s v = (AObject m', Done).
Proof.
  intros Hp Hs H. unfold SetValue, setValue, setRoot in H. rewrite Hp in H.
  destruct (toValidJSON value) as [v|]; [|done]. destruct (validateSegments p s); [done|].
  destruct (object p) as [m|]; [|by destruct s as [|[]]].
  destruct (setLoop [] (AObject m) s v) as [t o] eqn:E. simplify_eq/=.
  assert (exists m', t = AObject m') as [m' ->].
  { destruct s as [|[f|i] [|next s]]; try done.
    - simpl in E. simplify_eq. by eexists.
    - rewrite setLoop_field in E. destruct (setLoop _ _ _ _). simplify_eq. by eexists. }
  by exists m, m', v.
Qed.

(** C28: after a [SetValue] that returned nil, [GetValue] of the same path
    returns the value that was set, in its JSON form, and every value at a path
    that differs from it at some segment can still be read as before. *)
Theorem paved_set_get p p' (path : string) (s : Segments) value v :
  Parse path = inl s -> s <> [] -> toValidJSON value = inl v -> SetValue p path value = (p', Done) ->
  GetValue p' path = inl v /\
  forall other q x, Parse other = inl q -> q <> [] -> diverge s q = true ->
    GetValue p other = inl x -> GetValue p' other = inl x.
Proof.
  intros Hp Hs Hv H. destruct (SetValue_Done _ _ _ _ _ Hp Hs H) as (m & m' & v' & Hm & Hm' & Hv' & HL).
  assert (v' = v) as -> by congruence. unfold GetValue. rewrite Hp. split.
  - apply getValue_lookup; [done|]. unfold root. rewrite Hm'. by eapply setLoop_get.
  - intros other q x Hq Hq0 Hd. rewrite Hq, !getValue_lookup by done.
    unfold root. rewrite Hm, Hm'. by eapply setLoop_frame.
Qed.

(** [SetValue] panics exactly when the paved object is a nil map and an
    acceptable value is set at a path that starts with a field: the indices of
    a parsed path never run past the arrays that are made or extended for
    them, whatever the object holds. *)
Theorem paved_set_panics_iff p (path : string) value :
  is_panic (SetValue p path value).2 = true <->
  object p = None /\ exists v f s, toValidJSON value = inl v /\
    Parse path = inl (SegmentField f :: s) /\ validateSegments p (SegmentField f :: s) = None.
Proof.
  unfold SetValue, setValue, setRoot. split.
  - intros H. destruct (Parse path) as [s|] eqn:Hp; [|done].
    destruct (toValidJSON value) as [v|]; [|done].
    destruct (validateSegments p s) eqn:Hval; [done|]. apply Parse_parsed, parsed_small in Hp.
    destruct (object p) as [m|].
    + destruct s as [|c s]; [done|]. exfalso.
      assert (is_panic (setLoop [] (AObject m) (c :: s) v).2 = false) as Hn.
      { apply setLoop_no_panic; [done|]. simpl in Hp. by apply andb_true_iff in Hp as [_ Hp]. }
      destruct (setLoop [] (AObject m) (c :: s) v). simpl in *. congruence.
    + destruct s as [|[f|i] s]; try done. split; [done|]. by exists v, f, s.
  - intros (Hn & v & f & s & -> & -> & ->). by rewrite Hn.
Qed.

(** C29: with a maximum index (0 means none), no [SetValue] makes an array
    longer than one more than the maximum: arrays that are longer were in the
    object or in the value already. *)
Theorem paved_set_bounded p p' (path : string) value v (o : outcome) (n : N) :
  maxFieldPathIndexEnabled p = true -> (maxFieldPathIndex p + 1 <= n)%N ->
  bounded n (root p) -> toValidJSON value = inl v -> bounded n v ->
  SetValue p path value = (p', o) -> bounded n (root p').
Proof.
  intros He Hn Hb Hv Hbv H. unfold SetValue, setValue, setRoot in H. rewrite Hv in H.
  destruct (Parse path) as [s|] eqn:Hp; [|by simplify_eq].
  unfold validateSegments in H. rewrite He in H. simpl negb in H. cbn iota in H.
  destruct (checkIndices (maxFieldPathIndex p) s) eqn:Hc; [by simplify_eq|].
  apply Parse_parsed in Hp. pose proof (parsed_index_le _ _ Hp Hc) as Hi.
  destruct (object p) as [m|] eqn:Hm; [|by simplify_eq].
  unfold root in Hb. rewrite Hm in Hb. simpl in Hb.
  destruct (setLoop [] (AObject m) s v) as [t o'] eqn:E. simplify_eq. unfold root. simpl.
  pose proof (setLoop_bounded _ _ _ _ _ _ _ _ Hn Hi Hbv Hb E) as Ht. by destruct t.
Qed.

End properties.

Lemma paved_set_get_witness :
  GetValue (SetValue (T:=bool) (Json0:=JsonBool) (Json1:=JsonLiterals) demo "spec.new[1].b" true).1 "spec.new[1].b" = inl (ABool true).
Proof.
  exact (proj1 (paved_set_get (Json0:=JsonBool) (Json1:=JsonLiterals) demo _ "spec.new[1].b"
    [SegmentField "spec"; SegmentField "new"; SegmentIndex 1; SegmentField "b"] true (ABool true)
    eq_refl ltac:(done) eq_refl ltac:(vm_compute; reflexivity))).
Defined.

Lemma paved_set_bounded_witness :
  bounded 1025 (root (SetValue (T:=bool) (Json0:=JsonBool) (Json1:=JsonLiterals) (Pave (Some ∅) []) "a[1024]" true).1).
Proof.
  apply (paved_set_bounded (Json0:=JsonBool) (Json1:=JsonLiterals) (Pave (Some ∅) []) _ "a[1024]" true (ABool true) Done);
    [reflexivity|vm_compute; done| |reflexivity|apply bounded_scalar; [by intros []|done]|].
  - apply bounded_scalar; [|done]. by intros [].
  - vm_compute. reflexivity.
Defined.

(** C30: after a [DeleteField] of a field that returned nil, the field is not
    found, and every value at a path that differs from it at some segment can
    still be read as before. *)
Theorem paved_delete_get (p p' : Paved) (path f : string) (s : Segments) :
  Parse path = inl (s ++ [SegmentField f]) -> DeleteField p path = (p', None) ->
  (exists e, GetValue p' path = inr e /\ IsFieldNotFound e = true) /\
  forall other q x, Parse other = inl q -> q <> [] -> diverge (s ++ [SegmentField f]) q = true ->
    GetValue p other = inl x -> GetValue p' other = inl x.
Proof.
  intros Hp H. unfold DeleteField in H. unfold GetValue. rewrite Hp in *.
  destruct (delete_spec _ _ _ _ H) as [[-> He]|(obj & o & H1 & H2 & H3 & H4)].
  - split; [done|]. intros other q x ->. done.
  - destruct obj as [| | | | | |m]; simpl in H2; simplify_eq. split.
    + eapply getFrom_missing; [exact H3|]. eexists. split; [done|]. apply lookup_delete_eq.
    + intros other q x Hq Hq0 Hd. rewrite Hq, !getValue_lookup by done.
      eapply delete_frame; eauto.
Qed.

Lemma paved_delete_get_witness :
  exists e, GetValue (DeleteField demo "spec.keep").1 "spec.keep" = inr e /\ IsFieldNotFound e = true.
Proof.
  exact (proj1 (paved_delete_get demo _ "spec.keep" "keep" [SegmentField "spec"]
    ltac:(vm_compute; reflexivity) ltac:(vm_compute; reflexivity))).
Defined.

(** [DeleteField] of an element of an array pulls the next elements
    back, and leaves everything outside the array alone; an index past the end
    is no error and changes nothing. *)
Theorem paved_delete_index (p p' : Paved) (path : string) (s : Segments) (i : N) (a : list any) :
  Parse path = inl (s ++ [SegmentIndex i]) -> s <> [] -> getValue p s = inl (AArray a) ->
  DeleteField p path = (p', None) ->
  getValue p' s = inl (AArray (if (i <? len a)%N then remove_at (N.to_nat i) a else a)) /\
  forall q x, diverge s q = true -> getValue p q = inl x -> q <> [] -> getValue p' q = inl x.
Proof.
  intros Hp Hs Ha H. unfold DeleteField in H. rewrite Hp in H.
  rewrite getValue_lookup in Ha |- * by done.
  destruct (delete_spec _ _ _ _ H) as [[-> (e & He & _)]|(obj & o & H1 & H2 & H3 & H4)].
  - split; [|done]. destruct (N.ltb_spec i (len a)) as [Hi|]; [|done]. exfalso.
    destruct (len_lookup a i Hi) as [x Hx].
    assert (getValue p (s ++ [SegmentIndex i]) = inl x) as Hg; [|congruence].
    apply getValue_lookup; [by destruct s|]. rewrite lookup_path_app, Ha. cbn [lookup_path].
    by rewrite (proj2 (child_index_Some a i x)).
  - assert (obj = AArray a) as -> by congruence. split.
    + rewrite H3. destruct (N.ltb_spec i (len a)) as [Hi|Hi].
      * rewrite deleteField_index in H2 by done. by simplify_eq.
      * simpl in H2. rewrite (proj2 (N.leb_le _ _)), orb_true_r in H2 by done. by simplify_eq.
    + intros q x Hd Hq Hq0. rewrite getValue_lookup in Hq |- * by done. eauto.
Qed.

Lemma paved_delete_index_witness :
  getValue (DeleteField demo "spec.items[1]").1 [SegmentField "spec"; SegmentField "items"] =
  inl (AArray [AString "x"; AString "z"]).
Proof.
  exact (proj1 (paved_delete_index demo _ "spec.items[1]" [SegmentField "spec"; SegmentField "items"] 1
    [AString "x"; AString "y"; AString "z"] ltac:(vm_compute; reflexivity) ltac:(done)
    ltac:(vm_compute; reflexivity) ltac:(vm_compute; reflexivity))).
Defined.
