(* ===== verification/Wildcards.v ===== *)
(** * Wildcard expansion and merging (pkg/fieldpath/paved.go, merge.go)

    [expandWildcards] replaces the first wildcard of a path by every index or
    key of the array or object it stands for and calls itself on the result.
    The recursion is not structural, so it is written with fuel: [None] means
    the fuel ran out.  One unit per wildcard is enough ([expand_spec]) unless
    an object has a key that reads as the wildcard itself, in which case no
    amount is ([expand_star_key]). *)

From S2P Require Import Prelude GoStrings GoErrors FieldPath Json Paved.

(** Go ranges over a map in an unspecified order, which may differ from call
    to call: the order is an oracle. *)
Class MapRange := {
  range_keys : Segments -> gmap string any -> list string;
  range_keys_perm call m : range_keys call m ≡ₚ (map_to_list m).*1
}.

Definition wildcardSegment : Segment := SegmentField wildcard.

(** [append(append(expanded[:i], seg), expanded[i+1:]...)] is [seen], the new
    segment and what follows the wildcard. *)
Section expand.
Context `{!MapRange}.

Definition errExpand (expanded : Segments) (err : error) : error :=
  wrapError (Quote (SegmentsString expanded) +:+ ": cannot expand wildcards") err.

(** The inner loops: expand each candidate, stop at the first error. *)
Fixpoint expandEach (expand : Segments -> option (list Segments + error)) (candidates : list Segments)
    (res : list Segments) : option (list Segments + error) :=
  match candidates with
  | [] => Some (inl res)
  | expanded :: more =>
      match expand expanded with
      | None => None
      | Some (inr err) => Some (inr (errExpand expanded err))
      | Some (inl r) => expandEach expand more (res ++ r)
      end
  end.

(** The loop over the segments; [seen] is [segments[:i]] and [it] the value
    there. *)
Fixpoint expandLoop (expand : Segments -> option (list Segments + error)) (data : any) (segments : Segments)
    (seen : Segments) (it : any) (rest : Segments) : option (list Segments + error) :=
  match rest with
  | [] => Some (inl [segments])
  | current :: rest' =>
      if decide (current = wildcardSegment) then
        match it with
        | AArray a =>
            expandEach expand
              ((fun ix => seen ++ FieldOrIndex (FormatUint (N.of_nat ix)) :: rest') <$> seq 0 (length a)) []
        | AObject m =>
            expandEach expand ((fun k => seen ++ Field (s2b k) :: rest') <$> range_keys segments m) []
        | ANil => Some (inr (notFoundError (errorString
                    ("wildcard field " +:+ Quote (SegmentsString seen) +:+ " is not found in the path"))))
        | _ => Some (inr (errorString (Quote (SegmentsString seen) +:+ ": unexpected wildcard usage")))
        end
      else
        match getValueFromInterface data (seen ++ [current]) with
        | inr err => if IsFieldNotFound err then Some (inl []) else Some (inr err)
        | inl it' => expandLoop expand data segments (seen ++ [current]) it' rest'
        end
  end.

Fixpoint expandWildcards (fuel : nat) (data : any) (segments : Segments) : option (list Segments + error) :=
  match fuel with
  | O => None
  | S f => expandLoop (expandWildcards f data) data segments [] data segments
  end.

Definition wildcards (s : Segments) : nat := length (filter (fun c => c = wildcardSegment) s).

Definition ExpandWildcards (fuel : nat) (p : Paved) (path : string) : option (list string + error) :=
  match Parse path with
  | inr err => Some (inr (errParse err path))
  | inl segments =>
      match expandWildcards fuel (root p) segments with
      | None => None
      | Some (inr err) => Some (inr (wrapError ("cannot expand wildcards for segments: "
                                                 +:+ Quote (SegmentsString segments)) err))
      | Some (inl segmentsArray) => Some (inl (SegmentsString <$> segmentsArray))
      end
  end.

(** ** What expansion means *)

(** [expands it s q]: [q] is [s] with every wildcard replaced by an index or a
    key, and [q] is a path of [it]. *)
Inductive expands : any -> Segments -> Segments -> Prop :=
| expands_nil it : expands it [] []
| expands_segment it x c s q :
    c <> wildcardSegment -> child it c = Some x -> expands x s q -> expands it (c :: s) (c :: q)
| expands_array a x (ix : nat) s q :
    a !! ix = Some x -> expands x s q ->
    expands (AArray a) (wildcardSegment :: s) (SegmentIndex (N.of_nat ix) :: q)
| expands_object m x k s q :
    m !! k = Some x -> expands x s q ->
    expands (AObject m) (wildcardSegment :: s) (SegmentField k :: q).

(** [stuck it s]: some expansion of a prefix of [s] leads to a value that the
    next segment cannot be applied to: an index into something other than an
    array, a field of something other than an object or null, a wildcard on
    anything but an array or an object. *)
Inductive stuck : any -> Segments -> Prop :=
| stuck_field it f s :
    f <> wildcard -> match it with AObject _ | ANil => False | _ => True end -> stuck it (SegmentField f :: s)
| stuck_index it i s :
    match it with AArray _ => False | _ => True end -> stuck it (SegmentIndex i :: s)
| stuck_wildcard it s :
    match it with AArray _ | AObject _ => False | _ => True end -> stuck it (wildcardSegment :: s)
| stuck_segment it x c s :
    c <> wildcardSegment -> child it c = Some x -> stuck x s -> stuck it (c :: s)
| stuck_array a x (ix : nat) s :
    a !! ix = Some x -> stuck x s -> stuck (AArray a) (wildcardSegment :: s)
| stuck_object m x k s :
    m !! k = Some x -> stuck x s -> stuck (AObject m) (wildcardSegment :: s).

(** No key of an object of the tree is the wildcard or loses a quote to
    [Field], and arrays have fewer than 2^32 elements. *)
Definition plain (it : any) : Prop :=
  (forall q m k x, lookup_path it q = Some (AObject m) -> m !! k = Some x ->
     Field (s2b k) = SegmentField k /\ k <> wildcard) /\
  (forall q a, lookup_path it q = Some (AArray a) -> (len a < 2 ^ 32)%N).

Lemma plain_child (it x : any) (c : Segment) : plain it -> child it c = Some x -> plain x.
Proof.
  intros [H1 H2] Hc. split.
  - intros q m k y Hq. apply (H1 (c :: q)). cbn [lookup_path]. by rewrite Hc.
  - intros q a Hq. apply (H2 (c :: q)). cbn [lookup_path]. by rewrite Hc.
Qed.

Lemma plain_path (it x : any) (s : Segments) : plain it -> lookup_path it s = Some x -> plain x.
Proof.
  revert it. induction s as [|c s IH]; intros it Hp; simpl; [by intros [= <-]|].
  destruct (child it c) eqn:E; [|done]. eauto using plain_child.
Qed.

Lemma expands_lookup (it : any) (s q : Segments) :
  expands it s q -> is_Some (lookup_path it q).
Proof.
  induction 1 as [|it x c s q Hc Hx _ IH|a x ix s q Hx _ IH|m x k s q Hx _ IH]; cbn [lookup_path].
  - by eexists.
  - by rewrite Hx.
  - rewrite (proj2 (child_index_Some a (N.of_nat ix) x)); [done|]. by rewrite Nat2N.id.
  - cbn [child]. by rewrite Hx.
Qed.

(** The loop passes over the segments before the first wildcard. *)
Lemma expandLoop_prefix (expand : Segments -> option (list Segments + error)) (data it0 it : any) (segments seen pre rest : Segments) :
  Forall (fun c => c <> wildcardSegment) pre ->
  lookup_path data seen = Some it0 -> lookup_path data (seen ++ pre) = Some it ->
  expandLoop expand data segments seen it0 (pre ++ rest) =
  expandLoop expand data segments (seen ++ pre) it rest.
Proof.
  intros Hw. revert seen it0. induction Hw as [|c pre Hc _ IH]; intros seen it0 Hd0 Hd.
  - rewrite app_nil_r in *. by simplify_eq.
  - cbn [app expandLoop]. rewrite decide_False by done.
    replace (seen ++ c :: pre) with ((seen ++ [c]) ++ pre) in * by (by rewrite <- app_assoc).
    assert (exists x, lookup_path data (seen ++ [c]) = Some x) as [x Hx].
    { rewrite lookup_path_app in Hd. destruct (lookup_path data (seen ++ [c])); [by eexists|done]. }
    unfold getValueFromInterface. rewrite (proj2 (getFrom_lookup [] data (seen ++ [c]) x ltac:(by destruct seen)) Hx).
    by apply IH.
Qed.

(** The result of expanding one candidate: all its expansions, once each, or
    an error when it is stuck. *)
Definition expansions (r : list Segments + error) (Q : Segments -> Prop) (S : Prop) : Prop :=
  match r with
  | inl l => ~ S /\ NoDup l /\ forall q, q ∈ l <-> Q q
  | inr _ => S
  end.

Lemma expansions_iff (r : list Segments + error) (Q Q' : Segments -> Prop) (S S' : Prop) :
  (forall q, Q q <-> Q' q) -> (S <-> S') -> expansions r Q S -> expansions r Q' S'.
Proof.
  intros HQ HS. destruct r as [l|err]; simpl; [|tauto]. intros (Hn & Hd & Hq). split_and!; [tauto|done|].
  intros q. by rewrite Hq, HQ.
Qed.

Lemma expandEach_spec {A} (expand : Segments -> option (list Segments + error)) (mk : A -> Segments)
    (Q : A -> Segments -> Prop) (S : A -> Prop) (idx : list A) (res : list Segments) :
  NoDup idx -> (forall i, i ∈ idx -> exists r, expand (mk i) = Some r /\ expansions r (Q i) (S i)) ->
  (forall i j q, Q i q -> Q j q -> i = j) -> NoDup res -> (forall i q, i ∈ idx -> Q i q -> q ∉ res) ->
  exists r, expandEach expand (mk <$> idx) res = Some r /\
    expansions r (fun q => q ∈ res \/ exists i, i ∈ idx /\ Q i q) (exists i, i ∈ idx /\ S i).
Proof.
  intros Hn. revert res. induction Hn as [|i idx Hi _ IH]; intros res He Hdis Hres Hnew.
  - eexists. split; [done|]. split_and!; [by intros (? & ?%not_elem_of_nil & _)|done|].
    intros q. split; [auto|]. by intros [?|(? & ?%not_elem_of_nil & _)].
  - cbn [fmap list_fmap expandEach]. destruct (He i ltac:(by left)) as (r & -> & Hr).
    destruct r as [l|err]; [|eexists; split; [done|]; exists i; split; [by left|done]].
    destruct Hr as (HS & Hl & Hq). destruct (IH (res ++ l)) as (r' & Hr' & Hs).
    + intros j Hj. apply He. by right.
    + done.
    + apply NoDup_app. split_and!; [done| |done]. intros q Hin Hin'. apply Hq in Hin'.
      eapply Hnew; [by left|done|done].
    + intros j q Hj Hjq [Hin|Hin]%elem_of_app; [by eapply Hnew; [right|..]|].
      apply Hq in Hin. assert (i = j) as -> by eauto. done.
    + exists r'. split; [done|]. eapply expansions_iff; [..|exact Hs].
      * intros q. cbn beta. rewrite elem_of_app, Hq. setoid_rewrite elem_of_cons. clear. naive_solver.
      * setoid_rewrite elem_of_cons. clear -HS. naive_solver.
Qed.

Lemma FieldOrIndex_small (n : N) : (n < 2 ^ 32)%N -> FieldOrIndex (FormatUint n) = SegmentIndex n.
Proof. intros. unfold FieldOrIndex. by rewrite ParseUint_FormatUint. Qed.

Lemma wildcards_cons_eq (s : Segments) : wildcards (wildcardSegment :: s) = S (wildcards s).
Proof. unfold wildcards. by rewrite filter_cons_True. Qed.

Lemma wildcards_cons_ne (c : Segment) (s : Segments) :
  c <> wildcardSegment -> wildcards (c :: s) = wildcards s.
Proof. intros. unfold wildcards. by rewrite filter_cons_False. Qed.

(** Expanding [pre ++ s], where [pre] has no wildcard and leads to [it]. *)
Definition expand_ok (expand : Segments -> option (list Segments + error)) (data : any) (n : nat) : Prop :=
  forall pre it s, Forall (fun c => c <> wildcardSegment) pre -> lookup_path data pre = Some it ->
  wildcards s < n ->
  exists r, expand (pre ++ s) = Some r /\ expansions r (fun q => exists q', q = pre ++ q' /\ expands it s q') (stuck it s).

Lemma lookup_path_snoc (data it x : any) (pre : Segments) (c : Segment) :
  lookup_path data pre = Some it -> child it c = Some x -> lookup_path data (pre ++ [c]) = Some x.
Proof. intros H1 H2. rewrite lookup_path_app, H1. cbn [lookup_path]. by rewrite H2. Qed.

(** The candidates of one wildcard: [real i] is the segment that [mk i] reads
    as, for each index or key [i] of [it]. *)
Lemma expandEach_children {A} (expand : Segments -> option (list Segments + error)) (data it : any) (pre s : Segments) (n : nat)
    (mk real : A -> Segment) (idx : list A) :
  expand_ok expand data n -> Forall (fun c => c <> wildcardSegment) pre ->
  lookup_path data pre = Some it -> wildcards s < n -> NoDup idx -> Inj eq eq real ->
  (forall i, i ∈ idx -> mk i = real i /\ real i <> wildcardSegment /\ is_Some (child it (real i))) ->
  (forall q', expands it (wildcardSegment :: s) q' <->
     exists i x q'', i ∈ idx /\ child it (real i) = Some x /\ q' = real i :: q'' /\ expands x s q'') ->
  (stuck it (wildcardSegment :: s) <-> exists i, i ∈ idx /\ exists x, child it (real i) = Some x /\ stuck x s) ->
  exists r, expandEach expand ((fun i => pre ++ mk i :: s) <$> idx) [] = Some r /\
    expansions r (fun q => exists q', q = pre ++ q' /\ expands it (wildcardSegment :: s) q')
      (stuck it (wildcardSegment :: s)).
Proof.
  intros He Hw Hit Hn Hnd Hinj Hmk Hex Hst.
  destruct (expandEach_spec expand (fun i => pre ++ mk i :: s)
    (fun i q => exists x q', child it (real i) = Some x /\ q = pre ++ real i :: q' /\ expands x s q')
    (fun i => exists x, child it (real i) = Some x /\ stuck x s) idx [])
    as (r & -> & Hr); [done| | |constructor|intros i q _ _; apply not_elem_of_nil|].
  - intros i Hi. destruct (Hmk i Hi) as (-> & Hne & [x Hx]).
    destruct (He (pre ++ [real i]) x s) as (r & Hr & Hs);
      [apply Forall_app; by repeat constructor|by eapply lookup_path_snoc|done|].
    rewrite <- app_assoc in Hr. exists r. split; [done|]. eapply expansions_iff; [..|exact Hs].
    + intros q. rewrite Hx. setoid_rewrite <- app_assoc. split.
      * intros (q' & -> & Hq'). by exists x, q'.
      * intros (y & q' & [= ->] & -> & Hq'). by exists q'.
    + rewrite Hx. split; [eauto|]. by intros (y & [= ->] & Hy).
  - intros i j q (x & q' & _ & -> & _) (y & q2 & _ & Heq & _). apply app_inv_head in Heq.
    injection Heq as Heq _. by apply Hinj.
  - exists r. split; [done|]. eapply expansions_iff; [..|exact Hr]; [|by rewrite Hst]. intros q. split.
    + intros [Hf%not_elem_of_nil|(i & Hi & x & q' & Hx & -> & Hq')]; [done|].
      exists (real i :: q'). split; [done|]. apply Hex. by exists i, x, q'.
    + intros (q' & -> & (i & x & q'' & Hi & Hx & -> & Hq'')%Hex). right. by exists i; split; [|exists x, q''].
Qed.

Lemma expands_descend (it x : any) (pre s q : Segments) (c : Segment) :
  c <> wildcardSegment -> child it c = Some x ->
  (exists q', q = pre ++ [c] ++ q' /\ expands x s q') <-> (exists q', q = pre ++ q' /\ expands it (c :: s) q').
Proof.
  intros Hc Hx. split.
  - intros (q' & -> & Hex). exists (c :: q'). split; [done|]. by econstructor.
  - intros (q' & -> & Hex). inv Hex; try done. eexists. split; [done|]. by simplify_eq.
Qed.

Lemma stuck_descend (it x : any) (s : Segments) (c : Segment) :
  c <> wildcardSegment -> child it c = Some x -> stuck x s <-> stuck it (c :: s).
Proof.
  intros Hc Hx. split; [by econstructor|]. intros Hst. inv Hst; try done; try by destruct it.
Qed.

(** Reading one more segment fails the way reading it from its parent does. *)
Lemma getFrom_snoc (seen : Segments) (it x : any) (s : Segments) (c : Segment) :
  lookup_path it s = Some x -> getFrom seen it (s ++ [c]) = getFrom (seen ++ s) x [c].
Proof.
  revert seen it. induction s as [|d s IH]; intros seen it Hx.
  - simpl in Hx. simplify_eq. by rewrite app_nil_r.
  - cbn [lookup_path] in Hx. destruct (child it d) as [y|] eqn:E; [|done]. cbn [app].
    destruct (s ++ [c]) as [|n q] eqn:Es; [by destruct s|].
    rewrite (getFrom_cons _ _ _ _ _ _ E). rewrite IH by done. by rewrite <- app_assoc.
Qed.

Lemma getFrom_single_error (seen s : Segments) (it : any) (c : Segment) (err : error) :
  c <> wildcardSegment -> getFrom seen it [c] = inr err ->
  child it c = None /\ (stuck it (c :: s) <-> IsFieldNotFound err = false).
Proof.
  intros Hc E. assert (child it c = None) as Hch.
  { destruct (child it c) as [x|] eqn:Hx; [|done].
    assert (lookup_path it [c] = Some x) as Hl by (cbn [lookup_path]; by rewrite Hx).
    apply (getFrom_lookup seen) in Hl; [congruence|done]. }
  split; [done|]. split.
  - intros Hst. inv Hst; try done; try congruence.
    + destruct it; try done; simpl in E; by simplify_eq.
    + destruct it; try done; simpl in E; by simplify_eq.
  - intros Hf. destruct c as [f|i].
    + constructor; [unfold wildcardSegment in Hc; congruence|].
      destruct it; try done; simpl in E; repeat split_match; by simplify_eq.
    + constructor. destruct it; try done; simpl in E; repeat split_match; by simplify_eq.
Qed.

Lemma expandLoop_wildcard (expand : Segments -> option (list Segments + error)) (data it : any) (segments pre s : Segments) (n : nat) :
  plain data -> expand_ok expand data n -> Forall (fun c => c <> wildcardSegment) pre ->
  lookup_path data pre = Some it -> wildcards s < n ->
  exists r, expandLoop expand data segments pre it (wildcardSegment :: s) = Some r /\
    expansions r (fun q => exists q', q = pre ++ q' /\ expands it (wildcardSegment :: s) q')
      (stuck it (wildcardSegment :: s)).
Proof.
  intros Hp He Hw Hit Hn. cbn [expandLoop]. rewrite decide_True by done.
  pose proof (plain_path _ _ _ Hp Hit) as [Hkeys Hlen].
  destruct it as [| | | | |a|m]; try (eexists; split; [done|]; by constructor).
  - specialize (Hlen [] a eq_refl). unfold len in Hlen.
    eapply (expandEach_children expand data (AArray a) pre s n _ (fun ix => SegmentIndex (N.of_nat ix)));
      [done..|apply NoDup_seq|intros i j [= Heq]; lia| | |].
    + intros ix [_ Hix]%elem_of_seq. rewrite FieldOrIndex_small by lia. split_and!; [done..|].
      destruct (lookup_lt_is_Some_2 a ix Hix) as [x Hx]. exists x. apply child_index_Some. by rewrite Nat2N.id.
    + intros q'. setoid_rewrite child_index_Some. setoid_rewrite Nat2N.id. split.
      * intros Hex. inv Hex; try done. exists ix, x, q. rewrite elem_of_seq.
        split_and!; [lia|by eapply lookup_lt_Some|done..].
      * intros (ix & x & q & _ & Hx & -> & Hex). by eapply expands_array.
    + setoid_rewrite child_index_Some. setoid_rewrite Nat2N.id. split.
      * intros Hst. inv Hst; try done. exists ix. rewrite elem_of_seq.
        split; [split; [lia|by eapply lookup_lt_Some]|eauto].
      * intros (ix & _ & x & Hx & Hst). by eapply stuck_array.
  - specialize (fun k x => Hkeys [] m k x eq_refl). 
    assert (forall k, k ∈ range_keys segments m <-> is_Some (m !! k)) as Hrange.
    { intros k. rewrite range_keys_perm, list_elem_of_fmap. split.
      - intros ([k' x] & -> & Hx). apply elem_of_map_to_list in Hx. by exists x.
      - intros [x Hx]. exists (k, x). by rewrite elem_of_map_to_list. }
    eapply (expandEach_children expand data (AObject m) pre s n _ SegmentField);
      [done..|rewrite range_keys_perm; apply NoDup_fst_map_to_list|intros k1 k2 Hk; by injection Hk| | |].
    + intros k [x Hx]%Hrange. destruct (Hkeys k x Hx) as [-> Hne].
      split_and!; [done|unfold wildcardSegment; congruence|by exists x].
    + intros q'. setoid_rewrite Hrange. split.
      * intros Hex. inv Hex; try done. exists k, x, q. split_and!; [by exists x|done..].
      * intros (k & x & q & _ & Hx & -> & Hex). by eapply expands_object.
    + setoid_rewrite Hrange. split.
      * intros Hst. inv Hst; try done. exists k. split; [by exists x|by exists x].
      * intros (k & _ & x & Hx & Hst). by eapply stuck_object.
Qed.

Lemma expandLoop_spec (expand : Segments -> option (list Segments + error)) (data it : any) (segments pre s : Segments) (n : nat) :
  plain data -> expand_ok expand data n -> Forall (fun c => c <> wildcardSegment) pre ->
  lookup_path data pre = Some it -> segments = pre ++ s -> wildcards s < S n ->
  exists r, expandLoop expand data segments pre it s = Some r /\
    expansions r (fun q => exists q', q = pre ++ q' /\ expands it s q') (stuck it s).
Proof.
  intros Hp He. revert pre it. induction s as [|c s IH]; intros pre it Hw Hit Hseg Hn.
  - cbn [expandLoop]. eexists. split; [done|].
    split_and!; [intros Hst; inv Hst|apply NoDup_singleton|].
    intros q. rewrite list_elem_of_singleton, Hseg. split.
    + intros ->. exists []. split; [done|constructor].
    + intros (q' & -> & Hex). by inv Hex.
  - destruct (decide (c = wildcardSegment)) as [->|Hc].
    { rewrite wildcards_cons_eq in Hn. eapply expandLoop_wildcard; [done|exact He|done|done|lia]. }
    rewrite wildcards_cons_ne in Hn by done. cbn [expandLoop]. rewrite decide_False by done.
    destruct (getValueFromInterface data (pre ++ [c])) as [it'|err] eqn:E.
    + apply getFrom_lookup in E; [|by destruct pre].
      assert (child it c = Some it') as Hc'.
      { rewrite lookup_path_app, Hit in E. cbn [lookup_path] in E. by destruct (child it c). }
      destruct (IH (pre ++ [c]) it') as (r & Hr & Hs);
        [apply Forall_app; by repeat constructor|done|by rewrite <- app_assoc|lia|].
      exists r. split; [done|]. eapply expansions_iff; [..|exact Hs].
      * intros q. setoid_rewrite <- app_assoc. by apply expands_descend.
      * by apply stuck_descend.
    + unfold getValueFromInterface in E. rewrite getFrom_snoc with (x:=it) in E by done.
      destruct (getFrom_single_error _ s _ _ _ Hc E) as (Hch & Hst).
      destruct (IsFieldNotFound err); (eexists; split; [done|]); simpl; [|by apply Hst].
      split_and!; [by rewrite Hst|constructor|]. intros q. split; [by intros ?%not_elem_of_nil|].
      intros (q' & _ & Hex). inv Hex; congruence.
Qed.

Lemma expandWildcards_ok (fuel : nat) (data : any) : plain data -> expand_ok (expandWildcards fuel data) data fuel.
Proof.
  intros Hp. induction fuel as [|f IH]; [intros pre it s _ _ ?; lia|].
  intros pre it s Hw Hit Hn. cbn [expandWildcards].
  rewrite (expandLoop_prefix _ data data it (pre ++ s) [] pre s Hw eq_refl Hit). simpl app at 1.
  by eapply expandLoop_spec.
Qed.

(** ** Properties of wildcard expansion *)

(** C31: on [plain] data (every key is one that [Field] keeps as it is and does
    not read as the wildcard, and every array has fewer than 2^32 elements),
    [expandWildcards] terminates (one unit of fuel per wildcard is enough),
    fails exactly when some expansion is stuck on a value of the wrong kind, and
    otherwise returns every path of the object that matches the wildcard path,
    each once, and nothing else; all of them resolve with [getValue].  On a path
    that parses, [ExpandWildcards] fails exactly then, and otherwise prints
    these paths. *)
Theorem expand_exact (p : Paved) (segments : Segments) (fuel : nat) :
  plain (root p) -> wildcards segments < fuel ->
  exists r, expandWildcards fuel (root p) segments = Some r /\
    match r with
    | inr _ => stuck (root p) segments /\ forall path, Parse path = inl segments -> exists err, ExpandWildcards fuel p path = Some (inr err)
    | inl l => ~ stuck (root p) segments /\ NoDup l /\ (forall q, q ∈ l <-> expands (root p) segments q) /\
               (forall q, q ∈ l -> q <> [] -> exists v, getValue p q = inl v) /\
               forall path, Parse path = inl segments -> ExpandWildcards fuel p path = Some (inl (SegmentsString <$> l))
    end.
Proof.
  intros Hp Hn. destruct (expandWildcards_ok fuel (root p) Hp [] (root p) segments) as (r & Hr & Hs); [constructor|done..|].
  change ([] ++ segments) with segments in Hr. exists r. split; [done|]. unfold ExpandWildcards. destruct r as [l|err].
  2:{ split; [done|]. intros path ->. rewrite Hr. eauto. }
  destruct Hs as (Hst & Hd & Hq). simpl in Hq.
  assert (forall q, q ∈ l <-> expands (root p) segments q) as Hq'.
  { intros q. rewrite Hq. split; [by intros (? & -> & ?)|eauto]. }
  split_and!; [done..| |by intros path ->; rewrite Hr].
  intros q [x Hx]%Hq'%expands_lookup Hne. exists x. by apply getValue_lookup.
Qed.

Lemma expandEach_inl (expand : Segments -> option (list Segments + error)) (cands : list Segments)
    (res l : list Segments) (c : Segments) :
  expandEach expand cands res = Some (inl l) -> c ∈ cands -> exists r, expand c = Some (inl r).
Proof.
  revert res. induction cands as [|d cands IH]; intros res; [by intros _ ?%not_elem_of_nil|]. cbn [expandEach].
  destruct (expand d) as [[r|]|] eqn:E; [|done..]. intros Hl [->|Hin]%elem_of_cons; eauto.
Qed.

(** When a wildcard stands for an object with a key that [Field] reads as
    the wildcard itself (the key is an asterisk, or a quoted one), expansion
    never produces a result: the recursive call for that key is on the same
    path, so no amount of fuel is enough. *)
Theorem expand_star_key (data : any) (pre s : Segments) (m : gmap string any) (k : string) (x : any) :
  Forall (fun c => c <> wildcardSegment) pre -> lookup_path data pre = Some (AObject m) ->
  m !! k = Some x -> Field (s2b k) = wildcardSegment ->
  forall fuel l, expandWildcards fuel data (pre ++ wildcardSegment :: s) <> Some (inl l).
Proof.
  intros Hw Hm Hk Hf. induction fuel as [|f IH]; intros l Hl; [done|]. cbn [expandWildcards] in Hl.
  rewrite (expandLoop_prefix _ data data (AObject m) _ [] pre _ Hw eq_refl Hm) in Hl. cbn [app expandLoop] in Hl.
  rewrite decide_True in Hl by done.
  destruct (expandEach_inl _ _ _ _ (pre ++ wildcardSegment :: s) Hl) as [r Hr]; [|by apply (IH r)].
  apply list_elem_of_fmap. exists k. split; [by rewrite Hf|]. rewrite range_keys_perm.
  apply list_elem_of_fmap. exists (k, x). split; [done|]. by apply elem_of_map_to_list.
Qed.

End expand.

(** The order of [map_to_list]. *)
Definition MapRangeSorted : MapRange.
Proof. by refine {| range_keys _ m := (map_to_list m).*1 |}. Defined.

Definition containers : Paved :=
  Pave (Some {["spec" := AArray [AObject {["args" := AArray [AString "start"; AString "now"]]}; AObject ∅]]}) [].

Example ExpandWildcards_containers :
  ExpandWildcards (H:=MapRangeSorted) 3 containers "spec[*].args[*]" =
  Some (inl ["spec[0].args[0]"; "spec[0].args[1]"]).
Proof. vm_compute. reflexivity. Qed.

Definition twoFields : Paved := Pave (Some {["a" := AInt 1; "b" := AInt 2]}) [].

Lemma plain_twoFields : plain (root twoFields).
Proof.
  split.
  - intros [|c q] m k x Hm Hk.
    + vm_compute in Hm. simplify_eq.
      destruct (decide (k = "a")) as [->|]; [done|]. destruct (decide (k = "b")) as [->|]; [done|].
      exfalso. change (({["a" := AInt 1; "b" := AInt 2]} : gmap string any) !! k = Some x) in Hk.
      apply lookup_insert_Some in Hk as [[? _]|[_ [? _]%lookup_singleton_Some]]; done.
    + exfalso. cbn [lookup_path] in Hm. destruct c as [f|i]; [|done].
      change (match ({["a" := AInt 1; "b" := AInt 2]} : gmap string any) !! f with
              | Some v => lookup_path v q | None => None end = Some (AObject m)) in Hm.
      destruct (_ !! f) as [v|] eqn:E; [|done].
      apply lookup_insert_Some in E as [[_ <-]|[_ E]]; [by destruct q as [|[]]|].
      apply lookup_singleton_Some in E as [_ <-]. by destruct q as [|[]].
  - intros [|c q] a Ha; [done|]. exfalso. cbn [lookup_path] in Ha. destruct c as [f|i]; [|done].
    change (match ({["a" := AInt 1; "b" := AInt 2]} : gmap string any) !! f with
            | Some v => lookup_path v q | None => None end = Some (AArray a)) in Ha.
    destruct (_ !! f) as [v|] eqn:E; [|done].
    apply lookup_insert_Some in E as [[_ <-]|[_ E]]; [by destruct q as [|[]]|].
    apply lookup_singleton_Some in E as [_ <-]. by destruct q as [|[]].
Qed.

Lemma expand_exact_witness :
  exists l, ExpandWildcards (H:=MapRangeSorted) 2 twoFields "[*]" = Some (inl (SegmentsString <$> l)) /\
    NoDup l /\ (forall q, q ∈ l <-> expands (root twoFields) [SegmentField "*"] q).
Proof.
  destruct (expand_exact (H:=MapRangeSorted) twoFields [SegmentField "*"] 2 plain_twoFields ltac:(vm_compute; lia)) as (r & Hr & H).
  vm_compute in Hr. injection Hr as <-. destruct H as (_ & H1 & H2 & _ & H3).
  eexists. split_and!; [by apply H3|exact H1|exact H2].
Defined.

Lemma expand_star_key_witness :
  ~ (exists fuel l, expandWildcards (H:=MapRangeSorted) fuel (AObject {["*" := AInt 1]}) [SegmentField "*"] = Some (inl l)).
Proof.
  intros (fuel & l & Hl). revert fuel l Hl.
  apply (expand_star_key (H:=MapRangeSorted) (AObject {["*" := AInt 1]}) [] [] {["*" := AInt 1]} "*" (AInt 1));
    [constructor|reflexivity..].
Defined.

(** ** Merging (merge.go, apis/common/merge.go) *)

Record MergeOptions := MkMergeOptions { KeepMapValues : option bool; AppendSlice : option bool }.

(** The options of mergo that the sources use. *)
Inductive mergoConfig := WithOverride | WithAppendSlice.

#[global] Instance mergoConfig_eq_dec : EqDecision mergoConfig.
Proof. solve_decision. Defined.

Definition MergoConfiguration (mo : option MergeOptions) : list mergoConfig :=
  match mo with
  | None => [WithOverride]
  | Some o =>
      let config := if decide (KeepMapValues o = Some true) then [] else [WithOverride] in
      if decide (AppendSlice o = Some true) then config ++ [WithAppendSlice] else config
  end.

Definition IsAppendSlice (mo : option MergeOptions) : bool :=
  match mo with Some o => bool_decide (AppendSlice o = Some true) | None => false end.

(** [reflect.DeepEqual] of JSON data is equality. *)
Definition removeSourceDuplicates (dst src : any) : any :=
  match dst, src with
  | AArray sliceDst, AArray sliceSrc => AArray (filter (fun itemSrc => itemSrc ∉ sliceDst) sliceSrc)
  | _, _ => src
  end.

Definition keyArg : string := "arg".
Definition argWrap (arg : any) : gmap string any := {[keyArg := arg]}.

(** [mergo.Merge(&dst, src, opts...)] is third-party code: the new content of
    [dst], or an error. *)
Class Mergo := Merge : gmap string any -> gmap string any -> list mergoConfig -> gmap string any + error.

Section merge.
Context `{!Mergo}.

Definition merge (dst src : any) (mergeOptions : option MergeOptions) : any + error :=
  if decide (dst = ANil \/ src = ANil) then inl src
  else
    let src := if IsAppendSlice mergeOptions then removeSourceDuplicates dst src else src in
    match Merge (argWrap dst) (argWrap src) (MergoConfiguration mergeOptions) with
    | inr err => inr (wrapError "failed to merge values" err)
    | inl mDst => inl (default ANil (mDst !! keyArg))
    end.

Definition MergeValue `{!Json any} (p : Paved) (path : string) (value : any) (mo : option MergeOptions) : Paved * outcome :=
  let finish dst := match merge dst value mo with
                    | inr err => (p, Failed err)
                    | inl v => SetValue p path v
                    end in
  match GetValue p path with
  | inr err =>
      if IsFieldNotFound err || bool_decide (mo = None) then finish ANil else (p, Failed err)
  | inl dst => finish (if decide (mo = None) then ANil else dst)
  end.

(** Merging into a path that is missing or null, or with nil merge options,
    is [SetValue]: no value is merged and no error of [GetValue] surfaces. *)
Theorem merge_replaces `{!Json any} (p : Paved) (path : string) (value : any) (mo : option MergeOptions) :
  (mo = None \/ GetValue p path = inl ANil \/ exists e, GetValue p path = inr e /\ IsFieldNotFound e = true) ->
  MergeValue p path value mo = SetValue p path value.
Proof.
  intros Hc. unfold MergeValue.
  assert (forall o, merge ANil value o = inl value) as Hm by (intros o; unfold merge; by rewrite decide_True by auto).
  destruct Hc as [->|[->|(e & -> & ->)]].
  - destruct (GetValue p path) as [dst|err]; cbn beta zeta; rewrite ?Hm.
    + done.
    + by rewrite bool_decide_eq_true_2, orb_true_r by done.
  - by case_decide; rewrite Hm.
  - rewrite orb_true_l, Hm. done.
Qed.

(** The elements appended to a slice are those it does not hold yet, in their
    order. *)
Lemma removeSourceDuplicates_spec (dst src : list any) :
  exists l, removeSourceDuplicates (AArray dst) (AArray src) = AArray l /\
    l `sublist_of` src /\ (forall x, x ∈ l <-> x ∈ src /\ x ∉ dst).
Proof.
  eexists. split; [done|]. split; [apply sublist_filter|]. intros x. rewrite list_elem_of_filter. tauto.
Qed.

End merge.

Lemma merge_replaces_witness :
  MergeValue (H:=fun _ src _ => inl src) (Json0:=JsonLiterals) demo "spec.new" (ABool true)
    (Some (MkMergeOptions None (Some true))) = SetValue (Json0:=JsonLiterals) (Json1:=JsonLiterals) demo "spec.new" (ABool true).
Proof.
  apply merge_replaces. right. right. eexists. split; [vm_compute; reflexivity|vm_compute; reflexivity].
Defined.
