(* ===== verification/Conditions.v ===== *)
(** * Status conditions (apis/common/condition.go, pkg/conditions/manager.go)

    A [ConditionedStatus] is a slice with at most one condition per type.  The
    clock ([metav1.Now]) is an argument of the constructors of conditions. *)

From S2P Require Import Prelude GoErrors.
From stdpp Require Import sorting.

Definition TypeReady : string := "Ready".
Definition TypeSynced : string := "Synced".
Definition TypeHealthy : string := "Healthy".

Definition ReasonAvailable : string := "Available".
Definition ReasonUnavailable : string := "Unavailable".
Definition ReasonCreating : string := "Creating".
Definition ReasonDeleting : string := "Deleting".
Definition ReasonReconcileSuccess : string := "ReconcileSuccess".
Definition ReasonReconcileError : string := "ReconcileError".
Definition ReasonReconcilePaused : string := "ReconcilePaused".

Definition ConditionTrue : string := "True".
Definition ConditionFalse : string := "False".
Definition ConditionUnknown : string := "Unknown".

Record Condition := MkCondition {
  CType : string;
  CStatus : string;
  LastTransitionTime : Z;
  Reason : string;
  Message : string;
  ObservedGeneration : Z
}.

#[global] Instance Condition_eq_dec : EqDecision Condition.
Proof. solve_decision. Defined.

(** [Condition.Equal] *)
Definition CondEqual (c other : Condition) : bool :=
  bool_decide (CType c = CType other) && bool_decide (CStatus c = CStatus other) &&
  bool_decide (Reason c = Reason other) && bool_decide (Message c = Message other) &&
  bool_decide (ObservedGeneration c = ObservedGeneration other).

(** [Condition.WithMessage] *)
Definition CondWithMessage (msg : string) (c : Condition) : Condition :=
  MkCondition (CType c) (CStatus c) (LastTransitionTime c) (Reason c) msg (ObservedGeneration c).

Definition WithObservedGeneration (gen : Z) (c : Condition) : Condition :=
  MkCondition (CType c) (CStatus c) (LastTransitionTime c) (Reason c) (Message c) gen.

Definition IsSystemConditionType (t : string) : bool :=
  bool_decide (t = TypeReady) || bool_decide (t = TypeSynced) || bool_decide (t = TypeHealthy).

Abbreviation ConditionedStatus := (list Condition).

Fixpoint GetCondition (ct : string) (s : ConditionedStatus) : Condition :=
  match s with
  | [] => MkCondition ct ConditionUnknown 0 "" "" 0
  | c :: s' => if decide (CType c = ct) then c else GetCondition ct s'
  end.

(** The inner loop of [SetConditions]: the conditions, and whether one of the
    type existed. *)
Fixpoint replaceCondition (cond : Condition) (s : ConditionedStatus) : ConditionedStatus * bool :=
  match s with
  | [] => ([], false)
  | existing :: s' =>
      let '(r, exists_) := replaceCondition cond s' in
      if decide (CType existing <> CType cond) then (existing :: r, exists_)
      else if CondEqual existing cond then (existing :: r, true)
      else (cond :: r, true)
  end.

Definition setCondition (s : ConditionedStatus) (cond : Condition) : ConditionedStatus :=
  let '(r, exists_) := replaceCondition cond s in if exists_ then r else r ++ [cond].

Definition SetConditions (c : list Condition) (s : ConditionedStatus) : ConditionedStatus :=
  foldl setCondition s c.

Definition NewConditionedStatus (c : list Condition) : ConditionedStatus := SetConditions c [].

(** [sort.Slice] by type. *)
Definition type_le (c d : Condition) : Prop := String.le (CType c) (CType d).

#[global] Instance type_le_dec : RelDecision type_le.
Proof. intros c d. unfold type_le. apply _. Defined.

#[global] Instance type_le_trans : Transitive type_le.
Proof. intros c d e. unfold type_le. intros. by etrans. Qed.

#[global] Instance type_le_total : Total type_le.
Proof. intros c d. unfold type_le. apply (total String.le). Qed.

Definition sortByType (s : ConditionedStatus) : ConditionedStatus := merge_sort type_le s.

(** The last loop of [ConditionedStatus.Equal]. *)
Fixpoint allEqual (sc oc : list Condition) : bool :=
  match sc, oc with
  | c :: sc', d :: oc' => CondEqual c d && allEqual sc' oc'
  | _, _ => true
  end.

(** [ConditionedStatus.Equal]; [None] is a nil pointer. *)
Definition StatusEqual (s other : option ConditionedStatus) : bool :=
  match s, other with
  | Some s, Some other =>
      if decide (length other <> length s) then false
      else allEqual (sortByType s) (sortByType other)
  | None, None => true
  | _, _ => false
  end.

Definition Creating (now : Z) : Condition := MkCondition TypeReady ConditionFalse now ReasonCreating "" 0.
Definition Deleting (now : Z) : Condition := MkCondition TypeReady ConditionFalse now ReasonDeleting "" 0.
Definition Available (now : Z) : Condition := MkCondition TypeReady ConditionTrue now ReasonAvailable "" 0.
Definition Unavailable (now : Z) : Condition := MkCondition TypeReady ConditionFalse now ReasonUnavailable "" 0.
Definition ReconcileSuccess (now : Z) : Condition := MkCondition TypeSynced ConditionTrue now ReasonReconcileSuccess "" 0.
Definition ReconcileError (now : Z) (err : error) : Condition :=
  MkCondition TypeSynced ConditionFalse now ReasonReconcileError (Error err) 0.
Definition ReconcilePaused (now : Z) : Condition := MkCondition TypeSynced ConditionFalse now ReasonReconcilePaused "" 0.

(** [observedGenerationPropagationConditionSet.MarkConditions] on an object of
    generation [gen]. *)
Definition MarkConditions (gen : Z) (condition : list Condition) (s : ConditionedStatus) : ConditionedStatus :=
  SetConditions (WithObservedGeneration gen <$> condition) s.

(** ** At most one condition of each type *)

Definition wf_status (s : ConditionedStatus) : Prop := NoDup (CType <$> s).

Lemma replaceCondition_types (cond : Condition) (s : ConditionedStatus) :
  CType <$> (replaceCondition cond s).1 = CType <$> s /\
  ((replaceCondition cond s).2 = true <-> CType cond ∈ CType <$> s).
Proof.
  induction s as [|e s [IH1 IH2]]; cbn [replaceCondition].
  - split; [done|]. split; [done|]. by intros ?%not_elem_of_nil.
  - destruct (replaceCondition cond s) as [r ex]. simpl in IH1, IH2. rewrite fmap_cons, elem_of_cons.
    case_decide as Ht; [cbn [fst snd]; rewrite fmap_cons, IH1, IH2; split; [done|naive_solver]|].
    destruct (CondEqual e cond); cbn [fst snd]; rewrite fmap_cons, IH1, <- ?Ht; naive_solver.
Qed.

Lemma setCondition_wf (s : ConditionedStatus) (cond : Condition) :
  wf_status s -> wf_status (setCondition s cond).
Proof.
  unfold wf_status, setCondition. intros Hs.
  pose proof (replaceCondition_types cond s) as [H1 H2].
  destruct (replaceCondition cond s) as [r ex]. simpl in *. destruct ex; [by rewrite H1|].
  rewrite fmap_app, H1. apply NoDup_app. split_and!; [done| |apply NoDup_singleton].
  intros t Ht ->%list_elem_of_singleton. by apply H2 in Ht.
Qed.

Lemma SetConditions_wf (c : list Condition) (s : ConditionedStatus) :
  wf_status s -> wf_status (SetConditions c s).
Proof.
  unfold SetConditions. revert s. induction c as [|cond c IH]; intros s Hs; simpl; [done|].
  apply IH. by apply setCondition_wf.
Qed.

(** A condition without its transition time: what [Condition.Equal] compares. *)
Definition erase (c : Condition) : Condition :=
  MkCondition (CType c) (CStatus c) 0 (Reason c) (Message c) (ObservedGeneration c).

Lemma CondEqual_erase (c d : Condition) : CondEqual c d = true <-> erase c = erase d.
Proof.
  destruct c, d. unfold CondEqual, erase. simpl. rewrite !andb_true_iff, !bool_decide_eq_true.
  split; [intros ((((-> & ->) & ->) & ->) & ->); done|]. intros [= -> -> -> -> ->]. done.
Qed.

Lemma GetCondition_replace (cond : Condition) (s : ConditionedStatus) (ct : string) :
  ct <> CType cond -> GetCondition ct (replaceCondition cond s).1 = GetCondition ct s.
Proof.
  intros Hne. induction s as [|e s IH]; simpl; [done|].
  destruct (replaceCondition cond s) as [r ex]. simpl in *.
  destruct (decide (CType e <> CType cond)) as [Ht|Ht]; simpl.
  - by rewrite IH.
  - apply dec_stable in Ht. destruct (CondEqual e cond); simpl; rewrite IH, ?Ht; [done|].
    by rewrite !decide_False by congruence.
Qed.

Lemma GetCondition_replace_same (cond : Condition) (s : ConditionedStatus) :
  CType cond ∈ CType <$> s -> erase (GetCondition (CType cond) (replaceCondition cond s).1) = erase cond.
Proof.
  induction s as [|e s IH]; cbn [replaceCondition]; [by intros ?%not_elem_of_nil|].
  destruct (replaceCondition cond s) as [r ex]. rewrite fmap_cons. cbn [fst] in IH.
  destruct (decide (CType e <> CType cond)) as [Ht|Ht]; simpl.
  - rewrite decide_False by done. intros [?|?]%elem_of_cons; [congruence|auto].
  - apply dec_stable in Ht. intros _. destruct (CondEqual e cond) eqn:E; simpl.
    + rewrite decide_True by done. by apply CondEqual_erase.
    + by rewrite decide_True.
Qed.

Lemma GetCondition_app_new (s : ConditionedStatus) (cond : Condition) (ct : string) :
  CType cond ∉ CType <$> s ->
  GetCondition ct (s ++ [cond]) = if decide (CType cond = ct) then cond else GetCondition ct s.
Proof.
  induction s as [|e s IH]; [done|]. rewrite fmap_cons, not_elem_of_cons. intros [Hne Hs]. simpl.
  rewrite IH by done. do 2 case_decide; congruence.
Qed.

Lemma setCondition_get (s : ConditionedStatus) (cond : Condition) (ct : string) :
  erase (GetCondition ct (setCondition s cond)) =
  erase (if decide (CType cond = ct) then cond else GetCondition ct s).
Proof.
  unfold setCondition. pose proof (replaceCondition_types cond s) as [H1 H2].
  pose proof (GetCondition_replace cond s ct) as Hne.
  pose proof (GetCondition_replace_same cond s) as Hsame.
  destruct (replaceCondition cond s) as [r ex]. simpl in *. destruct ex.
  - case_decide as Ht; [subst; apply Hsame; by apply H2|]. rewrite Hne by congruence. done.
  - rewrite GetCondition_app_new.
    + case_decide; [done|]. by rewrite Hne by congruence.
    + rewrite H1. by rewrite <- H2.
Qed.

(** The last of the supplied conditions of a type, or the default. *)
Fixpoint last_of (ct : string) (c : list Condition) (d : Condition) : Condition :=
  match c with
  | [] => d
  | x :: c' => last_of ct c' (if decide (CType x = ct) then x else d)
  end.

Lemma erase_last_of (ct : string) (c : list Condition) (d d' : Condition) :
  erase d = erase d' -> erase (last_of ct c d) = erase (last_of ct c d').
Proof. revert d d'. induction c as [|x c IH]; intros d d' H; simpl; [done|]. apply IH. by case_decide. Qed.

Lemma SetConditions_get (c : list Condition) (s : ConditionedStatus) (ct : string) :
  erase (GetCondition ct (SetConditions c s)) = erase (last_of ct c (GetCondition ct s)).
Proof.
  unfold SetConditions. revert s. induction c as [|x c IH]; intros s; simpl; [done|].
  rewrite IH. apply erase_last_of. apply setCondition_get.
Qed.

Lemma sortByType_perm (s : ConditionedStatus) : sortByType s ≡ₚ s.
Proof. apply merge_sort_Permutation. Qed.

Lemma allEqual_erase (s o : list Condition) :
  length s = length o -> allEqual s o = true <-> erase <$> s = erase <$> o.
Proof.
  revert o. induction s as [|c s IH]; intros [|d o]; try done. intros [= Hl]. cbn [allEqual].
  rewrite !fmap_cons, andb_true_iff, CondEqual_erase, IH by done. split; [by intros [-> ->]|intros Heq; split; congruence].
Qed.

Lemma sorted_types (s : ConditionedStatus) : StronglySorted String.le (CType <$> sortByType s).
Proof.
  assert (StronglySorted type_le (sortByType s)) as H
    by (apply Sorted_StronglySorted; [apply _|apply Sorted_merge_sort; apply _]).
  induction H as [|c l _ IH Hf]; [constructor|]. rewrite fmap_cons. constructor; [done|].
  apply Forall_fmap. exact Hf.
Qed.

Lemma types_of_erased (s : ConditionedStatus) : CType <$> (erase <$> s) = CType <$> s.
Proof. rewrite <- list_fmap_compose. by apply list_fmap_ext. Qed.

(** Lists with the same keys in the same order, without repetition, that are
    permutations of each other are equal. *)
Lemma perm_same_types (s o : list Condition) :
  CType <$> s = CType <$> o -> NoDup (CType <$> s) -> s ≡ₚ o -> s = o.
Proof.
  intros Ht Hn Hp. apply list_eq_same_length with (length s); [by apply Permutation_length in Hp|done|].
  intros i x y Hi Hx Hy. assert (x ∈ o) as Hin by (rewrite <- Hp; by eapply list_elem_of_lookup_2).
  apply list_elem_of_lookup in Hin as [j Hj].
  assert (i = j) as ->; [|congruence].
  rewrite NoDup_alt in Hn. apply (Hn i j (CType x)); [|rewrite Ht]; rewrite list_lookup_fmap.
  - by rewrite Hx.
  - by rewrite Hj.
Qed.

Lemma StatusEqual_perm (s o : ConditionedStatus) :
  wf_status s -> wf_status o ->
  StatusEqual (Some s) (Some o) = true <-> erase <$> s ≡ₚ erase <$> o.
Proof.
  intros Hs Ho. cbn [StatusEqual]. destruct (decide (length o <> length s)) as [Hl|Hl].
  - split; [done|]. intros Hp%Permutation_length. rewrite !length_fmap in Hp. by rewrite Hp in Hl.
  - apply dec_stable in Hl. rewrite allEqual_erase
      by (by rewrite (Permutation_length (sortByType_perm s)), (Permutation_length (sortByType_perm o))).
    split; [intros He; by rewrite <- (sortByType_perm s), <- (sortByType_perm o), He|].
    intros Hp. rewrite <- (sortByType_perm s), <- (sortByType_perm o) in Hp.
    apply perm_same_types; [|rewrite types_of_erased|done].
    + rewrite !types_of_erased. apply (StronglySorted_unique String.le); [apply sorted_types..|].
      rewrite <- types_of_erased, <- (types_of_erased (sortByType o)). by rewrite Hp.
    + by rewrite sortByType_perm.
Qed.

(** ** Properties *)

(** C33: starting from at most one condition per type, [SetConditions] keeps at
    most one condition per type, and reading a type back gives the last
    condition supplied for it, or what was there before when none was (up to
    the transition time, which is kept when nothing else changed). *)
Theorem set_conditions_get (c : list Condition) (s : ConditionedStatus) :
  wf_status s ->
  wf_status (SetConditions c s) /\
  forall ct, erase (GetCondition ct (SetConditions c s)) = erase (last_of ct c (GetCondition ct s)).
Proof. intros Hs. split; [by apply SetConditions_wf|]. intros ct. apply SetConditions_get. Qed.

Lemma set_conditions_get_witness :
  wf_status (SetConditions [Creating 5; ReconcileSuccess 6; Available 7] [Creating 1]) /\
  forall ct, erase (GetCondition ct (SetConditions [Creating 5; ReconcileSuccess 6; Available 7] [Creating 1])) =
             erase (last_of ct [Creating 5; ReconcileSuccess 6; Available 7] (GetCondition ct [Creating 1])).
Proof. apply set_conditions_get. apply NoDup_singleton. Defined.

(** Setting conditions that are all already set, up to the transition time,
    changes nothing: the old transition times are kept. *)
Theorem set_conditions_noop (c : list Condition) (s : ConditionedStatus) :
  wf_status s -> Forall (fun x => erase x ∈ erase <$> s) c -> SetConditions c s = s.
Proof.
  intros Hs. unfold SetConditions. induction 1 as [|x c Hx Hc IH]; simpl; [done|].
  assert (setCondition s x = s) as ->; [|done].
  unfold setCondition. assert (replaceCondition x s = (s, true)) as ->; [|done].
  apply list_elem_of_fmap in Hx as (y & He & Hy). clear IH Hc.
  assert (CType x = CType y) as Ht by (by injection He).
  induction s as [|e s IH]; [by apply not_elem_of_nil in Hy|].
  unfold wf_status in Hs. rewrite fmap_cons in Hs. apply NoDup_cons in Hs as [Hn Hs]. cbn [replaceCondition].
  apply elem_of_cons in Hy as [->|Hy].
  - assert (replaceCondition x s = (s, false)) as ->.
    { clear -Hn Ht. rewrite <- Ht in Hn. induction s as [|d s IH]; [done|]. rewrite fmap_cons in Hn.
      apply not_elem_of_cons in Hn as [Hd Hn]. cbn [replaceCondition]. rewrite IH by done.
      by rewrite decide_True by congruence. }
    rewrite decide_False by congruence. by rewrite (proj2 (CondEqual_erase e x)).
  - rewrite IH by done. rewrite decide_True; [done|]. intros He'. apply Hn. rewrite He', Ht.
    by apply list_elem_of_fmap_2.
Qed.

Lemma set_conditions_noop_witness :
  SetConditions [Available 99; ReconcileSuccess 99] [ReconcileSuccess 1; Available 2] = [ReconcileSuccess 1; Available 2].
Proof.
  apply set_conditions_noop.
  - by apply (bool_decide_eq_true_1 (NoDup _)).
  - by apply (bool_decide_eq_true_1 (Forall (fun x => erase x ∈ _) _)).
Defined.

(** Two statuses with at most one condition per type are [Equal] exactly
    when they hold the same conditions, up to order and transition times. *)
Theorem status_equal_iff (s o : ConditionedStatus) :
  wf_status s -> wf_status o ->
  StatusEqual (Some s) (Some o) = true <-> erase <$> s ≡ₚ erase <$> o.
Proof. apply StatusEqual_perm. Qed.

Lemma status_equal_iff_witness :
  StatusEqual (Some [ReconcileSuccess 1; Available 2]) (Some [Available 3; ReconcileSuccess 4]) = true.
Proof.
  apply status_equal_iff; [by apply (bool_decide_eq_true_1 (NoDup _))..|]. simpl. constructor 3.
Defined.
