(* ===== verification/Meta.v ===== *)
(** * Object metadata (pkg/meta/meta.go)

    [ObjectMeta] holds what a [metav1.Object] gives access to.  A nil map of
    labels or annotations is [None].  Functions that mutate the object return
    the new metadata. *)

From S2P Require Import Prelude GoStrings GoErrors GoTime.

Record OwnerReference := MkOwnerReference {
  APIVersion : string;
  Kind : string;
  OwnerName : string;
  OwnerUID : string;
  Controller : option bool;
  BlockOwnerDeletion : option bool
}.

#[global] Instance OwnerReference_eq_dec : EqDecision OwnerReference.
Proof. solve_decision. Defined.

Record ObjectMeta := MkObjectMeta {
  Name : string;
  Namespace : string;
  UID : string;
  Generation : Z;
  ResourceVersion : string;
  Labels : option (gmap string string);
  Annotations : option (gmap string string);
  Finalizers : list string;
  OwnerReferences : list OwnerReference;
  DeletionTimestamp : option Time;
  CreationTimestamp : Time
}.

Definition AnnotationKeyExternalName : string := "crossplane.io/external-name".
Definition AnnotationKeyExternalCreatePending : string := "crossplane.io/external-create-pending".
Definition AnnotationKeyExternalCreateSucceeded : string := "crossplane.io/external-create-succeeded".
Definition AnnotationKeyExternalCreateFailed : string := "crossplane.io/external-create-failed".
Definition AnnotationKeyReconciliationPaused : string := "crossplane.io/paused".

(** ** Setters of [metav1.Object] *)

Definition SetLabels (l : option (gmap string string)) (o : ObjectMeta) : ObjectMeta :=
  MkObjectMeta (Name o) (Namespace o) (UID o) (Generation o) (ResourceVersion o) l (Annotations o)
    (Finalizers o) (OwnerReferences o) (DeletionTimestamp o) (CreationTimestamp o).

Definition SetAnnotations (a : option (gmap string string)) (o : ObjectMeta) : ObjectMeta :=
  MkObjectMeta (Name o) (Namespace o) (UID o) (Generation o) (ResourceVersion o) (Labels o) a
    (Finalizers o) (OwnerReferences o) (DeletionTimestamp o) (CreationTimestamp o).

Definition SetFinalizers (f : list string) (o : ObjectMeta) : ObjectMeta :=
  MkObjectMeta (Name o) (Namespace o) (UID o) (Generation o) (ResourceVersion o) (Labels o) (Annotations o)
    f (OwnerReferences o) (DeletionTimestamp o) (CreationTimestamp o).

Definition SetOwnerReferences (r : list OwnerReference) (o : ObjectMeta) : ObjectMeta :=
  MkObjectMeta (Name o) (Namespace o) (UID o) (Generation o) (ResourceVersion o) (Labels o) (Annotations o)
    (Finalizers o) r (DeletionTimestamp o) (CreationTimestamp o).

(** ** References *)

Record GroupVersionKind := MkGVK { Group : string; Version : string; GKind : string }.

(** [TypedReference] *)
Record TypedReference := MkTypedReference { RefAPIVersion : string; RefKind : string; RefName : string; RefUID : string }.

(** [corev1.ObjectReference], the fields the sources set. *)
Record ObjectReference := MkObjectReference {
  ORAPIVersion : string; ORKind : string; ORNamespace : string; ORName : string; ORUID : string
}.

(** What the sources use of k8s.io/apimachinery's metav1 and schema packages. *)
Class MetaV1 := {
  ToAPIVersionAndKind : GroupVersionKind -> string * string;
  GetControllerOf : list OwnerReference -> option OwnerReference;
  controller_some refs r : GetControllerOf refs = Some r -> r ∈ refs /\ Controller r = Some true;
  controller_none refs : GetControllerOf refs = None -> Forall (fun r => Controller r <> Some true) refs
}.

Section metav1.
Context `{!MetaV1}.

Definition ReferenceTo (o : ObjectMeta) (gvk : GroupVersionKind) : ObjectReference :=
  let '(v, k) := ToAPIVersionAndKind gvk in MkObjectReference v k (Namespace o) (Name o) (UID o).

Definition TypedReferenceTo (o : ObjectMeta) (gvk : GroupVersionKind) : TypedReference :=
  let '(v, k) := ToAPIVersionAndKind gvk in MkTypedReference v k (Name o) (UID o).

Definition AsOwner (r : TypedReference) : OwnerReference :=
  MkOwnerReference (RefAPIVersion r) (RefKind r) (RefName r) (RefUID r) None None.

Definition AsController (r : TypedReference) : OwnerReference :=
  MkOwnerReference (RefAPIVersion r) (RefKind r) (RefName r) (RefUID r) (Some true) (Some true).

Definition HaveSameController (a b : ObjectMeta) : bool :=
  match GetControllerOf (OwnerReferences a), GetControllerOf (OwnerReferences b) with
  | Some ac, Some bc => bool_decide (OwnerUID ac = OwnerUID bc)
  | _, _ => false
  end.

Definition NamespacedNameOf (r : ObjectReference) : string * string := (ORNamespace r, ORName r).

Definition AddOwnerReference (r : OwnerReference) (o : ObjectMeta) : ObjectMeta :=
  let refs := OwnerReferences o in
  match find_index (fun x => bool_decide (OwnerUID x = OwnerUID r)) refs with
  | Some i => SetOwnerReferences (<[i := r]> refs) o
  | None => SetOwnerReferences (refs ++ [r]) o
  end.

Definition AddControllerReference (r : OwnerReference) (o : ObjectMeta) : ObjectMeta * option error :=
  match GetControllerOf (OwnerReferences o) with
  | Some c =>
      if decide (OwnerUID c <> OwnerUID r) then
        (o, New (Name o +:+ " is already controlled by " +:+ Kind c +:+ " " +:+ OwnerName c +:+
                 " (UID " +:+ OwnerUID c +:+ ")"))
      else (AddOwnerReference r o, None)
  | None => (AddOwnerReference r o, None)
  end.

End metav1.

(** ** Finalizers *)

Definition FinalizerExists (o : ObjectMeta) (finalizer : string) : bool :=
  existsb (fun e => bool_decide (e = finalizer)) (Finalizers o).

Definition AddFinalizer (finalizer : string) (o : ObjectMeta) : ObjectMeta :=
  if existsb (fun e => bool_decide (e = finalizer)) (Finalizers o) then o
  else SetFinalizers (Finalizers o ++ [finalizer]) o.

(** The loop of [RemoveFinalizer] ranges over the slice as it was when the loop
    started ([n] elements remain to be visited, [i] is the index) while the
    loop's body overwrites the same backing array [arr] through [append] and
    shrinks [f] to its first [flen] elements.  [None]: [f[i+1:]] panics. *)
Fixpoint removeLoop (finalizer : string) (n i : nat) (arr : list string) (flen : nat) : option (list string * nat) :=
  match n with
  | O => Some (arr, flen)
  | S n' =>
      match arr !! i with
      | Some e =>
          if decide (e = finalizer) then
            if decide (flen < i + 1) then None
            else removeLoop finalizer n' (i + 1)
                   (take i arr ++ take (flen - (i + 1)) (drop (i + 1) arr) ++ drop (flen - 1) arr) (flen - 1)
          else removeLoop finalizer n' (i + 1) arr flen
      | None => None
      end
  end.

(** [None]: it panics. *)
Definition RemoveFinalizer (finalizer : string) (o : ObjectMeta) : option ObjectMeta :=
  match removeLoop finalizer (length (Finalizers o)) 0 (Finalizers o) (length (Finalizers o)) with
  | Some (arr, flen) => Some (SetFinalizers (take flen arr) o)
  | None => None
  end.

(** ** Labels and annotations *)

(** Go's loop [for k, v := range add { m[k] = v }]. *)
Definition addAll (add m : gmap string string) : gmap string string := add ∪ m.

Definition AddLabels (labels : gmap string string) (o : ObjectMeta) : ObjectMeta :=
  match Labels o with
  | None => SetLabels (Some labels) o
  | Some l => SetLabels (Some (addAll labels l)) o
  end.

Definition RemoveLabels (labels : list string) (o : ObjectMeta) : ObjectMeta :=
  match Labels o with
  | None => o
  | Some l => SetLabels (Some (foldl (fun m k => base.delete k m) l labels)) o
  end.

Definition AddAnnotations (annotations : gmap string string) (o : ObjectMeta) : ObjectMeta :=
  match Annotations o with
  | None => SetAnnotations (Some annotations) o
  | Some a => SetAnnotations (Some (addAll annotations a)) o
  end.

Definition RemoveAnnotations (annotations : list string) (o : ObjectMeta) : ObjectMeta :=
  match Annotations o with
  | None => o
  | Some a => SetAnnotations (Some (foldl (fun m k => base.delete k m) a annotations)) o
  end.

(** [o.GetAnnotations()[key]]: reading a nil map, or a missing key, gives "". *)
Definition annotation (key : string) (o : ObjectMeta) : string :=
  default "" (a ← Annotations o; a !! key).

Definition WasDeleted (o : ObjectMeta) : bool :=
  match DeletionTimestamp o with None => false | Some t => negb (IsZero t) end.

Definition WasCreated (o : ObjectMeta) : bool := negb (IsZero (CreationTimestamp o)).

Definition GetExternalName (o : ObjectMeta) : string := annotation AnnotationKeyExternalName o.

Definition SetExternalName (name : string) (o : ObjectMeta) : ObjectMeta :=
  AddAnnotations {[AnnotationKeyExternalName := name]} o.

(** ** Tracking the creation of external resources *)

Section creation.
Context {LP : LenientParser}.

(** [time.Parse(time.RFC3339, a)], the zero time when it fails. *)
Definition parseTime (a : string) : Time := default zeroTime (ParseRFC3339 (s2b a)).

Definition GetExternalCreatePending (o : ObjectMeta) : Time :=
  parseTime (annotation AnnotationKeyExternalCreatePending o).
Definition GetExternalCreateSucceeded (o : ObjectMeta) : Time :=
  parseTime (annotation AnnotationKeyExternalCreateSucceeded o).
Definition GetExternalCreateFailed (o : ObjectMeta) : Time :=
  parseTime (annotation AnnotationKeyExternalCreateFailed o).

Definition SetExternalCreatePending (t : Time) (o : ObjectMeta) : ObjectMeta :=
  AddAnnotations {[AnnotationKeyExternalCreatePending := b2s (FormatRFC3339 t)]} o.
Definition SetExternalCreateSucceeded (t : Time) (o : ObjectMeta) : ObjectMeta :=
  AddAnnotations {[AnnotationKeyExternalCreateSucceeded := b2s (FormatRFC3339 t)]} o.
Definition SetExternalCreateFailed (t : Time) (o : ObjectMeta) : ObjectMeta :=
  AddAnnotations {[AnnotationKeyExternalCreateFailed := b2s (FormatRFC3339 t)]} o.

Definition ExternalCreateIncomplete (o : ObjectMeta) : bool :=
  let pending := GetExternalCreatePending o in
  let succeeded := GetExternalCreateSucceeded o in
  let failed := GetExternalCreateFailed o in
  if IsZero pending then false
  else
    let latest := if After failed succeeded then failed else succeeded in
    After pending latest.

(** [time.Since], where [now] is the clock it reads: a duration that does not fit
    in 64 bits is the closest one that does. *)
Definition Since (now t : Time) : Z := Z.max (- 2 ^ 63) (Z.min (2 ^ 63 - 1) (instant now - instant t)).

Definition ExternalCreateSucceededDuring (now : Time) (o : ObjectMeta) (d : Z) : bool :=
  let t := GetExternalCreateSucceeded o in
  if IsZero t then false else (Since now t <? d)%Z.

End creation.

Definition IsPaused (o : ObjectMeta) : bool :=
  bool_decide (annotation AnnotationKeyReconciliationPaused o = "true").

(** ** Lemmas *)

Lemma annotation_AddAnnotations (key key' v : string) (o : ObjectMeta) :
  annotation key' (AddAnnotations {[key := v]} o) = if decide (key = key') then v else annotation key' o.
Proof.
  unfold annotation, AddAnnotations, addAll. destruct (Annotations o) as [a|]; simpl.
  - rewrite <- insert_union_singleton_l. case_decide; [subst; by rewrite lookup_insert_eq|].
    by rewrite lookup_insert_ne.
  - case_decide; [subst; by rewrite lookup_singleton_eq|]. by rewrite lookup_singleton_ne.
Qed.

Lemma existsb_elem_of (x : string) (l : list string) :
  existsb (fun e => bool_decide (e = x)) l = true <-> x ∈ l.
Proof.
  rewrite existsb_exists. setoid_rewrite <- list_elem_of_In. split.
  - intros (y & Hy & ->%bool_decide_eq_true). done.
  - intros Hx. exists x. by rewrite bool_decide_eq_true.
Qed.

Lemma FinalizerExists_elem (o : ObjectMeta) (f : string) : FinalizerExists o f = true <-> f ∈ Finalizers o.
Proof. apply existsb_elem_of. Qed.

(** Elements other than the finalizer are passed over. *)
Lemma removeLoop_skip (f : string) (n i : nat) (arr : list string) (flen : nat) :
  i + n <= length arr -> Forall (fun e => e <> f) (take n (drop i arr)) -> removeLoop f n i arr flen = Some (arr, flen).
Proof.
  revert i. induction n as [|n IH]; intros i Hl Hf; [done|]. cbn [removeLoop].
  destruct (lookup_lt_is_Some_2 arr i ltac:(lia)) as [e He]. rewrite He.
  rewrite (drop_S _ _ _ He) in Hf. simpl in Hf. apply Forall_cons in Hf as [He' Hf].
  rewrite decide_False by done. replace (i + 1) with (S i) by lia. apply IH; [lia|done].
Qed.

Lemma removeLoop_before (f : string) (n m i : nat) (arr : list string) (flen : nat) :
  i + n <= length arr -> Forall (fun e => e <> f) (take n (drop i arr)) ->
  removeLoop f (n + m) i arr flen = removeLoop f m (i + n) arr flen.
Proof.
  revert i. induction n as [|n IH]; intros i Hl Hf; [by rewrite Nat.add_0_r|]. cbn [removeLoop Nat.add].
  destruct (lookup_lt_is_Some_2 arr i ltac:(lia)) as [e He]. rewrite He.
  rewrite (drop_S _ _ _ He) in Hf. simpl in Hf. apply Forall_cons in Hf as [He' Hf].
  rewrite decide_False by done. replace (i + 1) with (S i) by lia. rewrite IH by (done || lia).
  f_equal. lia.
Qed.

(** The loop on a list with one occurrence of the finalizer, which is followed
    by a last element or by nothing. *)
Lemma removeLoop_once (f : string) (l1 l2 : list string) :
  f ∉ l1 -> f ∉ l2 ->
  exists arr, removeLoop f (length (l1 ++ f :: l2)) 0 (l1 ++ f :: l2) (length (l1 ++ f :: l2)) =
    Some (arr, length (l1 ++ l2)) /\ take (length (l1 ++ l2)) arr = l1 ++ l2.
Proof.
  intros H1 H2. set (arr := l1 ++ f :: l2).
  assert (length arr = length l1 + S (length l2)) as Hlen by (unfold arr; rewrite length_app; done).
  assert (Forall (fun e => e <> f) (take (length l1) (drop 0 arr))) as Hbefore.
  { rewrite drop_0. unfold arr. rewrite take_app_length. apply Forall_forall. intros x Hx ->. done. }
  assert (removeLoop f (length arr) 0 arr (length arr) = removeLoop f (S (length l2)) (length l1) arr (length arr)) as ->.
  { rewrite <- (removeLoop_before f (length l1) (S (length l2)) 0) by (done || lia). by rewrite Hlen. }
  cbn [removeLoop].
  assert (arr !! length l1 = Some f) as -> by (unfold arr; by rewrite list_lookup_middle).
  rewrite decide_True by done. rewrite decide_False by lia.
  assert (take (length l1) arr = l1) as -> by (unfold arr; apply take_app_length).
  assert (drop (length l1 + 1) arr = l2) as Hd.
  { unfold arr. rewrite <- drop_drop, drop_app_length. done. }
  rewrite Hd. replace (length arr - (length l1 + 1)) with (length l2) by lia. rewrite firstn_all.
  set (arr' := l1 ++ l2 ++ drop (length arr - 1) arr).
  assert (length arr' = length arr) as Hlen'.
  { unfold arr'. rewrite !length_app, length_drop. lia. }
  exists arr'. rewrite removeLoop_skip.
  - split; [f_equal; f_equal; rewrite length_app; lia|]. unfold arr'. rewrite app_assoc. apply take_app_length.
  - lia.
  - unfold arr'. rewrite <- drop_drop, drop_app_length. destruct l2 as [|x l2]; [constructor|].
    assert (Forall (fun e => e <> f) (x :: l2)) as Hall by (apply Forall_forall; intros y Hy ->; done).
    apply Forall_take, Forall_drop, Forall_app. split; [done|].
    replace (length arr - 1) with (length l1 + 1 + length l2) by (simpl in *; lia).
    rewrite <- drop_drop, Hd. by apply Forall_drop.
Qed.

Lemma filter_ne_id (f : string) (l : list string) : f ∉ l -> filter (fun e => e <> f) l = l.
Proof.
  induction l as [|x l IH]; [done|]. intros [Hne Hl]%not_elem_of_cons.
  rewrite filter_cons_True by congruence. by rewrite IH.
Qed.

Lemma RemoveFinalizer_filter (f : string) (o : ObjectMeta) :
  NoDup (Finalizers o) ->
  RemoveFinalizer f o = Some (SetFinalizers (filter (fun e => e <> f) (Finalizers o)) o).
Proof.
  intros Hn. unfold RemoveFinalizer. destruct (decide (f ∈ Finalizers o)) as [Hin|Hin].
  - apply list_elem_of_split in Hin as (l1 & l2 & Hl). rewrite Hl in *.
    apply NoDup_app in Hn as (_ & H1 & H2). apply NoDup_cons in H2 as [H2 _].
    assert (f ∉ l1) as H1' by (intros Hf; apply (H1 f Hf); by left).
    destruct (removeLoop_once f l1 l2 H1' H2) as (arr & -> & ->).
    rewrite filter_app, filter_cons_False, !filter_ne_id by auto. done.
  - rewrite removeLoop_skip, firstn_all, filter_ne_id; [done..|].
    apply Forall_forall. intros x Hx ->. apply Hin. rewrite drop_0, firstn_all in Hx. done.
Qed.

(** ** Properties *)

(** On finalizers without repetition, [AddFinalizer] and [RemoveFinalizer]
    behave like a set: adding makes the finalizer exist and nothing else,
    removing returns (no slice bound is exceeded) and leaves exactly the other
    finalizers, in their order; repetitions never appear. *)
Theorem finalizers_set (o : ObjectMeta) (f : string) :
  NoDup (Finalizers o) ->
  NoDup (Finalizers (AddFinalizer f o)) /\
  (forall g, FinalizerExists (AddFinalizer f o) g = true <-> g = f \/ FinalizerExists o g = true) /\
  exists o', RemoveFinalizer f o = Some o' /\ Finalizers o' = filter (fun e => e <> f) (Finalizers o) /\
    NoDup (Finalizers o') /\
    (forall g, FinalizerExists o' g = true <-> g <> f /\ FinalizerExists o g = true) /\
    (f ∉ Finalizers o -> exists o'', RemoveFinalizer f (AddFinalizer f o) = Some o'' /\ Finalizers o'' = Finalizers o).
Proof.
  intros Hn. assert (NoDup (Finalizers (AddFinalizer f o))) as Hn'.
  { unfold AddFinalizer. destruct (existsb _ _) eqn:E; [done|]. simpl. apply NoDup_app.
    split_and!; [done| |apply NoDup_singleton]. intros x Hx ->%list_elem_of_singleton.
    apply existsb_elem_of in Hx. congruence. }
  split_and!; [done| |].
  - intros g. rewrite !FinalizerExists_elem. unfold AddFinalizer. destruct (existsb _ _) eqn:E.
    + apply existsb_elem_of in E. naive_solver.
    + simpl. rewrite elem_of_app, list_elem_of_singleton. tauto.
  - eexists. split; [by apply RemoveFinalizer_filter|]. split_and!; [done|by apply NoDup_filter| |].
    + intros g. rewrite !FinalizerExists_elem. simpl. by rewrite list_elem_of_filter.
    + intros Hf. eexists. split; [by apply RemoveFinalizer_filter|]. simpl.
      unfold AddFinalizer. destruct (existsb _ _) eqn:E; [apply existsb_elem_of in E; done|].
      simpl. rewrite filter_app, filter_ne_id, filter_cons_False by auto. simpl. by rewrite app_nil_r.
Qed.

Definition demoMeta : ObjectMeta :=
  MkObjectMeta "cool" "" "uid" 1 "1" None None ["a"; "b"] [] None zeroTime.

Lemma finalizers_set_witness :
  exists o', RemoveFinalizer "b" demoMeta = Some o' /\ Finalizers o' = ["a"].
Proof.
  destruct (finalizers_set demoMeta "b") as (_ & _ & o' & H1 & H2 & _);
    [by apply (bool_decide_eq_true_1 (NoDup _))|]. exists o'. split; [exact H1|exact H2].
Defined.

(** With a repeated finalizer the loop of [RemoveFinalizer], which ranges
    over the array it is shifting, can run past the end of the shortened slice
    and panic, or leave an occurrence in place. *)
Theorem remove_finalizer_repeated :
  RemoveFinalizer "x" (SetFinalizers ["x"; "x"] demoMeta) = None /\
  Finalizers <$> RemoveFinalizer "x" (SetFinalizers ["x"; "x"; "a"] demoMeta) = Some ["x"; "a"].
Proof. split; reflexivity. Qed.

Section creation_properties.
Context {LP : LenientParser}.

(** An instant rounded down to the second, as a timestamp records it. *)
Definition truncate (t : Time) : Z := (instant t / second * second)%Z.

Lemma parseTime_Format (t : Time) :
  printable t = true -> instant (parseTime (b2s (FormatRFC3339 t))) = truncate t.
Proof.
  intros Hp. unfold parseTime, ParseRFC3339. rewrite s2b_b2s. by rewrite parseStrict_Format.
Qed.

Lemma truncate_mono (t u : Time) : (instant t <= instant u)%Z -> (truncate t <= truncate u)%Z.
Proof. unfold truncate, second. intros. Z.to_euclidean_division_equations. lia. Qed.

Lemma truncate_positive (t : Time) : (second <= instant t)%Z -> (0 < truncate t)%Z.
Proof. unfold truncate, second. intros. Z.to_euclidean_division_equations. lia. Qed.

(** [ExternalCreateIncomplete] as a comparison of instants. *)
Lemma ExternalCreateIncomplete_spec (o : ObjectMeta) :
  ExternalCreateIncomplete o =
  negb (IsZero (GetExternalCreatePending o)) &&
  (Z.max (instant (GetExternalCreateSucceeded o)) (instant (GetExternalCreateFailed o)) <?
   instant (GetExternalCreatePending o))%Z.
Proof.
  unfold ExternalCreateIncomplete. destruct (IsZero _); [done|]. simpl. unfold After.
  destruct (Z.ltb_spec (instant (GetExternalCreateSucceeded o)) (instant (GetExternalCreateFailed o))); f_equal; lia.
Qed.

(** A creation that is marked as pending later than the recorded outcomes, in
    whole seconds, is incomplete. *)
Lemma pending_incomplete (o : ObjectMeta) (t : Time) :
  printable t = true -> (second <= instant t)%Z ->
  ExternalCreateIncomplete (SetExternalCreatePending t o) = true <->
  (instant (GetExternalCreateSucceeded o) < truncate t /\ instant (GetExternalCreateFailed o) < truncate t)%Z.
Proof.
  intros Ht Hs. pose proof (truncate_positive t Hs) as Hp. rewrite ExternalCreateIncomplete_spec.
  unfold IsZero, GetExternalCreatePending, GetExternalCreateSucceeded, GetExternalCreateFailed, SetExternalCreatePending.
  rewrite !annotation_AddAnnotations. repeat (case_decide; try done). rewrite parseTime_Format by done.
  rewrite (proj2 (Z.eqb_neq (truncate t) 0)) by lia. simpl negb. rewrite andb_true_l, Z.ltb_lt. lia.
Qed.

(** Recording an outcome at the time of a pending creation or later completes it. *)
Lemma outcome_complete (o : ObjectMeta) (t t' : Time) :
  printable t = true -> printable t' = true -> (second <= instant t <= instant t')%Z ->
  ExternalCreateIncomplete (SetExternalCreateSucceeded t' (SetExternalCreatePending t o)) = false /\
  ExternalCreateIncomplete (SetExternalCreateFailed t' (SetExternalCreatePending t o)) = false.
Proof.
  intros Ht Ht' [Hs Hle].
  pose proof (truncate_positive t Hs) as Hp. pose proof (truncate_mono t t' Hle) as Hm.
  rewrite !ExternalCreateIncomplete_spec. unfold IsZero, GetExternalCreatePending, GetExternalCreateSucceeded,
    GetExternalCreateFailed, SetExternalCreatePending, SetExternalCreateSucceeded, SetExternalCreateFailed.
  rewrite !annotation_AddAnnotations. repeat (case_decide; try done).
  rewrite !parseTime_Format by done. rewrite (proj2 (Z.eqb_neq (truncate t) 0)) by lia. simpl negb.
  rewrite ?andb_true_l. split; apply Z.ltb_ge; lia.
Qed.

(** A creation that is marked as pending within the second in which an earlier
    one was recorded as failed is taken for complete: the annotations hold whole
    seconds. *)
Theorem pending_same_second (o : ObjectMeta) (t t' : Time) :
  printable t = true -> printable t' = true -> (second <= instant t)%Z -> truncate t = truncate t' ->
  ExternalCreateIncomplete (SetExternalCreatePending t' (SetExternalCreateFailed t o)) = false.
Proof.
  intros Ht Ht' Hs Heq. apply not_true_is_false. intros Hi.
  pose proof (truncate_positive t Hs) as Hp. revert Hi. rewrite ExternalCreateIncomplete_spec.
  unfold IsZero, GetExternalCreatePending, GetExternalCreateSucceeded, GetExternalCreateFailed, SetExternalCreatePending, SetExternalCreateFailed.
  rewrite !annotation_AddAnnotations. repeat (case_decide; try done). rewrite !parseTime_Format by done.
  rewrite andb_true_iff, Z.ltb_lt. lia.
Qed.

(** C23: once creation is marked as pending it counts as incomplete exactly when
    the pending time, in whole seconds, is after the recorded success and
    failure; marking it as succeeded or failed at a later time completes it.
    So a marker left by a crash is detected, unless an earlier attempt was
    recorded within the same second. *)
Theorem create_incomplete_tracks (o : ObjectMeta) (t t' : Time) :
  printable t = true -> printable t' = true -> (second <= instant t <= instant t')%Z ->
  let o1 := SetExternalCreatePending t o in
  (ExternalCreateIncomplete o1 = true <->
     instant (GetExternalCreateSucceeded o) < truncate t /\ instant (GetExternalCreateFailed o) < truncate t)%Z /\
  ExternalCreateIncomplete (SetExternalCreateSucceeded t' o1) = false /\
  ExternalCreateIncomplete (SetExternalCreateFailed t' o1) = false.
Proof.
  intros Ht Ht' Hs o1. split; [apply pending_incomplete; [done|lia]|by apply outcome_complete].
Qed.

End creation_properties.

(** December 1, 2024, at noon. *)
Definition demoTime : Time := MkTime ((daysFromCivil 2024 12 1 * 86400 + 43200) * second)%Z 0.

Lemma create_incomplete_tracks_witness :
  ExternalCreateIncomplete (LP:=fun _ => None)
    (SetExternalCreateSucceeded demoTime (SetExternalCreatePending demoTime demoMeta)) = false.
Proof.
  refine (proj1 (proj2 (create_incomplete_tracks (LP:=fun _ => None) demoMeta demoTime demoTime _ _ _)));
    [reflexivity|reflexivity|vm_compute; split; discriminate].
Defined.

(** ** Owner references *)

(** One reference per owner and at most one controller. *)
Definition wf_owners (refs : list OwnerReference) : Prop :=
  NoDup (OwnerUID <$> refs) /\
  forall r1 r2, r1 ∈ refs -> r2 ∈ refs -> Controller r1 = Some true -> Controller r2 = Some true -> r1 = r2.

Lemma AddOwnerReference_refs (r : OwnerReference) (o : ObjectMeta) :
  (exists l1 x l2, OwnerReferences o = l1 ++ x :: l2 /\ OwnerUID x = OwnerUID r /\
     OwnerReferences (AddOwnerReference r o) = l1 ++ r :: l2) \/
  ((OwnerUID r ∉ (OwnerUID <$> OwnerReferences o)) /\
     OwnerReferences (AddOwnerReference r o) = OwnerReferences o ++ [r]).
Proof.
  unfold AddOwnerReference. destruct (find_index _ _) as [i|] eqn:E.
  - apply find_index_Some in E as (l1 & x & l2 & Hl & <- & Hx%bool_decide_eq_true & _). left.
    exists l1, x, l2. split_and!; [done..|]. simpl. rewrite Hl. by rewrite insert_app_r_alt, Nat.sub_diag by lia.
  - apply find_index_None in E. right. split; [|done]. intros (x & Hx & Hin)%list_elem_of_fmap.
    rewrite Forall_forall in E. specialize (E x Hin). by rewrite bool_decide_eq_false in E.
Qed.

Lemma NoDup_fmap_inj {A B} (f : A -> B) (l : list A) (x y : A) :
  NoDup (f <$> l) -> x ∈ l -> y ∈ l -> f x = f y -> x = y.
Proof.
  intros Hn [i Hi]%list_elem_of_lookup [j Hj]%list_elem_of_lookup Hf.
  rewrite NoDup_alt in Hn. assert (i = j) as ->; [|congruence].
  apply (Hn i j (f x)); rewrite list_lookup_fmap; [by rewrite Hi|rewrite Hj; simpl; congruence].
Qed.

Lemma AddOwnerReference_wf (r : OwnerReference) (o : ObjectMeta) :
  wf_owners (OwnerReferences o) ->
  (forall x, x ∈ OwnerReferences o -> Controller x = Some true -> OwnerUID x = OwnerUID r) ->
  wf_owners (OwnerReferences (AddOwnerReference r o)) /\ r ∈ OwnerReferences (AddOwnerReference r o).
Proof.
  intros [Hn _] Hother.
  assert (NoDup (OwnerUID <$> OwnerReferences (AddOwnerReference r o)) /\ r ∈ OwnerReferences (AddOwnerReference r o) /\
    forall y, y ∈ OwnerReferences (AddOwnerReference r o) -> y = r \/ y ∈ OwnerReferences o) as (Hn' & Hin & Hsub).
  { destruct (AddOwnerReference_refs r o) as [(l1 & x & l2 & Hl & Hx & ->)|(Hnew & ->)].
    - rewrite Hl in *. rewrite fmap_app, fmap_cons, Hx in Hn. rewrite fmap_app, fmap_cons.
      split_and!; [done|set_solver|set_solver].
    - rewrite fmap_app. split_and!; [|set_solver|set_solver]. apply NoDup_app.
      split_and!; [done|set_solver|apply NoDup_singleton]. }
  split; [split; [done|]|done]. intros r1 r2 H1 H2 C1 C2.
  assert (forall y, y ∈ OwnerReferences (AddOwnerReference r o) -> Controller y = Some true -> y = r) as Hr.
  { intros y Hy Cy. destruct (Hsub y Hy) as [->|Hold]; [done|].
    apply (NoDup_fmap_inj OwnerUID _ _ _ Hn' Hy Hin). auto. }
  by rewrite (Hr r1), (Hr r2).
Qed.

(** [AddControllerReference] refuses, without touching the object, when it is
    controlled by another owner; otherwise the object is controlled by the
    supplied owner afterwards, and still has one reference per owner and one
    controller. *)
Theorem add_controller_reference `{!MetaV1} (r : OwnerReference) (o o' : ObjectMeta) (err : option error) :
  wf_owners (OwnerReferences o) -> Controller r = Some true -> AddControllerReference r o = (o', err) ->
  match err with
  | Some _ => o' = o /\ exists c, GetControllerOf (OwnerReferences o) = Some c /\ OwnerUID c <> OwnerUID r
  | None => GetControllerOf (OwnerReferences o') = Some r /\ wf_owners (OwnerReferences o') /\
            (forall c, GetControllerOf (OwnerReferences o) = Some c -> OwnerUID c = OwnerUID r)
  end.
Proof.
  intros Hwf Hr Hadd. unfold AddControllerReference in Hadd.
  assert (o' = AddOwnerReference r o ->
    (forall c, GetControllerOf (OwnerReferences o) = Some c -> OwnerUID c = OwnerUID r) ->
    GetControllerOf (OwnerReferences o') = Some r /\ wf_owners (OwnerReferences o') /\
    (forall c, GetControllerOf (OwnerReferences o) = Some c -> OwnerUID c = OwnerUID r)) as Hok.
  { intros -> Hc. destruct (AddOwnerReference_wf r o Hwf) as [Hwf' Hin].
    { intros x Hx Cx. destruct (GetControllerOf (OwnerReferences o)) as [c|] eqn:Ec.
      - destruct (controller_some _ _ Ec) as [H1 H2]. rewrite (proj2 Hwf x c) by done. auto.
      - apply controller_none in Ec. rewrite Forall_forall in Ec. by destruct (Ec x). }
    split_and!; [|done..]. destruct (GetControllerOf (OwnerReferences (AddOwnerReference r o))) as [c|] eqn:Ec.
    - destruct (controller_some _ _ Ec) as [H1 H2]. by rewrite (proj2 Hwf' c r).
    - apply controller_none in Ec. rewrite Forall_forall in Ec. by destruct (Ec r). }
  destruct (GetControllerOf (OwnerReferences o)) as [c|] eqn:Ec; [case_decide as Hd|]; simplify_eq.
  - split; [done|]. by exists c.
  - apply Hok; [done|]. by intros ? [= <-].
  - by apply Hok.
Qed.

(** The first reference marked as controller. *)
Definition MetaV1First : MetaV1.
Proof.
  refine {| ToAPIVersionAndKind gvk := (Group gvk +:+ "/" +:+ Version gvk, GKind gvk);
            GetControllerOf refs := find_index (fun r => bool_decide (Controller r = Some true)) refs ≫= (fun i => refs !! i) |}.
  - intros refs r. destruct (find_index _ refs) as [i|] eqn:E; [|done]. simpl. intros Hi.
    apply find_index_Some in E as (l1 & x & l2 & -> & <- & Hx & _).
    rewrite list_lookup_middle in Hi by done. simplify_eq. apply bool_decide_eq_true in Hx. set_solver.
  - intros refs. destruct (find_index _ refs) as [i|] eqn:E.
    + apply find_index_Some in E as (l1 & x & l2 & -> & <- & _). simpl. by rewrite list_lookup_middle.
    + intros _. apply find_index_None in E. eapply Forall_impl; [exact E|]. intros x Hx. by apply bool_decide_eq_false in Hx.
Defined.

Lemma add_controller_reference_witness :
  GetControllerOf (MetaV1:=MetaV1First)
    (OwnerReferences (AddControllerReference (H:=MetaV1First)
       (AsController (MkTypedReference "v1" "Owner" "o" "u1")) demoMeta).1) =
  Some (AsController (MkTypedReference "v1" "Owner" "o" "u1")).
Proof.
  refine (proj1 (add_controller_reference (H:=MetaV1First) (AsController (MkTypedReference "v1" "Owner" "o" "u1"))
    demoMeta _ None _ eq_refl eq_refl)).
  split; [constructor|]. intros r1 r2 H1. by apply not_elem_of_nil in H1.
Defined.
