(* ===== verification/Policies.v ===== *)
(** * Management policies (pkg/reconciler/managed/policies.go, apis/common/policies.go, pkg/feature)

    A set of management actions is a [gset] of their names. *)

From S2P Require Import Prelude GoErrors.

Definition ManagementActionObserve : string := "Observe".
Definition ManagementActionCreate : string := "Create".
Definition ManagementActionUpdate : string := "Update".
Definition ManagementActionDelete : string := "Delete".
Definition ManagementActionLateInitialize : string := "LateInitialize".
Definition ManagementActionAll : string := "*".

Definition DeletionOrphan : string := "Orphan".
Definition DeletionDelete : string := "Delete".

Abbreviation Actions := (gset string).

(** ** Feature flags *)

(** [Flags.enabled]; a nil map is [None].  The mutex serialises the calls. *)
Record Flags := MkFlags { enabledFlags : option (gmap string bool) }.

Definition EnableBetaManagementPolicies : string := "EnableBetaManagementPolicies".
Definition EnableAlphaChangeLogs : string := "EnableAlphaChangeLogs".

Definition Enable (f : string) (fs : Flags) : Flags :=
  MkFlags (Some (<[f := true]> (default ∅ (enabledFlags fs)))).

(** [None] is the nil pointer. *)
Definition Enabled (f : string) (fs : option Flags) : bool :=
  match fs with
  | None => false
  | Some fs => default false (m ← enabledFlags fs; m !! f)
  end.

(** ** The resolver *)

Record ManagementPoliciesResolver := MkResolver {
  enabled : bool;
  supportedPolicies : list Actions;
  managementPolicies : Actions
}.

Record LegacyManagementPoliciesResolver := MkLegacyResolver {
  resolver : ManagementPoliciesResolver;
  deletionPolicy : string
}.

Definition ManagementPoliciesResolverOption := ManagementPoliciesResolver -> ManagementPoliciesResolver.

Definition WithSupportedManagementPolicies (supported : list Actions) : ManagementPoliciesResolverOption :=
  fun r => MkResolver (enabled r) supported (managementPolicies r).

Definition defaultSupportedManagementPolicies : list Actions := [
  {[ManagementActionAll]};
  {[ManagementActionObserve; ManagementActionCreate; ManagementActionUpdate; ManagementActionLateInitialize; ManagementActionDelete]};
  {[ManagementActionObserve]};
  ∅;
  {[ManagementActionObserve; ManagementActionCreate; ManagementActionUpdate; ManagementActionDelete]};
  {[ManagementActionObserve; ManagementActionCreate; ManagementActionUpdate; ManagementActionLateInitialize]};
  {[ManagementActionObserve; ManagementActionCreate; ManagementActionUpdate]};
  {[ManagementActionObserve; ManagementActionCreate; ManagementActionDelete; ManagementActionLateInitialize]};
  {[ManagementActionObserve; ManagementActionCreate; ManagementActionLateInitialize]};
  {[ManagementActionObserve; ManagementActionCreate; ManagementActionDelete]};
  {[ManagementActionObserve; ManagementActionCreate]};
  {[ManagementActionObserve; ManagementActionDelete]};
  {[ManagementActionObserve; ManagementActionUpdate]};
  {[ManagementActionObserve; ManagementActionLateInitialize]};
  {[ManagementActionObserve; ManagementActionUpdate; ManagementActionLateInitialize]}
].

Definition newResolver (managementPolicyEnabled : bool) (managementPolicy : list string)
    (o : list ManagementPoliciesResolverOption) : ManagementPoliciesResolver :=
  foldl (fun r ro => ro r)
    (MkResolver managementPolicyEnabled defaultSupportedManagementPolicies (list_to_set managementPolicy)) o.

(** [sets.Set.UnsortedList] and [fmt]'s [%s] of the list. *)
Definition printActions (a : Actions) : string :=
  "[" +:+ Strings.String.concat " " (elements a) +:+ "]".

Definition Validate (m : ManagementPoliciesResolver) : option error :=
  if negb (enabled m) then
    if negb (bool_decide (managementPolicies m = {[ManagementActionAll]})) &&
       negb (bool_decide (size (managementPolicies m) = 0)) then
      New ("`spec.managementPolicies` is set to a non-default value but the feature is not enabled: "
           +:+ printActions (managementPolicies m))
    else None
  else if existsb (fun p => bool_decide (p = managementPolicies m)) (supportedPolicies m) then None
  else New ("`spec.managementPolicies` is set to a value(" +:+ printActions (managementPolicies m)
            +:+ ") which is not supported. Check docs for supported policies").

Definition Has (a : string) (s : Actions) : bool := bool_decide (a ∈ s).
Definition HasAny (l : list string) (s : Actions) : bool := existsb (fun a => Has a s) l.

(** [ManagementPoliciesResolver.IsPaused] *)
Definition PolicyIsPaused (m : ManagementPoliciesResolver) : bool :=
  if negb (enabled m) then false else bool_decide (size (managementPolicies m) = 0).

Definition ShouldCreate (m : ManagementPoliciesResolver) : bool :=
  if negb (enabled m) then true else HasAny [ManagementActionCreate; ManagementActionAll] (managementPolicies m).

Definition ShouldUpdate (m : ManagementPoliciesResolver) : bool :=
  if negb (enabled m) then true else HasAny [ManagementActionUpdate; ManagementActionAll] (managementPolicies m).

Definition ShouldLateInitialize (m : ManagementPoliciesResolver) : bool :=
  if negb (enabled m) then true
  else HasAny [ManagementActionLateInitialize; ManagementActionAll] (managementPolicies m).

Definition ShouldOnlyObserve (m : ManagementPoliciesResolver) : bool :=
  if negb (enabled m) then false else bool_decide (managementPolicies m = {[ManagementActionObserve]}).

Definition ShouldDelete (m : ManagementPoliciesResolver) : bool :=
  if negb (enabled m) then true else HasAny [ManagementActionDelete; ManagementActionAll] (managementPolicies m).

(** [LegacyManagementPoliciesResolver.ShouldDelete] *)
Definition LegacyShouldDelete (m : LegacyManagementPoliciesResolver) : bool :=
  let r := resolver m in
  if negb (enabled r) then negb (bool_decide (deletionPolicy m = DeletionOrphan))
  else if bool_decide (deletionPolicy m = DeletionDelete) &&
          HasAny [ManagementActionDelete; ManagementActionAll] (managementPolicies r) then true
  else if negb (bool_decide (managementPolicies r = {[ManagementActionAll]})) &&
          Has ManagementActionDelete (managementPolicies r) then true
  else false.

(** The interface [ManagementPoliciesChecker], as the record of its answers. *)
Record ManagementPoliciesChecker := MkChecker {
  pValidate : option error;
  pIsPaused : bool;
  pShouldOnlyObserve : bool;
  pShouldCreate : bool;
  pShouldLateInitialize : bool;
  pShouldUpdate : bool;
  pShouldDelete : bool
}.

Definition checker (m : ManagementPoliciesResolver) (del : bool) : ManagementPoliciesChecker :=
  MkChecker (Validate m) (PolicyIsPaused m) (ShouldOnlyObserve m) (ShouldCreate m) (ShouldLateInitialize m)
    (ShouldUpdate m) del.

Definition NewManagementPoliciesResolver (managementPolicyEnabled : bool) (managementPolicy : list string)
    (o : list ManagementPoliciesResolverOption) : ManagementPoliciesChecker :=
  let r := newResolver managementPolicyEnabled managementPolicy o in checker r (ShouldDelete r).

Definition NewLegacyManagementPoliciesResolver (managementPolicyEnabled : bool) (managementPolicy : list string)
    (deletionPolicy : string) (o : list ManagementPoliciesResolverOption) : ManagementPoliciesChecker :=
  let r := newResolver managementPolicyEnabled managementPolicy o in
  checker r (LegacyShouldDelete (MkLegacyResolver r deletionPolicy)).

(** ** Lemmas *)

Lemma HasAny_spec (l : list string) (s : Actions) : HasAny l s = true <-> exists a, a ∈ l /\ a ∈ s.
Proof.
  unfold HasAny, Has. rewrite existsb_exists. setoid_rewrite <- list_elem_of_In.
  setoid_rewrite bool_decide_eq_true. done.
Qed.

Lemma HasAny_two (a b : string) (s : Actions) : HasAny [a; b] s = true <-> a ∈ s \/ b ∈ s.
Proof. rewrite HasAny_spec. set_solver. Qed.

(** ** Properties *)

(** With the feature enabled, a legacy resource's external resource is
    deleted exactly when the policies name Delete (whatever the deletion
    policy) or when they are "all" and the deletion policy agrees; with the
    feature disabled, unless the deletion policy is Orphan. *)
Theorem legacy_should_delete_iff (m : LegacyManagementPoliciesResolver) :
  LegacyShouldDelete m = true <->
  if enabled (resolver m) then
    ManagementActionDelete ∈ managementPolicies (resolver m) \/
    (ManagementActionAll ∈ managementPolicies (resolver m) /\ deletionPolicy m = DeletionDelete)
  else deletionPolicy m <> DeletionOrphan.
Proof.
  unfold LegacyShouldDelete, Has. destruct (enabled (resolver m)); cbn [negb].
  - destruct (bool_decide _ && HasAny _ _) eqn:E1.
    + apply andb_true_iff in E1 as [E1%bool_decide_eq_true E2%HasAny_two]. naive_solver.
    + destruct (negb _ && bool_decide _) eqn:E2.
      * apply andb_true_iff in E2 as [_ E2%bool_decide_eq_true]. naive_solver.
      * split; [done|]. intros [Hd|[Ha Hp]]; exfalso.
        -- rewrite (bool_decide_eq_true_2 _ Hd), andb_true_r, negb_false_iff, bool_decide_eq_true in E2.
           rewrite E2 in Hd. set_solver.
        -- rewrite (bool_decide_eq_true_2 _ Hp), andb_true_l in E1.
           by rewrite (proj2 (HasAny_two _ _ _) (or_intror Ha)) in E1.
  - by rewrite negb_true_iff, bool_decide_eq_false.
Qed.

(** A policy that passes validation against the default supported policies,
    and does not pause the resource, always allows observing; one that only
    allows observing forbids every other action; and with the feature disabled
    only the default policy (or none) passes and everything is allowed. *)
Theorem valid_policies_consistent (en : bool) (mp : list string) :
  let c := NewManagementPoliciesResolver en mp [] in
  let acts : Actions := list_to_set mp in
  pValidate c = None ->
  (en = true -> pIsPaused c = false -> ManagementActionObserve ∈ acts \/ ManagementActionAll ∈ acts) /\
  (pShouldOnlyObserve c = true ->
     pShouldCreate c = false /\ pShouldUpdate c = false /\ pShouldDelete c = false /\ pShouldLateInitialize c = false) /\
  (en = false -> (acts = ∅ \/ acts = {[ManagementActionAll]}) /\
     pShouldCreate c = true /\ pShouldUpdate c = true /\ pShouldDelete c = true /\ pShouldLateInitialize c = true).
Proof.
  intros c acts. unfold c, NewManagementPoliciesResolver, newResolver, checker, foldl.
  cbn [pValidate pIsPaused pShouldOnlyObserve pShouldCreate pShouldUpdate pShouldDelete pShouldLateInitialize].
  unfold Validate, PolicyIsPaused, ShouldOnlyObserve, ShouldCreate, ShouldUpdate, ShouldDelete, ShouldLateInitialize.
  cbn [enabled managementPolicies supportedPolicies]. fold acts. destruct en; cbn [negb].
  - destruct (existsb _ _) eqn:E; [|done]. intros _. split_and!; [|intros Ho|done].
    + intros _ Hp. apply existsb_exists in E as (p & Hp' & Ha%bool_decide_eq_true).
      apply bool_decide_eq_false in Hp. rewrite <- Ha in *. clear -Hp Hp'.
      unfold defaultSupportedManagementPolicies in Hp'. simpl in Hp'.
      destruct_or! Hp'; subst; try done; try (left; set_solver); right; set_solver.
    + apply bool_decide_eq_true in Ho. rewrite Ho. by vm_compute.
  - destruct (negb _ && _) eqn:E; [done|]. intros _. split_and!; [done|done|]. intros _. split_and!; [|done..].
    apply andb_false_iff in E as [E|E]; apply negb_false_iff, bool_decide_eq_true in E; [by right|left].
    by apply size_empty_inv, leibniz_equiv in E.
Qed.

Lemma valid_policies_consistent_witness :
  pShouldCreate (NewManagementPoliciesResolver true ["Observe"] []) = false.
Proof.
  apply (proj1 (proj2 (valid_policies_consistent true ["Observe"] ltac:(vm_compute; reflexivity)))).
  vm_compute. reflexivity.
Defined.
