(* ===== verification/Prog.v ===== *)
(** * Programs with effects

    Code that talks to the API server, to an external system, to a clock or to
    a pluggable component is a [prog]: a tree whose nodes perform an effect and
    continue with its answer.  Nothing is assumed of the answers: an execution
    ([exec]) is any path through the tree, and its trace lists the effects
    performed with the answers received.  Theorems are about every trace.

    [wp] is a weakest precondition calculus over traces.  A monitor summarises
    the past in a state, which [step] updates at each event; [wp s p Q] holds
    when, started with the summary [s], every effect [p] performs is allowed
    by [P] given the summary before it, and [Q] holds of the summary and the
    result at the end. *)

From S2P Require Import Prelude.

Section prog.
Context {E : Type -> Type}.

Inductive prog (A : Type) : Type :=
| Ret (a : A)
| Panic (why : string)
| Vis (X : Type) (e : E X) (k : X -> prog A).

Arguments Ret {A} _.
Arguments Panic {A} _.
Arguments Vis {A X} _ _.

Definition trigger {X} (e : E X) : prog X := Vis e (fun x => Ret x).

Fixpoint bind_prog {A B} (f : A -> prog B) (p : prog A) : prog B :=
  match p with
  | Ret a => f a
  | Panic why => Panic why
  | Vis e k => Vis e (fun x => bind_prog f (k x))
  end.

(** An effect and its answer. *)
Inductive event : Type := Ev (X : Type) (e : E X) (x : X).
Arguments Ev {X} _ _.

(** The executions of a program; [None] is the result of one that panicked. *)
Fixpoint exec {A} (p : prog A) (tr : list event) (r : option A) : Prop :=
  match p with
  | Ret a => tr = [] /\ r = Some a
  | Panic _ => tr = [] /\ r = None
  | Vis e k => exists x tr', tr = Ev e x :: tr' /\ exec (k x) tr' r
  end.

(** Running with an oracle for the answers, which knows how many came before. *)
Fixpoint run_with (oracle : forall X, nat -> E X -> X) (i : nat) {A} (p : prog A) : list event * option A :=
  match p with
  | Ret a => ([], Some a)
  | Panic _ => ([], None)
  | Vis e k => let x := oracle _ i e in
               let '(tr, r) := run_with oracle (S i) (k x) in (Ev e x :: tr, r)
  end.

Lemma run_with_exec (oracle : forall X, nat -> E X -> X) (i : nat) {A} (p : prog A) :
  exec p (run_with oracle i p).1 (run_with oracle i p).2.
Proof.
  revert i. induction p as [a|why|X e k IH]; intros i; simpl; [done..|].
  specialize (IH (oracle X i e) (S i)). destruct (run_with _ _ (k _)) as [tr r]. by exists (oracle X i e), tr.
Qed.

Section wp.
Context {S : Type} (step : S -> event -> S) (P : S -> event -> Prop).

Fixpoint wp {A} (p : prog A) (s : S) (Q : S -> option A -> Prop) : Prop :=
  match p with
  | Ret a => Q s (Some a)
  | Panic _ => Q s None
  | Vis e k => forall x, P s (Ev e x) /\ wp (k x) (step s (Ev e x)) Q
  end.

Lemma wp_bind {A B} (f : A -> prog B) (p : prog A) (s : S) (Q : S -> option B -> Prop) :
  wp p s (fun s' r => match r with Some a => wp (f a) s' Q | None => Q s' None end) ->
  wp (bind_prog f p) s Q.
Proof.
  revert s. induction p as [a|why|X e k IH]; intros s; simpl; [done..|].
  intros H x. destruct (H x) as [HP Hk]. split; [done|]. by apply IH.
Qed.

Lemma wp_mono {A} (p : prog A) (s : S) (Q Q' : S -> option A -> Prop) :
  wp p s Q -> (forall s' r, Q s' r -> Q' s' r) -> wp p s Q'.
Proof.
  revert s. induction p as [a|why|X e k IH]; intros s; simpl; [intros H HQ; by apply HQ..|].
  intros H HQ x. destruct (H x) as [HP Hk]. split; [done|]. by eapply IH.
Qed.

(** The calculus is sound: it speaks of all traces. *)
Lemma wp_sound {A} (p : prog A) (s : S) (tr : list event) (r : option A) (Q : S -> option A -> Prop) :
  wp p s Q -> exec p tr r ->
  (forall tr1 ev tr2, tr = tr1 ++ ev :: tr2 -> P (foldl step s tr1) ev) /\ Q (foldl step s tr) r.
Proof.
  revert s tr. induction p as [a|why|X e k IH]; intros s tr Hw He; simpl in He.
  - destruct He as [-> ->]. split; [|done]. by intros [] ? ?.
  - destruct He as [-> ->]. split; [|done]. by intros [] ? ?.
  - destruct He as (x & tr' & -> & He). destruct (Hw x) as [HP Hk]. destruct (IH x _ _ Hk He) as [H1 H2].
    split; [|done]. intros [|ev' tr1] ev tr2 Heq; simplify_eq/=; [done|]. by apply (H1 tr1 ev tr2).
Qed.

End wp.

End prog.

Arguments prog E A : clear implicits.
Arguments event E : clear implicits.
Arguments Ret {E A} _.
Arguments Panic {E A} _.
Arguments Vis {E A X} _ _.
Arguments Ev {E X} _ _.

#[global] Instance prog_ret E : MRet (prog E) := fun A a => Ret a.
#[global] Instance prog_bind E : MBind (prog E) := fun A B f p => bind_prog f p.

(** ** Handling effects *)

(** [interp f p] performs, instead of each effect [e] of [p], the program [f e]
    of another signature: plugging an implementation into an interface. *)
Fixpoint interp {E F : Type -> Type} (f : forall X, E X -> prog F X) {A} (p : prog E A) : prog F A :=
  match p with
  | Ret a => Ret a
  | Panic why => Panic why
  | Vis e k => bind_prog (fun x => interp f (k x)) (f _ e)
  end.

(** A trace of a handled program is made of traces of the handlers. *)
Inductive refines {E F : Type -> Type} (f : forall X, E X -> prog F X) : list (event E) -> list (event F) -> Prop :=
| refines_nil : refines f [] []
| refines_cons X (e : E X) x tr1 tr2 trs :
    exec (f X e) tr1 (Some x) -> refines f trs tr2 -> refines f (Ev e x :: trs) (tr1 ++ tr2).

Lemma exec_bind {E} {A B} (g : A -> prog E B) (p : prog E A) (tr : list (event E)) (r : option B) :
  exec (bind_prog g p) tr r <->
  (exec p tr None /\ r = None) \/
  exists a tr1 tr2, tr = tr1 ++ tr2 /\ exec p tr1 (Some a) /\ exec (g a) tr2 r.
Proof.
  revert tr. induction p as [a|why|X e k IH]; intros tr; simpl.
  - split.
    + intros H. right. by exists a, [], tr.
    + intros [[[_ Hn] _]|(a0 & tr1 & tr2 & -> & [-> [= ->]] & Hg)]; [done|exact Hg].
  - split.
    + intros [-> ->]. by left.
    + intros [[[-> _] ->]|(a' & tr1 & tr2 & _ & [_ H] & _)]; done.
  - split.
    + intros (x & tr' & -> & [[H ->]|(a & tr1 & tr2 & -> & H1 & H2)]%IH); [left; eauto|].
      right. exists a, (Ev e x :: tr1), tr2. eauto 10.
    + intros [[(x & tr' & -> & H) ->]|(a & tr1 & tr2 & -> & (x & tr' & -> & H1) & H2)].
      * exists x, tr'. split; [done|]. apply IH. by left.
      * exists x, (tr' ++ tr2). split; [done|]. apply IH. right. by exists a, tr', tr2.
Qed.

(** A run of a handled program that did not panic refines a run of the program. *)
Lemma interp_refines {E F : Type -> Type} (f : forall X, E X -> prog F X) {A} (p : prog E A)
    (tr : list (event F)) (a : A) :
  exec (interp f p) tr (Some a) -> exists tr', exec p tr' (Some a) /\ refines f tr' tr.
Proof.
  revert tr. induction p as [b|why|X e k IH]; intros tr; simpl.
  - intros [-> [= ->]]. exists []. split; [done|constructor].
  - by intros [_ ?].
  - intros [[_ ?]|(x & tr1 & tr2 & -> & H1 & H2)]%exec_bind; [done|].
    destruct (IH x tr2 H2) as (tr' & H3 & H4). exists (Ev e x :: tr'). split; [eauto|]. by constructor.
Qed.

Lemma refines_cons_inv {E F : Type -> Type} (f : forall X, E X -> prog F X) (ev : event E) (trs : list (event E)) (tr : list (event F)) :
  refines f (ev :: trs) tr ->
  exists tr1 tr2, tr = tr1 ++ tr2 /\ match ev with @Ev _ X e x => exec (f X e) tr1 (Some x) end /\ refines f trs tr2.
Proof.
  intros Hr. remember (ev :: trs) as l eqn:El. destruct Hr as [|X e x tr1 tr2 trs' He Hr]; [done|].
  exists tr1, tr2. pose proof (f_equal tail El) as Ht. pose proof (f_equal head El) as Hh. simpl in Ht, Hh.
  injection Hh as <-. subst trs'. done.
Qed.

Lemma refines_app_inv {E F : Type -> Type} (f : forall X, E X -> prog F X) (trs1 trs2 : list (event E)) (tr : list (event F)) :
  refines f (trs1 ++ trs2) tr -> exists tr1 tr2, tr = tr1 ++ tr2 /\ refines f trs1 tr1 /\ refines f trs2 tr2.
Proof.
  revert tr. induction trs1 as [|[X e x] trs1 IH]; intros tr Hr; [exists [], tr; split_and!; [done|constructor|done]|].
  apply refines_cons_inv in Hr as (ta & tb & -> & He & (t1 & t2 & -> & H1 & H2)%IH).
  exists (ta ++ t1), t2. rewrite app_assoc. split_and!; [done| |done]. by constructor.
Qed.

(** ** Handling effects with a state *)

(** [interpS h s p] is [interp] for handlers that keep a state. *)
Fixpoint interpS {E F : Type -> Type} {S : Type} (h : forall X, S -> E X -> prog F (X * S)) (s : S) {A} (p : prog E A)
    : prog F (A * S) :=
  match p with
  | Ret a => Ret (a, s)
  | Panic why => Panic why
  | Vis e k => bind_prog (fun xs => interpS h xs.2 (k xs.1)) (h _ s e)
  end.

Section interpS.
Context {E F : Type -> Type} {S V : Type} (h : forall X, S -> E X -> prog F (X * S)).
Context (step : V -> event E -> V) (P : V -> event E -> Prop) (I : V -> S -> Prop).

(** Handlers that, given only effects the monitor allows, do not panic and keep
    an invariant between the monitor's summary and their state, do not panic in
    a program the monitor accepts.  Where one of them breaks the invariant, the
    part of the trace it made is to blame. *)
Lemma interpS_blame (Blame : list (event F) -> Prop) {A} (p : prog E A) (v : V) (s : S) (Q : V -> option A -> Prop) (tr : list (event F)) res :
  wp step P p v Q -> I v s -> (forall v', ~ Q v' None) ->
  (forall X (e : E X) v s tr r, I v s -> (forall x, P v (Ev e x)) -> exec (h X s e) tr r ->
     exists x s', r = Some (x, s') /\ (I (step v (Ev e x)) s' \/ Blame tr)) ->
  exec (interpS h s p) tr res -> (exists a s', res = Some (a, s')) \/ exists t1 t2 t3, tr = t1 ++ t2 ++ t3 /\ Blame t2.
Proof.
  intros Hw Hi HQ Hh. revert v s tr Hw Hi. induction p as [a|why|X e k IH]; intros v s tr Hw Hi; simpl.
  - intros [_ ->]. left. eauto.
  - by destruct (HQ v).
  - intros [[H ->]|([x s'] & tr1 & tr2 & -> & H1 & H2)]%exec_bind.
    + destruct (Hh X e v s tr None Hi (fun x => proj1 (Hw x)) H) as (? & ? & ? & _). done.
    + destruct (Hh X e v s tr1 _ Hi (fun x => proj1 (Hw x)) H1) as (x' & s2 & [= <- <-] & [Hi'|Hb]); [|by right; exists [], tr1, tr2].
      destruct (IH x _ _ _ (proj2 (Hw x)) Hi' H2) as [?|(t1 & t2 & t3 & -> & Hb)]; [by left|].
      right. exists (tr1 ++ t1), t2, t3. by rewrite app_assoc.
Qed.

(** Where, on the effects the monitor allows, the handlers with a state do what
    handlers without one may do, so does the whole. *)
Lemma interpS_interp (f : forall X, E X -> prog F X) {A} (p : prog E A) (v : V) (s s' : S) (Q : V -> option A -> Prop)
    (tr : list (event F)) (a : A) :
  wp step P p v Q -> I v s ->
  (forall X (e : E X) v s tr x s', I v s -> (forall x, P v (Ev e x)) -> exec (h X s e) tr (Some (x, s')) ->
     exec (f X e) tr (Some x) /\ I (step v (Ev e x)) s') ->
  exec (interpS h s p) tr (Some (a, s')) -> exec (interp f p) tr (Some a).
Proof.
  intros Hw Hi Hh. revert v s tr Hw Hi. induction p as [b|why|X e k IH]; intros v s tr Hw Hi; simpl.
  - by intros [-> [= <- <-]].
  - by intros [_ ?].
  - intros [[_ ?]|([x s1] & tr1 & tr2 & -> & H1 & H2)]%exec_bind; [done|].
    destruct (Hh X e v s tr1 x s1 Hi (fun x => proj1 (Hw x)) H1) as [Hf Hi'].
    apply exec_bind. right. exists x, tr1, tr2. split_and!; [done..|]. eapply IH; [apply Hw|exact Hi'|exact H2].
Qed.

End interpS.
