(* ===== verification/Errors.v ===== *)
(** * Chains and trees of errors (pkg/errors)

    The rest of pkg/errors: formatted wrapping, joined errors, and what Is, As,
    Unwrap and Cause find in them.  [GoErrors] has the errors the components
    build; here an error is a tree, whose leaves are any values that can be
    compared, such as the sentinel errors of other packages. *)

From S2P Require Import Prelude GoErrors Prog.

Section trees.
Context {L : Type} `{!EqDecision L}.

Inductive tree :=
| Leaf (l : L)                       (* an error that wraps nothing *)
| Wrapped (msg : string) (e : tree)  (* fmt.Errorf("%s: %w", msg, err) *)
| Multi (es : list tree).            (* multiError *)

(** Induction over the errors a joined error holds. *)
Lemma tree_rec' (P : tree -> Prop) :
  (forall l, P (Leaf l)) -> (forall msg e, P e -> P (Wrapped msg e)) -> (forall es, Forall P es -> P (Multi es)) -> forall e, P e.
Proof.
  intros Hl Hw Hm. fix IH 1. intros [l|msg e|es]; [apply Hl|apply Hw, IH|]. apply Hm.
  induction es as [|e es IHes]; constructor; [apply IH|exact IHes].
Qed.

(** The text of an error, given that of leaves and of an aggregate
    (k8s.io/apimachinery/pkg/util/errors). *)
Fixpoint treeError (leafError : L -> string) (aggregateError : list string -> string) (e : tree) : string :=
  match e with
  | Leaf l => leafError l
  | Wrapped msg e => msg +:+ ": " +:+ treeError leafError aggregateError e
  | Multi es => aggregateError (treeError leafError aggregateError <$> es)
  end.

(** Equality with a target that wraps nothing. *)
Definition isLeaf (target : L) (e : tree) : bool := match e with Leaf l => bool_decide (l = target) | _ => false end.

(** [Is]: the error, then what it wraps, depth first. *)
Fixpoint Is (target : L) (e : tree) : bool :=
  isLeaf target e ||
  match e with
  | Leaf _ => false
  | Wrapped _ e => Is target e
  | Multi es => existsb (Is target) es
  end.

(** [As]: the first error that can be assigned to the target, depth first. *)
Fixpoint As (assignable : tree -> bool) (e : tree) : option tree :=
  if assignable e then Some e
  else match e with
       | Leaf _ => None
       | Wrapped _ e => As assignable e
       | Multi es =>
           (fix first (es : list tree) : option tree :=
              match es with
              | [] => None
              | e :: es => match As assignable e with Some x => Some x | None => first es end
              end) es
       end.

(** [Unwrap]: an error that wraps several has no such method. *)
Definition Unwrap (err : option tree) : option tree := match err with Some (Wrapped _ e) => Some e | _ => None end.

Definition WithMessagef (err : option tree) (message : string) : option tree :=
  match err with None => None | Some e => Some (Wrapped message e) end.

Definition Wrapf (err : option tree) (message : string) : option tree := WithMessagef err message.

(** The loop of [Cause]; [None] is out of fuel. *)
Fixpoint causeLoop (fuel : nat) (err : option tree) : option (option tree) :=
  match fuel with
  | 0 => None
  | S fuel' => match err with
               | None => Some None
               | Some (Wrapped _ e) => causeLoop fuel' (Some e)
               | Some e => Some (Some e)
               end
  end.

(** [NewAggregate] drops nil errors and gives nil if none is left. *)
Class Aggregates := {
  NewAggregate : list (option tree) -> option (list tree);
  new_aggregate_nil errs : NewAggregate errs = None <-> Forall (fun e => e = None) errs;
  new_aggregate_errors errs es : NewAggregate errs = Some es -> es = omap id errs
}.

Context `{!Aggregates}.

Definition Join (errs : list (option tree)) : option tree :=
  match NewAggregate errs with
  | None => None
  | Some aggregate => Some (Multi aggregate)
  end.

(** ** Properties *)

(** The errors of a tree in the order they are looked at. *)
Fixpoint preorder (e : tree) : list tree :=
  e :: match e with
       | Leaf _ => []
       | Wrapped _ e => preorder e
       | Multi es => mjoin (preorder <$> es)
       end.

Fixpoint first (p : tree -> bool) (es : list tree) : option tree :=
  match es with [] => None | e :: es => if p e then Some e else first p es end.

Lemma first_app (p : tree -> bool) (l1 l2 : list tree) :
  first p (l1 ++ l2) = match first p l1 with Some x => Some x | None => first p l2 end.
Proof. induction l1 as [|e l1 IH]; [done|]. cbn. by destruct (p e). Qed.

(** As finds the first error in depth first order that fits, and Is finds an
    error exactly if it is one of them. *)
Theorem as_first (p : tree -> bool) (e : tree) : As p e = first p (preorder e).
Proof.
  induction e as [l|msg e IH|es IH] using tree_rec'; cbn; [done|by rewrite IH|]. destruct (p _); [done|].
  induction IH as [|e es He _ IHes]; [done|]. cbn. rewrite first_app, <- He. by destruct (As p e).
Qed.

Lemma Is_preorder (target : L) (e : tree) : Is target e = true <-> Leaf target ∈ preorder e.
Proof.
  induction e as [l|msg e IH|es IH] using tree_rec'; cbn [Is isLeaf preorder].
  - rewrite orb_false_r, bool_decide_eq_true, list_elem_of_singleton. naive_solver.
  - rewrite orb_false_l, IH, elem_of_cons. naive_solver.
  - rewrite orb_false_l, elem_of_cons. induction IH as [|e es He _ IHes]; cbn.
    + rewrite elem_of_nil. naive_solver.
    + rewrite orb_true_iff, He, IHes, elem_of_app. naive_solver.
Qed.

(** Joining keeps what each of the errors is, and joins nothing else; nil is
    joined from nil errors only. *)
Theorem join_is (errs : list (option tree)) :
  (Join errs = None <-> Forall (fun e => e = None) errs) /\
  forall j target, Join errs = Some j -> (Is target j = true <-> exists e, Some e ∈ errs /\ Is target e = true).
Proof.
  unfold Join. pose proof (new_aggregate_nil errs) as Hn. destruct (NewAggregate errs) as [es|] eqn:E.
  - split; [naive_solver|]. intros j target [= <-].
    apply new_aggregate_errors in E as ->. cbn [Is isLeaf]. rewrite orb_false_l, existsb_exists.
    setoid_rewrite <- list_elem_of_In. setoid_rewrite list_elem_of_omap. naive_solver.
  - split; [naive_solver|done].
Qed.

Fixpoint depth (e : tree) : nat := match e with Wrapped _ e => S (depth e) | _ => 0 end.

(** Cause ends, at the first error that does not wrap exactly one error; what
    was wrapped around it, by whichever function, is removed. *)
Theorem cause_unwraps (e : tree) :
  exists c, causeLoop (S (depth e)) (Some e) = Some (Some c) /\ Unwrap (Some c) = None /\
    Nat.iter (depth e) Unwrap (Some e) = Some c /\
    (forall target, Is target e = true <-> Is target c = true) /\
    forall msg, causeLoop (S (S (depth e))) (Wrapf (Some e) msg) = Some (Some c).
Proof.
  induction e as [l|msg e IH|es _] using tree_rec'; [by eexists| |by eexists].
  destruct IH as (c & H1 & H2 & H3 & H4 & _). exists c. split_and!; [exact H1|done| |done|intros m; exact H1].
  cbn [depth]. by rewrite Nat.iter_succ_r.
Qed.

End trees.

(** ** Reconcilers that requeue on conflicts (pkg/errors/reconcile.go) *)

Section requeue.
Context {KE : KErrors} {E : Type -> Type} {Request : Type}.

Definition WithSilentRequeueOnConflict (r : Request -> prog E (Result * option error)) (req : Request) : prog E (Result * option error) :=
  '(result, err) ← r req;
  mret (SilentlyRequeueOnConflict result err).

(** The wrapper makes the calls of the reconciler it wraps and passes on what
    it returns, but for a conflict, for which it asks to be called again. *)
Theorem conflict_requeued (r : Request -> prog E (Result * option error)) (req : Request) (tr : list (event E)) out :
  exec (WithSilentRequeueOnConflict r req) tr out <->
  exists inner, exec (r req) tr inner /\
    match inner with
    | None => out = None
    | Some (result, err) => out = Some (if IsConflict err then (requeueResult, None) else (result, err))
    end.
Proof.
  unfold WithSilentRequeueOnConflict, SilentlyRequeueOnConflict. setoid_rewrite exec_bind. split.
  - intros [[He ->]|([result err] & tr1 & tr2 & -> & He & [-> ->])]; [by exists None|].
    exists (Some (result, err)). rewrite app_nil_r, reason_CauseOf by apply _. done.
  - intros ([[result err]|] & He & ->); [right|by left].
    exists (result, err), tr, []. rewrite app_nil_r, reason_CauseOf by apply _. done.
Qed.

End requeue.
