(* ===== verification/Managed.v ===== *)
(** * Managed resources and what their reconciler talks to
      (pkg/resource/interfaces.go, pkg/reconciler/managed/reconciler.go)

    [Managed] is the object a reconcile works on.  Every call that receives the
    object may change it (the Go code passes a pointer), so the answer of an
    effect holds the object as the call left it. *)

From S2P Require Import Prelude GoErrors GoTime Json Conditions Meta Policies Prog.

(** Where connection details go: a secret's namespace and name. *)
Record SecretReference := MkSecretReference { SecretNamespace : string; SecretName : string }.

Record Managed := MkManaged {
  mgMeta : ObjectMeta;
  mgConditions : ConditionedStatus;
  mgPolicies : list string;
  mgDeletionPolicy : string;
  mgSecretRef : option SecretReference;
  mgSpec : any;
  mgStatus : any
}.

Definition set_meta (o : ObjectMeta) (m : Managed) : Managed :=
  MkManaged o (mgConditions m) (mgPolicies m) (mgDeletionPolicy m) (mgSecretRef m) (mgSpec m) (mgStatus m).

Definition set_conditions (c : ConditionedStatus) (m : Managed) : Managed :=
  MkManaged (mgMeta m) c (mgPolicies m) (mgDeletionPolicy m) (mgSecretRef m) (mgSpec m) (mgStatus m).

Abbreviation ConnectionDetails := (gmap string string).
Abbreviation AdditionalDetails := (gmap string string).

Record ExternalObservation := MkObservation {
  ResourceExists : bool;
  ResourceUpToDate : bool;
  ResourceLateInitialized : bool;
  obsConnectionDetails : ConnectionDetails;
  Diff : string
}.

(** [ExternalCreation], [ExternalUpdate] and [ExternalDelete] (which has no
    connection details). *)
Record ExternalChange := MkChange { chConnectionDetails : ConnectionDetails; chAdditionalDetails : AdditionalDetails }.

Inductive OperationType := OPERATION_TYPE_CREATE | OPERATION_TYPE_UPDATE | OPERATION_TYPE_DELETE.

Inductive EventType := TypeNormal | TypeWarning.

Inductive MetricKind := FirstTimeReconciled | FirstTimeReady | Unchanged | Drift | Deleted.

(** What [Reconcile] calls.  The answers of calls that take the object are the
    object after the call and the error. *)
Inductive meff : Type -> Type :=
| EGet (namespacedName : string * string) : meff (Managed * option error)
| EUpdate (m : Managed) : meff (Managed * option error)
| EStatusUpdate (m : Managed) : meff (Managed * option error)
| EInitialize (m : Managed) : meff (Managed * option error)
| EResolveReferences (m : Managed) : meff (Managed * option error)
| EAddFinalizer (m : Managed) : meff (Managed * option error)
| ERemoveFinalizer (m : Managed) : meff (Managed * option error)
| EUpdateCriticalAnnotations (m : Managed) : meff (Managed * option error)
| EPublishConnection (m : Managed) (c : ConnectionDetails) : meff (Managed * option error)
| EUnpublishConnection (m : Managed) (c : ConnectionDetails) : meff (Managed * option error)
| EConnect (m : Managed) : meff (Managed * option error)
| EDisconnectConnector : meff (option error)
| EDisconnectClient : meff (option error)
| EObserve (m : Managed) : meff (Managed * ExternalObservation * option error)
| ECreate (m : Managed) : meff (Managed * ExternalChange * option error)
| EExternalUpdate (m : Managed) : meff (Managed * ExternalChange * option error)
| EDelete (m : Managed) : meff (Managed * ExternalChange * option error)
| EChangeLog (m : Managed) (op : OperationType) (err : option error) (ad : AdditionalDetails) : meff (option error)
| EEvent (externalName : string) (m : Managed) (type : EventType) (reason message : string) : meff unit
| EMetric (kind : MetricKind) (m : Managed) : meff unit
| EPollInterval (m : Managed) (interval : Z) : meff Z
| ENow : meff Time.

(** The reconciler's configuration. [legacy]: the kind it reconciles implements
    [resource.LegacyManaged]. *)
Record Reconciler := MkReconciler {
  legacy : bool;
  pollInterval : Z;
  creationGracePeriod : Z;
  features : Flags;
  supportedManagementPolicies : list Actions;
  deterministicExternalName : bool
}.

Definition defaultPollInterval : Z := 60 * second.
Definition defaultGracePeriod : Z := 30 * second.

Definition ReconcilerOption := Reconciler -> Reconciler.

Definition NewReconciler (legacyKind : bool) (o : list ReconcilerOption) : Reconciler :=
  foldl (fun r ro => ro r)
    (MkReconciler legacyKind defaultPollInterval defaultGracePeriod (MkFlags None)
       defaultSupportedManagementPolicies false) o.

Definition WithPollInterval (after : Z) : ReconcilerOption := fun r =>
  MkReconciler (legacy r) after (creationGracePeriod r) (features r) (supportedManagementPolicies r) (deterministicExternalName r).

Definition WithCreationGracePeriod (d : Z) : ReconcilerOption := fun r =>
  MkReconciler (legacy r) (pollInterval r) d (features r) (supportedManagementPolicies r) (deterministicExternalName r).

Definition WithManagementPolicies : ReconcilerOption := fun r =>
  MkReconciler (legacy r) (pollInterval r) (creationGracePeriod r) (Enable EnableBetaManagementPolicies (features r))
    (supportedManagementPolicies r) (deterministicExternalName r).

Definition WithReconcilerSupportedManagementPolicies (supported : list Actions) : ReconcilerOption := fun r =>
  MkReconciler (legacy r) (pollInterval r) (creationGracePeriod r) (features r) supported (deterministicExternalName r).

Definition WithDeterministicExternalName (b : bool) : ReconcilerOption := fun r =>
  MkReconciler (legacy r) (pollInterval r) (creationGracePeriod r) (features r) (supportedManagementPolicies r) b.

(** [status.MarkConditions(...)]: each constructor of a condition reads the clock. *)
Fixpoint timed (cs : list (Z -> Condition)) : prog meff (list Condition) :=
  match cs with
  | [] => mret []
  | c :: cs' =>
      now ← trigger ENow;
      rest ← timed cs';
      mret (c (instant now) :: rest)
  end.

Definition markConditions (m : Managed) (cs : list (Z -> Condition)) : prog meff Managed :=
  conds ← timed cs;
  mret (set_conditions (MarkConditions (Generation (mgMeta m)) conds (mgConditions m)) m).

(** Error strings. *)
Definition errGetManaged : string := "cannot get managed resource".
Definition errUpdateManaged : string := "cannot update managed resource".
Definition errUpdateManagedAnnotations : string := "cannot update managed resource annotations".
Definition errUpdateManagedStatus : string := "cannot update managed resource status".
Definition errCreateIncomplete : string :=
  "cannot determine creation result - remove the " +:+ AnnotationKeyExternalCreatePending +:+
  " annotation if it is safe to proceed".
Definition errReconcileConnect : string := "connect failed".
Definition errReconcileObserve : string := "observe failed".
Definition errReconcileCreate : string := "create failed".
Definition errReconcileUpdate : string := "update failed".
Definition errReconcileDelete : string := "delete failed".
Definition errExternalResourceNotExist : string := "external resource does not exist".

(** What the body of [Reconcile] leaves behind: its return values, the object,
    and the external name its events are annotated with, which the deferred
    function reads. *)
Record Out := MkOut { outResult : Result; outErr : option error; outManaged : Managed; outRecord : string }.

(** [return result, errors.Wrap(r.client.Status().Update(ctx, managed), errUpdateManagedStatus)] *)
Definition returnWithStatus (result : Result) (m : Managed) (record : string) : prog meff Out :=
  '(m, err) ← trigger (EStatusUpdate m);
  mret (MkOut result (Wrap err errUpdateManagedStatus) m record).

Definition emit_event (record : string) (m : Managed) (type : EventType) (reason message : string) : prog meff unit :=
  trigger (EEvent record m type reason message).

(** [event.Warning(reason, err)] has the error's text as its message. *)
Definition warn (record : string) (m : Managed) (reason : string) (err : error) : prog meff unit :=
  emit_event record m TypeWarning reason (Error err).
