(* ===== verification/Applicator.v ===== *)
(** * Applying objects (pkg/resource/api.go, pkg/resource/resource.go)

    Programs over the Kubernetes client.  A call receives a pointer to an
    object and may overwrite it, whether it succeeds or not: the answer of an
    effect holds the object as the call left it, and the programs return it.
    In particular [Get] overwrites the object it is given with what the server
    holds. *)

From S2P Require Import Prelude GoErrors Meta Paved Prog.

(** What the applicators use of an object. *)
Class Object (O : Type) := {
  metaOf : O -> ObjectMeta;
  withMeta : ObjectMeta -> O -> O;
  GenerateName : O -> string;
  meta_withMeta m o : metaOf (withMeta m o) = m
}.

(** The calls of [client.Client], and the pauses of [retry.OnError] between two
    attempts. *)
Inductive ceff (O : Type) : Type -> Type :=
| CGet (namespacedName : string * string) (o : O) : ceff O (O * option error)
| CCreate (o : O) : ceff O (O * option error)
| CUpdate (o : O) : ceff O (O * option error)
| CPatch (o desired : O) : ceff O (O * option error)
| CSleep : ceff O unit.
Arguments CGet {O} _ _.
Arguments CCreate {O} _.
Arguments CUpdate {O} _.
Arguments CPatch {O} _ _.
Arguments CSleep {O}.

Definition setResourceVersion (rv : string) (m : ObjectMeta) : ObjectMeta :=
  MkObjectMeta (Name m) (Namespace m) (UID m) (Generation m) rv (Labels m) (Annotations m)
    (Finalizers m) (OwnerReferences m) (DeletionTimestamp m) (CreationTimestamp m).

Definition SecretTypeConnection : string := "connection.crossplane.io/v1alpha1".

Section applicator.
Context {O : Type} {OO : Object O} {KE : KErrors}.
Implicit Types (o current desired : O).

Definition Apply_ := O -> prog (ceff O) (O * option error).

(** An option sees (and may change) the current and the desired object. *)
Definition ApplyOption := O -> O -> (O * O) * option error.

(** [for _, fn := range ao { if err := fn(ctx, current, desired); err != nil { return err } }] *)
Fixpoint applyOptions (ao : list ApplyOption) current desired : (O * O) * option error :=
  match ao with
  | [] => ((current, desired), None)
  | fn :: ao' =>
      match fn current desired with
      | (cd, Some err) => (cd, Some err)
      | ((current, desired), None) => applyOptions ao' current desired
      end
  end.

Definition create o : prog (ceff O) (O * option error) :=
  '(o, err) ← trigger (CCreate o);
  mret (o, Wrap err "cannot create object").

Definition nameOf o : string * string := (Namespace (metaOf o), Name (metaOf o)).

Definition generated o : bool := bool_decide (Name (metaOf o) = "") && negb (bool_decide (GenerateName o = "")).

(** [APIPatchingApplicator.Apply] *)
Definition PatchingApply (ao : list ApplyOption) : Apply_ := fun o =>
  if generated o then create o
  else
    let desired := o in
    '(o, err) ← trigger (CGet (nameOf o) o);
    if IsNotFound err then create o
    else
      match err with
      | Some _ => mret (o, Wrap err "cannot get object")
      | None =>
          match applyOptions ao o desired with
          | ((o, _), Some err) => mret (o, Some err)
          | ((o, desired), None) =>
              '(o, err) ← trigger (CPatch o desired);
              mret (o, Wrap err "cannot patch object")
          end
      end.

(** [APIUpdatingApplicator.Apply] *)
Definition UpdatingApply (ao : list ApplyOption) : Apply_ := fun m =>
  if generated m then create m
  else
    '(current, err) ← trigger (CGet (nameOf m) m);
    if IsNotFound err then create m
    else
      match err with
      | Some _ => mret (m, Wrap err "cannot get object")
      | None =>
          match applyOptions ao current m with
          | ((_, m), Some err) => mret (m, Some err)
          | ((current, m), None) =>
              let m := withMeta (setResourceVersion (ResourceVersion (metaOf current)) (metaOf m)) m in
              '(m, err) ← trigger (CUpdate m);
              mret (m, Wrap err "cannot update object")
          end
      end.

(** [retry.OnError]: try again, after a pause, while the error is retriable and
    the backoff, which allows [steps] more attempts, has not run out. *)
Fixpoint OnError (steps : nat) (retriable : option error -> bool) (fn : Apply_) o : prog (ceff O) (O * option error) :=
  '(o, err) ← fn o;
  match err with
  | None => mret (o, None)
  | Some _ =>
      if retriable err then
        match steps with
        | 0 => mret (o, err)
        | S n => _ ← trigger CSleep; OnError n retriable fn o
        end
      else mret (o, err)
  end.

(** [ApplicatorWithRetry.Apply]; [retry.DefaultRetry] makes five attempts. *)
Definition RetryApply (shouldRetry : option error -> bool) (apply : Apply_) : Apply_ :=
  OnError 4 shouldRetry apply.

(** ** Apply options *)

Definition UpdateFn (fn : O -> O -> O * O) : ApplyOption := fun c d => (fn c d, None).

Definition MustBeControllableBy `{!MetaV1} (u : string) : ApplyOption := fun current desired =>
  ((current, desired),
   match GetControllerOf (OwnerReferences (metaOf current)) with
   | None => None
   | Some c => if decide (OwnerUID c <> u) then
                 Some (notControllableError (errorString ("existing object is not controlled by UID " +:+ Quote u)))
               else None
   end).

Definition AllowUpdateIf (fn : O -> O -> bool) : ApplyOption := fun current desired =>
  ((current, desired),
   if fn current desired then None else Some (notAllowedError (errorString "update not allowed"))).

(** ** Finalizers *)

Definition errUpdateObject : string := "cannot update object".

(** [APIFinalizer.AddFinalizer] *)
Definition APIAddFinalizer (finalizer : string) : Apply_ := fun obj =>
  if FinalizerExists (metaOf obj) finalizer then mret (obj, None)
  else
    let obj := withMeta (AddFinalizer finalizer (metaOf obj)) obj in
    '(obj, err) ← trigger (CUpdate obj);
    mret (obj, Wrap err errUpdateObject).

(** [APIFinalizer.RemoveFinalizer] *)
Definition APIRemoveFinalizer (finalizer : string) : Apply_ := fun obj =>
  if negb (FinalizerExists (metaOf obj) finalizer) then mret (obj, None)
  else
    match RemoveFinalizer finalizer (metaOf obj) with
    | None => Panic "slice bounds out of range"
    | Some m =>
        '(obj, err) ← trigger (CUpdate (withMeta m obj));
        mret (obj, Wrap (IgnoreNotFound err) errUpdateObject)
    end.

End applicator.

(** ** Secrets *)

Record Secret := MkSecret { sMeta : ObjectMeta; sGenerateName : string; sType : string; sData : gmap string string }.

#[global] Instance SecretObject : Object Secret := {|
  metaOf := sMeta;
  withMeta m s := MkSecret m (sGenerateName s) (sType s) (sData s);
  GenerateName := sGenerateName;
  meta_withMeta _ _ := eq_refl
|}.

Definition ConnectionSecretMustBeControllableBy `{!MetaV1} (u : string) : @ApplyOption Secret := fun s desired =>
  ((s, desired),
   match GetControllerOf (OwnerReferences (sMeta s)) with
   | None =>
       if decide (sType s <> SecretTypeConnection) then
         Some (notControllableError (errorString ("refusing to modify uncontrolled secret of type " +:+ Quote (sType s))))
       else None
   | Some c =>
       if decide (OwnerUID c <> u) then
         Some (notControllableError (errorString ("existing secret is not controlled by UID " +:+ Quote u)))
       else None
   end).
