(* ===== verification/ManagedApi.v ===== *)
(** * The managed reconciler's default components (pkg/reconciler/managed/api.go)

    Programs over the Kubernetes client that implement the interfaces the
    reconciler calls: publishing connection details to a secret, naming the
    external resource, and updating critical annotations. *)

From S2P Require Import Prelude GoErrors GoTime Json Meta Paved Prog Managed Applicator.

#[global] Instance ManagedObject : Object Managed := {|
  metaOf := mgMeta;
  withMeta m o := set_meta m o;
  GenerateName _ := "";
  meta_withMeta _ _ := eq_refl
|}.

(** [runtime.ObjectTyper.ObjectKinds] *)
Class ObjectTyper := ObjectKinds : Managed -> list GroupVersionKind * bool * option error.

Section api.
Context {KE : KErrors} {MV : MetaV1} {OT : ObjectTyper}.

Definition GetKind (obj : Managed) : GroupVersionKind + error :=
  match ObjectKinds obj with
  | (_, _, Some err) => inr (wrapError "cannot get kind of supplied object" err)
  | (_, true, None) => inr (errorString "supplied object is unversioned")
  | ([gvk], false, None) => inl gvk
  | (_, false, None) => inr (errorString "supplied object does not have exactly one kind")
  end.

Definition MustGetKind {E} (obj : Managed) : prog E GroupVersionKind :=
  match GetKind obj with inl gvk => mret gvk | inr err => Panic (Error err) end.

(** The metadata of a new secret. *)
Definition secretMeta (namespace name : string) (owner : OwnerReference) : ObjectMeta :=
  MkObjectMeta name namespace "" 0 "" None None [] [owner] None zeroTime.

(** [o.GetWriteConnectionSecretToReference()] is not nil. *)
Definition ConnectionSecretFor (o : Managed) (ref : SecretReference) (kind : GroupVersionKind) : Secret :=
  MkSecret (secretMeta (SecretNamespace ref) (SecretName ref) (AsController (TypedReferenceTo (mgMeta o) kind)))
    "" SecretTypeConnection ∅.

Definition LocalConnectionSecretFor (o : Managed) (ref : SecretReference) (kind : GroupVersionKind) : Secret :=
  MkSecret (secretMeta (Namespace (mgMeta o)) (SecretName ref) (AsController (TypedReferenceTo (mgMeta o) kind)))
    "" SecretTypeConnection ∅.

Definition setData (c : ConnectionDetails) (s : Secret) : Secret := MkSecret (sMeta s) (sGenerateName s) (sType s) c.

(** The options of [PublishConnection]. *)
Definition publishOptions (uid : string) : list (@ApplyOption Secret) :=
  [ConnectionSecretMustBeControllableBy uid;
   AllowUpdateIf (fun current desired => negb (bool_decide (sData current = sData desired)))].

(** What [PublishConnection] does with a secret once it is built. *)
Definition publishSecret (uid : string) (s : Secret) : prog (ceff Secret) (bool * option error) :=
  '(_, err) ← RetryApply IsAPIErrorWrapped (PatchingApply (publishOptions uid)) s;
  mret (if IsNotAllowed err then (false, None)
        else match err with
             | Some _ => (false, Wrap err "cannot create or update connection secret")
             | None => (true, None)
             end).

(** [APISecretPublisher.PublishConnection] *)
Definition PublishConnection (o : Managed) (c : ConnectionDetails) : prog (ceff Secret) (bool * option error) :=
  match mgSecretRef o with
  | None => mret (false, None)
  | Some ref =>
      gvk ← MustGetKind o;
      publishSecret (UID (mgMeta o)) (setData c (ConnectionSecretFor o ref gvk))
  end.

(** [APILocalSecretPublisher.PublishConnection] *)
Definition LocalPublishConnection (o : Managed) (c : ConnectionDetails) : prog (ceff Secret) (bool * option error) :=
  match mgSecretRef o with
  | None => mret (false, None)
  | Some ref =>
      gvk ← MustGetKind o;
      publishSecret (UID (mgMeta o)) (setData c (LocalConnectionSecretFor o ref gvk))
  end.

(** Both publishers rely on garbage collection. *)
Definition UnpublishConnection (o : Managed) (c : ConnectionDetails) : prog (ceff Secret) (option error) := mret None.

(** [NameAsExternalName.Initialize] *)
Definition NameAsExternalName : Managed -> prog (ceff Managed) (Managed * option error) := fun mg =>
  if decide (GetExternalName (mgMeta mg) <> "") then mret (mg, None)
  else
    let mg := set_meta (SetExternalName (Name (mgMeta mg)) (mgMeta mg)) mg in
    '(mg, err) ← trigger (CUpdate mg);
    mret (mg, Wrap err errUpdateManaged).

(** The function [UpdateCriticalAnnotations] retries. *)
Definition updateAnnotations (a : gmap string string) : Managed -> prog (ceff Managed) (Managed * option error) := fun o =>
  '(o, err) ← trigger (CUpdate o);
  if IsConflict err then
    '(o, getErr) ← trigger (CGet (nameOf o) o);
    match getErr with
    | Some e => mret (o, Some e)
    | None => mret (set_meta (AddAnnotations a (mgMeta o)) o, err)
    end
  else mret (o, err).

(** [RetryingCriticalAnnotationUpdater.UpdateCriticalAnnotations].  A nil map of
    annotations adds nothing.  The map the code keeps is the object's own; the
    client is taken to replace the object's map when it decodes an answer, and
    not to write into the old one. *)
Definition UpdateCriticalAnnotations : Managed -> prog (ceff Managed) (Managed * option error) := fun o =>
  '(o, err) ← OnError 4 (fun err => match err with Some e => negb (IsCanceled e) | None => true end)
                (updateAnnotations (default ∅ (Annotations (mgMeta o)))) o;
  mret (o, Wrap err "cannot update critical annotations").

End api.

(** ** Connection secrets *)

Section secrets.
Context {KE : KErrors} {MV : MetaV1} {OT : ObjectTyper} (uid : string).

(** The owner with this UID may write the secret. *)
Definition controllable (s : Secret) : Prop :=
  match GetControllerOf (OwnerReferences (sMeta s)) with
  | Some c => OwnerUID c = uid
  | None => sType s = SecretTypeConnection
  end.

(** A secret is only patched when it was just read, may be written by the
    owner, and its data differs. *)
Definition patch_ok (last : option (event (ceff Secret))) (ev : event (ceff Secret)) : Prop :=
  match ev with
  | @Ev _ X e x =>
      match e with
      | CPatch o desired =>
          controllable o /\ sData o <> sData desired /\ exists name s, last = Some (Ev (CGet name s) (o, None))
      | CUpdate _ => False
      | _ => True
      end
  end.

Definition last_event (_ : option (event (ceff Secret))) (ev : event (ceff Secret)) : option (event (ceff Secret)) := Some ev.

Lemma foldl_last_event (tr : list (event (ceff Secret))) : foldl last_event None tr = last tr.
Proof. destruct tr as [|ev tr] using rev_ind; [done|]. by rewrite foldl_app, last_snoc. Qed.

Lemma publishOptions_ok (o desired o' d' : Secret) :
  applyOptions (publishOptions uid) o desired = ((o', d'), None) ->
  o' = o /\ d' = desired /\ controllable o /\ sData o <> sData desired.
Proof.
  unfold publishOptions, controllable. cbn [applyOptions ConnectionSecretMustBeControllableBy AllowUpdateIf].
  destruct (GetControllerOf _) as [c|]; case_decide; try done.
  all: destruct (bool_decide (sData o = sData desired)) eqn:E; cbn [negb]; [done|]; intros [= <- <-];
    apply bool_decide_eq_false in E; done.
Qed.

Lemma wp_PatchingApply (s : Secret) (l : option (event (ceff Secret))) :
  wp last_event patch_ok (PatchingApply (publishOptions uid) s) l (fun _ r => is_Some r).
Proof.
  unfold PatchingApply, create. destruct (generated s).
  { cbn. intros [o err]. split; [done|by eexists]. }
  cbn [wp mbind prog_bind bind_prog trigger mret prog_ret]. intros [o err]. split; [done|].
  destruct (IsNotFound err); [cbn; intros [o1 err1]; split; [done|by eexists]|].
  destruct err as [e|]; [by eexists|].
  destruct (applyOptions _ o s) as [[o1 d1] [e|]] eqn:Ea; [by eexists|].
  apply publishOptions_ok in Ea as (-> & -> & Hc & Hd). cbn. intros [o2 err2]. split; [|by eexists].
  split_and!; [done..|]. by eexists _, _.
Qed.

Lemma wp_OnError_True {O} (step : option (event (ceff O)) -> event (ceff O) -> option (event (ceff O)))
    (P : option (event (ceff O)) -> event (ceff O) -> Prop) (n : nat) retriable (fn : Apply_) (o : O) l :
  (forall l x, P l (Ev CSleep x)) -> (forall o l, wp step P (fn o) l (fun _ r => is_Some r)) ->
  wp step P (OnError n retriable fn o) l (fun _ r => is_Some r).
Proof.
  intros HR Hfn. revert o l. induction n as [|n IH]; intros o l; cbn [OnError]; apply wp_bind;
    (eapply wp_mono; [apply Hfn|]); intros l' ro [[o' err] ->]; (destruct err as [e|]; [|by eexists]);
    (destruct (retriable (Some e)); [|by eexists]); [by eexists|].
  cbn [wp mbind prog_bind bind_prog trigger]. intros []. split; [apply HR|]. apply IH.
Qed.

(** C21: publishing connection details only ever patches a secret that was just
    read from the API server, that differs from the desired one, and that is
    controlled by the owner, or is an uncontrolled connection secret: secrets of
    others are never modified. *)
Theorem publish_only_controlled (s : Secret) (tr : list (event (ceff Secret))) res (i : nat) (o desired : Secret) x :
  exec (publishSecret uid s) tr res -> tr !! i = Some (Ev (CPatch o desired) x) ->
  controllable o /\ sData o <> sData desired /\ exists name s', last (take i tr) = Some (Ev (CGet name s') (o, None)).
Proof.
  intros He Hi.
  assert (wp last_event patch_ok (publishSecret uid s) None (fun _ _ => True)) as Hw.
  { unfold publishSecret. apply wp_bind. eapply wp_mono; [by apply wp_OnError_True; [|apply wp_PatchingApply]|].
    by intros l ro [[o' err] ->]. }
  destruct (wp_sound _ _ _ _ _ _ _ Hw He) as [Hs _].
  specialize (Hs (take i tr) _ (drop (S i) tr) (eq_sym (take_drop_middle _ _ _ Hi))).
  by rewrite foldl_last_event in Hs.
Qed.

(** The object passed to [Apply] is overwritten by the Get of the first
    attempt, so that a retry after a failed patch compares the secret with
    itself: the details are not written, yet publishing reports a no-op and no
    error. *)
Theorem publish_retry_drops_details (s current : Secret) (c : OwnerReference) (reason msg : string) :
  generated s = false -> generated current = false -> sData current <> sData s ->
  GetControllerOf (OwnerReferences (sMeta current)) = Some c -> OwnerUID c = uid ->
  exec (publishSecret uid s)
    [Ev (CGet (nameOf s) s) (current, None);
     Ev (CPatch current s) (current, Some (statusError reason msg));
     Ev CSleep tt;
     Ev (CGet (nameOf current) current) (current, None)]
    (Some (false, None)).
Proof.
  intros Hs Hcur Hd Hc Hu. assert (IsNotFound None = false) as Hnf by apply reason_nil.
  assert (forall d, applyOptions (publishOptions uid) current d =
    ((current, d), if bool_decide (sData current = sData d) then Some (notAllowedError (errorString "update not allowed")) else None)) as Ha.
  { intros d. unfold publishOptions. cbn [applyOptions ConnectionSecretMustBeControllableBy AllowUpdateIf].
    rewrite Hc, decide_False by (by intros ?). by destruct (bool_decide _). }
  unfold publishSecret, RetryApply. cbn [OnError]. unfold PatchingApply. rewrite Hs.
  cbn [mbind prog_bind bind_prog trigger mret prog_ret exec].
  exists (current, None). eexists. split; [done|]. rewrite Hnf, Ha, bool_decide_eq_false_2 by done.
  cbn [mbind prog_bind bind_prog trigger mret prog_ret exec].
  exists (current, Some (statusError reason msg)). eexists. split; [done|].
  cbn [Wrap WithMessage IsAPIErrorWrapped CauseOf Cause IsAPIError fmap option_fmap option_map].
  cbn [mbind prog_bind bind_prog trigger mret prog_ret exec].
  exists tt. eexists. split; [done|]. rewrite Hcur. cbn [mbind prog_bind bind_prog trigger mret prog_ret exec].
  exists (current, None). eexists. split; [done|]. by rewrite Hnf, Ha, bool_decide_eq_true_2 by done.
Qed.

End secrets.

(** ** Critical annotations *)

Section annotations.
Context {KE : KErrors} (a : gmap string string).

(** The object carries the annotations. *)
Definition has (o : Managed) : Prop := a ⊆ default ∅ (Annotations (mgMeta o)).

(** A call that fails leaves the annotations of its argument alone. *)
Definition keeps (ev : event (ceff Managed)) : bool :=
  match ev with
  | @Ev _ X e x =>
      match e in ceff _ Y return Y -> bool with
      | CGet _ o | CUpdate o => fun '(o', err) =>
          match err with
          | Some _ => bool_decide (Annotations (mgMeta o') = Annotations (mgMeta o))
          | None => true
          end
      | _ => fun _ => true
      end x
  end.

Abbreviation mon := (bool * option (event (ceff Managed)))%type.

Definition mon_step (s : mon) (ev : event (ceff Managed)) : mon := (s.1 && keeps ev, Some ev).

(** Every update carries the annotations. *)
Definition carries (s : mon) (ev : event (ceff Managed)) : Prop :=
  match ev with
  | @Ev _ X e x => match e with CUpdate o => s.1 = true -> has o | _ => True end
  end.

(** The object still carries them afterwards, and success means that the last
    call was an update that succeeded. *)
Definition persisted (s : mon) (ro : option (Managed * option error)) : Prop :=
  exists o err, ro = Some (o, err) /\ (s.1 = true -> err <> None -> has o) /\
    (err = None -> exists o1, s.2 = Some (Ev (CUpdate o1) (o, None))).

Lemma has_AddAnnotations (o : Managed) : has (set_meta (AddAnnotations a (mgMeta o)) o).
Proof.
  unfold has, AddAnnotations, addAll. cbn [mgMeta set_meta].
  destruct (Annotations (mgMeta o)); simpl; [|done]. apply map_union_subseteq_l.
Qed.

Lemma wp_updateAnnotations (o : Managed) (s : mon) :
  (s.1 = true -> has o) -> wp mon_step carries (updateAnnotations a o) s persisted.
Proof.
  intros Hh. unfold updateAnnotations. cbn [wp mbind prog_bind bind_prog trigger mret prog_ret].
  intros [o1 err]. split; [exact Hh|]. destruct (IsConflict err) eqn:Hc.
  - destruct err as [e|]; [|by rewrite reason_nil in Hc]. cbn [wp mbind prog_bind bind_prog trigger mret prog_ret].
    intros [o2 [ge|]]; (split; [done|]); eexists _, _; (split; [done|]); (split; [|done]).
    + cbn [mon_step fst keeps]. intros Hk _. apply andb_true_iff in Hk as [Hk H2]. apply andb_true_iff in Hk as [H0 H1].
      apply bool_decide_eq_true in H1, H2. unfold has. rewrite H2, H1. by apply Hh.
    + intros _ _. apply has_AddAnnotations.
  - eexists _, _. split; [done|]. cbn [mon_step fst snd keeps]. split.
    + intros Hk Hne. destruct err as [e|]; [|done]. apply andb_true_iff in Hk as [H0 H1%bool_decide_eq_true].
      unfold has. rewrite H1. by apply Hh.
    + intros ->. by exists o.
Qed.

Lemma wp_OnError_persisted (n : nat) retriable (o : Managed) (s : mon) :
  (s.1 = true -> has o) -> wp mon_step carries (OnError n retriable (updateAnnotations a) o) s persisted.
Proof.
  revert o s. induction n as [|n IH]; intros o s Hh; cbn [OnError]; apply wp_bind;
    (eapply wp_mono; [by apply wp_updateAnnotations|]); intros s' ro (o' & err & -> & H1 & H2);
    (destruct err as [e|]; [|by eexists _, _]); (destruct (retriable (Some e)); [|by eexists _, _]); [by eexists _, _|].
  cbn [wp mbind prog_bind bind_prog trigger]. intros []. split; [done|].
  apply IH. cbn [mon_step fst keeps]. intros Hk. apply andb_true_iff in Hk as [Hk _]. by apply H1.
Qed.

Lemma mon_good (tr : list (event (ceff Managed))) (s : mon) :
  s.1 = true -> forallb keeps tr = true -> (foldl mon_step s tr).1 = true.
Proof.
  revert s. induction tr as [|ev tr IH]; intros s Hs; simpl; [done|]. intros [H1 H2]%andb_true_iff.
  apply IH; [|done]. simpl. by rewrite Hs, H1.
Qed.

End annotations.

Lemma mon_last (tr : list (event (ceff Managed))) (s : bool * option (event (ceff Managed))) :
  tr <> [] -> (foldl mon_step s tr).2 = last tr.
Proof. destruct tr as [|ev tr] using rev_ind; [done|]. intros _. by rewrite foldl_app, last_snoc. Qed.


(** ** Finalizers *)

(** The API finalizer calls the API server only when the finalizer is
    missing (to add it) or present (to remove it); it then updates the object
    once, with exactly that finalizer added or removed; adding reports every
    error, and removing tolerates an object that is gone. *)
Theorem api_finalizer {O} {OO : Object O} {KE : KErrors} (f : string) (obj : O) (add : bool)
    (tr : list (event (ceff O))) res :
  NoDup (Finalizers (metaOf obj)) ->
  exec (if add then APIAddFinalizer f obj else APIRemoveFinalizer f obj) tr res ->
  (add = bool_decide (f ∈ Finalizers (metaOf obj)) /\ tr = [] /\ res = Some (obj, None)) \/
  exists m obj' err,
    tr = [Ev (CUpdate (withMeta m obj)) (obj', err)] /\
    Finalizers m = (if add then Finalizers (metaOf obj) ++ [f] else filter (fun e => e <> f) (Finalizers (metaOf obj))) /\
    exists err', res = Some (obj', err') /\
      (err' = None <-> err = None \/ (add = false /\ IsNotFound err = true)).
Proof.
  intros Hnd. assert (IsNotFound None = false) as Hnf by apply reason_nil. destruct add.
  - unfold APIAddFinalizer. destruct (FinalizerExists (metaOf obj) f) eqn:Hf.
    + intros [-> ->]. left. apply FinalizerExists_elem in Hf. by rewrite bool_decide_eq_true_2.
    + cbn [mbind prog_bind bind_prog trigger mret prog_ret exec].
      intros ([obj' err] & tr' & -> & [-> ->]). right. eexists _, obj', err. split; [done|]. split.
      * unfold AddFinalizer. destruct (existsb _ _) eqn:E; [|done]. apply existsb_elem_of, FinalizerExists_elem in E. congruence.
      * eexists. split; [done|]. rewrite Wrap_eq_None. naive_solver.
  - unfold APIRemoveFinalizer. destruct (FinalizerExists (metaOf obj) f) eqn:Hf; cbn [negb].
    + rewrite (RemoveFinalizer_filter f (metaOf obj) Hnd).
      cbn [mbind prog_bind bind_prog trigger mret prog_ret exec].
      intros ([obj' err] & tr' & -> & [-> ->]). right. eexists _, obj', err. split; [done|]. split; [done|].
      eexists. split; [done|]. rewrite Wrap_eq_None. unfold IgnoreNotFound, Ignore.
      destruct (IsNotFound err) eqn:He; naive_solver.
    + intros [-> ->]. left. rewrite bool_decide_eq_false_2; [done|].
      intros H%FinalizerExists_elem. by rewrite H in Hf.
Qed.

(** ** Concrete runs *)

#[local] Instance demoKErrors : KErrors := KErrorsStd.
#[local] Instance demoMetaV1 : MetaV1 := MetaV1First.

Definition demoSecret (data : gmap string string) (controller : string) : Secret :=
  MkSecret (secretMeta "ns" "s" (AsController (MkTypedReference "v1" "Kind" "o" controller))) "" SecretTypeConnection data.

(** A server that holds one secret, and whose calls succeed. *)
Definition secretOracle (current : Secret) (X : Type) (i : nat) (e : ceff Secret X) : X :=
  match e in ceff _ Y return Y with
  | CGet _ _ => (current, None)
  | CCreate o | CUpdate o | CPatch o _ => (o, None)
  | CSleep => tt
  end.

Lemma publish_only_controlled_witness :
  controllable "u" (demoSecret ∅ "u") /\
  sData (demoSecret ∅ "u") <> sData (demoSecret {["k" := "v"]} "u").
Proof.
  edestruct (publish_only_controlled "u" (demoSecret {["k" := "v"]} "u") _ _ 1 (demoSecret ∅ "u")
    (demoSecret {["k" := "v"]} "u") (demoSecret ∅ "u", None)
    (run_with_exec (secretOracle (demoSecret ∅ "u")) 0 _)) as (H1 & H2 & _); [reflexivity|]. by split.
Defined.

Lemma publish_retry_drops_details_witness :
  exec (publishSecret "u" (demoSecret {["k" := "v"]} "u"))
    [Ev (CGet ("ns", "s") (demoSecret {["k" := "v"]} "u")) (demoSecret ∅ "u", None);
     Ev (CPatch (demoSecret ∅ "u") (demoSecret {["k" := "v"]} "u"))
        (demoSecret ∅ "u", Some (statusError "Conflict" "conflict"));
     Ev CSleep tt;
     Ev (CGet ("ns", "s") (demoSecret ∅ "u")) (demoSecret ∅ "u", None)]
    (Some (false, None)).
Proof.
  apply (publish_retry_drops_details "u" (demoSecret {["k" := "v"]} "u") (demoSecret ∅ "u")
    (AsController (MkTypedReference "v1" "Kind" "o" "u")) "Conflict" "conflict"); by vm_compute.
Defined.

Definition demoManaged (annotations : gmap string string) : Managed :=
  MkManaged (MkObjectMeta "db" "" "uid" 1 "1" None (Some annotations) [] [] None zeroTime) [] [] "" None ANil ANil.

(** A server that answers the first update with a conflict, and holds an object
    whose annotations someone else changed. *)
Definition annotationOracle (X : Type) (i : nat) (e : ceff Managed X) : X :=
  match e in ceff _ Y return Y with
  | CGet _ _ => (demoManaged {["other" := "x"]}, None)
  | CUpdate o => (o, if decide (i = 0) then Some (statusError "Conflict" "conflict") else None)
  | CCreate o | CPatch o _ => (o, None)
  | CSleep => tt
  end.

Definition annotationRun : list (event (ceff Managed)) * option (Managed * option error) :=
  run_with annotationOracle 0 (UpdateCriticalAnnotations (demoManaged {["critical" := "y"]})).


Definition finalizerRun : list (event (ceff Managed)) * option (Managed * option error) :=
  run_with annotationOracle 1 (APIAddFinalizer "f" (demoManaged ∅)).

Lemma api_finalizer_witness :
  exists m x, finalizerRun.1 = [Ev (CUpdate (withMeta m (demoManaged ∅))) x] /\ Finalizers m = ["f"].
Proof.
  destruct (api_finalizer "f" (demoManaged ∅) true finalizerRun.1 finalizerRun.2)
    as [[H _]|(m & obj' & err & H1 & H2 & _)]; [by apply (bool_decide_eq_true_1 (NoDup _))|apply run_with_exec| |].
  - by vm_compute in H.
  - by eexists m, _.
Defined.
