(* ===== verification/Reference.v ===== *)
(** * Cross-resource references (pkg/reference, apis/common/resource.go)

    A resolver turns a reference to another managed resource, or a selector of
    such resources, into a value of the resource it names.  The repository has
    the code twice: for references to cluster scoped resources and for
    namespaced ones, which differ in where they look.  [ReferenceKind] is what
    differs; the resolvers and their theorems are written against it, and
    [ClusterReference] and [NamespacedReference_] instantiate it. *)

From stdpp Require Export sorting.
From S2P Require Import Prelude GoStrings GoErrors Meta Managed Prog.

(** ** Values held by pointers *)

Definition FromPtrValue (v : option string) : string := default "" v.

Definition ToPtrValue (v : string) : option string := if decide (v = "") then None else Some v.

Definition FromIntPtrValue (v : option Z) : string :=
  match v with None => "" | Some z => b2s (FormatInt z) end.

Definition ToIntPtrValue (v : string) : option Z :=
  if decide (v = "") then None else ParseInt (s2b v).

Definition FromPtrValues : list (option string) -> list string := map FromPtrValue.
Definition ToPtrValues : list string -> list (option string) := map ToPtrValue.
Definition FromIntPtrValues : list (option Z) -> list string := map FromIntPtrValue.
Definition ToIntPtrValues : list string -> list (option Z) := map ToIntPtrValue.

(** ** Policies, references, selectors *)

Record Policy := MkPolicy { PolResolve : option string; PolResolution : option string }.

Definition IsResolutionPolicyOptional (p : option Policy) : bool := bool_decide (p ≫= PolResolution = Some "Optional").

Definition IsResolvePolicyAlways (p : option Policy) : bool := bool_decide (p ≫= PolResolve = Some "Always").

Record Reference := MkReference { rName : string; rPolicy : option Policy }.

Record NamespacedReference := MkNamespacedReference { nrName : string; nrNamespace : string; nrPolicy : option Policy }.

Record Selector := MkSelector {
  MatchLabels : gmap string string; MatchControllerRef : option bool; sPolicy : option Policy
}.

Record NamespacedSelector := MkNamespacedSelector {
  nsMatchLabels : gmap string string; nsMatchControllerRef : option bool; nsPolicy : option Policy; nsNamespace : string
}.

(** What the resolvers use of a kind of reference and selector.  The namespace
    to look in depends on the referencing object and on the request. *)
Class ReferenceKind := {
  Ref : Type;
  refName : Ref -> string;
  refPolicy : Ref -> option Policy;
  refNamespace : Managed -> string -> Ref -> string;
  Sel : Type;
  selLabels : Sel -> gmap string string;
  selControllerRef : Sel -> option bool;
  selPolicy : Sel -> option Policy;
  selNamespace : Managed -> string -> Sel -> string;
  selected : string -> string -> Ref
}.

Definition orDefault (ns dflt : string) : string := if decide (ns = "") then dflt else ns.

Definition ClusterReference : ReferenceKind := {|
  Ref := Reference;
  refName := rName;
  refPolicy := rPolicy;
  refNamespace _ ns _ := ns;
  Sel := Selector;
  selLabels := MatchLabels;
  selControllerRef := MatchControllerRef;
  selPolicy := sPolicy;
  selNamespace _ ns _ := ns;
  selected name _ := MkReference name None
|}.

Definition NamespacedReference_ : ReferenceKind := {|
  Ref := NamespacedReference;
  refName := nrName;
  refPolicy := nrPolicy;
  refNamespace from _ r := orDefault (nrNamespace r) (Namespace (mgMeta from));
  Sel := NamespacedSelector;
  selLabels := nsMatchLabels;
  selControllerRef := nsMatchControllerRef;
  selPolicy := nsPolicy;
  selNamespace from _ s := orDefault (nsNamespace s) (Namespace (mgMeta from));
  selected name ns := MkNamespacedReference name ns None
|}.

(** What a resolver asks the API server: the object of that name, and the
    objects with these labels. *)
Inductive reff : Type -> Type :=
| RGet (namespacedName : string * string) : reff (Managed * option error)
| RList (labels : gmap string string) (namespace : string) : reff (list Managed * option error).

Definition errGetReferenced : string := "cannot get referenced resource".
Definition errListManaged : string := "cannot list resources that match selector".
Definition errNoMatches : string := "no resources matched selector".
Definition errNoValue : string := "referenced field was empty (referenced resource may not yet be ready)".

(** [ExternalName()] *)
Definition ExternalName (mg : Managed) : string := GetExternalName (mgMeta mg).

Definition getResolutionError (p : option Policy) (err : option error) : option error :=
  if negb (IsResolutionPolicyOptional p) then err else None.

(** [sortMapByKeys] and [sortGenericMapByKeys]; the zero value a missing key
    would have does not arise. *)
Definition sortMapByKeys {T} (m : gmap string T) : list string * list T :=
  let keys := merge_sort String.le (map_to_list m).*1 in
  (keys, omap (m !!.) keys).

Section requests.
Context {RK : ReferenceKind}.

Record ResolutionRequest := MkRequest {
  CurrentValue : string;
  qReference : option Ref;
  qSelector : option Sel;
  Extract : Managed -> string;
  qNamespace : string
}.

Record MultiResolutionRequest := MkMultiRequest {
  CurrentValues : list string;
  qReferences : list Ref;
  qmSelector : option Sel;
  mExtract : Managed -> string;
  qmNamespace : string
}.

Record ResolutionResponse := MkResponse { ResolvedValue : string; ResolvedReference : option Ref }.

Record MultiResolutionResponse := MkMultiResponse { ResolvedValues : list string; ResolvedReferences : list Ref }.

(** Whether a reference or selector asks to be resolved again. *)
Definition always (req : ResolutionRequest) : bool :=
  match qSelector req, qReference req with
  | Some s, _ => IsResolvePolicyAlways (selPolicy s)
  | None, Some r => IsResolvePolicyAlways (refPolicy r)
  | None, None => false
  end.

(** [ResolutionRequest.IsNoOp], which drops the reference of a selector that is
    always resolved. *)
Definition IsNoOp (req : ResolutionRequest) : ResolutionRequest * bool :=
  let isAlways := always req in
  let req :=
    match qSelector req with
    | Some s => if IsResolvePolicyAlways (selPolicy s)
                then MkRequest (CurrentValue req) None (qSelector req) (Extract req) (qNamespace req) else req
    | None => req
    end in
  (req,
   if negb (bool_decide (CurrentValue req = "")) && negb isAlways then true
   else match qReference req, qSelector req with None, None => true | _, _ => false end).

Definition Validate (rsp : ResolutionResponse) : option error :=
  if decide (ResolvedValue rsp = "") then New errNoValue else None.

Definition alwaysMultiple (req : MultiResolutionRequest) : bool :=
  match qmSelector req with
  | Some s => IsResolvePolicyAlways (selPolicy s)
  | None => existsb (fun r => IsResolvePolicyAlways (refPolicy r)) (qReferences req)
  end.

(** [MultiResolutionRequest.IsNoOp] *)
Definition IsNoOpMultiple (req : MultiResolutionRequest) : MultiResolutionRequest * bool :=
  let isAlways := alwaysMultiple req in
  let req :=
    match qmSelector req with
    | Some s => if IsResolvePolicyAlways (selPolicy s)
                then MkMultiRequest (CurrentValues req) [] (qmSelector req) (mExtract req) (qmNamespace req) else req
    | None => req
    end in
  (req,
   if (0 <? length (CurrentValues req)) && negb isAlways then true
   else match qReferences req, qmSelector req with [], None => true | _, _ => false end).

(** The loop of [MultiResolutionResponse.Validate]; [None] is an index out of
    range. *)
Fixpoint validateValues (values : list string) (refs : list Ref) : option (option error) :=
  match values with
  | [] => Some None
  | v :: values' =>
      if decide (v = "") then
        match refs with
        | [] => None
        | r :: _ => Some (getResolutionError (refPolicy r) (New errNoValue))
        end
      else validateValues values' (tail refs)
  end.

Definition ValidateMultiple (rsp : MultiResolutionResponse) : option (option error) :=
  match ResolvedValues rsp with
  | [] => Some (New errNoMatches)
  | _ => validateValues (ResolvedValues rsp) (ResolvedReferences rsp)
  end.

(** [ControllersMustMatch], of a selector that is not nil. *)
Definition ControllersMustMatch (s : Sel) : bool := default false (selControllerRef s).

Section resolve.
Context {KE : KErrors} {MV : MetaV1} (from : Managed).

(** The condition of [continue] in the loops over listed objects. *)
Definition skipped (s : Sel) (to : Managed) : bool :=
  ControllersMustMatch s && negb (HaveSameController (mgMeta from) (mgMeta to)).

Definition emptyResponse : ResolutionResponse := MkResponse "" None.

(** [Resolve] *)
Definition Resolve (req : ResolutionRequest) : prog reff (ResolutionResponse * option error) :=
  if WasDeleted (mgMeta from) then mret (MkResponse (CurrentValue req) (qReference req), None)
  else
    let '(req, noop) := IsNoOp req in
    if noop then mret (MkResponse (CurrentValue req) (qReference req), None)
    else
      match qReference req, qSelector req with
      | Some ref, _ =>
          '(to, err) ← trigger (RGet (refNamespace from (qNamespace req) ref, refName ref));
          match err with
          | Some _ =>
              if IsNotFound err
              then mret (emptyResponse, getResolutionError (refPolicy ref) (Wrap err errGetReferenced))
              else mret (emptyResponse, Wrap err errGetReferenced)
          | None =>
              let rsp := MkResponse (Extract req to) (Some ref) in
              mret (rsp, getResolutionError (refPolicy ref) (Validate rsp))
          end
      | None, Some s =>
          let ns := selNamespace from (qNamespace req) s in
          '(items, err) ← trigger (RList (selLabels s) ns);
          match err with
          | Some _ => mret (emptyResponse, Wrap err errListManaged)
          | None =>
              match list_find (fun to => skipped s to = false) items with
              | Some (_, to) =>
                  let rsp := MkResponse (Extract req to) (Some (selected (Name (mgMeta to)) ns)) in
                  mret (rsp, getResolutionError (selPolicy s) (Validate rsp))
              | None => mret (emptyResponse, getResolutionError (selPolicy s) (New errNoMatches))
              end
          end
      | None, None => Panic "invalid memory address or nil pointer dereference"
      end.

Definition emptyMultiResponse : MultiResolutionResponse := MkMultiResponse [] [].

(** The loop over references; it stops with a response and an error, or yields
    the map. *)
Fixpoint resolveReferences (extract : Managed -> string) (ns : string) (refs : list Ref) (valueMap : gmap string Ref)
    : prog reff (gmap string Ref + option error) :=
  match refs with
  | [] => mret (inl valueMap)
  | ref :: refs' =>
      '(to, err) ← trigger (RGet (refNamespace from ns ref, refName ref));
      match err with
      | Some _ =>
          if IsNotFound err then mret (inr (getResolutionError (refPolicy ref) (Wrap err errGetReferenced)))
          else mret (inr (Wrap err errGetReferenced))
      | None => resolveReferences extract ns refs' (<[extract to := ref]> valueMap)
      end
  end.

(** The loop over listed objects. *)
Fixpoint selectReferences (extract : Managed -> string) (ns : string) (s : Sel) (items : list Managed) (valueMap : gmap string Ref)
    : gmap string Ref :=
  match items with
  | [] => valueMap
  | to :: items' =>
      if skipped s to then selectReferences extract ns s items' valueMap
      else selectReferences extract ns s items' (<[extract to := selected (Name (mgMeta to)) ns]> valueMap)
  end.

Definition outOfRange : string := "index out of range".

(** [ResolveMultiple] *)
Definition ResolveMultiple (req : MultiResolutionRequest) : prog reff (MultiResolutionResponse * option error) :=
  if WasDeleted (mgMeta from) then mret (MkMultiResponse (CurrentValues req) (qReferences req), None)
  else
    let '(req, noop) := IsNoOpMultiple req in
    if noop then mret (MkMultiResponse (CurrentValues req) (qReferences req), None)
    else
      match qReferences req, qmSelector req with
      | _ :: _, _ =>
          valueMap ← resolveReferences (mExtract req) (qmNamespace req) (qReferences req) ∅;
          match valueMap with
          | inr err => mret (emptyMultiResponse, err)
          | inl valueMap =>
              let '(sortedKeys, sortedRefs) := sortMapByKeys valueMap in
              let rsp := MkMultiResponse sortedKeys sortedRefs in
              match ValidateMultiple rsp with
              | None => Panic outOfRange
              | Some err => mret (rsp, err)
              end
          end
      | [], Some s =>
          let ns := selNamespace from (qmNamespace req) s in
          '(items, err) ← trigger (RList (selLabels s) ns);
          match err with
          | Some _ => mret (emptyMultiResponse, Wrap err errListManaged)
          | None =>
              let '(sortedKeys, sortedRefs) := sortMapByKeys (selectReferences (mExtract req) ns s items ∅) in
              let rsp := MkMultiResponse sortedKeys sortedRefs in
              match ValidateMultiple rsp with
              | None => Panic outOfRange
              | Some err => mret (rsp, getResolutionError (selPolicy s) err)
              end
          end
      | [], None => Panic "invalid memory address or nil pointer dereference"
      end.

End resolve.
End requests.

(** ** Namespaced references (namespaced_reference.go) *)

Section namespaced.
Context {KE : KErrors} {MV : MetaV1}.

Definition NamespacedResolutionRequest : Type := ResolutionRequest (RK:=NamespacedReference_).
Definition MultiNamespacedResolutionRequest : Type := MultiResolutionRequest (RK:=NamespacedReference_).
Definition NamespacedResolutionResponse : Type := ResolutionResponse (RK:=NamespacedReference_).
Definition MultiNamespacedResolutionResponse : Type := MultiResolutionResponse (RK:=NamespacedReference_).

Definition NamespacedIsNoOp : NamespacedResolutionRequest -> NamespacedResolutionRequest * bool :=
  IsNoOp (RK:=NamespacedReference_).

Definition MultiNamespacedIsNoOp : MultiNamespacedResolutionRequest -> MultiNamespacedResolutionRequest * bool :=
  IsNoOpMultiple (RK:=NamespacedReference_).

Definition NamespacedValidate : NamespacedResolutionResponse -> option error := Validate (RK:=NamespacedReference_).

Definition MultiNamespacedValidate : MultiNamespacedResolutionResponse -> option (option error) :=
  ValidateMultiple (RK:=NamespacedReference_).

(** [APINamespacedResolver.Resolve] *)
Definition NamespacedResolve (from : Managed) (req : NamespacedResolutionRequest)
    : prog reff (NamespacedResolutionResponse * option error) :=
  Resolve (RK:=NamespacedReference_) from req.

(** [APINamespacedResolver.ResolveMultiple] *)
Definition NamespacedResolveMultiple (from : Managed) (req : MultiNamespacedResolutionRequest)
    : prog reff (MultiNamespacedResolutionResponse * option error) :=
  ResolveMultiple (RK:=NamespacedReference_) from req.

Definition ControllersMustMatchNamespaced (s : NamespacedSelector) : bool := ControllersMustMatch (RK:=NamespacedReference_) s.

End namespaced.

(** ** Sorted maps *)

Lemma sortMapByKeys_keys {T} (m : gmap string T) :
  StronglySorted String.le (sortMapByKeys m).1 /\ NoDup (sortMapByKeys m).1 /\
  (forall k, k ∈ (sortMapByKeys m).1 <-> is_Some (m !! k)).
Proof.
  simpl. split_and!.
  - apply (StronglySorted_merge_sort String.le).
  - rewrite merge_sort_Permutation. apply NoDup_fst_map_to_list.
  - intros k. rewrite (merge_sort_Permutation String.le), list_elem_of_fmap. split.
    + intros ([k' x] & -> & Hx%elem_of_map_to_list). by exists x.
    + intros [x Hx]. exists (k, x). by rewrite elem_of_map_to_list.
Qed.

Lemma omap_lookup_all {T} (m : gmap string T) (ks : list string) :
  (forall k, k ∈ ks -> is_Some (m !! k)) ->
  Forall2 (fun k x => m !! k = Some x) ks (omap (m !!.) ks).
Proof.
  induction ks as [|k ks IH]; intros Hk; csimpl; [constructor|].
  destruct (Hk k ltac:(left)) as [x Hx]. rewrite Hx. constructor; [done|]. apply IH. intros k' Hk'. apply Hk. by right.
Qed.

Lemma sortMapByKeys_values {T} (m : gmap string T) :
  Forall2 (fun k x => m !! k = Some x) (sortMapByKeys m).1 (sortMapByKeys m).2.
Proof. apply omap_lookup_all. intros k. apply sortMapByKeys_keys. Qed.

(** The values of integer pointers survive being a string. *)
Lemma ToIntPtrValue_From (v : option Z) :
  match v with Some z => (- 2 ^ 63 <= z < 2 ^ 63)%Z | None => True end -> ToIntPtrValue (FromIntPtrValue v) = v.
Proof.
  intros Hv. unfold ToIntPtrValue, FromIntPtrValue. destruct v as [z|]; [|done].
  rewrite decide_False, s2b_b2s; [by apply ParseInt_FormatInt|]. intros E%b2s_empty.
  pose proof (ParseInt_FormatInt z Hv) as H. by rewrite E in H.
Qed.

Section properties.
Context {RK : ReferenceKind} {KE : KErrors} {MV : MetaV1} (from : Managed).

Lemma getResolutionError_required (p : option Policy) (err : option error) :
  IsResolutionPolicyOptional p = false -> getResolutionError p err = err.
Proof. intros Hp. unfold getResolutionError. by rewrite Hp. Qed.

Lemma getResolutionError_nil (p : option Policy) (err : option error) :
  getResolutionError p err = None -> err = None \/ IsResolutionPolicyOptional p = true.
Proof. unfold getResolutionError. destruct (IsResolutionPolicyOptional p); auto. Qed.

(** The policy of what a request resolves. *)
Definition usedPolicy (req : ResolutionRequest) : option Policy :=
  match qReference req with Some r => refPolicy r | None => qSelector req ≫= selPolicy end.

(** The value [v] of reference [r] was read from the API server. *)
Definition found (req : ResolutionRequest) (tr : list (event reff)) (v : string) (r : Ref) : Prop :=
  exists to, v = Extract req to /\ v <> "" /\
    ((qReference req = Some r /\ tr = [Ev (RGet (refNamespace from (qNamespace req) r, refName r)) (to, None)]) \/
     exists s items, qReference req = None /\ qSelector req = Some s /\
       let ns := selNamespace from (qNamespace req) s in
       tr = [Ev (RList (selLabels s) ns) (items, None)] /\ to ∈ items /\ r = selected (Name (mgMeta to)) ns /\
       (ControllersMustMatch s = true -> HaveSameController (mgMeta from) (mgMeta to) = true)).

Lemma IsNoOp_false (req : ResolutionRequest) :
  (IsNoOp req).2 = false ->
  (CurrentValue req = "" \/ always req = true) /\
  (is_Some (qReference (IsNoOp req).1) \/ is_Some (qSelector (IsNoOp req).1)).
Proof.
  clear from. unfold IsNoOp, always. destruct req as [cur ref sel ex ns]; cbn [qSelector qReference CurrentValue fst snd].
  case_bool_decide; destruct sel as [s|], ref as [r|]; cbn [qSelector qReference CurrentValue];
    repeat match goal with |- context [IsResolvePolicyAlways ?p] => destruct (IsResolvePolicyAlways p) end; naive_solver.
Qed.

(** C24: resolving a reference never panics.  Without an API call the current
    value comes back unchanged, which is so when the object is being deleted,
    and when the value is set and nothing asks to resolve it always.  With one,
    and if no error is returned, the value is not empty and was extracted from
    the object the reference names, or from a listed object, which has the same
    controller if the selector asks for it; or the reference or selector is
    optional and the value is empty. *)
Theorem resolve_correct (req : ResolutionRequest) (tr : list (event reff)) res :
  exec (Resolve from req) tr res ->
  exists rsp err, res = Some (rsp, err) /\
    (tr = [] -> err = None /\ ResolvedValue rsp = CurrentValue req) /\
    (WasDeleted (mgMeta from) = true \/ (CurrentValue req <> "" /\ always req = false) -> tr = []) /\
    (tr <> [] -> err = None ->
      (exists r, ResolvedReference rsp = Some r /\ found (IsNoOp req).1 tr (ResolvedValue rsp) r) \/
      (IsResolutionPolicyOptional (usedPolicy (IsNoOp req).1) = true /\ ResolvedValue rsp = "")).
Proof.
  unfold Resolve. destruct (WasDeleted (mgMeta from)) eqn:Hd.
  { intros [-> ->]. by eexists _, _. }
  assert (CurrentValue (IsNoOp req).1 = CurrentValue req) as Hcur.
  { unfold IsNoOp. simpl. by repeat case_match. }
  pose proof (IsNoOp_false req) as Hn. destruct (IsNoOp req) as [req' noop]. cbn [fst snd] in *. destruct noop.
  { intros [-> ->]. eexists _, _. by split_and!. }
  destruct (Hn eq_refl) as [Hc Hs]. clear Hn.
  assert (false = true \/ CurrentValue req <> "" /\ always req = false -> tr = []) as Hcached.
  { intros [?|[H1 H2]]; [done|]. destruct Hc; congruence. }
  destruct (qReference req') as [ref|] eqn:Hr; [|destruct (qSelector req') as [s|] eqn:Hsel; [|by destruct Hs as [[??]|[??]]]].
  - cbn [mbind prog_bind bind_prog trigger exec]. intros ([to err] & tr' & -> & He).
    destruct err as [e|].
    + destruct (IsNotFound (Some e)); destruct He as [-> ->]; eexists _, _; (split_and!; [done..|]); intros _;
        unfold usedPolicy; rewrite Hr; [|done]. intros [|Ho]%getResolutionError_nil; [done|by right].
    + destruct He as [-> ->]. eexists _, _. split_and!; [done..|]. intros _. unfold usedPolicy. rewrite Hr.
      unfold Validate. cbn [ResolvedValue ResolvedReference]. destruct (decide (Extract req' to = "")) as [|Hv].
      { intros [|Ho]%getResolutionError_nil; [done|by right]. }
      intros _. left. exists ref. split; [done|]. exists to. split_and!; [done..|]. by left.
  - cbn [mbind prog_bind bind_prog trigger exec]. intros ([items err] & tr' & -> & He).
    destruct err as [e|].
    { destruct He as [-> ->]. by eexists _, _; split_and!. }
    destruct (list_find _ items) as [[i to]|] eqn:Hf; destruct He as [-> ->]; eexists _, _; (split_and!; [done..|]);
      intros _; unfold usedPolicy; rewrite Hr, Hsel; cbn [mbind option_bind]; [|intros [|Ho]%getResolutionError_nil; [done|by right]].
    unfold Validate. cbn [ResolvedValue ResolvedReference]. destruct (decide (Extract req' to = "")) as [|Hv].
    { intros [|Ho]%getResolutionError_nil; [done|by right]. }
    intros _. left. apply list_find_Some in Hf as (Hi & Hsk & _). eexists. split; [done|]. exists to. split_and!; [done..|]. right.
    exists s, items. do 2 (split; [done|]). cbn zeta. split_and!; [done|by eapply list_elem_of_lookup_2|done|].
    intros Hm. unfold skipped in Hsk. rewrite Hm in Hsk. by destruct (HaveSameController _ _).
Qed.

(** The map of values the loop over references builds: the last reference with
    a value wins. *)
Lemma exec_resolveReferences (extract : Managed -> string) (ns : string) (refs : list Ref) (m : gmap string Ref)
    (tr : list (event reff)) res :
  exec (resolveReferences from extract ns refs m) tr res ->
  (exists tos, tr = zip_with (fun r to => Ev (RGet (refNamespace from ns r, refName r)) (to, None)) refs tos /\
     length tos = length refs /\ res = Some (inl (foldl (fun m rt => <[extract rt.2 := rt.1]> m) m (zip refs tos)))) \/
  exists r e, r ∈ refs /\ res = Some (inr (if IsNotFound (Some e) then getResolutionError (refPolicy r) (Wrap (Some e) errGetReferenced)
                                         else Wrap (Some e) errGetReferenced)).
Proof.
  revert m tr. induction refs as [|r refs IH]; intros m tr; cbn [resolveReferences].
  { intros [-> ->]. left. by exists []. }
  cbn [mbind prog_bind bind_prog trigger exec]. intros ([to [e|]] & tr' & -> & He).
  - right. exists r, e. split; [left|]. destruct (IsNotFound (Some e)); by destruct He as [_ ->].
  - destruct (IH _ _ He) as [(tos & -> & Hl & ->)|(r' & e & Hr & ->)].
    + left. exists (to :: tos). simpl. by rewrite Hl.
    + right. exists r', e. by split; [right|].
Qed.

Lemma foldl_insert_lookup {A} (key : A -> string) (val : A -> Ref) (l : list A) (m : gmap string Ref) (k : string) (r : Ref) :
  foldl (fun m x => <[key x := val x]> m) m l !! k = Some r ->
  (exists x, x ∈ l /\ key x = k /\ val x = r) \/ m !! k = Some r.
Proof.
  clear from. revert m. induction l as [|x l IH]; intros m; simpl; [by right|]. intros [(y & Hy & H)|H]%IH.
  - left. exists y. by split; [right|].
  - apply lookup_insert_Some in H as [[<- <-]|[_ H]]; [|by right]. left. exists x. by split; [left|].
Qed.

Lemma foldl_insert_dom {A} (key : A -> string) (val : A -> Ref) (l : list A) (m : gmap string Ref) (k : string) :
  is_Some (foldl (fun m x => <[key x := val x]> m) m l !! k) <-> k ∈ key <$> l \/ is_Some (m !! k).
Proof.
  clear from. revert m. induction l as [|x l IH]; intros m; csimpl; [set_solver|].
  rewrite IH, lookup_insert_is_Some', elem_of_cons. naive_solver.
Qed.

(** Values without repetition have at most one empty one, so that [Validate]
    looks at every value. *)
Lemma validateValues_spec (values : list string) (refs : list Ref) :
  length values = length refs ->
  exists err, validateValues values refs = Some err /\
    (Forall (fun r => IsResolutionPolicyOptional (refPolicy r) = false) refs -> err = None -> Forall (.≠ "") values).
Proof.
  clear from. revert refs. induction values as [|v values IH]; intros [|r refs] Hl; simplify_eq/=; [by eexists|].
  case_decide as Hv.
  - eexists. split; [done|]. intros [Hr _]%Forall_cons. by rewrite getResolutionError_required.
  - destruct (IH refs Hl) as (err & -> & H). eexists. split; [done|]. intros [_ Hr]%Forall_cons He. constructor; auto.
Qed.

Lemma ValidateMultiple_spec (m : gmap string Ref) :
  let rsp := MkMultiResponse (sortMapByKeys m).1 (sortMapByKeys m).2 in
  exists err, ValidateMultiple rsp = Some err /\
    ((forall k r, m !! k = Some r -> IsResolutionPolicyOptional (refPolicy r) = false) -> err = None ->
     ResolvedValues rsp <> [] /\ Forall (.≠ "") (ResolvedValues rsp)).
Proof.
  clear from. intros rsp. pose proof (sortMapByKeys_values m) as Hv.
  destruct (validateValues_spec (ResolvedValues rsp) (ResolvedReferences rsp) (Forall2_length _ _ _ Hv)) as (err & H1 & H2).
  unfold ValidateMultiple. destruct (ResolvedValues rsp) as [|v vs] eqn:E; [by eexists|].
  exists err. split; [done|]. intros Hm He. split; [done|]. apply H2; [|done].
  apply Forall_forall. intros r Hr. apply list_elem_of_lookup in Hr as [i Hi].
  destruct (Forall2_lookup_r _ _ _ _ _ Hv Hi) as (k & _ & Hk). by eapply Hm.
Qed.

(** C25: resolving several references never panics, and, when the references
    are all required and no error is returned, gives exactly the values the
    referenced objects have now, none of them empty, sorted and without
    repetition, each paired with a reference that has this value. *)
Theorem resolve_multiple_references (req : MultiResolutionRequest) (tr : list (event reff)) res :
  WasDeleted (mgMeta from) = false -> (IsNoOpMultiple req).2 = false ->
  qReferences (IsNoOpMultiple req).1 = qReferences req -> qReferences req <> [] ->
  exec (ResolveMultiple from req) tr res ->
  exists rsp err, res = Some (rsp, err) /\
    (Forall (fun r => IsResolutionPolicyOptional (refPolicy r) = false) (qReferences req) -> err = None ->
     exists tos, tr = zip_with (fun r to => Ev (RGet (refNamespace from (qmNamespace req) r, refName r)) (to, None)) (qReferences req) tos /\
       length tos = length (qReferences req) /\
       StronglySorted String.le (ResolvedValues rsp) /\ NoDup (ResolvedValues rsp) /\ Forall (.≠ "") (ResolvedValues rsp) /\
       (forall v, v ∈ ResolvedValues rsp <-> v ∈ mExtract req <$> tos) /\
       Forall2 (fun v r => exists i to, qReferences req !! i = Some r /\ tos !! i = Some to /\ v = mExtract req to)
         (ResolvedValues rsp) (ResolvedReferences rsp)).
Proof.
  intros Hd Hn Hq Hne. unfold ResolveMultiple. rewrite Hd.
  assert (mExtract (IsNoOpMultiple req).1 = mExtract req /\ qmNamespace (IsNoOpMultiple req).1 = qmNamespace req) as [Hx Hns].
  { unfold IsNoOpMultiple. simpl. by repeat case_match. }
  destruct (IsNoOpMultiple req) as [req' noop]. cbn [fst snd] in *. subst noop. rewrite Hx, Hns, Hq.
  destruct (qReferences req) as [|r0 refs0] eqn:E; [done|]. rewrite <- E in *. clear E Hne.
  intros [[He ->]|(rm & tr1 & tr2 & -> & He1 & He2)]%exec_bind.
  { apply exec_resolveReferences in He as [(? & _ & _ & ?)|(? & ? & _ & ?)]; done. }
  apply exec_resolveReferences in He1 as [(tos & -> & Hl & [= ->])|(r & e & Hr & [= ->])].
  - set (m := foldl _ _ _) in He2. destruct (ValidateMultiple_spec m) as (err & Hv & Hok).
    pose proof (sortMapByKeys_keys m) as (Hs & Hnd & Hk). pose proof (sortMapByKeys_values m) as Hvals.
    destruct (sortMapByKeys m) as [keys rs]. cbn [fst snd] in *. rewrite Hv in He2. destruct He2 as [-> ->].
    rewrite app_nil_r. exists (MkMultiResponse keys rs), err. split; [done|]. intros Hreq ->.
    assert (forall k r, m !! k = Some r -> exists i to, qReferences req !! i = Some r /\ tos !! i = Some to /\ k = mExtract req to) as Hm.
    { intros k r [([r' to] & Hin & <- & <-)|?]%foldl_insert_lookup; [|done].
      apply list_elem_of_lookup in Hin as [i Hi]. apply lookup_zip_with_Some in Hi as (x & y & [= -> ->] & ? & ?). by exists i, y. }
    exists tos. split_and!; [done..| | |].
    + apply Hok; [|done]. intros k r (i & to & Hi & _)%Hm. rewrite Forall_forall in Hreq. apply Hreq. by eapply list_elem_of_lookup_2.
    + intros v. cbn [ResolvedValues]. rewrite Hk. unfold m. rewrite (foldl_insert_dom (fun rt => mExtract req rt.2) fst).
      rewrite <- (snd_zip (qReferences req) tos) at 2 by lia. rewrite <- list_fmap_compose, lookup_empty, is_Some_alt. tauto.
    + eapply Forall2_impl; [exact Hvals|]. apply Hm.
  - destruct He2 as [-> ->]. eexists _, _. split; [done|]. intros Hreq.
    rewrite Forall_forall in Hreq. rewrite (getResolutionError_required _ _ (Hreq r Hr)). by destruct (IsNotFound _).
Qed.

(** Of two references whose objects have no value yet only the last one is
    kept; if it is optional, the required one is neither reported as missing nor
    returned. *)
Theorem resolve_multiple_masks_required (req : MultiResolutionRequest) (r1 r2 : Ref) (to1 to2 : Managed) :
  WasDeleted (mgMeta from) = false -> CurrentValues req = [] -> qmSelector req = None -> qReferences req = [r1; r2] ->
  IsResolutionPolicyOptional (refPolicy r1) = false -> IsResolutionPolicyOptional (refPolicy r2) = true ->
  mExtract req to1 = "" -> mExtract req to2 = "" ->
  exec (ResolveMultiple from req)
    [Ev (RGet (refNamespace from (qmNamespace req) r1, refName r1)) (to1, None);
     Ev (RGet (refNamespace from (qmNamespace req) r2, refName r2)) (to2, None)]
    (Some (MkMultiResponse [""] [r2], None)).
Proof.
  destruct req as [cv refs sel ex ns].
  cbn [CurrentValues qmSelector qReferences mExtract qmNamespace]. intros Hd -> -> -> Ho1 Ho2 Hx1 Hx2.
  unfold ResolveMultiple, IsNoOpMultiple. rewrite Hd. cbn [CurrentValues qmSelector qReferences mExtract qmNamespace length Nat.ltb Nat.leb andb].
  apply exec_bind. right. eexists _, _, []. rewrite app_nil_r. split; [done|]. cbn [resolveReferences]. split.
  - cbn [mbind prog_bind bind_prog trigger exec mret prog_ret]. exists (to1, None). eexists. split; [done|].
    exists (to2, None). eexists. split; [done|]. by split.
  - cbn beta iota. rewrite Hx1, Hx2, insert_insert_eq, insert_empty. unfold sortMapByKeys. rewrite map_to_list_singleton.
    csimpl. unfold merge_sort. cbn [merge_sort_aux merge_list_to_stack merge_stack list_merge]. csimpl. rewrite lookup_singleton_eq.
    unfold ValidateMultiple. cbn [ResolvedValues ResolvedReferences validateValues].
    rewrite decide_True by done. unfold getResolutionError. by rewrite Ho2.
Qed.

End properties.

(** ** Concrete requests *)

#[local] Instance demoKErrors : KErrors := KErrorsStd.
#[local] Instance demoMetaV1 : MetaV1 := MetaV1First.
#[local] Instance demoKind : ReferenceKind := NamespacedReference_.

Definition demoNamed (name external : string) : Managed :=
  MkManaged (MkObjectMeta name "ns" "uid" 1 "1" None (Some {[AnnotationKeyExternalName := external]}) [] [] None GoTime.zeroTime)
    [] [] "" None Json.ANil Json.ANil.

(** A server on which every object exists and is named after itself, unless
    its name starts with a dash. *)
Definition demoServer (X : Type) (i : nat) (e : reff X) : X :=
  match e in reff Y return Y with
  | RGet (_, name) => (demoNamed name (if bool_decide (String.get 0 name = Some "-"%char) then "" else "x" +:+ name), None)
  | RList _ _ => ([demoNamed "a" "xa"; demoNamed "b" "xb"], None)
  end.

Definition demoRef (name : string) (resolution : string) : NamespacedReference :=
  MkNamespacedReference name "" (Some (MkPolicy None (Some resolution))).

Definition demoRequest : ResolutionRequest := MkRequest "" (Some (demoRef "b" "Required")) None ExternalName "".

Definition demoMulti (refs : list NamespacedReference) : MultiResolutionRequest := MkMultiRequest [] refs None ExternalName "".

Lemma resolve_correct_witness :
  exists r, found (demoNamed "from" "") demoRequest
    (run_with demoServer 0 (Resolve (demoNamed "from" "") demoRequest)).1 "xb" r.
Proof.
  destruct (resolve_correct (demoNamed "from" "") demoRequest _ _ (run_with_exec demoServer 0 _))
    as (rsp & err & H1 & _ & _ & H2).
  vm_compute in H1. injection H1 as <- <-.
  destruct H2 as [(r & _ & H)|[? _]]; [by vm_compute|done| |done]. exists r. exact H.
Defined.

Lemma resolve_multiple_references_witness :
  exists rsp, (run_with demoServer 0 (ResolveMultiple (demoNamed "from" "") (demoMulti [demoRef "b" "Required"; demoRef "a" "Required"]))).2
    = Some (rsp, None) /\ ResolvedValues rsp = ["xa"; "xb"] /\ Forall (.≠ "") (ResolvedValues rsp).
Proof.
  destruct (resolve_multiple_references (demoNamed "from" "") (demoMulti [demoRef "b" "Required"; demoRef "a" "Required"]) _ _
    eq_refl eq_refl eq_refl ltac:(done) (run_with_exec demoServer 0 _)) as (rsp & err & H1 & H2).
  exists rsp. rewrite H1. vm_compute in H1. injection H1 as <- <-. split; [done|]. split; [done|].
  destruct H2 as (tos & _ & _ & _ & _ & H & _); [by repeat constructor|done|exact H].
Defined.

Lemma resolve_multiple_masks_required_witness :
  (run_with demoServer 0 (ResolveMultiple (demoNamed "from" "") (demoMulti [demoRef "-b" "Required"; demoRef "-a" "Optional"]))).2
    = Some (MkMultiResponse [""] [demoRef "-a" "Optional"], None) /\
  exec (ResolveMultiple (demoNamed "from" "") (demoMulti [demoRef "-b" "Required"; demoRef "-a" "Optional"]))
    [Ev (RGet ("ns", "-b")) (demoNamed "-b" "", None); Ev (RGet ("ns", "-a")) (demoNamed "-a" "", None)]
    (Some (MkMultiResponse [""] [demoRef "-a" "Optional"], None)).
Proof.
  split; [reflexivity|].
  by apply (resolve_multiple_masks_required (demoNamed "from" "") (demoMulti [demoRef "-b" "Required"; demoRef "-a" "Optional"])
    (demoRef "-b" "Required") (demoRef "-a" "Optional")).
Defined.
