(* ===== verification/FloatValues.v ===== *)
(** * Floating point values of references (pkg/reference/reference.go)

    The adapters of [*float64] fields, with what they use of strconv: printing
    without a fraction, and parsing.  A float64 is the Standard Library's
    [spec_float] with the precision and range of binary64, in the canonical form
    that [valid_binary] describes. *)

From Stdlib Require Import SpecFloat.
From S2P Require Import Prelude GoStrings.

Abbreviation float64 := spec_float.

Definition wf_float64 (x : float64) : Prop := valid_binary 53 1024 x = true.

(** ** strconv.FormatFloat(x, 'f', 0, 64) *)

(** [num / den], ties to even. *)
Definition roundHalfEven (num den : Z) : Z :=
  let q := (num / den)%Z in
  match (2 * (num mod den) ?= den)%Z with
  | Lt => q
  | Gt => (q + 1)%Z
  | Eq => if Z.even q then q else (q + 1)%Z
  end.

Definition signBytes (s : bool) : bytes := if s then ["-"%char] else [].

(** [m * 2^e] as an integer. *)
Definition wholePart (m : positive) (e : Z) : Z :=
  if (0 <=? e)%Z then (Zpos m * 2 ^ e)%Z else roundHalfEven (Zpos m) (2 ^ (- e)).

Definition FormatFloat0 (x : float64) : bytes :=
  match x with
  | S754_nan => s2b "NaN"
  | S754_infinity s => s2b (if s then "-Inf" else "+Inf")
  | S754_zero s => signBytes s ++ s2b "0"
  | S754_finite s m e => signBytes s ++ FormatUint (Z.to_N (wholePart m e))
  end.

(** ** strconv.ParseFloat(s, 64) *)

Definition lower (c : ascii) : ascii := ascii_of_N (N.lor (N_of_ascii c) 32).

Definition equalFold (a b : bytes) : bool := bool_decide (lower <$> a = lower <$> b).

(** [special] *)
Definition special (b : bytes) : option float64 :=
  let infinity s b := if equalFold b (s2b "inf") || equalFold b (s2b "infinity") then Some (S754_infinity s) else None in
  match b with
  | "+"%char :: b' => infinity false b'
  | "-"%char :: b' => infinity true b'
  | _ => if equalFold b (s2b "nan") then Some S754_nan else infinity false b
  end.

Definition hexVal (c : ascii) : option N :=
  let n := N_of_ascii (lower c) in
  if ((97 <=? n) && (n <=? 102))%N then Some (n - 87)%N else None.

(** The value of a character that is a digit in the base. *)
Definition baseVal (hex : bool) (c : ascii) : option N :=
  match digit_val c with
  | Some d => Some d
  | None => if hex then hexVal c else None
  end.

(** The digits of the mantissa: its value, how many digits follow the point,
    whether there was a digit, and what is left. *)
Fixpoint readMantissa (hex : bool) (b : bytes) (mantissa : N) (frac : Z) (sawdot sawdigits : bool) : N * Z * bool * bytes :=
  match b with
  | [] => (mantissa, frac, sawdigits, [])
  | c :: b' =>
      if ascii_eqb c "_" then readMantissa hex b' mantissa frac sawdot sawdigits
      else if ascii_eqb c "." then
        if sawdot then (mantissa, frac, sawdigits, b) else readMantissa hex b' mantissa frac true sawdigits
      else match baseVal hex c with
           | Some d => readMantissa hex b' (mantissa * (if hex then 16 else 10) + d)%N (if sawdot then frac + 1 else frac)%Z sawdot true
           | None => (mantissa, frac, sawdigits, b)
           end
  end.

(** The digits of the exponent, which stops growing at 10000. *)
Fixpoint readExponent (b : bytes) (e : Z) : Z * bytes :=
  match b with
  | [] => (e, [])
  | c :: b' =>
      if ascii_eqb c "_" then readExponent b' e
      else match digit_val c with
           | Some d => readExponent b' (if (e <? 10000)%Z then e * 10 + Z.of_N d else e)%Z
           | None => (e, b)
           end
  end.

(** The exponent with its sign; [None] is a syntax error. *)
Definition parseExponent (hex : bool) (b : bytes) : option (Z * bytes) :=
  match b with
  | c :: b' =>
      if ascii_eqb (lower c) (if hex then "p" else "e") then
        let '(esign, b'') := match b' with
                             | "+"%char :: b'' => (1, b'')
                             | "-"%char :: b'' => (-1, b'')
                             | _ => (1, b')
                             end%Z in
        match b'' with
        | d :: _ => if is_digit d then let '(e, rest) := readExponent b'' 0 in Some (esign * e, rest)%Z else None
        | [] => None
        end
      else if hex then None else Some (0%Z, b)
  | [] => if hex then None else Some (0%Z, [])
  end.

(** [underscoreOK]: underscores only between digits, or after the base prefix. *)
Inductive saw := sawStart | sawDigit | sawUnderscore | sawOther.

Fixpoint underscoreLoop (hex : bool) (b : bytes) (last : saw) : bool :=
  match b with
  | [] => match last with sawUnderscore => false | _ => true end
  | c :: b' =>
      match baseVal hex c with
      | Some _ => underscoreLoop hex b' sawDigit
      | None =>
          if ascii_eqb c "_" then match last with sawDigit => underscoreLoop hex b' sawUnderscore | _ => false end
          else match last with sawUnderscore => false | _ => underscoreLoop hex b' sawOther end
      end
  end.

Definition underscoreOK (b : bytes) : bool :=
  let b := match b with "-"%char :: b' | "+"%char :: b' => b' | _ => b end in
  match b with
  | "0"%char :: c :: b' =>
      if ascii_eqb (lower c) "x" then underscoreLoop true b' sawDigit
      else if ascii_eqb (lower c) "b" || ascii_eqb (lower c) "o" then underscoreLoop false b' sawDigit
      else underscoreLoop false b sawStart
  | _ => underscoreLoop false b sawStart
  end.

(** The float64 nearest to [num / den], ties to even; [None] when it is out of
    range. *)
Definition nearest (s : bool) (num den : Z) : option float64 :=
  if (num =? 0)%Z then Some (S754_zero s)
  else
    let d := (Z.log2 num - Z.log2 den)%Z in
    (* num / den is at least 2^d, or only 2^(d-1) *)
    let d := if (den * 2 ^ Z.max 0 d <=? num * 2 ^ Z.max 0 (- d))%Z then d else (d - 1)%Z in
    let e := Z.max (-1074) (d - 52) in
    let m := roundHalfEven (num * 2 ^ Z.max 0 (- e)) (den * 2 ^ Z.max 0 e) in
    let '(m, e) := if (m =? 2 ^ 53)%Z then (2 ^ 52, e + 1)%Z else (m, e) in
    if (971 <? e)%Z then None
    else match m with Zpos p => Some (S754_finite s p e) | _ => Some (S754_zero s) end.

Definition splitSign (b : bytes) : bool * bytes :=
  match b with
  | "+"%char :: b' => (false, b')
  | "-"%char :: b' => (true, b')
  | _ => (false, b)
  end.

(** Whether the number is hexadecimal, and what follows the prefix that says so. *)
Definition splitBase (b : bytes) : bool * bytes :=
  match b with
  | z :: x :: c :: b' => if ascii_eqb z "0" && ascii_eqb (lower x) "x" then (true, c :: b') else (false, b)
  | _ => (false, b)
  end.

(** [None] is an error: of syntax, or a value out of range. *)
Definition ParseFloat (b : bytes) : option float64 :=
  match special b with
  | Some x => Some x
  | None =>
      let '(s, b1) := splitSign b in
      let '(hex, b2) := splitBase b1 in
      let '(mantissa, frac, sawdigits, b3) := readMantissa hex b2 0 0 false false in
      if negb sawdigits then None
      else
        match parseExponent hex b3 with
        | Some (e, []) =>
            if existsb (ascii_eqb "_") b && negb (underscoreOK b) then None
            else
              let e := (e - (if hex then 4 * frac else frac))%Z in
              let base := if hex then 2%Z else 10%Z in
              nearest s (Z.of_N mantissa * base ^ Z.max 0 e) (base ^ Z.max 0 (- e))
        | _ => None
        end
  end.

(** ** Adapters *)

Definition FromFloatPtrValue (v : option float64) : string :=
  match v with None => "" | Some x => b2s (FormatFloat0 x) end.

Definition ToFloatPtrValue (v : string) : option float64 :=
  if decide (v = "") then None else ParseFloat (s2b v).

Definition FromFloatPtrValues : list (option float64) -> list string := map FromFloatPtrValue.
Definition ToFloatPtrValues : list string -> list (option float64) := map ToFloatPtrValue.

(** ** Examples, as strconv answers *)

Example format_examples :
  FromFloatPtrValue <$> (ToFloatPtrValue <$> ["2.5"; "3.5"; "-0.3"; "1e21"; "inf"; "nAn"; "9007199254740993"; "4.9e-324"; "12."]) =
  ["2"; "4"; "-0"; "1000000000000000000000"; "+Inf"; "NaN"; "9007199254740992"; "0"; "12"].
Proof. vm_compute. reflexivity. Qed.

Example parse_examples :
  ToFloatPtrValue <$> ["0.5"; "0x1p-1"; "0x.8p0"; "1e309"; "1_23.50_0_0e+1_2"; "123_.5"; "1e"; "0x1"; "."; "infi"; "+nan"; "2.2250738585072011e-308"] =
  [Some (S754_finite false 4503599627370496 (-53)); Some (S754_finite false 4503599627370496 (-53)); Some (S754_finite false 4503599627370496 (-53));
   None; Some (S754_finite false 7904000000000000 (-6)); None; None; None; None; None; None;
   Some (S754_finite false 4503599627370495 (-1074))].
Proof. vm_compute. reflexivity. Qed.

(** ** Which values survive *)

(** The value is a whole number. *)
Definition integral (x : float64) : bool :=
  match x with
  | S754_zero _ => true
  | S754_finite _ m e => (0 <=? e)%Z || (Zpos m mod 2 ^ (- e) =? 0)%Z
  | _ => false
  end.

Lemma digits2_log2 (p : positive) : Zpos (digits2_pos p) = (Z.log2 (Zpos p) + 1)%Z.
Proof.
  induction p as [p IH|p IH|]; cbn [digits2_pos]; [| |done]; rewrite Pos2Z.inj_succ, IH.
  - rewrite (Pos2Z.inj_xI p), Z.log2_succ_double by lia. lia.
  - rewrite (Pos2Z.inj_xO p), Z.log2_double by lia. lia.
Qed.

Lemma roundHalfEven_exact (q den : Z) : (0 < den)%Z -> roundHalfEven (q * den) den = q.
Proof.
  intros Hd. unfold roundHalfEven. rewrite Z.mod_mul, Z.div_mul by lia. rewrite Z.mul_0_r. by rewrite (proj2 (Z.compare_lt_iff 0 den)).
Qed.

(** A whole number above zero that is a canonical float is its own nearest float. *)
Lemma nearest_exact (s : bool) (m : positive) (e n : Z) :
  wf_float64 (S754_finite s m e) -> (0 < n)%Z -> (Zpos m * 2 ^ Z.max 0 e = n * 2 ^ Z.max 0 (- e))%Z ->
  nearest s n 1 = Some (S754_finite s m e).
Proof.
  unfold wf_float64, valid_binary, bounded, canonical_mantissa, fexp, emin. rewrite andb_true_iff, Z.eqb_eq, Z.leb_le, digits2_log2.
  intros [Hc He] Hn Hv.
  pose proof (Z.pow_pos_nonneg 2 (Z.max 0 e) ltac:(lia) ltac:(lia)) as Hp1. pose proof (Z.pow_pos_nonneg 2 (Z.max 0 (- e)) ltac:(lia) ltac:(lia)) as Hp2.
  assert (Z.log2 n = Z.log2 (Zpos m) + e)%Z as Hlog.
  { apply (f_equal Z.log2) in Hv. rewrite !Z.log2_mul_pow2 in Hv by lia. lia. }
  pose proof (Z.log2_nonneg n) as Hl0.
  assert (Z.log2 (Zpos m) = 52)%Z as Hm by lia.
  pose proof (Z.log2_spec (Zpos m) ltac:(lia)) as Hms. rewrite Hm in Hms.
  unfold nearest. rewrite (proj2 (Z.eqb_neq n 0)) by lia. change (Z.log2 1) with 0%Z.
  rewrite Hlog, Hm, Z.sub_0_r, (Z.max_r 0 (52 + e)), (Z.max_l 0 (- (52 + e))) by lia.
  pose proof (Z.log2_spec n Hn) as Hns. rewrite Hlog, Hm in Hns.
  rewrite (proj2 (Z.leb_le _ _)) by (rewrite Z.mul_1_l, Z.mul_1_r; apply Hns).
  replace (Z.max (-1074) (52 + e - 52))%Z with e by lia. rewrite <- Hv, Z.mul_1_l, roundHalfEven_exact by done.
  rewrite (proj2 (Z.eqb_neq _ _)) by lia. by rewrite (proj2 (Z.ltb_ge _ _)) by lia.
Qed.

(** ** Parsing what was printed *)

Lemma digit_elem (c : ascii) : is_digit c = true -> c ∈ s2b "0123456789".
Proof. intros Hc. destruct c as [[] [] [] [] [] [] [] []]; try (by vm_compute in Hc); cbn; repeat (apply elem_of_cons; (by left) || right). Qed.

(** A digit is one of ten characters. *)
Ltac digit_cases Hc :=
  apply digit_elem in Hc; cbn in Hc;
  repeat (apply elem_of_cons in Hc; destruct Hc as [->|Hc]); try (by apply not_elem_of_nil in Hc).

Lemma digit_plain (c : ascii) :
  is_digit c = true ->
  ascii_eqb c "_" = false /\ ascii_eqb "_" c = false /\ ascii_eqb c "." = false /\ ascii_eqb (lower c) "x" = false /\
  lower c <> "i"%char /\ lower c <> "n"%char.
Proof. intros Hc. digit_cases Hc; vm_compute; split_and!; done. Qed.

Lemma special_digits (s : bool) (c : ascii) (b : bytes) : is_digit c = true -> special (signBytes s ++ c :: b) = None.
Proof.
  intros Hc. assert (forall x w, w = "i"%char \/ w = "n"%char -> equalFold (c :: b) (w :: x) = false) as Hf.
  { intros x w Hw. apply bool_decide_eq_false_2. cbn. intros [= H _]. destruct (digit_plain c Hc) as (_ & _ & _ & _ & H1 & H2).
    destruct Hw as [->| ->]; [by apply H1|by apply H2]. }
  assert ((if equalFold (c :: b) (s2b "inf") || equalFold (c :: b) (s2b "infinity") then Some (S754_infinity s) else None) = None) as Hi.
  { cbn. by rewrite !Hf by auto. }
  destruct s; [exact Hi|]. change (special (c :: b) = None). specialize (Hf (s2b "an") "n"%char ltac:(auto)).
  digit_cases Hc; cbn [special]; change (s2b "nan") with ("n"%char :: s2b "an"); by rewrite Hf.
Qed.

Lemma readMantissa_digits (b : bytes) (acc v : N) (sawdigits : bool) :
  read_digits acc b = Some v -> b <> [] \/ sawdigits = true -> readMantissa false b acc 0 false sawdigits = (v, 0%Z, true, []).
Proof.
  revert acc sawdigits. induction b as [|c b IH]; intros acc sd Hr Hs; cbn [read_digits readMantissa] in *.
  - injection Hr as ->. destruct Hs as [Hs| ->]; done.
  - unfold baseVal. destruct (digit_val c) as [d|] eqn:Hd; [|done].
    assert (is_digit c = true) as Hc by (unfold is_digit; by rewrite Hd). destruct (digit_plain c Hc) as (-> & _ & -> & _). apply IH; auto.
Qed.

Lemma splitBase_digits (b : bytes) : Forall (fun c => is_digit c = true) b -> splitBase b = (false, b).
Proof.
  intros Hb. destruct b as [|z [|x [|c b]]]; try done. cbn. inversion_clear Hb as [|? ? _ Hb']. inversion_clear Hb' as [|? ? Hx _].
  destruct (digit_plain x Hx) as (_ & _ & _ & -> & _). by rewrite andb_false_r.
Qed.

Lemma splitSign_digits (s : bool) (c : ascii) (b : bytes) : is_digit c = true -> splitSign (signBytes s ++ c :: b) = (s, c :: b).
Proof. intros Hc. destruct s; [done|]. digit_cases Hc; done. Qed.

Lemma existsb_digits (s : bool) (b : bytes) : Forall (fun c => is_digit c = true) b -> existsb (ascii_eqb "_") (signBytes s ++ b) = false.
Proof.
  intros Hb. rewrite existsb_app. assert (existsb (ascii_eqb "_") b = false) as ->; [|by destruct s].
  induction Hb as [|c b Hc _ IH]; [done|]. cbn [existsb]. rewrite IH. by destruct (digit_plain c Hc) as (_ & -> & _).
Qed.

Lemma ParseFloat_whole (s : bool) (n : N) : ParseFloat (signBytes s ++ FormatUint n) = nearest s (Z.of_N n) 1.
Proof.
  pose proof (FormatUint_digits n) as Hd. destruct (FormatUint_head n) as (c & b & E & Hc).
  pose proof (read_digits_digits (S (N.size_nat n)) n (N_size_bound n) ltac:(lia)) as R. fold (FormatUint n) in R. rewrite E in *.
  unfold ParseFloat. rewrite special_digits, splitSign_digits, splitBase_digits, existsb_digits by done.
  rewrite (readMantissa_digits _ _ n) by auto. cbn. by rewrite Z.mul_1_r.
Qed.

Definition signOf (x : float64) : bool :=
  match x with S754_zero s | S754_infinity s | S754_finite s _ _ => s | S754_nan => false end.

(** What is printed of a finite value below 2^53 is a whole number below 2^53. *)
Lemma wholePart_bound (m : positive) (e : Z) : (Zpos m < 2 ^ 53)%Z -> (e < 0)%Z -> (0 <= wholePart m e < 2 ^ 53)%Z.
Proof.
  intros Hm He. unfold wholePart, roundHalfEven. rewrite (proj2 (Z.leb_gt 0 e)) by done.
  assert (2 <= 2 ^ (- e))%Z by (change 2%Z with (2 ^ 1)%Z at 1; apply Z.pow_le_mono_r; lia).
  assert (0 <= Zpos m / 2 ^ (- e))%Z by (apply Z.div_pos; lia).
  assert (Zpos m / 2 ^ (- e) <= Zpos m / 2)%Z by (apply Z.div_le_compat_l; lia).
  assert (Zpos m / 2 <= 2 ^ 52)%Z by (apply Z.div_le_upper_bound; lia).
  destruct (_ ?= _)%Z; [destruct (Z.even _)|..]; lia.
Qed.

(** Whole numbers below 2^53 are floats. *)
Lemma whole_float (s : bool) (n : Z) :
  (0 < n < 2 ^ 53)%Z -> exists m e, wf_float64 (S754_finite s m e) /\ (Zpos m * 2 ^ Z.max 0 e = n * 2 ^ Z.max 0 (- e))%Z.
Proof.
  intros Hn. pose proof (Z.log2_nonneg n). assert (Z.log2 n < 53)%Z by (apply Z.log2_lt_pow2; lia).
  assert (0 < n * 2 ^ (52 - Z.log2 n))%Z as Hp by (apply Z.mul_pos_pos; [lia|apply Z.pow_pos_nonneg; lia]).
  destruct (n * 2 ^ (52 - Z.log2 n))%Z as [|m|] eqn:E; [lia| |lia]. exists m, (Z.log2 n - 52)%Z. split.
  - unfold wf_float64, valid_binary, bounded, canonical_mantissa, fexp, emin.
    rewrite andb_true_iff, Z.eqb_eq, Z.leb_le, digits2_log2, <- E, Z.log2_mul_pow2 by lia. lia.
  - rewrite (Z.max_l 0 (Z.log2 n - 52)), (Z.max_r 0 (- (Z.log2 n - 52))) by lia.
    replace (- (Z.log2 n - 52))%Z with (52 - Z.log2 n)%Z by lia. rewrite E. lia.
Qed.

(** What comes back of a finite value with a fraction is a whole number. *)
Lemma parsed_integral (s : bool) (m : positive) (e : Z) :
  (Zpos m < 2 ^ 53)%Z -> (e < 0)%Z ->
  exists y, nearest s (wholePart m e) 1 = Some y /\ integral y = true.
Proof.
  intros Hm He. pose proof (wholePart_bound m e Hm He) as Hb. destruct (decide (wholePart m e = 0%Z)) as [->|Hz].
  { by exists (S754_zero s). }
  destruct (whole_float s (wholePart m e)) as (m' & e' & Hw & Hv); [lia|]. exists (S754_finite s m' e').
  split; [apply nearest_exact; [done|lia|done]|]. cbn [integral]. destruct (Z.leb_spec 0 e'); [done|]. cbn [orb].
  rewrite (Z.max_l 0 e'), (Z.max_r 0 (- e')), Z.mul_1_r in Hv by lia. rewrite Hv, Z.mod_mul; [done|]. apply Z.pow_nonzero; lia.
Qed.

Lemma wf_mantissa (s : bool) (m : positive) (e : Z) : wf_float64 (S754_finite s m e) -> (Zpos m < 2 ^ 53)%Z.
Proof.
  unfold wf_float64, valid_binary, bounded, canonical_mantissa, fexp, emin. rewrite andb_true_iff, Z.eqb_eq, digits2_log2.
  intros [Hc _]. apply Z.log2_lt_pow2; lia.
Qed.

(** A whole number is printed as such. *)
Lemma wholePart_integral (s : bool) (m : positive) (e : Z) :
  integral (S754_finite s m e) = true ->
  (0 < wholePart m e /\ Zpos m * 2 ^ Z.max 0 e = wholePart m e * 2 ^ Z.max 0 (- e))%Z.
Proof.
  cbn [integral]. unfold wholePart. destruct (Z.leb_spec 0 e) as [He|He]; cbn [orb].
  - intros _. rewrite Z.max_r, Z.max_l by lia. split; [apply Z.mul_pos_pos; [lia|by apply Z.pow_pos_nonneg]|lia].
  - rewrite Z.eqb_eq. intros Hm. rewrite Z.max_l, Z.max_r by lia. pose proof (Z.pow_pos_nonneg 2 (- e) ltac:(lia) ltac:(lia)) as Hp.
    apply Z.mod_divide in Hm as [q Hq]; [|lia]. rewrite Hq, roundHalfEven_exact by done. split; [|lia].
    apply (Z.mul_pos_cancel_r q (2 ^ (- e))%Z); lia.
Qed.

(** C38: a float64 that is adapted to a current value and back is unchanged exactly
    if it is a whole number, an infinity or not a number: any other one comes
    back as a whole number, since values are printed without a fraction. *)
Theorem float_roundtrip_iff (x : float64) :
  wf_float64 x ->
  (ToFloatPtrValue (FromFloatPtrValue (Some x)) = Some x <->
   integral x = true \/ x = S754_nan \/ exists s, x = S754_infinity s).
Proof.
  intros Hx. assert (FormatFloat0 x <> []) as Hne.
  { destruct x as [[]|[]| |s m e]; try done. cbn [FormatFloat0]. intros [_ E]%app_nil.
    destruct (FormatUint_head (Z.to_N (wholePart m e))) as (c & b & E' & _). congruence. }
  unfold ToFloatPtrValue, FromFloatPtrValue. rewrite decide_False by (by rewrite b2s_empty). rewrite s2b_b2s.
  destruct x as [s|s| |s m e].
  - split; [by left|]. intros _. by destruct s.
  - split; [right; right; by exists s|]. intros _. by destruct s.
  - split; [by auto|]. done.
  - cbn [FormatFloat0]. rewrite ParseFloat_whole. rewrite Z2N.id.
    2: { destruct (Z.leb_spec 0 e) as [He|He]; [|by apply wholePart_bound; [eapply wf_mantissa|]].
         apply Z.lt_le_incl, (wholePart_integral s). cbn [integral]. by rewrite (proj2 (Z.leb_le 0 e)). }
    split.
    + intros Hn. left. cbn [integral]. destruct (Z.leb_spec 0 e) as [|He]; [done|].
      destruct (parsed_integral s m e (wf_mantissa s m e Hx) He) as (y & Hy & Hi). rewrite Hy in Hn. injection Hn as ->.
      cbn [integral] in Hi. by rewrite (proj2 (Z.leb_gt 0 e)) in Hi.
    + intros [Hi|[?|[? ?]]]; [|done..]. apply nearest_exact; [done|by apply (wholePart_integral s)..].
Qed.

Lemma float_roundtrip_iff_witness :
  ToFloatPtrValue (FromFloatPtrValue (Some (S754_finite false 6755399441055744 (-51)))) = Some (S754_finite false 6755399441055744 (-51)) /\
  ToFloatPtrValue (FromFloatPtrValue (Some (S754_finite false 4503599627370496 (-53)))) <> Some (S754_finite false 4503599627370496 (-53)).
Proof.
  split.
  - apply (float_roundtrip_iff (S754_finite false 6755399441055744 (-51))); [reflexivity|]. left. reflexivity.
  - intros [H|[H|[s H]]]%float_roundtrip_iff; [discriminate..|reflexivity].
Defined.

(** One half becomes zero. *)
Example float_value_lost : ToFloatPtrValue (FromFloatPtrValue (ToFloatPtrValue "0.5")) = Some (S754_zero false).
Proof. vm_compute. reflexivity. Qed.
