(* ===== verification/ProviderConfig.v ===== *)
(** * ProviderConfigs and their usages
      (pkg/reconciler/providerconfig/reconciler.go, pkg/resource/providerconfig.go)

    A managed resource that uses a ProviderConfig is tracked by a usage object
    it controls; the reconciler counts usages and keeps a finalizer on the
    ProviderConfig while there are any. *)

From S2P Require Import Prelude GoErrors GoTime Conditions Meta Prog Managed Applicator.

(** ** Credentials (CommonCredentialExtractor) *)

Record SecretKeySelector := MkSecretKeySelector { skNamespace : string; skName : string; skKey : string }.

Record CommonCredentialSelectors := MkSelectors {
  Fs : option string; Env : option string; SecretRef : option SecretKeySelector
}.

(** What extracting credentials asks of its environment. *)
Inductive xeff : Type -> Type :=
| XGetenv (name : string) : xeff string
| XReadFile (path : string) : xeff (string * option error)
| XGetSecret (namespacedName : string * string) : xeff (Secret * option error).

Definition ExtractEnv (s : CommonCredentialSelectors) : prog xeff (string * option error) :=
  match Env s with
  | None => mret ("", New "cannot extract from environment variable when none specified")
  | Some name => v ← trigger (XGetenv name); mret (v, None)
  end.

Definition ExtractFs (s : CommonCredentialSelectors) : prog xeff (string * option error) :=
  match Fs s with
  | None => mret ("", New "cannot extract from filesystem when no path specified")
  | Some path => trigger (XReadFile path)
  end.

(** A key that is not in the secret gives no bytes. *)
Definition ExtractSecret (s : CommonCredentialSelectors) : prog xeff (string * option error) :=
  match SecretRef s with
  | None => mret ("", New "cannot extract from secret key when none specified")
  | Some ref =>
      '(secret, err) ← trigger (XGetSecret (skNamespace ref, skName ref));
      match err with
      | Some _ => mret ("", Wrap err "cannot get credentials secret")
      | None => mret (default "" (sData secret !! skKey ref), None)
      end
  end.

Definition CommonCredentialExtractor (source : string) (selector : CommonCredentialSelectors)
    : prog xeff (string * option error) :=
  if decide (source = "Environment") then ExtractEnv selector
  else if decide (source = "Filesystem") then ExtractFs selector
  else if decide (source = "Secret") then ExtractSecret selector
  else if decide (source = "None") then mret ("", None)
  else mret ("", New ("no extraction handler registered for source: " +:+ source)).

(** ** Usages *)

Definition LabelKeyProviderName : string := "crossplane.io/provider-config".
Definition LabelKeyProviderKind : string := "crossplane.io/provider-config-kind".

(** [ProviderConfigReference]; a legacy one has no kind. *)
Record ProviderConfigReference := MkPCReference { pcrName : string; pcrKind : string }.

#[global] Instance ProviderConfigReference_eq_dec : EqDecision ProviderConfigReference.
Proof. solve_decision. Defined.

(** [uPolicy]: the reference of a legacy usage has a policy.  The reference of
    another usage has none. *)
Record ProviderConfigUsage := MkUsage {
  uMeta : ObjectMeta; uGenerateName : string; uConfig : ProviderConfigReference; uResource : TypedReference; uPolicy : bool
}.

#[global] Instance UsageObject : Object ProviderConfigUsage := {|
  metaOf := uMeta;
  withMeta m u := MkUsage m (uGenerateName u) (uConfig u) (uResource u) (uPolicy u);
  GenerateName := uGenerateName;
  meta_withMeta _ _ := eq_refl
|}.

Section usage.
Context {KE : KErrors} {MV : MetaV1} (GroupVersionString : GroupVersionKind -> string).

Definition errApplyPCU : string := "cannot apply ProviderConfigUsage".

(** The metadata setters of [Track]; the prototype of usages is an empty object. *)
Definition usageMeta (name namespace : string) (labels : gmap string string) (owner : OwnerReference) : ObjectMeta :=
  MkObjectMeta name namespace "" 0 "" (Some labels) None [] [owner] None zeroTime.

(** The references are the same; those the trackers write have no policy, so that
    the pointers to policies are equal if both are nil. *)
Definition sameReference (u v : ProviderConfigUsage) : Prop := uConfig u = uConfig v /\ uPolicy u = uPolicy v.

#[global] Instance sameReference_dec (u v : ProviderConfigUsage) : Decision (sameReference u v).
Proof. unfold sameReference. apply _. Defined.

Definition usageOptions (uid : string) (pcu : ProviderConfigUsage) : list (@ApplyOption ProviderConfigUsage) :=
  [MustBeControllableBy uid; AllowUpdateIf (fun current _ => bool_decide (~ sameReference current pcu))].

Definition applyUsage (uid : string) (pcu : ProviderConfigUsage) : prog (ceff ProviderConfigUsage) (option error) :=
  '(_, err) ← UpdatingApply (usageOptions uid pcu) pcu;
  mret (Wrap (Ignore IsNotAllowed err) errApplyPCU).

(** [ProviderConfigUsageTracker.Track] *)
Definition Track (mg : ObjectMeta) (gvk : GroupVersionKind) (ref : option ProviderConfigReference)
    : prog (ceff ProviderConfigUsage) (option error) :=
  match ref with
  | None => mret (Some (missingRefError (errorString "managed resource does not reference a ProviderConfig")))
  | Some ref =>
      if decide (pcrKind ref = "") then
        mret (Some (missingRefError (errorString "managed resource ProviderConfig reference has no Kind")))
      else
        applyUsage (UID mg)
          (MkUsage
             (usageMeta (UID mg) (Namespace mg) {[LabelKeyProviderName := pcrName ref; LabelKeyProviderKind := pcrKind ref]}
                (AsController (TypedReferenceTo mg gvk)))
             "" ref (MkTypedReference (GroupVersionString gvk) (GKind gvk) (Name mg) "") false)
  end.

(** [LegacyProviderConfigUsageTracker.Track]; legacy usages are cluster scoped. *)
Definition LegacyTrack (mg : ObjectMeta) (gvk : GroupVersionKind) (ref : option ProviderConfigReference)
    : prog (ceff ProviderConfigUsage) (option error) :=
  match ref with
  | None => mret (Some (missingRefError (errorString "managed resource does not reference a ProviderConfig")))
  | Some ref =>
      applyUsage (UID mg)
        (MkUsage
           (usageMeta (UID mg) "" {[LabelKeyProviderName := pcrName ref]} (AsController (TypedReferenceTo mg gvk)))
           "" (MkPCReference (pcrName ref) "") (MkTypedReference (GroupVersionString gvk) (GKind gvk) (Name mg) "") false)
  end.

End usage.

(** ** The reconciler *)

Record ProviderConfig := MkProviderConfig {
  pcMeta : ObjectMeta; pcKind : string; pcUsers : Z; pcConditions : ConditionedStatus
}.

Definition setPCMeta (m : ObjectMeta) (pc : ProviderConfig) : ProviderConfig :=
  MkProviderConfig m (pcKind pc) (pcUsers pc) (pcConditions pc).

Definition SetUsers (users : Z) (pc : ProviderConfig) : ProviderConfig :=
  MkProviderConfig (pcMeta pc) (pcKind pc) users (pcConditions pc).

Definition setPCConditions (c : list Condition) (pc : ProviderConfig) : ProviderConfig :=
  MkProviderConfig (pcMeta pc) (pcKind pc) (pcUsers pc) (SetConditions c (pcConditions pc)).

Inductive peff : Type -> Type :=
| PGet (namespacedName : string * string) : peff (ProviderConfig * option error)
| PList (labels : gmap string string) : peff (list ProviderConfigUsage * option error)
| PDelete (u : ProviderConfigUsage) : peff (option error)
| PUpdate (pc : ProviderConfig) : peff (ProviderConfig * option error)
| PStatusUpdate (pc : ProviderConfig) : peff (ProviderConfig * option error)
| PEvent (pc : ProviderConfig) (type : EventType) (reason message : string) : peff unit
| PNow : peff Time.

Definition finalizer : string := "in-use.crossplane.io".
Definition shortWait : Z := 30 * second.
Definition reasonAccount : string := "UsageAccounting".
Definition TypeTerminating : string := "Terminating".
Definition ReasonInUse : string := "InUse".

Definition Terminating (now : Z) : Condition := MkCondition TypeTerminating ConditionTrue now ReasonInUse "" 0.

Section reconciler.
Context {KE : KErrors} {MV : MetaV1} (legacyPCU : bool).

Definition errUpdateStatus : string := "cannot update ProviderConfig status".
Definition errDeletePCU : string := "cannot delete ProviderConfigUsage".
Definition blockingMessage : string := "Blocking deletion while usages still exist".

Definition hasController (u : ProviderConfigUsage) : bool :=
  match GetControllerOf (OwnerReferences (uMeta u)) with Some _ => true | None => false end.

(** The labels of the usages of a ProviderConfig. *)
Definition usageLabels (pc : ProviderConfig) : gmap string string :=
  if legacyPCU then {[LabelKeyProviderName := Name (pcMeta pc)]}
  else <[LabelKeyProviderKind := pcKind pc]> {[LabelKeyProviderName := Name (pcMeta pc)]}.

(** The loop that deletes usages without a controller and counts the others;
    [None] when a deletion failed. *)
Fixpoint countUsers (pc : ProviderConfig) (items : list ProviderConfigUsage) (users : Z) : prog peff (option Z) :=
  match items with
  | [] => mret (Some users)
  | pcu :: items' =>
      if hasController pcu then countUsers pc items' users
      else
        err ← trigger (PDelete pcu);
        match IgnoreNotFound err, err with
        | Some _, Some e =>
            _ ← trigger (PEvent pc TypeWarning reasonAccount (Error (wrapError errDeletePCU e)));
            mret None
        | _, _ => countUsers pc items' (users - 1)%Z
        end
  end.

Definition pcReturnWithStatus (pc : ProviderConfig) : prog peff (Result * option error) :=
  '(_, err) ← trigger (PStatusUpdate pc);
  mret (emptyResult, Wrap err errUpdateStatus).

(** What happens to a ProviderConfig that is being deleted. *)
Definition reconcileDeletedConfig (pc : ProviderConfig) (users : Z) : prog peff (Result * option error) :=
  if (0 <? users)%Z then
    _ ← trigger (PEvent pc TypeWarning reasonAccount blockingMessage);
    now ← trigger PNow;
    pcReturnWithStatus (setPCConditions [CondWithMessage blockingMessage (Terminating (instant now))] (SetUsers users pc))
  else
    match RemoveFinalizer finalizer (pcMeta pc) with
    | None => Panic "slice bounds out of range"
    | Some m =>
        '(_, err) ← trigger (PUpdate (setPCMeta m pc));
        match err with
        | Some _ => mret (MkResult false shortWait, None)
        | None => mret (emptyResult, None)
        end
    end.

(** [Reconciler.Reconcile] *)
Definition ReconcileConfig (namespacedName : string * string) : prog peff (Result * option error) :=
  '(pc, err) ← trigger (PGet namespacedName);
  match err with
  | Some _ => mret (emptyResult, Wrap (IgnoreNotFound err) "cannot get ProviderConfig")
  | None =>
      '(items, err) ← trigger (PList (usageLabels pc));
      match err with
      | Some e =>
          _ ← trigger (PEvent pc TypeWarning reasonAccount (Error (wrapError "cannot list ProviderConfigUsages" e)));
          mret (MkResult false shortWait, None)
      | None =>
          counted ← countUsers pc items (Z.of_nat (length items));
          match counted with
          | None => mret (MkResult false shortWait, None)
          | Some users =>
              if WasDeleted (pcMeta pc) then reconcileDeletedConfig pc users
              else
                '(pc, err) ← trigger (PUpdate (setPCMeta (AddFinalizer finalizer (pcMeta pc)) pc));
                match err with
                | Some _ => mret (MkResult false shortWait, None)
                | None => pcReturnWithStatus (SetUsers users pc)
                end
          end
      end
  end.

End reconciler.

(** ** Accounting *)

Section accounting.
Context {KE : KErrors} {MV : MetaV1} (legacyPCU : bool) (nn : string * string).

Abbreviation history := (list (event peff)).

Definition snoc (h : history) (ev : event peff) : history := h ++ [ev].

Lemma foldl_snoc (h tr : history) : foldl snoc h tr = h ++ tr.
Proof.
  revert h. induction tr as [|ev tr IH]; intros h; simpl; [by rewrite app_nil_r|].
  rewrite IH. unfold snoc. by rewrite <- app_assoc.
Qed.

(** The usages that count. *)
Definition users (items : list ProviderConfigUsage) : nat := length (filter (fun u => hasController u = true) items).

(** The ProviderConfig and its usages were read. *)
Definition accounted (h : history) (pc : ProviderConfig) (items : list ProviderConfigUsage) : Prop :=
  Ev (PGet nn) (pc, None) ∈ h /\ Ev (PList (usageLabels legacyPCU pc)) (items, None) ∈ h.

Definition cleaned (h : history) (items : list ProviderConfigUsage) : Prop :=
  forall u, u ∈ items -> hasController u = false -> exists err, Ev (PDelete u) err ∈ h /\ IgnoreNotFound err = None.

(** When the reconciler may write what. *)
Definition accounting_ok (h : history) (ev : event peff) : Prop :=
  match ev with
  | @Ev _ X e x =>
      match e with
      | PDelete u => exists pc items, accounted h pc items /\ u ∈ items /\ hasController u = false
      | PUpdate pc' => exists pc items, accounted h pc items /\ cleaned h items /\
          if WasDeleted (pcMeta pc) then users items = 0 /\ RemoveFinalizer finalizer (pcMeta pc) = Some (pcMeta pc')
          else pcMeta pc' = AddFinalizer finalizer (pcMeta pc)
      | PStatusUpdate pc' => exists pc items, accounted h pc items /\ cleaned h items /\
          pcUsers pc' = Z.of_nat (users items) /\ (WasDeleted (pcMeta pc) = true -> 0 < users items)
      | _ => True
      end
  end.

(** The reconciler returns unless a finalizer is repeated. *)
Definition accounting_returns (h : history) (r : option (Result * option error)) : Prop :=
  r = None -> exists pc, Ev (PGet nn) (pc, None) ∈ h /\ ~ NoDup (Finalizers (pcMeta pc)).

Lemma accounted_mono (h h' : history) pc items : accounted h pc items -> accounted (h ++ h') pc items.
Proof. unfold accounted. rewrite !elem_of_app. tauto. Qed.

Lemma cleaned_mono (h h' : history) items : cleaned h items -> cleaned (h ++ h') items.
Proof.
  intros Hc u Hu Hn. destruct (Hc u Hu Hn) as (err & He & H). exists err. split; [|done]. apply elem_of_app. by left.
Qed.

Hint Resolve accounted_mono cleaned_mono : golib.

(** The loop deletes only uncontrolled usages, and counts the others. *)
Lemma wp_countUsers (pc : ProviderConfig) (all : list ProviderConfigUsage) (h : history) (done items : list ProviderConfigUsage) (n : Z) :
  all = done ++ items -> accounted h pc all -> cleaned h done -> n = Z.of_nat (users done + length items) ->
  wp snoc accounting_ok (countUsers pc items n) h (fun h' r =>
    accounted h' pc all /\ match r with
                           | Some (Some m) => cleaned h' all /\ m = Z.of_nat (users all)
                           | Some None => True
                           | None => False
                           end).
Proof.
  revert h done n. induction items as [|u items IH]; intros h done n Hall Ha Hc Hn; cbn [countUsers].
  { rewrite app_nil_r in Hall. subst all. simpl in *. rewrite Nat.add_0_r in Hn. done. }
  assert (all = (done ++ [u]) ++ items) as Hall' by (by rewrite <- app_assoc).
  destruct (hasController u) eqn:Hu.
  - apply (IH _ (done ++ [u])); [done..| |].
    + intros u' [?| ->%list_elem_of_singleton]%elem_of_app Hn'; [by apply Hc|congruence].
    + unfold users in *. rewrite filter_app, filter_cons_True, length_app by done. simpl in *. lia.
  - cbn [wp mbind prog_bind bind_prog trigger mret prog_ret]. intros err. split.
    { exists pc, all. split; [done|]. split; [|done]. subst all. set_solver. }
    destruct (IgnoreNotFound err) as [e|] eqn:Hi.
    + destruct err as [e'|]; [|unfold IgnoreNotFound, Ignore in Hi; by destruct (IsNotFound None)].
      cbn. intros []. split; [done|]. split; [|done]. unfold snoc. rewrite <- app_assoc. by apply accounted_mono.
    + assert (wp snoc accounting_ok (countUsers pc items (n - 1)) (snoc h (Ev (PDelete u) err)) (fun h' r =>
        accounted h' pc all /\ match r with
          | Some (Some m) => cleaned h' all /\ m = Z.of_nat (users all) | Some None => True | None => False end)) as Hw; [|by destruct err].
      apply (IH _ (done ++ [u])); [done|by apply accounted_mono| |].
      * intros u' [Hd| ->%list_elem_of_singleton]%elem_of_app Hn'; [by apply (cleaned_mono h _ _ Hc)|].
        exists err. split; [|done]. apply elem_of_app. right. by apply list_elem_of_singleton.
      * unfold users in *. rewrite filter_app, filter_cons_False by congruence. simpl in *. rewrite app_nil_r. lia.
Qed.

Lemma wp_pcReturnWithStatus (pc pc' : ProviderConfig) (items : list ProviderConfigUsage) (h : history) :
  accounted h pc items -> cleaned h items -> pcUsers pc' = Z.of_nat (users items) ->
  (WasDeleted (pcMeta pc) = true -> 0 < users items) ->
  wp snoc accounting_ok (pcReturnWithStatus pc') h accounting_returns.
Proof. intros. cbn. intros [pc2 err]. split; [by exists pc, items|done]. Qed.

Lemma wp_reconcileDeletedConfig (pc : ProviderConfig) (items : list ProviderConfigUsage) (h : history) :
  accounted h pc items -> cleaned h items -> WasDeleted (pcMeta pc) = true ->
  wp snoc accounting_ok (reconcileDeletedConfig pc (Z.of_nat (users items))) h accounting_returns.
Proof.
  intros Ha Hc Hd. unfold reconcileDeletedConfig. destruct (Z.ltb_spec 0 (Z.of_nat (users items))) as [Hu|Hu].
  - cbn [wp mbind prog_bind bind_prog trigger]. intros []. split; [done|]. intros now. split; [done|].
    eapply wp_pcReturnWithStatus; [by apply accounted_mono, accounted_mono|by apply cleaned_mono, cleaned_mono|done|lia].
  - destruct (RemoveFinalizer finalizer (pcMeta pc)) as [m|] eqn:Hr.
    + cbn [wp mbind prog_bind bind_prog trigger mret prog_ret]. intros [pc2 err]. split; [|by destruct err].
      exists pc, items. rewrite Hd, Hr. split_and!; [done..|lia|done].
    + intros _. exists pc. split; [by destruct Ha|]. intros Hnd. by rewrite RemoveFinalizer_filter in Hr.
Qed.

Lemma wp_ReconcileConfig : wp snoc accounting_ok (ReconcileConfig legacyPCU nn) [] accounting_returns.
Proof.
  unfold ReconcileConfig. cbn [wp mbind prog_bind bind_prog trigger mret prog_ret].
  intros [pc [e|]]; (split; [done|]); [done|].
  cbn [wp mbind prog_bind bind_prog trigger mret prog_ret]. intros [items [e|]]; (split; [done|]).
  { cbn. by intros []. }
  apply wp_bind. eapply wp_mono.
  { apply (wp_countUsers pc items _ [] items); [done| |by intros u ?%not_elem_of_nil|done].
    split; unfold snoc; set_solver. }
  intros h' [[n|]|] [Ha Hr]; [|done..]. destruct Hr as [Hc ->].
  destruct (WasDeleted (pcMeta pc)) eqn:Hd; [by apply wp_reconcileDeletedConfig|].
  cbn [wp mbind prog_bind bind_prog trigger mret prog_ret]. intros [pc2 err]. split; [exists pc, items; by rewrite Hd|].
  destruct err; [done|]. eapply wp_pcReturnWithStatus; [by apply accounted_mono|by apply cleaned_mono|done|congruence].
Qed.

Lemma accounting_trace (tr : history) res :
  exec (ReconcileConfig legacyPCU nn) tr res ->
  (forall i ev, tr !! i = Some ev -> accounting_ok (take i tr) ev) /\ accounting_returns tr res.
Proof.
  intros He. destruct (wp_sound _ _ _ _ _ _ _ wp_ReconcileConfig He) as [H1 H2]. rewrite foldl_snoc in H2. split; [|done].
  intros i ev Hi. specialize (H1 (take i tr) ev (drop (S i) tr) (eq_sym (take_drop_middle _ _ _ Hi))).
  by rewrite foldl_snoc in H1.
Qed.

(** C18: the reconciler reads the ProviderConfig and lists its usages before it
    writes anything.  It deletes only usages without a controller; the status
    it writes counts exactly the usages with one; it adds the finalizer to a
    live ProviderConfig, and removes it from a deleted one only when no usage
    has a controller and the others were deleted.  It does not panic, unless
    finalizers are repeated. *)
Theorem provider_config_accounting (tr : history) res :
  exec (ReconcileConfig legacyPCU nn) tr res ->
  (forall i ev, tr !! i = Some ev -> accounting_ok (take i tr) ev) /\
  ((forall pc, Ev (PGet nn) (pc, None) ∈ tr -> NoDup (Finalizers (pcMeta pc))) -> is_Some res).
Proof.
  intros He. destruct (accounting_trace tr res He) as [H1 H2]. split; [done|]. intros Hnd. destruct res; [by eexists|]. destruct (H2 eq_refl) as (pc & Hpc & Hn). by destruct Hn; apply Hnd.
Qed.

End accounting.

(** ** Tracking *)

Section tracking.
Context {KE : KErrors} {MV : MetaV1} (uid : string).

(** The usage is controlled by the managed resource, or by nothing. *)
Definition mine (u : ProviderConfigUsage) : Prop :=
  match GetControllerOf (OwnerReferences (uMeta u)) with Some c => OwnerUID c = uid | None => True end.

Lemma usageOptions_spec (current pcu : ProviderConfigUsage) :
  exists err, applyOptions (usageOptions uid pcu) current pcu = ((current, pcu), err) /\
    match Ignore IsNotAllowed err with
    | Some _ => err <> None
    | None => mine current /\ (err = None <-> ~ sameReference current pcu)
    end.
Proof.
  unfold mine. cbn [applyOptions usageOptions MustBeControllableBy AllowUpdateIf metaOf UsageObject].
  destruct (GetControllerOf (OwnerReferences (uMeta current))) as [c|].
  - destruct (decide (OwnerUID c <> uid)) as [Hu|Hu]; [by eexists|]. apply dec_stable in Hu.
    destruct (bool_decide _) eqn:Hd; eexists; (split; [done|]); [apply bool_decide_eq_true in Hd|apply bool_decide_eq_false in Hd]; done.
  - destruct (bool_decide _) eqn:Hd; eexists; (split; [done|]); [apply bool_decide_eq_true in Hd|apply bool_decide_eq_false in Hd]; done.
Qed.

(** Tracking a usage updates only a usage that was read, that is
    controlled by the managed resource or by nothing, and that refers to
    another ProviderConfig; the update has the version that was read.  If no
    error is returned, the usage was created or updated, or the one that was
    read already refers to the ProviderConfig. *)
Theorem track_usage (pcu : ProviderConfigUsage) (tr : list (event (ceff ProviderConfigUsage))) res :
  uGenerateName pcu = "" -> exec (applyUsage uid pcu) tr res ->
  exists current gerr err, res = Some err /\
    let get := Ev (CGet (nameOf pcu) pcu) (current, gerr) in
    (tr = [get] /\ (err = None -> gerr = None /\ mine current /\ sameReference current pcu)) \/
    (exists x, IsNotFound gerr = true /\ tr = [get; Ev (CCreate pcu) x] /\ (err = None <-> x.2 = None)) \/
    (exists x u, gerr = None /\ mine current /\ ~ sameReference current pcu /\ tr = [get; Ev (CUpdate u) x] /\
       uConfig u = uConfig pcu /\ ResourceVersion (uMeta u) = ResourceVersion (uMeta current) /\ (err = None <-> x.2 = None)).
Proof.
  intros Hg He. unfold applyUsage, UpdatingApply, create, generated in He. cbn [GenerateName UsageObject] in He.
  rewrite Hg in He. rewrite (bool_decide_eq_true_2 ("" = "")), andb_false_r in He by done.
  cbn [mbind prog_bind bind_prog trigger exec] in He. destruct He as ([current gerr] & tr1 & -> & He).
  exists current, gerr. assert (IsNotFound None = false) as Hnf by apply reason_nil.
  destruct (IsNotFound gerr) eqn:Hn.
  - cbn [mbind prog_bind bind_prog trigger exec mret prog_ret] in He. destruct He as ([o err] & tr2 & -> & -> & ->).
    eexists. split; [done|]. right. left. exists (o, err). split_and!; [done..|]. by destruct err.
  - destruct gerr as [ge|].
    + destruct He as [-> ->]. eexists. split; [done|]. left. by split.
    + destruct (usageOptions_spec current pcu) as (oerr & Ho & Hspec). rewrite Ho in He.
      destruct oerr as [oe|].
      * destruct He as [-> ->]. eexists. split; [done|]. left. split; [done|].
        destruct (Ignore IsNotAllowed (Some oe)); [done|]. intros _. destruct Hspec as [Hm Hd]. split_and!; [done..|].
        apply dec_stable. naive_solver.
      * destruct Hspec as [Hm Hd]. cbn [mbind prog_bind bind_prog trigger exec mret prog_ret] in He.
        destruct He as ([o err] & tr2 & -> & -> & ->). eexists. split; [done|]. right. right.
        eexists (o, err), _. split_and!; [done|done|by apply Hd|done..|]. by destruct err.
Qed.

End tracking.

(** ** Concrete runs *)

#[local] Instance demoKErrors : KErrors := KErrorsStd.
#[local] Instance demoMetaV1 : MetaV1 := MetaV1First.

Definition demoUsage (name : string) (controlled : bool) : ProviderConfigUsage :=
  MkUsage (MkObjectMeta name "" name 1 "7" None None []
    (if controlled then [AsController (MkTypedReference "v1" "Kind" "o" "owner")] else []) None zeroTime)
    "" (MkPCReference "default" "") (MkTypedReference "v1" "Kind" "o" "") false.

Definition demoConfig : ProviderConfig :=
  MkProviderConfig (MkObjectMeta "default" "" "pc" 1 "1" None None ["a"; finalizer] [] (Some demoTime) demoTime) "PC" 0 [].

(** A server that holds the ProviderConfig, with one stale usage. *)
Definition demoServer (X : Type) (i : nat) (e : peff X) : X :=
  match e in peff Y return Y with
  | PGet _ => (demoConfig, None)
  | PList _ => ([demoUsage "stale" false], None)
  | PDelete _ => Some (statusError "NotFound" "gone")
  | PUpdate pc | PStatusUpdate pc => (pc, None)
  | PEvent _ _ _ _ => tt
  | PNow => demoTime
  end.

Lemma provider_config_accounting_witness :
  exists pc x pc0 items, (run_with demoServer 0 (ReconcileConfig false ("", "default"))).1 !! 3 = Some (Ev (PUpdate pc) x) /\
    Finalizers (pcMeta pc) = ["a"] /\ accounted false ("", "default") (take 3 (run_with demoServer 0 (ReconcileConfig false ("", "default"))).1) pc0 items.
Proof.
  destruct (provider_config_accounting false ("", "default") _ _ (run_with_exec demoServer 0 _)) as [H _].
  eassert ((run_with demoServer 0 (ReconcileConfig false ("", "default"))).1 !! 3 = Some _) as Hi by (vm_compute; reflexivity).
  destruct (H 3 _ Hi) as (pc0 & items & Ha & _).
  eexists _, _, pc0, items. split; [exact Hi|]. split; [vm_compute; reflexivity|exact Ha].
Defined.

(** A server that holds no usage. *)
Definition emptyServer (X : Type) (i : nat) (e : ceff ProviderConfigUsage X) : X :=
  match e in ceff _ Y return Y with
  | CGet _ o => (o, Some (statusError "NotFound" "gone"))
  | CCreate o | CUpdate o | CPatch o _ => (o, None)
  | CSleep => tt
  end.

Definition updates (ev : event (ceff ProviderConfigUsage)) : bool :=
  match ev with @Ev _ X e _ => match e with CUpdate _ => true | _ => false end end.

Lemma track_usage_witness :
  exists x, (run_with emptyServer 0 (applyUsage "owner" (demoUsage "u" true))).1 !! 1 = Some (Ev (CCreate (demoUsage "u" true)) x).
Proof.
  destruct (track_usage "owner" (demoUsage "u" true) _ _ eq_refl (run_with_exec emptyServer 0 _))
    as (current & gerr & err & _ & [[H _]|[(x & _ & H & _)|(x & u & _ & _ & _ & H & _)]]).
  - apply (f_equal length) in H. by vm_compute in H.
  - rewrite H. by exists x.
  - apply (f_equal (existsb updates)) in H. by vm_compute in H.
Defined.
