(* ===== verification/Gate.v ===== *)
(** * Gates (pkg/gate/gate.go, pkg/reconciler/customresourcesgate)

    A gate runs a registered function once all of its conditions hold.  Its
    methods may be called from several goroutines: each holds the mutex for a
    first part, releases it, and then calls [process], which takes the mutex
    again.  The two parts are separate definitions here, and [gstep] interleaves
    them in every possible order. *)

From S2P Require Import Prelude GoTime Meta.

Section gate.
Context {T : Type} `{Countable T} {F : Type}.

Record gated := MkGated { fn : F; depends : list T; released : bool }.

(** Reading a nil map gives false, as reading an empty one does. *)
Record Gate := MkGate { satisfied : gmap T bool; fns : list gated }.

Definition holds (satisfied : gmap T bool) (dep : T) : bool := default false (satisfied !! dep).

(** The inner loop: every dependency is looked at. *)
Definition release (satisfied : gmap T bool) (g : gated) : bool :=
  foldl (fun rel dep => if negb (holds satisfied dep) then false else rel) true (depends g).

(** The outer loop: mark the functions to release, and start them ([go fn()]). *)
Fixpoint releaseLoop (satisfied : gmap T bool) (fns : list gated) : list gated * list gated :=
  match fns with
  | [] => ([], [])
  | g :: fns' =>
      let '(rest, started) := releaseLoop satisfied fns' in
      if release satisfied g then (MkGated (fn g) (depends g) true :: rest, g :: started) else (g :: rest, started)
  end.

(** [process]: the new gate and the functions started, in order. *)
Definition process (g : Gate) : Gate * list gated :=
  let '(fns, started) := releaseLoop (satisfied g) (fns g) in
  (MkGate (satisfied g) (filter (fun a => released a = false) fns), started).

(** The part of [Register] under the lock. *)
Definition registerLocked (f : F) (deps : list T) (g : Gate) : Gate :=
  MkGate (satisfied g) (fns g ++ [MkGated f deps false]).

Definition Register (f : F) (deps : list T) (g : Gate) : Gate * list gated := process (registerLocked f deps g).

(** The part of [Set] under the lock; says whether there was an update. *)
Definition setLocked (condition : T) (value : bool) (g : Gate) : Gate * bool :=
  match satisfied g !! condition with
  | Some old => if bool_decide (old = value) then (g, false)
                else (MkGate (<[condition := value]> (satisfied g)) (fns g), true)
  | None => (MkGate (<[condition := value]> (satisfied g)) (fns g), true)
  end.

Definition SetCondition (condition : T) (value : bool) (g : Gate) : (Gate * list gated) * bool :=
  let '(g, updated) := setLocked condition value g in
  if updated then (process g, true) else ((g, []), false).

(** ** Interleavings *)

(** The gate, the calls of [process] that goroutines still have to make, the
    registrations so far, and the functions started with the conditions at the
    time. *)
Record sys := MkSys { gate : Gate; owed : nat; registered : list gated; started : list (gated * gmap T bool) }.

Definition initial : sys := MkSys (MkGate ∅ []) 0 [] [].

Inductive gstep : sys -> sys -> Prop :=
| gstep_register f deps s :
    gstep s (MkSys (registerLocked f deps (gate s)) (S (owed s)) (registered s ++ [MkGated f deps false]) (started s))
| gstep_set c v s :
    gstep s (MkSys (setLocked c v (gate s)).1 (if (setLocked c v (gate s)).2 then S (owed s) else owed s)
               (registered s) (started s))
| gstep_process s n :
    owed s = S n ->
    gstep s (MkSys (process (gate s)).1 n (registered s)
               (started s ++ ((fun g => (g, satisfied (gate s))) <$> (process (gate s)).2))).

(** All of the conditions of a function hold. *)
Definition ready (m : gmap T bool) (g : gated) : Prop := Forall (fun dep => m !! dep = Some true) (depends g).

Lemma release_ready (m : gmap T bool) (g : gated) : release m g = true <-> ready m g.
Proof.
  unfold release, ready, holds. generalize (depends g) as l. intros l.
  assert (forall b, foldl (fun rel dep => if negb (default false (m !! dep)) then false else rel) b l = true <->
    b = true /\ Forall (fun dep => m !! dep = Some true) l) as Hl; [|rewrite Hl; tauto].
  induction l as [|d l IH]; intros b; simpl; [rewrite Forall_nil; tauto|].
  rewrite IH, Forall_cons. destruct (m !! d) as [[]|]; simpl; naive_solver.
Qed.

#[global] Instance ready_dec (m : gmap T bool) (g : gated) : Decision (ready m g).
Proof. unfold ready. apply _. Defined.

Lemma process_spec (g : Gate) :
  Forall (fun a => released a = false) (fns g) ->
  process g = (MkGate (satisfied g) (filter (fun a => ~ ready (satisfied g) a) (fns g)),
               filter (fun a => ready (satisfied g) a) (fns g)).
Proof.
  intros Hf. unfold process. enough (
    let '(l, st) := releaseLoop (satisfied g) (fns g) in
    filter (fun a => released a = false) l = filter (fun a => ~ ready (satisfied g) a) (fns g) /\
    st = filter (fun a => ready (satisfied g) a) (fns g)) as Hl.
  { destruct (releaseLoop _ _). destruct Hl as [-> ->]. done. }
  induction (fns g) as [|a l IH]; [done|]. apply Forall_cons in Hf as [Ha Hf]. specialize (IH Hf).
  cbn [releaseLoop]. destruct (releaseLoop (satisfied g) l) as [l' st]. destruct IH as [IH1 IH2].
  destruct (release (satisfied g) a) eqn:Hr.
  - apply release_ready in Hr. rewrite filter_cons_False by done.
    rewrite (filter_cons_False (fun a => ~ ready _ a)) by (intros Hn; by apply Hn).
    rewrite filter_cons_True by done. by rewrite IH1, IH2.
  - assert (~ ready (satisfied g) a) as Hn by (rewrite <- release_ready; congruence).
    rewrite filter_cons_True by done. rewrite (filter_cons_True (fun a => ~ ready _ a)) by done.
    rewrite filter_cons_False by done. by rewrite IH1, IH2.
Qed.

(** The invariant of every interleaving. *)
Record ginv (s : sys) : Prop := {
  ginv_unreleased : Forall (fun a => released a = false) (fns (gate s));
  ginv_exact : (started s).*1 ++ fns (gate s) ≡ₚ registered s;
  ginv_ready : Forall (fun p => ready p.2 p.1) (started s);
  ginv_owed : owed s = 0 -> Forall (fun a => ~ ready (satisfied (gate s)) a) (fns (gate s))
}.

Lemma ginv_initial : ginv initial.
Proof. by split; try constructor. Qed.

Lemma ginv_step (s s' : sys) : ginv s -> gstep s s' -> ginv s'.
Proof.
  intros [Hu He Hr Ho] Hs. destruct Hs as [f deps s|c v s|s n Hn].
  - split; simpl; [|by rewrite app_assoc, He|done|done].
    apply Forall_app. split; [done|]. by constructor.
  - unfold setLocked. destruct (satisfied (gate s) !! c) as [old|] eqn:E; [case_bool_decide|]; by split.
  - rewrite (process_spec _ Hu). split; simpl.
    + apply Forall_forall. intros a [_ Ha]%list_elem_of_filter. rewrite Forall_forall in Hu. auto.
    + rewrite fmap_app, <- list_fmap_compose, list_fmap_id, <- app_assoc.
      rewrite <- He. apply Permutation_app_head. apply filter_app_complement.
    + apply Forall_app. split; [done|]. apply Forall_fmap, Forall_forall. intros a [Ha _]%list_elem_of_filter. done.
    + intros _. apply Forall_forall. by intros a [Ha _]%list_elem_of_filter.
Qed.

(** C20: whatever the interleaving of calls, every registered function is either
    waiting or was started, never both and never twice; a function is started
    only while all of its conditions are true; and once every call has
    returned, no function whose conditions all hold is left waiting. *)
Theorem gate_runs_once (s : sys) :
  rtc gstep initial s ->
  (started s).*1 ++ fns (gate s) ≡ₚ registered s /\
  Forall (fun p => ready p.2 p.1) (started s) /\
  (owed s = 0 -> Forall (fun a => ~ ready (satisfied (gate s)) a) (fns (gate s))).
Proof.
  intros Hs. enough (ginv s) as [? ? ? ?] by done.
  revert s Hs. apply rtc_ind_r; [apply ginv_initial|]. intros s1 s2 _ H12 Hi. by eapply ginv_step.
Qed.

End gate.

Arguments gated : clear implicits.
Arguments Gate T {_ _} F.

(** A function registered before and one registered after their conditions. *)
Definition demoSteps : sys (T:=string) (F:=nat) :=
  let g := registerLocked 2 ["b"] (setLocked "a" true (registerLocked 1 ["a"] (MkGate ∅ []))).1 in
  MkSys (process g).1 2 [MkGated 1 ["a"] false; MkGated 2 ["b"] false] [(MkGated 1 ["a"] false, {["a" := true]})].

Lemma gate_runs_once_witness :
  rtc gstep initial demoSteps /\ Forall (fun p => ready p.2 p.1) (started demoSteps).
Proof.
  assert (rtc gstep initial demoSteps) as Hr.
  { eapply rtc_l; [apply (gstep_register 1 ["a"])|]. eapply rtc_l; [apply (gstep_set "a" true)|].
    eapply rtc_l; [apply (gstep_register 2 ["b"])|]. eapply rtc_l; [by apply gstep_process|]. reflexivity. }
  split; [exact Hr|]. apply (gate_runs_once demoSteps Hr).
Defined.

(** ** Gating on custom resource definitions *)

#[global] Instance GroupVersionKind_eq_dec : EqDecision GroupVersionKind.
Proof. solve_decision. Defined.

#[global] Instance GroupVersionKind_countable : Countable GroupVersionKind.
Proof.
  refine (inj_countable' (fun g => (Group g, Version g, GKind g)) (fun '(g, v, k) => MkGVK g v k) _). by intros [].
Defined.

(** [apiextensionsv1.CustomResourceDefinition], the fields the code reads. *)
Record CRD := MkCRD {
  crdMeta : ObjectMeta;
  crdGroup : string;
  crdKind : string;
  crdVersions : list (string * bool);           (* name, served *)
  crdConditions : list (string * string)        (* type, status *)
}.

Fixpoint established (conditions : list (string * string)) : bool :=
  match conditions with
  | [] => false
  | (type, status) :: cs => if decide (type = "Established") then bool_decide (status = "True") else established cs
  end.

Definition isEstablished (crd : CRD) : bool := established (crdConditions crd).

(** Each version's entry overwrites an earlier one of the same name. *)
Definition toGVKs (crd : CRD) : gmap GroupVersionKind bool :=
  foldl (fun gvks v => <[MkGVK (crdGroup crd) v.1 (crdKind crd) := v.2]> gvks) ∅ (crdVersions crd).

Section crd.
Context {F : Type}.

Definition setAll (values : list (GroupVersionKind * bool)) (g : Gate GroupVersionKind F)
    : Gate GroupVersionKind F * list (gated GroupVersionKind F) :=
  foldl (fun '(g, started) '(gvk, v) => let '((g, more), _) := SetCondition gvk v g in (g, started ++ more)) (g, []) values.

(** [Reconciler.Reconcile]; [order] is the order in which Go ranges over the
    map of kinds. *)
Definition ReconcileCRD (crd : CRD) (order : list GroupVersionKind) (g : Gate GroupVersionKind F)
    : Gate GroupVersionKind F * list (gated GroupVersionKind F) :=
  if negb (isEstablished crd) || WasDeleted (crdMeta crd) then setAll ((fun gvk => (gvk, false)) <$> order) g
  else setAll ((fun gvk => (gvk, true)) <$> filter (fun gvk => toGVKs crd !! gvk = Some true) order) g.

Lemma setLocked_lookup (c k : GroupVersionKind) (v : bool) (g : Gate GroupVersionKind F) :
  satisfied (setLocked c v g).1 !! k = if decide (c = k) then Some v else satisfied g !! k.
Proof.
  unfold setLocked. destruct (satisfied g !! c) as [old|] eqn:E; [case_bool_decide|]; simpl;
    case_decide; simplify_eq; by simplify_map_eq.
Qed.

Lemma SetCondition_lookup (c k : GroupVersionKind) (v : bool) (g : Gate GroupVersionKind F) :
  satisfied (SetCondition c v g).1.1 !! k = if decide (c = k) then Some v else satisfied g !! k.
Proof.
  rewrite <- setLocked_lookup. unfold SetCondition. destruct (setLocked c v g) as [g' []]; [|done].
  unfold process. simpl. by destruct (releaseLoop _ _).
Qed.

Lemma setAll_lookup (v : bool) (l : list GroupVersionKind) (g : Gate GroupVersionKind F) (k : GroupVersionKind) :
  satisfied (setAll ((fun gvk => (gvk, v)) <$> l) g).1 !! k = if decide (k ∈ l) then Some v else satisfied g !! k.
Proof.
  unfold setAll. generalize (@nil (gated GroupVersionKind F)) as st. revert g.
  induction l as [|c l IH]; intros g st; csimpl; [done|].
  pose proof (SetCondition_lookup c k v g) as Hk. destruct (SetCondition c v g) as [[g' more] u].
  cbn [fst] in Hk. rewrite IH, Hk. repeat case_decide; set_solver.
Qed.

(** Reconciling a definition marks each of its versions: all of them as not
    ready when the definition is not established or is being deleted, and
    otherwise those it serves as ready; nothing else changes, and the order of
    Go's range over the map does not matter. *)
Theorem crd_gate (crd : CRD) (order : list GroupVersionKind) (g : Gate GroupVersionKind F) (k : GroupVersionKind) :
  order ≡ₚ (map_to_list (toGVKs crd)).*1 ->
  satisfied (ReconcileCRD crd order g).1 !! k =
    match toGVKs crd !! k : option bool with
    | Some served =>
        if negb (isEstablished crd) || WasDeleted (crdMeta crd) then Some false
        else if served then Some true else satisfied g !! k
    | None => satisfied g !! k
    end.
Proof.
  intros Hp. assert (k ∈ order <-> is_Some (toGVKs crd !! k)) as Hk.
  { rewrite Hp, list_elem_of_fmap. split.
    - intros ([k' x] & -> & Hx%elem_of_map_to_list). by exists x.
    - intros [x Hx]. exists (k, x). by rewrite elem_of_map_to_list. }
  unfold ReconcileCRD. destruct (_ || _); rewrite setAll_lookup.
  - case_decide as Hin; rewrite Hk in Hin; destruct (toGVKs crd !! k); naive_solver.
  - case_decide as Hin; rewrite list_elem_of_filter, Hk in Hin; destruct (toGVKs crd !! k) as [[]|]; naive_solver.
Qed.

End crd.

Definition demoCRD : CRD :=
  MkCRD demoMeta "example.org" "Thing" [("v1", true); ("v1beta1", false)] [("NamesAccepted", "True"); ("Established", "True")].

Lemma crd_gate_witness :
  satisfied (ReconcileCRD (F:=nat) demoCRD [MkGVK "example.org" "v1" "Thing"; MkGVK "example.org" "v1beta1" "Thing"] (MkGate ∅ [])).1
    !! MkGVK "example.org" "v1" "Thing" = Some true.
Proof.
  rewrite (crd_gate demoCRD [MkGVK "example.org" "v1" "Thing"; MkGVK "example.org" "v1beta1" "Thing"]); [vm_compute; reflexivity|].
  apply (bool_decide_eq_true_1 ([MkGVK "example.org" "v1" "Thing"; MkGVK "example.org" "v1beta1" "Thing"] ≡ₚ (map_to_list (toGVKs demoCRD)).*1)).
  vm_compute. reflexivity.
Defined.
