(* ===== verification/RateLimiter.v ===== *)
(** * Rate limiting (pkg/ratelimiter/reconciler.go)

    A reconciler that wraps another one: a request the limiter delays is
    returned with a delay, and when it comes back it is passed on at once.
    Requests for the same item are handled one after the other, as work queues
    do, so the two critical sections of [when] are not interleaved for one
    item; RateLimiterThreads.v interleaves those of different items. *)

From S2P Require Import Prelude GoErrors Prog.

Inductive leff : Type -> Type :=
| LWhen (item : string) : leff Z                 (* a duration in nanoseconds *)
| LForget (item : string) : leff unit
| LInner (req : string * string) : leff (Result * option error).

Section ratelimiter.
Context (name : string).

(** [r.name + req.String()]; the first component is the namespace. *)
Definition item (req : string * string) : string := name +:+ req.1 +:+ "/" +:+ req.2.

(** [when]: the delay, and the items that are limited. *)
Definition when (limited : gset string) (req : string * string) : prog leff (gset string * Z) :=
  if decide (item req ∈ limited) then mret (limited ∖ {[item req]}, 0%Z)
  else
    d ← trigger (LWhen (item req));
    mret (if decide (d <> 0%Z) then {[item req]} ∪ limited else limited, d).

(** [Reconciler.Reconcile] *)
Definition Reconcile (limited : gset string) (req : string * string) : prog leff (gset string * (Result * option error)) :=
  '(limited, d) ← when limited req;
  if (0 <? d)%Z then mret (limited, (MkResult false d, None))
  else
    _ ← trigger (LForget (item req));
    res ← trigger (LInner req);
    mret (limited, res).

(** Requests handled one after the other. *)
Fixpoint serve (limited : gset string) (reqs : list (string * string)) : prog leff (gset string * list (Result * option error)) :=
  match reqs with
  | [] => mret (limited, [])
  | req :: reqs' =>
      '(limited, res) ← Reconcile limited req;
      '(limited, ress) ← serve limited reqs';
      mret (limited, res :: ress)
  end.

(** ** Properties *)

(** What one call does. *)
Lemma exec_Reconcile (limited : gset string) (req : string * string) (tr : list (event leff)) r :
  exec (Reconcile limited req) tr r ->
  exists limited' res, r = Some (limited', res) /\
    (forall i, i <> item req -> (i ∈ limited' <-> i ∈ limited)) /\
    ((item req ∈ limited /\ (item req ∉ limited') /\ tr = [Ev (LForget (item req)) tt; Ev (LInner req) res]) \/
     ((item req ∉ limited) /\ exists d, (item req ∈ limited' <-> d <> 0%Z) /\
        (((0 < d)%Z /\ tr = [Ev (LWhen (item req)) d] /\ res = (MkResult false d, None)) \/
         ((d <= 0)%Z /\ tr = [Ev (LWhen (item req)) d; Ev (LForget (item req)) tt; Ev (LInner req) res])))).
Proof.
  unfold Reconcile, when. case_decide as Hl; cbn [mbind prog_bind bind_prog trigger mret prog_ret exec].
  - cbn. intros ([] & tr1 & -> & res & tr2 & -> & -> & ->). exists (limited ∖ {[item req]}), res. split; [done|].
    split; [set_solver|]. left. split_and!; [done|set_solver|done].
  - intros (d & tr1 & -> & He). destruct (Z.ltb_spec 0 d) as [Hd|Hd].
    + destruct He as [-> ->]. rewrite decide_True by lia. eexists _, _. split; [done|]. split; [set_solver|]. right.
      split; [done|]. exists d. split; [split; [lia|set_solver]|]. by left.
    + cbn in He. destruct He as ([] & tr2 & -> & res & tr3 & -> & -> & ->).
      exists (if decide (d <> 0%Z) then {[item req]} ∪ limited else limited), res. split; [done|].
      split; [case_decide; set_solver|]. right. split; [done|]. exists d.
      split; [case_decide; set_solver|]. right. done.
Qed.

Lemma exec_serve_others (limited : gset string) (reqs : list (string * string)) (tr : list (event leff)) limited' ress (i : string) :
  exec (serve limited reqs) tr (Some (limited', ress)) -> Forall (fun req => item req <> i) reqs ->
  i ∈ limited' <-> i ∈ limited.
Proof.
  revert limited tr ress. induction reqs as [|req reqs IH]; intros limited tr ress; cbn [serve].
  { by intros [_ [= -> _]]. }
  intros He [Hr Hrs]%Forall_cons. apply exec_bind in He as [[_ ?]|([l1 res1] & tr1 & tr2 & -> & He1 & He2)]; [done|].
  apply exec_bind in He2 as [[_ ?]|([l2 ress2] & tr3 & tr4 & -> & He2 & [-> [= -> ->]])]; [done|].
  apply exec_Reconcile in He1 as (l & res & [= -> ->] & Hl & _). rewrite (IH _ _ _ He2 Hrs). by apply Hl.
Qed.

(** A request the limiter delays is not passed on, and the next request for
    the same item, whatever other requests come in between, is passed to the
    inner reconciler without asking the limiter again; the limiter is asked
    about the one after that. *)
Theorem rate_limited_once (limited : gset string) (req : string * string) (others : list (string * string))
    (tr1 tr2 tr3 : list (event leff)) l1 l2 l3 res1 ress res3 :
  exec (Reconcile limited req) tr1 (Some (l1, res1)) -> (forall x, Ev (LInner req) x ∉ tr1) ->
  exec (serve l1 others) tr2 (Some (l2, ress)) -> Forall (fun o => item o <> item req) others ->
  exec (Reconcile l2 req) tr3 (Some (l3, res3)) ->
  (exists d, (0 < d)%Z /\ tr1 = [Ev (LWhen (item req)) d] /\ res1 = (MkResult false d, None)) /\
  tr3 = [Ev (LForget (item req)) tt; Ev (LInner req) res3] /\ item req ∉ l3.
Proof.
  intros H1 Hno H2 Ho H3. apply exec_Reconcile in H1 as (l & r & [= <- <-] & _ & Hc).
  destruct Hc as [(_ & _ & ->)|(_ & d & Hd & [(Hp & -> & ->)|(_ & ->)])]; [exfalso; apply (Hno res1); set_solver| |exfalso; apply (Hno res1); set_solver].
  split; [by exists d|]. apply (exec_serve_others _ _ _ _ _ _ H2) in Ho.
  apply exec_Reconcile in H3 as (l' & r' & [= <- <-] & _ & [(_ & Hn & ->)|(Hn & _)]); [done|].
  exfalso. apply Hn, Ho, Hd. lia.
Qed.

End ratelimiter.

(** A limiter that delays everything by one second. *)
Definition demoLimiter (X : Type) (i : nat) (e : leff X) : X :=
  match e in leff Y return Y with
  | LWhen _ => 1000000000%Z
  | LForget _ => tt
  | LInner _ => (emptyResult, None)
  end.

Definition demoServed : list (event leff) :=
  (run_with demoLimiter 0 (Reconcile "r" {["rns/a"]} ("ns", "a"))).1.

Lemma rate_limited_once_witness :
  demoServed = [Ev (LForget "rns/a") tt; Ev (LInner ("ns", "a")) (emptyResult, None)].
Proof.
  refine (proj1 (proj2 (rate_limited_once "r" ∅ ("ns", "a") [] [Ev (LWhen "rns/a") 1000000000%Z] [] demoServed
    {["rns/a"]} {["rns/a"]} ∅ (MkResult false 1000000000%Z, None) [] (emptyResult, None) _ _ _ _ _))).
  - exists 1000000000%Z, []. split; [reflexivity|]. split; [reflexivity|]. vm_compute. reflexivity.
  - intros x Hx%list_elem_of_singleton. discriminate.
  - split; reflexivity.
  - constructor.
  - exists tt. eexists. split; [reflexivity|]. exists (emptyResult, None). eexists. split; [reflexivity|].
    split; [reflexivity|]. vm_compute. reflexivity.
Defined.
