(* ===== verification/RateLimiterThreads.v ===== *)
(** * Concurrent requests to a rate limited reconciler

    [when] reads and writes the set of limited items in critical sections of
    their own, and a controller handles several requests at a time.  Here the
    critical sections are effects of their own, and requests are threads whose
    steps interleave in any order.  Work queues never hand out the same item
    twice at a time; for requests of different items every interleaving is
    equivalent to handling them one after the other. *)

From S2P Require Import Prelude GoErrors Prog RateLimiter.

(** The critical sections of [when], and the calls [Reconcile] makes. *)
Inductive aeff : Type -> Type :=
| ARead (item : string) : aeff bool          (* under the read lock *)
| ADelete (item : string) : aeff unit        (* under the lock *)
| AInsert (item : string) : aeff unit        (* under the lock *)
| ACall {X} (e : leff X) : aeff X.

Section threads.
Context (name : string).

Definition whenAtomic (req : string * string) : prog aeff Z :=
  let item := item name req in
  limited ← trigger (ARead item);
  if limited : bool then
    _ ← trigger (ADelete item);
    mret 0%Z
  else
    d ← trigger (ACall (LWhen item));
    _ ← (if decide (d <> 0%Z) then trigger (AInsert item) else mret tt);
    mret d.

Definition ReconcileAtomic (req : string * string) : prog aeff (Result * option error) :=
  d ← whenAtomic req;
  if (0 <? d)%Z then mret (MkResult false d, None)
  else
    _ ← trigger (ACall (LForget (item name req)));
    trigger (ACall (LInner req)).

(** ** Interleavings *)

(** What a step does to the set of limited items; calls may answer anything. *)
Definition acts {X} (limited : gset string) (e : aeff X) : X -> gset string -> Prop :=
  match e in aeff Y return Y -> gset string -> Prop with
  | ARead i => fun x limited' => x = bool_decide (i ∈ limited) /\ limited' = limited
  | ADelete i => fun _ limited' => limited' = limited ∖ {[i]}
  | AInsert i => fun _ limited' => limited' = {[i]} ∪ limited
  | ACall _ => fun _ limited' => limited' = limited
  end.

(** Threads that run to their ends; a trace says which thread made which step. *)
Inductive runs {A} : gset string -> list (prog aeff A) -> list (nat * event aeff) -> gset string -> list A -> Prop :=
| runs_done limited (ress : list A) : runs limited (Ret <$> ress) [] limited ress
| runs_step limited threads i X (e : aeff X) k x limited1 tr limited' ress :
    threads !! i = Some (Vis e k) -> acts limited e x limited1 ->
    runs limited1 (<[i := k x]> threads) tr limited' ress ->
    runs limited threads ((i, Ev e x) :: tr) limited' ress.

(** The calls of a thread. *)
Definition callOf (i : nat) (s : nat * event aeff) : option (event leff) :=
  if decide (s.1 = i) then
    match s.2 with
    | @Ev _ X e x => match e in aeff Y return Y -> option (event leff) with
                     | ACall e => fun x => Some (Ev e x)
                     | _ => fun _ => None
                     end x
    end
  else None.

Definition callsOf (i : nat) (tr : list (nat * event aeff)) : list (event leff) := omap (callOf i) tr.

(** ** A thread alone *)

(** A program that uses one item only. *)
Fixpoint confined {A} (i : string) (p : prog aeff A) : Prop :=
  match p with
  | Ret _ => True
  | Panic _ => False
  | Vis e k => (match e with ARead j | ADelete j | AInsert j => j = i | ACall _ => True end) /\ forall x, confined i (k x)
  end.

(** Such a program run alone: [b] says whether the item is limited. *)
Fixpoint solo {A} (b : bool) (p : prog aeff A) (tr : list (event leff)) (a : A) (b' : bool) : Prop :=
  match p with
  | Ret a' => a' = a /\ tr = [] /\ b' = b
  | Panic _ => False
  | Vis e k =>
      match e in aeff Y return (Y -> list (event leff) -> bool -> Prop) -> Prop with
      | ARead _ => fun K => K b tr b
      | ADelete _ => fun K => K tt tr false
      | AInsert _ => fun K => K tt tr true
      | ACall e => fun K => exists x tr', tr = Ev e x :: tr' /\ K x tr' b
      end (fun x tr' b1 => solo b1 (k x) tr' a b')
  end.

(** In an interleaving each thread runs as if alone, if no two of them use the
    same item, and nothing else changes. *)
Lemma runs_solo {A} (limited limited' : gset string) (threads : list (prog aeff A)) tr ress (items : list string) :
  runs limited threads tr limited' ress -> NoDup items -> Forall2 confined items threads ->
  length ress = length threads /\
  (forall i p it a, threads !! i = Some p -> items !! i = Some it -> ress !! i = Some a ->
     solo (bool_decide (it ∈ limited)) p (callsOf i tr) a (bool_decide (it ∈ limited'))) /\
  (forall it, it ∉ items -> it ∈ limited' <-> it ∈ limited).
Proof.
  intros Hr Hnd. induction Hr as [limited ress|limited threads i X e k x limited1 tr limited' ress Hi Ha _ IH]; intros Hc.
  { rewrite length_fmap. split_and!; [done| |done]. intros i p it a Hp _ Ha. rewrite list_lookup_fmap, Ha in Hp. by injection Hp as <-. }
  destruct (Forall2_lookup_r _ _ _ _ _ Hc Hi) as (it & Hit & Hci). cbn in Hci. destruct Hci as [He Hk].
  destruct IH as (Hl & Hs & Ho).
  { rewrite <- (list_insert_id items i it Hit). apply Forall2_insert; [done|apply Hk]. }
  rewrite length_insert in Hl. split; [done|]. split.
  - intros j p it' a Hp Hit' Hres. unfold callsOf. cbn [omap list_omap]. destruct (decide (i = j)) as [<-|Hne].
    + assert (p = Vis e k) as -> by congruence. assert (it' = it) as -> by congruence.
      assert (i < length threads) as Hlt by (eapply lookup_lt_Some; exact Hi).
      specialize (Hs i (k x) it a (list_lookup_insert_eq _ _ _ Hlt) Hit Hres).
      unfold callOf at 1. cbn [fst snd]. rewrite decide_True by done. destruct e as [j|j|j|Y e]; cbn in Ha |- *.
      * destruct Ha as [-> ->]. by subst j.
      * subst j limited1. rewrite bool_decide_eq_false_2 in Hs by set_solver. by destruct x.
      * subst j limited1. rewrite bool_decide_eq_true_2 in Hs by set_solver. by destruct x.
      * subst limited1. by exists x, (callsOf i tr).
    + unfold callOf at 1. cbn [fst snd]. rewrite decide_False by done.
      specialize (Hs j p it' a ltac:(by rewrite list_lookup_insert_ne) Hit' Hres).
      assert (it' <> it) as Hn. { intros ->. apply Hne. by eapply NoDup_lookup. }
      replace (bool_decide (it' ∈ limited)) with (bool_decide (it' ∈ limited1)); [done|]. apply bool_decide_ext.
      destruct e as [q|q|q|Y e]; cbn in Ha; [destruct Ha as [_ ->]; done|set_solver..].
  - intros it' Hn. rewrite Ho by done. assert (it' <> it) by (intros ->; apply Hn; by eapply list_elem_of_lookup_2).
    destruct e as [q|q|q|Y e]; cbn in Ha; [destruct Ha as [_ ->]; done|set_solver..].
Qed.

(** ** Reconcile alone and in a sequence *)

Lemma confined_Reconcile (req : string * string) : confined (item name req) (ReconcileAtomic req).
Proof.
  unfold ReconcileAtomic, whenAtomic. split; [done|]. intros [|]; cbn.
  - split; [done|]. intros []. cbn. split; [done|]. intros []. split; [done|]. done.
  - split; [done|]. intros d. destruct (decide (d <> 0%Z)); cbn; [split; [done|]; intros []|]; (destruct (0 <? d)%Z; [done|]);
      (split; [done|]; intros []; split; done).
Qed.

Definition put (it : string) (b : bool) (limited : gset string) : gset string :=
  if b then {[it]} ∪ limited else limited ∖ {[it]}.

Lemma put_elem (it : string) (b : bool) (limited : gset string) (j : string) :
  j ∈ put it b limited <-> (if decide (j = it) then b = true else j ∈ limited).
Proof. unfold put. destruct b; case_decide; set_solver. Qed.

Lemma solo_Reconcile (limited : gset string) (req : string * string) (tr : list (event leff)) res (b' : bool) :
  solo (bool_decide (item name req ∈ limited)) (ReconcileAtomic req) tr res b' ->
  exec (Reconcile name limited req) tr (Some (put (item name req) b' limited, res)).
Proof.
  unfold ReconcileAtomic, whenAtomic, Reconcile, when. case_decide as Hl.
  - rewrite bool_decide_eq_true_2 by done. cbn. intros ([] & tr1 & -> & x & tr2 & -> & -> & -> & ->).
    exists tt, [Ev (LInner req) res]. split; [done|]. exists res, []. split; [done|]. done.
  - rewrite bool_decide_eq_false_2 by done. cbn. intros (d & tr1 & -> & H). exists d, tr1. split; [done|]. revert H.
    assert (put (item name req) false limited = limited) as Hf by (apply set_eq; intros j; rewrite put_elem; case_decide; naive_solver).
    destruct (decide (d <> 0%Z)) as [Hd|Hd]; cbn; (destruct (0 <? d)%Z; cbn; [intros (<- & -> & ->); by rewrite ?Hf|]);
      intros ([] & tr2 & -> & x & tr3 & -> & -> & -> & ->); (exists tt, [Ev (LInner req) res]; split; [done|]; exists res, []; split; [done|]; by rewrite ?Hf).
Qed.

(** What a request came to: its calls, its result, and whether its item is limited. *)
Definition outcome : Type := list (event leff) * (Result * option error) * bool.

Fixpoint puts (reqs : list (string * string)) (outs : list outcome) (limited : gset string) : gset string :=
  match reqs, outs with
  | req :: reqs, o :: outs => puts reqs outs (put (item name req) o.2 limited)
  | _, _ => limited
  end.

Definition alone (limited : gset string) (req : string * string) (o : outcome) : Prop :=
  solo (bool_decide (item name req ∈ limited)) (ReconcileAtomic req) o.1.1 o.1.2 o.2.

Lemma serve_alone (limited : gset string) (reqs : list (string * string)) (outs : list outcome) :
  NoDup (item name <$> reqs) -> Forall2 (alone limited) reqs outs ->
  exec (serve name limited reqs) (mjoin ((fun o => o.1.1) <$> outs)) (Some (puts reqs outs limited, (fun o => o.1.2) <$> outs)).
Proof.
  intros Hn Ho. revert limited outs Ho. induction reqs as [|req reqs IH]; intros limited outs Ho.
  { apply Forall2_nil_inv_l in Ho as ->. by split. }
  apply Forall2_cons_inv_l in Ho as ([[t a] b] & outs' & H1 & H2 & ->). rewrite fmap_cons in Hn. apply NoDup_cons in Hn as [Hni Hn].
  cbn [serve]. apply exec_bind. right. eexists _, t, _. split; [done|]. split; [by apply solo_Reconcile|].
  apply exec_bind. right. eexists _, _, []. split; [symmetry; apply app_nil_r|]. split; [apply (IH Hn _ outs')|by split].
  apply Forall2_same_length_lookup in H2 as [Hlen H2]. apply Forall2_same_length_lookup. split; [done|].
  intros i req' o Hreq' Hout. specialize (H2 i req' o Hreq' Hout). revert H2. unfold alone. cbn [snd].
  replace (bool_decide (item name req' ∈ put (item name req) b limited)) with (bool_decide (item name req' ∈ limited)); [done|].
  apply bool_decide_ext. rewrite put_elem, decide_False; [done|]. intros E. apply Hni. rewrite <- E.
  eapply list_elem_of_fmap_2, list_elem_of_lookup_2; done.
Qed.

Lemma puts_elem (limited : gset string) (reqs : list (string * string)) (outs : list outcome) (limited' : gset string) :
  NoDup (item name <$> reqs) -> Forall2 (fun req (o : outcome) => o.2 = bool_decide (item name req ∈ limited')) reqs outs ->
  (forall it, it ∉ item name <$> reqs -> it ∈ limited' <-> it ∈ limited) -> puts reqs outs limited = limited'.
Proof.
  intros Hn Ho. revert limited. induction Ho as [|req [[t a] b] reqs outs Hb Ho IH]; intros limited Hit; cbn [puts].
  { apply set_eq. intros it. symmetry. apply Hit. set_solver. }
  rewrite fmap_cons in Hn, Hit. apply NoDup_cons in Hn as [Hni Hn]. apply IH; [done|]. intros it Hi. cbn [snd] in *. subst b.
  rewrite put_elem. case_decide as E; [subst it; by rewrite bool_decide_eq_true|]. apply Hit. set_solver.
Qed.

(** C35: requests for different items that are handled at the same time, their
    critical sections and calls interleaved in any way, have the effect of
    handling them one after the other: there is such a run in which every
    request makes the same calls with the same answers and has the same result,
    and which leaves the same items limited. *)
Theorem interleavings_sequential (limited limited' : gset string) (reqs : list (string * string)) tr ress :
  NoDup (item name <$> reqs) -> runs limited (ReconcileAtomic <$> reqs) tr limited' ress ->
  exec (serve name limited reqs) (mjoin ((fun i => callsOf i tr) <$> seq 0 (length reqs))) (Some (limited', ress)).
Proof.
  intros Hn Hr. destruct (runs_solo _ _ _ _ _ (item name <$> reqs) Hr Hn) as (Hl & Hs & Ho).
  { apply Forall2_fmap, Forall_Forall2_diag, Forall_forall. intros req _. apply confined_Reconcile. }
  rewrite length_fmap in Hl.
  set (outs := (fun ia => (callsOf ia.1 tr, ia.2, bool_decide (default "" ((item name <$> reqs) !! ia.1) ∈ limited')) : outcome) <$> imap pair ress).
  assert (forall i req a, reqs !! i = Some req -> ress !! i = Some a ->
    outs !! i = Some (callsOf i tr, a, bool_decide (item name req ∈ limited'))) as Houts.
  { intros i req a Hi Ha. unfold outs. rewrite list_lookup_fmap, list_lookup_imap, Ha. cbn. by rewrite list_lookup_fmap, Hi. }
  assert (length outs = length ress) as Hlo by (unfold outs; by rewrite length_fmap, length_imap).
  assert (forall i req o, reqs !! i = Some req -> outs !! i = Some o ->
    exists a, ress !! i = Some a /\ o = (callsOf i tr, a, bool_decide (item name req ∈ limited'))) as Hat.
  { intros i req o Hi Ho'. destruct (lookup_lt_is_Some_2 ress i) as [a Ha]; [rewrite Hl; by eapply lookup_lt_Some|].
    rewrite (Houts i req a Hi Ha) in Ho'. injection Ho' as <-. by exists a. }
  assert (Forall2 (alone limited) reqs outs) as Hal.
  { apply Forall2_same_length_lookup_2; [lia|]. intros i req o Hi Ho'. destruct (Hat i req o Hi Ho') as (a & Ha & ->).
    apply (Hs i _ _ a); [by rewrite list_lookup_fmap, Hi..|done]. }
  assert ((fun i => callsOf i tr) <$> seq 0 (length reqs) = (fun o : outcome => o.1.1) <$> outs) as ->.
  { unfold outs. rewrite <- Hl, <- list_fmap_compose, fmap_imap. clear. apply list_eq. intros i. rewrite list_lookup_fmap, list_lookup_imap.
    destruct (decide (i < length ress)) as [Hi|Hi].
    - rewrite lookup_seq_lt by done. by destruct (lookup_lt_is_Some_2 ress i Hi) as [a ->].
    - rewrite !lookup_ge_None_2 by (rewrite ?length_seq; lia). done. }
  pose proof (serve_alone limited reqs outs Hn Hal) as He. rewrite (puts_elem limited reqs outs limited' Hn) in He; [|..|exact Ho].
  - replace ((fun o : outcome => o.1.2) <$> outs) with ress in He; [done|]. unfold outs.
    rewrite <- list_fmap_compose, fmap_imap. clear. apply list_eq. intros i. rewrite list_lookup_imap. by destruct (ress !! i).
  - apply Forall2_same_length_lookup_2; [lia|]. intros i req o Hi Ho'. by destruct (Hat i req o Hi Ho') as (a & Ha & ->).
Qed.

End threads.

(** Two requests for the same item at the same time may both be passed on after
    one delay: both find it limited before either removes it. *)
Example same_item_race :
  exists tr, runs {["r/a"]} [ReconcileAtomic "r" ("", "a"); ReconcileAtomic "r" ("", "a")] tr ∅ [(emptyResult, None); (emptyResult, None)] /\
    Forall (fun i => callsOf i tr = [Ev (LForget "r/a") tt; Ev (LInner ("", "a")) (emptyResult, None)]) [0; 1].
Proof.
  eexists. split.
  - eapply (runs_step _ _ 0); [reflexivity|split; reflexivity|]. eapply (runs_step _ _ 1); [reflexivity|split; reflexivity|].
    rewrite bool_decide_eq_true_2 by set_solver. cbn.
    eapply (runs_step _ _ 0 _ _ _ tt); [reflexivity|reflexivity|]. eapply (runs_step _ _ 1 _ _ _ tt); [reflexivity|reflexivity|].
    eapply (runs_step _ _ 0 _ _ _ tt); [reflexivity|reflexivity|]. eapply (runs_step _ _ 1 _ _ _ tt); [reflexivity|reflexivity|].
    eapply (runs_step _ _ 0 _ _ _ (emptyResult, None)); [reflexivity|reflexivity|].
    eapply (runs_step _ _ 1 _ _ _ (emptyResult, None)); [reflexivity|reflexivity|]. cbn.
    replace (({["r/a"]} ∖ {["r/a"]}) ∖ {["r/a"]} : gset string) with (∅ : gset string) by set_solver.
    apply (runs_done ∅ [(emptyResult, None); (emptyResult, None)]).
  - repeat constructor.
Qed.

(** Two requests, one of which was limited: both are asked about at once. *)
Definition demoInterleaving : list (nat * event aeff) :=
  [(0, Ev (ARead "r/a") true); (1, Ev (ARead "r/b") false); (1, Ev (ACall (LWhen "r/b")) 5%Z); (0, Ev (ADelete "r/a") tt);
   (1, Ev (AInsert "r/b") tt); (0, Ev (ACall (LForget "r/a")) tt); (0, Ev (ACall (LInner ("", "a"))) (emptyResult, None))].

Lemma demoInterleaving_runs :
  runs {["r/a"]} (ReconcileAtomic "r" <$> [("", "a"); ("", "b")]) demoInterleaving {["r/b"]} [(emptyResult, None); (MkResult false 5, None)].
Proof.
  unfold demoInterleaving.
  eapply runs_step; [reflexivity|split; [symmetry; by apply bool_decide_eq_true_2; set_solver|reflexivity]|].
  eapply runs_step; [reflexivity|split; [symmetry; by apply bool_decide_eq_false_2; set_solver|reflexivity]|].
  do 5 (eapply runs_step; [reflexivity|reflexivity|]). cbn.
  replace ({["r/b"]} ∪ {["r/a"]} ∖ {["r/a"]} : gset string) with ({["r/b"]} : gset string) by set_solver.
  apply (runs_done {["r/b"]} [(emptyResult, None); (MkResult false 5, None)]).
Qed.

Lemma interleavings_sequential_witness :
  exec (serve "r" {["r/a"]} [("", "a"); ("", "b")])
    [Ev (LForget "r/a") tt; Ev (LInner ("", "a")) (emptyResult, None); Ev (LWhen "r/b") 5%Z]
    (Some ({["r/b"]}, [(emptyResult, None); (MkResult false 5, None)])).
Proof.
  refine (interleavings_sequential "r" {["r/a"]} {["r/b"]} [("", "a"); ("", "b")] demoInterleaving _ _ demoInterleaving_runs).
  apply (bool_decide_eq_true_1 (NoDup _)). reflexivity.
Defined.
