(* ===== verification/Events.v ===== *)
(** * Recording events (pkg/event/event.go)

    A recorder adds its annotations to events, and drops those a filter asks
    it to drop.  Recording is an output of the model: what is passed to the
    Kubernetes event recorder. *)

From S2P Require Import Prelude GoErrors Managed.

(** [sliceMap]: pairs of keys and values; a last key without a value is
    ignored. *)
Fixpoint sliceMap (from : list string) (to : gmap string string) : gmap string string :=
  match from with
  | k :: v :: from' => sliceMap from' (<[k := v]> to)
  | _ => to
  end.

Record Event := MkEvent { EvType : EventType; EvReason : string; EvMessage : string; EvAnnotations : gmap string string }.

Definition Normal (r : string) (message : string) (keysAndValues : list string) : Event :=
  MkEvent TypeNormal r message (sliceMap keysAndValues ∅).

Definition Warning (r : string) (err : error) (keysAndValues : list string) : Event :=
  MkEvent TypeWarning r (Error err) (sliceMap keysAndValues ∅).

Section recorder.
Context {O : Type}.

Definition FilterFn : Type := O -> Event -> bool.

Record APIRecorder := MkRecorder { annotations : gmap string string; filterFns : list FilterFn }.

Definition NewAPIRecorder (fns : list FilterFn) : APIRecorder := MkRecorder ∅ fns.

(** [AnnotatedEventf]'s arguments. *)
Record recorded := MkRecorded { recObject : O; recAnnotations : gmap string string; recType : EventType; recReason : string; recMessage : string }.

(** [APIRecorder.Event]: what is recorded, if anything. *)
Definition RecordEvent (r : APIRecorder) (obj : O) (e : Event) : option recorded :=
  if existsb (fun filter => filter obj e) (filterFns r) then None
  else Some (MkRecorded obj (annotations r) (EvType e) (EvReason e) (EvMessage e)).

Definition WithAnnotations (keysAndValues : list string) (r : APIRecorder) : APIRecorder :=
  let ar := NewAPIRecorder [] in
  MkRecorder (sliceMap keysAndValues (annotations r ∪ annotations ar)) (filterFns ar).

(** The last value given for a key. *)
Fixpoint lastValue (key : string) (kvs : list string) : option string :=
  match kvs with
  | k :: v :: kvs' => match lastValue key kvs' with
                      | Some x => Some x
                      | None => if decide (k = key) then Some v else None
                      end
  | _ => None
  end.

Lemma sliceMap_cons2 (k v : string) (kvs : list string) (m : gmap string string) :
  sliceMap (k :: v :: kvs) m = sliceMap kvs (<[k := v]> m).
Proof. done. Qed.

Lemma sliceMap_lookup (key : string) (n : nat) (kvs : list string) (m : gmap string string) :
  length kvs <= n ->
  sliceMap kvs m !! key = match lastValue key kvs with Some v => Some v | None => m !! key end.
Proof.
  revert kvs m. induction n as [|n IH]; intros [|k [|v kvs]] m Hn; simpl in Hn; try lia; [done..|].
  cbn [sliceMap lastValue]. rewrite IH by lia. destruct (lastValue key kvs); [done|].
  case_decide; simplify_eq; by simplify_map_eq.
Qed.

(** A recorder with annotations records every event, with the annotations of
    the recorder it was made from, except where the last value given for a key
    replaces them; whatever the filters of that recorder say. *)
Lemma with_annotations_records (r : APIRecorder) (kvs : list string) (obj : O) (e : Event) :
  exists rec, RecordEvent (WithAnnotations kvs r) obj e = Some rec /\
    recReason rec = EvReason e /\ recMessage rec = EvMessage e /\
    forall key, recAnnotations rec !! key = match lastValue key kvs with Some v => Some v | None => annotations r !! key end.
Proof.
  eexists. split; [done|]. split_and!; [done..|]. intros key. cbn [recAnnotations annotations WithAnnotations NewAPIRecorder].
  rewrite (sliceMap_lookup key (length kvs)) by done. by rewrite map_union_empty.
Qed.

End recorder.

(** The filter of a recorder is lost when it is given annotations. *)
Example with_annotations_drops_filters :
  let r := NewAPIRecorder [fun (_ : unit) (e : Event) => bool_decide (EvReason e = "Noise")] in
  RecordEvent r tt (Normal "Noise" "m" []) = None /\
  is_Some (RecordEvent (WithAnnotations ["k"; "v"] r) tt (Normal "Noise" "m" [])).
Proof. split; [reflexivity|by eexists]. Qed.
