(* ===== verification/Watch.v ===== *)
(** * Watches, late initialisation and names
      (pkg/resource/predicates.go, enqueue_handlers.go, late_initializer.go,
      resource.go) *)

From stdpp Require Export sorting.
From S2P Require Import Prelude GoStrings GoTime Meta ProviderConfig.

(** ** Predicates on update events *)

(** [AnnotationChangedPredicate.Update]; [None] is a nil object, and a nil map
    of annotations is copied to an empty one. *)
Definition copyAnnotations (an : option (gmap string string)) : gmap string string := default ∅ an.

Definition deleteAll (keys : list string) (m : gmap string string) : gmap string string :=
  foldl (fun m k => base.delete k m) m keys.

(** Reading a missing key gives the empty string. *)
Definition annotationChanged (ignored : list string) (ObjectOld ObjectNew : option ObjectMeta) : bool :=
  match ObjectOld, ObjectNew with
  | None, _ | _, None => false
  | Some old, Some new =>
      let na := deleteAll ignored (copyAnnotations (Annotations new)) in
      let oa := deleteAll ignored (copyAnnotations (Annotations old)) in
      if decide (size na <> size oa) then true
      else existsb (fun kv => negb (bool_decide (default "" (oa !! kv.1) = kv.2))) (map_to_list na)
  end.

(** controller-runtime's predicates on labels and generations. *)
Class ChangePredicates := {
  labelChanged : option ObjectMeta -> option ObjectMeta -> bool;
  generationChanged : option ObjectMeta -> option ObjectMeta -> bool
}.

(** [DesiredStateChanged().Update] *)
Definition DesiredStateChanged {CP : ChangePredicates} (ObjectOld ObjectNew : option ObjectMeta) : bool :=
  annotationChanged [AnnotationKeyExternalCreateFailed; AnnotationKeyExternalCreatePending] ObjectOld ObjectNew ||
  labelChanged ObjectOld ObjectNew || generationChanged ObjectOld ObjectNew.

(** [predicate.Funcs] made of one function; an update is judged by the new object. *)
Inductive predicateEvent (O : Type) := PCreate (o : O) | PDelete (o : O) | PUpdate (old new : O) | PGeneric (o : O).
Arguments PCreate {O} _.
Arguments PDelete {O} _.
Arguments PUpdate {O} _ _.
Arguments PGeneric {O} _.

Definition NewPredicates {O} (fn : O -> bool) (e : predicateEvent O) : bool :=
  match e with
  | PCreate o | PDelete o | PGeneric o => fn o
  | PUpdate _ new => fn new
  end.

Lemma deleteAll_lookup (keys : list string) (m : gmap string string) (k : string) :
  deleteAll keys m !! k = if decide (k ∈ keys) then None else m !! k.
Proof.
  unfold deleteAll. revert m. induction keys as [|k' keys IH]; intros m; csimpl; [done|].
  rewrite IH. destruct (decide (k = k')) as [->|Hne].
  - rewrite lookup_delete_eq. repeat case_decide; set_solver.
  - rewrite lookup_delete_ne by done. repeat case_decide; set_solver.
Qed.

(** If no new annotation is empty, the predicate holds exactly when the
    annotations that are not ignored differ. *)
Lemma annotation_changed_iff (ignored : list string) (old new : ObjectMeta) :
  (forall k, annotation k new = "" -> default ∅ (Annotations new) !! k = None) ->
  annotationChanged ignored (Some old) (Some new) = true <->
  exists k, (k ∉ ignored) /\ default ∅ (Annotations old) !! k <> default ∅ (Annotations new) !! k.
Proof.
  intros Hne. cbn [annotationChanged]. unfold copyAnnotations.
  set (na := deleteAll ignored (default ∅ (Annotations new))). set (oa := deleteAll ignored (default ∅ (Annotations old))).
  assert ((exists k, (k ∉ ignored) /\ default ∅ (Annotations old) !! k <> default ∅ (Annotations new) !! k) <-> oa <> na) as ->.
  { split.
    - intros (k & Hk & Hd) E. apply Hd. apply (f_equal (.!! k)) in E. unfold oa, na in E. rewrite !deleteAll_lookup in E.
      by rewrite !decide_False in E by done.
    - intros E. destruct (decide (exists k, k ∈ dom (default ∅ (Annotations old)) ∪ dom (default ∅ (Annotations new)) /\
          ((k ∉ ignored) /\ default ∅ (Annotations old) !! k <> default ∅ (Annotations new) !! k))) as [(k & _ & Hk)|Hn]; [by exists k|].
      exfalso. apply E, map_eq. intros k. unfold oa, na. rewrite !deleteAll_lookup. case_decide; [done|].
      destruct (decide (default ∅ (Annotations old) !! k = default ∅ (Annotations new) !! k)); [done|]. exfalso. apply Hn. exists k.
      split; [|done]. rewrite elem_of_union, !elem_of_dom.
      destruct (default ∅ (Annotations old) !! k); [by left|]. destruct (default ∅ (Annotations new) !! k); [by right|done]. }
  case_decide as Hs; [split; [intros _ ->; by apply Hs|done]|].
  split.
  - rewrite existsb_exists. intros ([k v] & Hin & Hb) E. apply list_elem_of_In, elem_of_map_to_list in Hin. rewrite E in Hb. cbn in Hb. rewrite Hin in Hb. cbn in Hb.
    by rewrite bool_decide_eq_true_2 in Hb.
  - intros Hd. apply not_false_is_true. intros Hno. apply Hd. symmetry. apply map_subseteq_size_eq; [|lia].
    apply map_subseteq_spec. intros k v Hk. assert (default "" (oa !! k) = v) as Hv.
    { apply dec_stable. intros Hv. eapply eq_true_false_abs, Hno. apply existsb_exists. exists (k, v).
      split; [by apply list_elem_of_In, elem_of_map_to_list|]. cbn. by rewrite bool_decide_eq_false_2. }
    destruct (oa !! k) as [w|]; [by simplify_eq/=|]. simpl in Hv. subst v. unfold na in Hk. rewrite deleteAll_lookup in Hk.
    case_decide; [done|]. rewrite Hne in Hk; [done|]. unfold annotation. by destruct (Annotations new); simplify_eq/=; rewrite ?Hk.
Qed.

(** The managed reconciler marks objects as pending and as failed to create:
    such a change alone does not trigger a reconcile. *)
Lemma annotation_changed_same (ignored : list string) (old new : ObjectMeta) :
  deleteAll ignored (default ∅ (Annotations new)) = deleteAll ignored (default ∅ (Annotations old)) ->
  annotationChanged ignored (Some old) (Some new) = false.
Proof.
  intros E. cbn [annotationChanged]. unfold copyAnnotations. rewrite E, decide_False by auto.
  apply not_true_is_false. rewrite existsb_exists. intros ([k v] & Hin%list_elem_of_In%elem_of_map_to_list & Hb). cbn in Hb. rewrite Hin in Hb. cbn in Hb.
  by rewrite bool_decide_eq_true_2 in Hb.
Qed.

Lemma delete_ignored (ignored : list string) (key v : string) (o : ObjectMeta) :
  key ∈ ignored ->
  deleteAll ignored (default ∅ (Annotations (AddAnnotations {[key := v]} o))) = deleteAll ignored (default ∅ (Annotations o)).
Proof.
  intros Hk. apply map_eq. intros k. rewrite !deleteAll_lookup. case_decide; [done|]. unfold AddAnnotations, addAll.
  destruct (Annotations o); cbn; [rewrite <- insert_union_singleton_l, lookup_insert_ne by set_solver; done|].
  rewrite lookup_singleton_ne, lookup_empty by set_solver. done.
Qed.

Theorem own_marks_ignored {CP : ChangePredicates} (o : ObjectMeta) (t : Time) (o' : ObjectMeta) :
  o' = SetExternalCreatePending t o \/ o' = SetExternalCreateFailed t o ->
  labelChanged (Some o) (Some o') = false -> generationChanged (Some o) (Some o') = false ->
  DesiredStateChanged (Some o) (Some o') = false.
Proof.
  intros Ho Hl Hg. unfold DesiredStateChanged. rewrite Hl, Hg, annotation_changed_same; [done|].
  destruct Ho as [->| ->]; apply delete_ignored; set_solver.
Qed.

(** Exchanging an annotation for another one, both with empty values, is not
    noticed. *)
Example annotation_changed_misses :
  annotationChanged [] (Some (SetAnnotations (Some {["a" := ""]}) demoMeta)) (Some (SetAnnotations (Some {["b" := ""]}) demoMeta)) = false.
Proof. vm_compute. reflexivity. Qed.

(** ** Enqueueing requests for ProviderConfigs *)

(** The object of an event: a usage, a legacy usage, or something else. *)
Inductive watched := typedUsage (u : ProviderConfigUsage) | legacyUsage (u : ProviderConfigUsage) | otherObject.

(** [addProviderConfig]: the requests added to the queue (namespace, name). *)
Definition addProviderConfig (obj : watched) : list (string * string) :=
  match obj with
  | typedUsage u => [(Namespace (uMeta u), pcrName (uConfig u))]
  | legacyUsage u => [("", pcrName (uConfig u))]
  | otherObject => []
  end.

Inductive watchEvent := CreateEvent (o : watched) | UpdateEvent (old new : watched) | DeleteEvent (o : watched) | GenericEvent (o : watched).

(** [EnqueueRequestForProviderConfig]'s handlers. *)
Definition enqueue (e : watchEvent) : list (string * string) :=
  match e with
  | CreateEvent o | DeleteEvent o | GenericEvent o => addProviderConfig o
  | UpdateEvent old new => addProviderConfig old ++ addProviderConfig new
  end.

(** ** Late initialisation *)

Record LateInitializer := MkLateInitializer { changed : bool }.

Definition NewLateInitializer : LateInitializer := MkLateInitializer false.

Definition IsChanged (li : LateInitializer) : bool := changed li.

Definition SetChanged (li : LateInitializer) : LateInitializer := MkLateInitializer true.

(** [LateInitializeStringPtr] and its siblings for other types. *)
Definition lateInitialize {A} (org from : option A) (li : LateInitializer) : option A * LateInitializer :=
  match org, from with
  | Some _, _ | _, None => (org, li)
  | None, Some _ => (from, SetChanged li)
  end.

Definition LateInitializeStringPtr (org from : option string) (li : LateInitializer) : option string * LateInitializer := lateInitialize org from li.
Definition LateInitializeInt64Ptr (org from : option Z) (li : LateInitializer) : option Z * LateInitializer := lateInitialize org from li.
Definition LateInitializeBoolPtr (org from : option bool) (li : LateInitializer) : option bool * LateInitializer := lateInitialize org from li.

(** [metav1.NewTime] wraps the time. *)
Definition LateInitializeTimePtr (org from : option Time) (li : LateInitializer) : option Time * LateInitializer := lateInitialize org from li.

(** Late initialisation of a sequence of fields with one initializer. *)
Fixpoint lateInitializeAll {A} (fields : list (option A * option A)) (li : LateInitializer) : list (option A) * LateInitializer :=
  match fields with
  | [] => ([], li)
  | (org, from) :: fields' =>
      let '(x, li) := lateInitialize org from li in
      let '(xs, li) := lateInitializeAll fields' li in (x :: xs, li)
  end.

(** No field that was set changes, and the initializer reports a change
    exactly when some field did change. *)
Lemma late_initialize_reports {A} (fields : list (option A * option A)) :
  let '(xs, li) := lateInitializeAll fields NewLateInitializer in
  Forall2 (fun f x => match f.1 with Some _ => x = f.1 | None => x = f.2 end) fields xs /\
  (changed li = true <-> xs <> fields.*1).
Proof.
  unfold NewLateInitializer. assert (forall b, let '(xs, li) := lateInitializeAll fields (MkLateInitializer b) in
    Forall2 (fun f x => match f.1 with Some _ => x = f.1 | None => x = f.2 end) fields xs /\
    (changed li = true <-> b = true \/ xs <> fields.*1)) as Hg.
  { induction fields as [|[org from] fields IH]; intros b; cbn [lateInitializeAll]; [split; [constructor|]; naive_solver|].
    unfold lateInitialize, SetChanged. destruct org as [o|], from as [f|]; csimpl.
    all: match goal with |- context [lateInitializeAll _ (MkLateInitializer ?c)] => specialize (IH c) end.
    all: destruct (lateInitializeAll _ _) as [xs li]; destruct IH as [H1 H2]; (split; [by constructor|]); rewrite H2; csimpl.
    all: naive_solver congruence. }
  specialize (Hg false). destruct (lateInitializeAll _ _) as [xs li]. destruct Hg as [H1 H2]. split; [done|].
  rewrite H2. naive_solver.
Qed.

(** ** Names *)

(** [strings.Join] *)
Fixpoint Join (names : list string) (sep : string) : string :=
  match names with
  | [] => ""
  | [x] => x
  | x :: names' => x +:+ sep +:+ Join names' sep
  end.

Definition decimal (n : nat) : string := b2s (FormatUint (N.of_nat n)).

Definition FirstNAndSomeMore (n : Z) (names : list string) : string :=
  if (n <=? 0)%Z then decimal (length names)
  else
    let n := Z.to_nat n in
    if n <? length names then Join (take n names) ", " +:+ ", and " +:+ decimal (length names - n) +:+ " more"
    else if length names =? n then Join (take (n - 1) names) ", " +:+ ", and " +:+ nth (n - 1) names ""
    else Join names ", ".

(** [StableNAndSomeMore]; the input is copied. *)
Definition StableNAndSomeMore (n : Z) (names : list string) : string := FirstNAndSomeMore n (merge_sort String.le names).

(** The order of the names does not matter. *)
Lemma stable_n_permutation (n : Z) (names names' : list string) :
  names ≡ₚ names' -> StableNAndSomeMore n names = StableNAndSomeMore n names'.
Proof.
  intros Hp. unfold StableNAndSomeMore. f_equal. apply (StronglySorted_unique String.le).
  - apply (StronglySorted_merge_sort String.le).
  - apply (StronglySorted_merge_sort String.le).
  - by rewrite !(merge_sort_Permutation String.le).
Qed.

Example FirstNAndSomeMore_three : FirstNAndSomeMore 3 ["a"; "b"; "c"] = "a, b, and c".
Proof. reflexivity. Qed.

Example FirstNAndSomeMore_more : FirstNAndSomeMore 3 ["a"; "b"; "c"; "d"; "e"] = "a, b, c, and 2 more".
Proof. reflexivity. Qed.

(** A single name is preceded by a comma. *)
Example FirstNAndSomeMore_one : FirstNAndSomeMore 1 ["a"] = ", and a".
Proof. reflexivity. Qed.
