(* ===== verification/PackageParser.v ===== *)
(** * Parsing and linting packages (pkg/parser)

    A package is a stream of YAML documents.  [FsReadCloser] makes such a stream
    of the files of a directory; [Parse] decodes its documents; linters check
    the result.  Decoders, the splitting of a stream into documents and the
    file system are parameters. *)

From S2P Require Import Prelude GoStrings GoErrors Watch.

(** ** Reading files (fsreader.go) *)

Record FsReadCloser := MkReader {
  paths : list string; index : nat; position : nat; writeBreak : bool; wroteBreak : bool
}.

(** The error of [Read]. *)
Inductive readError := EOF | ReadFailed (err : error).

Definition endBreak : bytes := s2b (String "010" ("..." +:+ String "010" "")).
Definition startBreak : bytes := s2b (String "010" ("---" +:+ String "010" "")).

Section reader.
Context (ReadFile : string -> bytes * option error) (isEOF : error -> bool).

(** [Read] with a buffer of [n] bytes: the new state, the bytes read and the
    error.  [None] is a slice out of bounds. *)
Definition Read (n : nat) (r : FsReadCloser) : option (FsReadCloser * bytes * option readError) :=
  if wroteBreak r then
    Some (MkReader (paths r) (S (index r)) 0 (writeBreak r) false, take n startBreak, None)
  else if decide (index r = length (paths r)) then Some (r, [], Some EOF)
  else if writeBreak r then
    Some (MkReader (paths r) (index r) (position r) false true, take n endBreak, None)
  else
    path ← paths r !! index r;
    let '(b, err) := ReadFile path in
    if length b <? position r then None
    else
      let read := take n (drop (position r) b) in
      let position := position r + length read in
      if match err with Some e => isEOF e | None => false end || (length read =? 0) then
        Some (MkReader (paths r) (index r) position true (wroteBreak r), read, None)
      else Some (MkReader (paths r) (index r) position (writeBreak r) (wroteBreak r), read, ReadFailed <$> err).

(** Reading until the end, the [i]th call with a buffer of [size i] bytes. *)
Fixpoint readAll (fuel : nat) (size : nat -> nat) (i : nat) (r : FsReadCloser) : option (bytes + error) :=
  match fuel with
  | 0 => None
  | S fuel' =>
      '(r, b, err) ← Read (size i) r;
      match err with
      | Some EOF => Some (inl b)
      | Some (ReadFailed e) => Some (inr e)
      | None => rest ← readAll fuel' size (S i) r;
                Some match rest with inl b' => inl (b ++ b') | inr e => inr e end
      end
  end.

Definition newReader (paths : list string) : FsReadCloser := MkReader paths 0 0 false false.

(** A file as it appears in the stream. *)
Definition framed (path : string) : bytes := (ReadFile path).1 ++ endBreak ++ startBreak.

Lemma take_break (n : nat) (b : bytes) : 5 <= n -> length b = 5 -> take n b = b.
Proof. intros. apply take_ge. lia. Qed.

Lemma readAll_step (fuel : nat) (size : nat -> nat) (i : nat) (r r' : FsReadCloser) (b rest : bytes) :
  Read (size i) r = Some (r', b, None) -> readAll fuel size (S i) r' = Some (inl rest) ->
  readAll (S fuel) size i r = Some (inl (b ++ rest)).
Proof. intros Hr Hrest. cbn [readAll]. rewrite Hr. cbn [mbind option_bind]. by rewrite Hrest. Qed.

Lemma readAll_more (fuel fuel' : nat) (size : nat -> nat) (i : nat) (r : FsReadCloser) x :
  fuel <= fuel' -> readAll fuel size i r = Some x -> readAll fuel' size i r = Some x.
Proof.
  revert fuel' i r x. induction fuel as [|fuel IH]; intros fuel' i r x Hf Hr; [done|].
  destruct fuel' as [|fuel']; [lia|]. cbn [readAll] in *. destruct (Read (size i) r) as [[[r' b] err]|]; [|done].
  cbn [mbind option_bind] in *. destruct err as [[|e]|]; [done..|].
  destruct (readAll fuel size (S i) r') as [y|] eqn:E; [|done]. rewrite (IH fuel' _ _ y); [done|lia|done].
Qed.

Lemma Read_end_break (n : nat) (ps : list string) (i p : nat) :
  i <> length ps -> Read n (MkReader ps i p true false) = Some (MkReader ps i p false true, take n endBreak, None).
Proof. intros Hi. unfold Read. cbn. by rewrite decide_False. Qed.

Lemma Read_content (n : nat) (ps : list string) (i p : nat) (path : string) (b : bytes) :
  ps !! i = Some path -> ReadFile path = (b, None) -> p <= length b ->
  Read n (MkReader ps i p false false) =
  Some (MkReader ps i (p + length (take n (drop p b))) (length (take n (drop p b)) =? 0) false, take n (drop p b), None).
Proof.
  intros Hi Hb Hp. unfold Read. cbn [wroteBreak index paths writeBreak position].
  rewrite decide_False by (apply lookup_lt_Some in Hi; lia). rewrite Hi. cbn [mbind option_bind]. rewrite Hb.
  rewrite (proj2 (Nat.ltb_ge _ _) Hp). cbn [orb]. by destruct (_ =? 0).
Qed.

(** The calls that read the rest of a file and its breaks. *)
Lemma readAll_file (size : nat -> nat) (ps : list string) (j : nat) (path : string) (b rest : bytes) (fuel : nat) :
  (forall i, 5 <= size i) -> ps !! j = Some path -> ReadFile path = (b, None) ->
  (forall i, readAll fuel size i (MkReader ps (S j) 0 false false) = Some (inl rest)) ->
  forall k p i, length b - p <= k -> p <= length b ->
    readAll (k + 3 + fuel) size i (MkReader ps j p false false) = Some (inl (drop p b ++ endBreak ++ startBreak ++ rest)).
Proof.
  intros Hs Hj Hb Hrest. assert (j <> length ps) as Hlen by (apply lookup_lt_Some in Hj; lia).
  induction k as [|k IH]; intros p i Hk Hp.
  - assert (p = length b) as -> by lia. rewrite drop_all. change (0 + 3 + fuel) with (S (S (S fuel))).
    apply (readAll_step _ _ _ _ (MkReader ps j (length b) true false) []).
    { rewrite (Read_content _ _ _ _ path b) by done. rewrite drop_all, take_nil. cbn. by rewrite Nat.add_0_r. }
    eapply readAll_step; [rewrite Read_end_break, take_break by done; done|].
    eapply readAll_step; [unfold Read; cbn; rewrite take_break by done; done|]. apply Hrest.
  - destruct (decide (p = length b)) as [->|Hne].
    { apply (readAll_more (k + 3 + fuel)); [lia|]. apply IH; lia. }
    pose proof (Hs i) as Hi. set (c := take (size i) (drop p b)).
    assert (0 < length c <= length b - p) as Hc by (unfold c; rewrite length_take, length_drop; lia).
    change (S k + 3 + fuel) with (S (k + 3 + fuel)).
    rewrite <- (take_drop (length c) (drop p b)), drop_drop. replace (take (length c) (drop p b)) with c.
    2:{ unfold c. rewrite length_take. destruct (decide (size i <= length (drop p b))); [by rewrite Nat.min_l|].
        rewrite Nat.min_r by lia. rewrite !take_ge by lia. done. }
    rewrite <- app_assoc. apply (readAll_step _ _ _ _ (MkReader ps j (p + length c) false false)).
    { rewrite (Read_content _ _ _ _ path b) by done. fold c. destruct (length c) eqn:E; [lia|done]. }
    apply IH; lia.
Qed.

(** Reading the files of a directory ends with all of them. *)
Lemma fs_reader_read (size : nat -> nat) (ps : list string) :
  (forall i, 5 <= size i) -> Forall (fun path => (ReadFile path).2 = None) ps ->
  exists fuel, readAll fuel size 0 (newReader ps) = Some (inl (mjoin (framed <$> ps))).
Proof.
  intros Hs Hps. enough (forall l2 l1, ps = l1 ++ l2 -> exists fuel, forall i,
    readAll fuel size i (MkReader ps (length l1) 0 false false) = Some (inl (mjoin (framed <$> l2)))) as H.
  { destruct (H ps [] eq_refl) as [fuel Hf]. exists fuel. apply Hf. }
  induction l2 as [|path l2 IH]; intros l1 Hl.
  - rewrite app_nil_r in Hl. subst. exists 1. intros i. cbn [readAll]. unfold Read. cbn. by rewrite decide_True.
  - destruct (IH (l1 ++ [path])) as [fuel Hf]; [by rewrite <- app_assoc|].
    assert (ps !! length l1 = Some path) as Hj by (subst; by apply list_lookup_middle).
    rewrite length_app, Nat.add_1_r in Hf.
    destruct (ReadFile path) as [b err] eqn:Hb. assert (err = None) as ->.
    { rewrite Forall_forall in Hps. specialize (Hps path). rewrite Hb in Hps. apply Hps. by eapply list_elem_of_lookup_2. }
    exists (length b + 3 + fuel). intros i. csimpl. unfold framed at 1. rewrite Hb, <- !app_assoc.
    apply (readAll_file size ps (length l1) path b _ fuel Hs Hj Hb Hf (length b) 0 i); lia.
Qed.

(** With buffers of at least five bytes, reading the files of a directory
    ends, and gives the content of every file, in order and complete, each
    followed by the marks that end a YAML document and start the next one. *)
Theorem fs_reader_complete (size : nat -> nat) (ps : list string) :
  (forall i, 5 <= size i) -> Forall (fun path => (ReadFile path).2 = None) ps ->
  exists fuel, readAll fuel size 0 (newReader ps) = Some (inl (mjoin (framed <$> ps))).
Proof. apply fs_reader_read. Qed.

(** With a smaller buffer the rest of a mark is lost. *)
Lemma fs_reader_short_buffer (r : FsReadCloser) (n : nat) :
  n < 5 -> wroteBreak r = false -> index r <> length (paths r) -> writeBreak r = true ->
  Read n r = Some (MkReader (paths r) (index r) (position r) false true, take n endBreak, None) /\ take n endBreak <> endBreak.
Proof.
  intros Hn Hw Hi Hb. destruct r as [ps i p wb wr]. simpl in *. subst. split; [by apply Read_end_break|].
  intros E. apply (f_equal length) in E. rewrite length_take in E. simpl in E. lia.
Qed.

(** A file that cannot be read is passed over as if it were empty. *)
Lemma fs_reader_unreadable (r : FsReadCloser) (n : nat) (path : string) (e : error) :
  wroteBreak r = false -> writeBreak r = false -> position r = 0 -> paths r !! index r = Some path ->
  ReadFile path = ([], Some e) ->
  Read n r = Some (MkReader (paths r) (index r) 0 true false, [], None).
Proof.
  intros Hw Hb Hp Hi He. destruct r as [ps i p wb wr]. simpl in *. subst. unfold Read.
  cbn [wroteBreak index paths writeBreak position]. rewrite decide_False by (apply lookup_lt_Some in Hi; lia).
  rewrite Hi. cbn [mbind option_bind]. rewrite He. cbn. rewrite take_nil. cbn. by rewrite orb_true_r.
Qed.

End reader.

Definition demoFiles (path : string) : bytes * option error :=
  (if decide (path = "a") then s2b "kind: A" else s2b "kind: B", None).

Lemma fs_reader_complete_witness :
  exists fuel, readAll demoFiles (fun _ => false) fuel (fun _ => 5) 0 (newReader ["a"; "b"]) =
    Some (inl (s2b "kind: A" ++ endBreak ++ startBreak ++ s2b "kind: B" ++ endBreak ++ startBreak)).
Proof.
  destruct (fs_reader_complete demoFiles (fun _ => false) (fun _ => 5) ["a"; "b"]) as [fuel H].
  - intros i. lia.
  - by repeat constructor.
  - exists fuel. exact H.
Defined.

(** ** Parsing (parser.go) *)

(** The white space characters of Unicode at the start of a string, in UTF-8:
    the number of bytes of the first one. *)
Definition spaceLength (b : bytes) : option nat :=
  match N_of_ascii <$> b with
  | c :: b' =>
      if ((9 <=? c) && (c <=? 13) || (c =? 32))%N then Some 1
      else
        match c, b' with
        | 194%N, d :: _ => if ((d =? 133) || (d =? 160))%N then Some 2 else None
        | 225%N, 154%N :: 128%N :: _ => Some 3
        | 226%N, 128%N :: d :: _ => if ((128 <=? d) && (d <=? 138) || (d =? 168) || (d =? 169) || (d =? 175))%N then Some 3 else None
        | 226%N, 129%N :: 159%N :: _ => Some 3
        | 227%N, 128%N :: 128%N :: _ => Some 3
        | _, _ => None
        end
  | [] => None
  end.

(** [strings.TrimLeftFunc(line, unicode.IsSpace)] *)
Fixpoint trimSpace (fuel : nat) (b : bytes) : bytes :=
  match fuel, spaceLength b with
  | S fuel', Some n => trimSpace fuel' (drop n b)
  | _, _ => b
  end.

(** [strings.Split(s, "\n")] *)
Fixpoint splitLines (b : bytes) : list bytes :=
  match b with
  | [] => [[]]
  | c :: b' =>
      if ascii_eqb c "010" then [] :: splitLines b'
      else match splitLines b' with l :: ls => (c :: l) :: ls | [] => [[c]] end
  end.

(** The condition on a line. *)
Definition emptyLine (line : bytes) : bool :=
  let trimmed := b2s (trimSpace (length line) line) in
  bool_decide (trimmed = "") || bool_decide (trimmed = "---") || bool_decide (trimmed = "...") ||
  bool_decide (String.get 0 trimmed = Some "#"%char).

Definition isEmptyYAML (y : bytes) : bool := forallb emptyLine (splitLines y).

Section parse.
Context {Obj : Type} (decodeMeta decodeObject : bytes -> Obj + error) (IsNotRegisteredError : error -> bool).
(** What an [AnnotatedReadCloser] says after so many documents; [None] for
    other readers. *)
Context (Annotate : nat -> option string).

Record Package := MkPackage { pkgMeta : list Obj; pkgObjects : list Obj }.

Definition NewPackage : Package := MkPackage [] [].

Definition annotateErr (err : error) (i : nat) : error :=
  match Annotate i with Some a => wrapError a err | None => err end.

(** The loop of [Parse] over the documents of the stream, which ends with an
    error other than EOF, or with EOF. *)
Fixpoint parseLoop (i : nat) (docs : list bytes) (end_ : option error) (pkg : Package) : Package * option error :=
  match docs with
  | [] => (pkg, end_)
  | content :: docs' =>
      if isEmptyYAML content then parseLoop (S i) docs' end_ pkg
      else
        match decodeMeta content with
        | inl m => parseLoop (S i) docs' end_ (MkPackage (pkgMeta pkg ++ [m]) (pkgObjects pkg))
        | inr err =>
            if negb (IsNotRegisteredError err) then (pkg, Some (annotateErr err i))
            else
              match decodeObject content with
              | inr err => (pkg, Some (annotateErr err i))
              | inl o => parseLoop (S i) docs' end_ (MkPackage (pkgMeta pkg) (pkgObjects pkg ++ [o]))
              end
        end
  end.

(** [PackageParser.Parse]; a nil reader has no documents. *)
Definition ParsePackage (docs : list bytes) (end_ : option error) : Package * option error :=
  parseLoop 0 docs end_ NewPackage.

(** How a document is decoded: as metadata, as an object, not at all. *)
Definition decoded (content : bytes) : option (Obj + Obj) + error :=
  if isEmptyYAML content then inl None
  else match decodeMeta content with
       | inl m => inl (Some (inl m))
       | inr err => if negb (IsNotRegisteredError err) then inr err
                    else match decodeObject content with inl o => inl (Some (inr o)) | inr err => inr err end
       end.

Definition succeeded (d : option (Obj + Obj) + error) : Prop := match d with inl _ => True | inr _ => False end.
Definition metaPart (d : option (Obj + Obj) + error) : option Obj := match d with inl (Some (inl m)) => Some m | _ => None end.
Definition objectPart (d : option (Obj + Obj) + error) : option Obj := match d with inl (Some (inr o)) => Some o | _ => None end.

Lemma parseLoop_decoded (i : nat) (docs : list bytes) (end_ : option error) (pkg : Package) :
  parseLoop i docs end_ pkg =
  match docs with
  | [] => (pkg, end_)
  | content :: docs' =>
      match decoded content with
      | inr err => (pkg, Some (annotateErr err i))
      | d => parseLoop (S i) docs' end_
               (MkPackage (pkgMeta pkg ++ option_list (metaPart d)) (pkgObjects pkg ++ option_list (objectPart d)))
      end
  end.
Proof.
  destruct docs as [|content docs]; [done|]. cbn [parseLoop]. unfold decoded. destruct (isEmptyYAML content).
  { simpl. rewrite !app_nil_r. by destruct pkg. }
  destruct (decodeMeta content) as [m|err]; [simpl; by rewrite app_nil_r|].
  destruct (negb _); [done|]. destruct (decodeObject content); [simpl; by rewrite app_nil_r|done].
Qed.

(** C39: a package is parsed without an error exactly when the stream ends
    normally and every document that is not empty is decoded by the scheme of
    metadata or, if it is not registered there, by the scheme of objects; the
    package then has exactly the decoded metadata and objects, each in the
    order of the stream. *)
Theorem parse_package_iff (docs : list bytes) (end_ : option error) (pkg : Package) :
  ParsePackage docs end_ = (pkg, None) <->
  end_ = None /\ Forall (fun d => succeeded (decoded d)) docs /\
  pkg = MkPackage (omap (fun d => metaPart (decoded d)) docs) (omap (fun d => objectPart (decoded d)) docs).
Proof.
  unfold ParsePackage. enough (forall i pkg0, parseLoop i docs end_ pkg0 = (pkg, None) <->
    end_ = None /\ Forall (fun d => succeeded (decoded d)) docs /\
    pkg = MkPackage (pkgMeta pkg0 ++ omap (fun d => metaPart (decoded d)) docs)
                    (pkgObjects pkg0 ++ omap (fun d => objectPart (decoded d)) docs)) as H by apply H.
  induction docs as [|d docs IH]; intros i pkg0; rewrite parseLoop_decoded.
  { simpl. rewrite !app_nil_r. destruct pkg0. rewrite Forall_nil. naive_solver. }
  rewrite Forall_cons. csimpl. destruct (decoded d) as [[[m|o]|]|err].
  1-3: rewrite IH; simpl; rewrite <- ?app_assoc, ?app_nil_r; simpl; naive_solver.
  split; [done|]. by intros (_ & [[] _] & _).
Qed.

End parse.

(** Documents that are their own objects, metadata if they start with an M. *)
Definition demoDecode (c : ascii) (b : bytes) : bytes + error :=
  if bool_decide (head b = Some c) then inl b else inr (errorString "not registered").

Lemma parse_package_iff_witness :
  ParsePackage (demoDecode "M") (demoDecode "O") (fun _ => true) (fun _ => None) [s2b "O1"; s2b " # c"; s2b "M2"] None =
    (MkPackage [s2b "M2"] [s2b "O1"], None).
Proof.
  apply (parse_package_iff (demoDecode "M") (demoDecode "O") (fun _ => true) (fun _ => None)).
  split; [reflexivity|]. split; [|vm_compute; reflexivity]. repeat constructor.
Defined.

(** ** Linting (linter.go) *)

Section lint.
Context {Obj : Type}.

Record PackageLinter := MkLinter {
  pre : list (@Package Obj -> option error); perMeta : list (Obj -> option error); perObject : list (Obj -> option error)
}.

(** [for _, fn := range fns { if err := fn(x); err != nil { return err } }] *)
Fixpoint firstError {A} (fns : list (A -> option error)) (x : A) : option error :=
  match fns with
  | [] => None
  | fn :: fns' => match fn x with Some err => Some err | None => firstError fns' x end
  end.

Fixpoint lintEach (fns : list (Obj -> option error)) (objs : list Obj) : option error :=
  match objs with
  | [] => None
  | o :: objs' => match firstError fns o with Some err => Some err | None => lintEach fns objs' end
  end.

Definition Lint (l : PackageLinter) (pkg : @Package Obj) : option error :=
  match firstError (pre l) pkg with
  | Some err => Some err
  | None => match lintEach (perMeta l) (pkgMeta pkg) with
            | Some err => Some err
            | None => lintEach (perObject l) (pkgObjects pkg)
            end
  end.

(** The loop of [Or]; [None] is a nil function. *)
Fixpoint orLoop (linters : list (option (Obj -> option error))) (errs : list string) (o : Obj) : option error :=
  match linters with
  | [] => New ("object did not pass any of the linters with following errors: " +:+ Watch.Join errs ", ")
  | None :: _ => New "linter function is nil"
  | Some l :: linters' => match l o with None => None | Some err => orLoop linters' (errs ++ [Error err]) o end
  end.

Definition Or (linters : list (option (Obj -> option error))) (o : Obj) : option error := orLoop linters [] o.

Lemma firstError_None {A} (fns : list (A -> option error)) (x : A) :
  firstError fns x = None <-> Forall (fun fn => fn x = None) fns.
Proof.
  induction fns as [|fn fns IH]; cbn [firstError]; [by rewrite Forall_nil|]. rewrite Forall_cons, <- IH.
  destruct (fn x); naive_solver.
Qed.

Lemma lintEach_None (fns : list (Obj -> option error)) (objs : list Obj) :
  lintEach fns objs = None <-> Forall (fun o => Forall (fun fn => fn o = None) fns) objs.
Proof.
  induction objs as [|o objs IH]; cbn [lintEach]; [by rewrite Forall_nil|]. rewrite Forall_cons, <- IH, <- firstError_None.
  destruct (firstError fns o); naive_solver.
Qed.

(** A package passes a linter exactly when it passes every function, and each
    of its objects passes every function for its part. *)
Lemma lint_iff (l : PackageLinter) (pkg : @Package Obj) :
  Lint l pkg = None <->
  Forall (fun fn => fn pkg = None) (pre l) /\
  Forall (fun o => Forall (fun fn => fn o = None) (perMeta l)) (pkgMeta pkg) /\
  Forall (fun o => Forall (fun fn => fn o = None) (perObject l)) (pkgObjects pkg).
Proof.
  unfold Lint. rewrite <- firstError_None, <- !lintEach_None.
  destruct (firstError (pre l) pkg); [naive_solver|]. destruct (lintEach (perMeta l) (pkgMeta pkg)); naive_solver.
Qed.

(** An alternative passes exactly when one of the functions passes and no nil
    function precedes it. *)
Lemma or_iff (linters : list (option (Obj -> option error))) (o : Obj) :
  Or linters o = None <->
  exists l1 l l2, linters = l1 ++ Some l :: l2 /\ l o = None /\ Forall (fun x => x <> None) l1.
Proof.
  unfold Or. generalize (@nil string) as errs. induction linters as [|[l|] linters IH]; intros errs; cbn [orLoop].
  - split; [done|]. by intros ([|??] & ? & ? & ? & _).
  - destruct (l o) as [err|] eqn:E.
    + rewrite IH. split.
      * intros (l1 & l' & l2 & -> & H1 & H2). exists (Some l :: l1), l', l2. split_and!; [done..|]. by constructor.
      * intros ([|x l1] & l' & l2 & H & H1 & H2); simplify_eq/=. apply Forall_cons in H2 as [_ H2]. by exists l1, l', l2.
    + split; [|done]. intros _. exists [], l, linters. by split_and!; [| |constructor].
  - split; [done|]. intros ([|x l1] & l' & l2 & H & H1 & H2); simplify_eq/=. by apply Forall_cons in H2 as [? _].
Qed.

End lint.
