(* ===== verification/PackageBackend.v ===== *)
(** * Where packages come from (pkg/parser: backends and file filters)

    Backends open the stream a package is parsed from; the one for a file system
    walks a directory with filters.  The walk, the files, pod logs and pattern
    matching are parameters. *)

From S2P Require Import Prelude GoStrings GoErrors PackageParser.

(** ** Filters (fsreader.go) *)

(** [os.FileInfo] *)
Record FileInfo := MkFileInfo { IsDir : bool; Size : Z }.

(** Whether the file is skipped, or an error that ends the walk. *)
Definition FilterFn : Type := string -> FileInfo -> bool * option error.

Definition SkipPath (Match : string -> string -> bool * option error) (pattern : string) : FilterFn :=
  fun path _ => Match pattern path.

Definition SkipDirs : FilterFn := fun _ info => if IsDir info then (true, None) else (false, None).

Definition SkipEmpty : FilterFn := fun _ info => (bool_decide (Size info = 0%Z), None).

(** [filepath.Ext]: from the last dot of the last element on. *)
Fixpoint extLoop (rev suffix : bytes) : bytes :=
  match rev with
  | [] => []
  | c :: rev' =>
      if ascii_eqb c "/" then []
      else if ascii_eqb c "." then c :: suffix
      else extLoop rev' (c :: suffix)
  end.

Definition Ext (path : string) : string := b2s (extLoop (reverse (s2b path)) []).

Definition SkipNotYAML : FilterFn := fun path _ =>
  if negb (bool_decide (Ext path = ".yaml")) && negb (bool_decide (Ext path = ".yml")) then (true, None) else (false, None).

(** The loop over the filters of one visit: [inl true] skips the file. *)
Fixpoint filterLoop (fns : list FilterFn) (path : string) (info : FileInfo) : bool + error :=
  match fns with
  | [] => inl false
  | fn :: fns' =>
      match fn path info with
      | (_, Some err) => inr err
      | (true, None) => inl true
      | (false, None) => filterLoop fns' path info
      end
  end.

(** [filepath.WalkFunc], over what it captures: called with a path, its
    information and an error, it returns an error. *)
Definition WalkFunc (S : Type) : Type := S -> string -> FileInfo -> option error -> S * option error.

(** The function that collects paths. *)
Definition collect (fns : list FilterFn) : WalkFunc (list string) := fun paths path info err =>
  match err with
  | Some _ => (paths, err)
  | None =>
      match filterLoop fns path info with
      | inr err => (paths, Some err)
      | inl true => (paths, None)
      | inl false => (paths ++ [path], None)
      end
  end.

(** A visit: a path with its information, or an error. *)
Definition visit : Type := string * FileInfo * option error.

Definition call {S} (fn : WalkFunc S) (s : S) (v : visit) : S * option error := fn s v.1.1 v.1.2 v.2.

(** [afero.Walk] calls the function it is given for every file and directory
    below the root, the root included, in an order of its own.  What it does
    with an error of the function, or with [filepath.SkipDir], is not used. *)
Class AferoWalk := {
  Walk {S : Type} : string -> WalkFunc S -> S -> S * option error;
  visits : string -> list visit;
  walk_visits {S : Type} (dir : string) (fn : WalkFunc S) (s : S) :
    (forall s v, v ∈ visits dir -> (call fn s v).2 = None) -> Walk dir fn s = (foldl (fun s v => (call fn s v).1) s (visits dir), None)
}.

(** [NewFsReadCloser]: the reader is returned with the error. *)
Definition NewFsReadCloser {W : AferoWalk} (dir : string) (fns : list FilterFn) : FsReadCloser * option error :=
  let '(paths, err) := Walk dir (collect fns) [] in (newReader paths, err).

(** [FsReadCloser.Annotate]: the path and the position. [None]: there are no
    paths, and indexing them panics. *)
Definition Annotate (r : FsReadCloser) : option (string * nat) :=
  let index := if decide (index r = length (paths r)) then
                 match index r with 0 => None | S i => Some i end
               else Some (index r) in
  i ← index; path ← paths r !! i; Some (path, position r).

(** ** Backends (parser.go) *)

Section backend.
Context {W : AferoWalk} {Client Stream : Type}.

(** The streams of pod logs, which may fail, and of a string. *)
Context (podLogs : Client -> string -> string -> Stream + error) (echoStream : string -> Stream).
Context (fsStream : FsReadCloser -> Stream).

Inductive Backend :=
| PodLogBackend (client : option Client) (name namespace : string)
| NopBackend
| FsBackend (dir : string) (skips : list FilterFn)
| EchoBackend (echo : string).

Definition BackendOption : Type := Backend -> Backend.

Definition PodName (name : string) : BackendOption := fun p =>
  match p with PodLogBackend c _ ns => PodLogBackend c name ns | p => p end.

Definition PodNamespace (namespace : string) : BackendOption := fun p =>
  match p with PodLogBackend c n _ => PodLogBackend c n namespace | p => p end.

Definition PodClient (client : Client) : BackendOption := fun p =>
  match p with PodLogBackend _ n ns => PodLogBackend (Some client) n ns | p => p end.

Definition FsDir (dir : string) : BackendOption := fun p =>
  match p with FsBackend _ skips => FsBackend dir skips | p => p end.

Definition FsFilters (skips : list FilterFn) : BackendOption := fun p =>
  match p with FsBackend dir _ => FsBackend dir skips | p => p end.

Definition applyBackend (bo : list BackendOption) (p : Backend) : Backend := foldl (fun p o => o p) p bo.

Definition NewPodLogBackend (bo : list BackendOption) : Backend := applyBackend bo (PodLogBackend None "" "").
Definition NewNopBackend (bo : list BackendOption) : Backend := NopBackend.
Definition NewFsBackend (bo : list BackendOption) : Backend := applyBackend bo (FsBackend "" []).
Definition NewEchoBackend (echo : string) : Backend := EchoBackend echo.

(** What Init returns: the stream, nil for no stream, and the error. [None]: a
    nil client is dereferenced, or an option gave a backend of another kind,
    which options cannot do ([options_keep_kind]). *)
Definition InitResult : Type := option (option Stream * option error).

Definition PodLogInit (p : Backend) (bo : list BackendOption) : InitResult :=
  match applyBackend bo p with
  | PodLogBackend (Some c) name namespace =>
      Some match podLogs c namespace name with inl s => (Some s, None) | inr err => (None, Some err) end
  | _ => None
  end.

Definition NopInit (bo : list BackendOption) : InitResult := Some (None, None).

Definition FsInit (p : Backend) (bo : list BackendOption) : InitResult :=
  match applyBackend bo p with
  | FsBackend dir skips => let '(r, err) := NewFsReadCloser dir skips in Some (Some (fsStream r), err)
  | _ => None
  end.

Definition EchoInit (p : Backend) (bo : list BackendOption) : InitResult :=
  match applyBackend bo p with
  | EchoBackend echo => Some (Some (echoStream echo), None)
  | _ => None
  end.

Definition Init (p : Backend) (bo : list BackendOption) : InitResult :=
  match p with
  | PodLogBackend _ _ _ => PodLogInit p bo
  | NopBackend => NopInit bo
  | FsBackend _ _ => FsInit p bo
  | EchoBackend _ => EchoInit p bo
  end.

(** Options do not make a backend one of another kind. *)
Definition sameKind (p q : Backend) : bool :=
  match p, q with
  | PodLogBackend _ _ _, PodLogBackend _ _ _ | NopBackend, NopBackend | FsBackend _ _, FsBackend _ _ => true
  | EchoBackend a, EchoBackend b => bool_decide (a = b)
  | _, _ => false
  end.

End backend.

(** ** Which files are read *)

(** No filter skips the file, and none fails before. *)
Definition keeps (fns : list FilterFn) (path : string) (info : FileInfo) : bool :=
  forallb (fun fn : FilterFn => negb (fn path info).1) fns.

Definition total (fns : list FilterFn) (v : visit) : Prop := v.2 = None /\ Forall (fun fn : FilterFn => (fn v.1.1 v.1.2).2 = None) fns.

Lemma filterLoop_spec (fns : list FilterFn) (path : string) (info : FileInfo) :
  Forall (fun fn : FilterFn => (fn path info).2 = None) fns -> filterLoop fns path info = inl (negb (keeps fns path info)).
Proof.
  unfold keeps. induction 1 as [|fn fns Hf _ IH]; [done|]. cbn [filterLoop forallb].
  destruct (fn path info) as [b err]. cbn in Hf. subst err. destruct b; [done|]. rewrite IH. done.
Qed.

Definition kept (fns : list FilterFn) (v : visit) : Prop := keeps fns v.1.1 v.1.2 = true.

#[global] Instance kept_dec (fns : list FilterFn) (v : visit) : Decision (kept fns v).
Proof. unfold kept. apply _. Defined.

Lemma collect_total (fns : list FilterFn) (v : visit) (ps : list string) :
  total fns v -> call (collect fns) ps v = (if decide (kept fns v) then ps ++ [v.1.1] else ps, None).
Proof.
  destruct v as [[path info] err]. intros [He Hf]. cbn in He, Hf. subst err. unfold call, collect. cbn [fst snd].
  rewrite filterLoop_spec by done. case_decide as Hk; unfold kept in Hk; cbn in Hk; [by rewrite Hk|]. by destruct (keeps fns path info).
Qed.

Lemma collect_visits (fns : list FilterFn) (vs : list visit) (ps : list string) :
  Forall (total fns) vs -> foldl (fun s v => (call (collect fns) s v).1) ps vs = ps ++ ((fun v : visit => v.1.1) <$> filter (kept fns) vs).
Proof.
  intros Hv. revert ps. induction Hv as [|v vs Hv _ IH]; intros ps; cbn [foldl]; [by rewrite app_nil_r|].
  rewrite IH, collect_total, filter_cons by done. cbn [fst]. case_decide; [|done]. by rewrite fmap_cons, <- app_assoc.
Qed.

Lemma walk_collects {W : AferoWalk} (dir : string) (fns : list FilterFn) :
  Forall (total fns) (visits dir) -> NewFsReadCloser dir fns = (newReader ((fun v : visit => v.1.1) <$> filter (kept fns) (visits dir)), None).
Proof.
  intros Ht. unfold NewFsReadCloser. rewrite walk_visits; [by rewrite collect_visits|].
  intros ps v Hv. rewrite Forall_forall in Ht. by rewrite collect_total by auto.
Qed.

(** C40: where walking the directory and the filters do not fail, the files that
    no filter skips can be read, and every read has room for at least the five
    bytes of a document mark, initializing a file system backend gives a
    stream, and reading it ends: it is exactly the content of the files that no
    filter skips, in the order they are visited, each framed by document
    marks. *)
Theorem fs_backend_stream {W : AferoWalk} {Client : Type} (ReadFile : string -> bytes * option error) (isEOF : error -> bool)
    (podLogs : Client -> string -> string -> FsReadCloser + error) (echoStream : string -> FsReadCloser)
    (dir : string) (fns : list FilterFn) (size : nat -> nat) :
  (forall i, 5 <= size i) -> Forall (total fns) (visits dir) ->
  (forall v, v ∈ visits dir -> kept fns v -> (ReadFile v.1.1).2 = None) ->
  exists r fuel, Init podLogs echoStream id (NewFsBackend [FsDir dir]) [FsFilters fns] = Some (Some r, None) /\
    readAll ReadFile isEOF fuel size 0 r = Some (inl (mjoin ((fun v : visit => framed ReadFile v.1.1) <$> filter (kept fns) (visits dir)))).
Proof.
  intros Hs Ht Hr. cbn. unfold FsInit. cbn. rewrite walk_collects by done. eexists.
  destruct (fs_reader_read ReadFile isEOF size ((fun v : visit => v.1.1) <$> filter (kept fns) (visits dir)) Hs) as [fuel H].
  - apply Forall_fmap, Forall_forall. intros v [Hk Hv]%list_elem_of_filter. by apply Hr.
  - exists fuel. split; [done|]. cbn beta. rewrite H, <- list_fmap_compose. done.
Qed.

(** A file that is no directory, is not empty and has the extension of YAML is
    what a package's files are. *)
Lemma yaml_files (path : string) (info : FileInfo) :
  keeps [SkipDirs; SkipEmpty; SkipNotYAML] path info = true <->
  IsDir info = false /\ Size info <> 0%Z /\ (Ext path = ".yaml" \/ Ext path = ".yml").
Proof.
  unfold keeps, SkipDirs, SkipEmpty, SkipNotYAML. cbn [forallb]. destruct (IsDir info); cbn; [naive_solver|].
  do 3 case_bool_decide; cbn; naive_solver.
Qed.

(** Options of other backends are ignored. *)
Lemma options_keep_kind {Client Stream : Type} (p : @Backend Client) (o : BackendOption) :
  (exists s, o = PodName s) \/ (exists s, o = PodNamespace s) \/ (exists c, o = PodClient c) \/ (exists d, o = FsDir d) \/ (exists f, o = FsFilters f) ->
  sameKind p (o p) = true.
Proof.
  intros H. destruct p; naive_solver (by case_bool_decide || done).
Qed.

(** ** A concrete directory *)

Definition demoVisits : list visit :=
  [("pkg", MkFileInfo true 0, None); ("pkg/a.yaml", MkFileInfo false 7, None); ("pkg/README.md", MkFileInfo false 9, None);
   ("pkg/b.yml", MkFileInfo false 7, None); ("pkg/empty.yaml", MkFileInfo false 0, None)].

(** A walk that stops at the first error. *)
Fixpoint walkList {S} (fn : WalkFunc S) (vs : list visit) (s : S) : S * option error :=
  match vs with
  | [] => (s, None)
  | v :: vs' => match call fn s v with (s', Some err) => (s', Some err) | (s', None) => walkList fn vs' s' end
  end.

Definition demoWalk : AferoWalk.
Proof.
  refine {| Walk S _ fn s := walkList fn demoVisits s; visits _ := demoVisits |}.
  intros S dir fn. generalize demoVisits as vs. induction vs as [|v vs IH]; intros s Hfn; [done|]. cbn [walkList foldl].
  pose proof (Hfn s v ltac:(left)) as Hv. destruct (call fn s v) as [s' err] eqn:E. cbn in Hv. subst err. cbn [fst].
  apply IH. intros s2 v2 Hv2. apply Hfn. by right.
Defined.

(** Reading the directory itself fails. *)
Definition demoRead (path : string) : bytes * option error :=
  if decide (path = "pkg") then ([], Some (errorString "read pkg: is a directory")) else demoFiles path.

Lemma fs_backend_stream_witness :
  exists r fuel,
    Init (W:=demoWalk) (fun (_ : unit) _ _ => inr (errorString "no pods")) (fun _ => MkReader [] 0 0 false false) id
      (NewFsBackend [FsDir "pkg"]) [FsFilters [SkipDirs; SkipEmpty; SkipNotYAML]] = Some (Some r, None) /\
    readAll demoRead (fun _ => false) fuel (fun _ => 5) 0 r =
      Some (inl (framed demoRead "pkg/a.yaml" ++ framed demoRead "pkg/b.yml")).
Proof.
  destruct (fs_backend_stream (W:=demoWalk) demoRead (fun _ => false) (fun (_ : unit) _ _ => inr (errorString "no pods"))
      (fun _ => MkReader [] 0 0 false false) "pkg" [SkipDirs; SkipEmpty; SkipNotYAML] (fun _ => 5))
    as (r & fuel & H1 & H2); [intros i; lia|by repeat constructor| |exists r, fuel; split; [exact H1|exact H2]].
  assert (Forall (fun v => kept [SkipDirs; SkipEmpty; SkipNotYAML] v -> (demoRead v.1.1).2 = None) demoVisits) as H.
  { repeat (apply Forall_cons; split; [by intros Hk|]). by apply Forall_nil. }
  rewrite Forall_forall in H. exact H.
Defined.
