(* ===== verification/UnstructuredClient.v ===== *)
(** * The client for wrapped unstructured objects (pkg/resource/unstructured/client.go)

    A client that passes the unstructured object inside a wrapper to another
    client, and every other object as it is.  Objects are passed by reference:
    the answer of a call holds the object as the call left it, and a wrapper
    whose content was changed is the same wrapper. *)

From S2P Require Import Prelude GoErrors Json Meta Prog.

Section client.
(** [U]: unstructured content; [O]: other objects; [L]: what List fills in
    other lists; keys, options and patches are passed on. *)
Context {U O UL L Key Opts Patch : Type}.

(** An object is a [Wrapper] or not, and a list a [ListWrapper] or not. *)
Inductive object := Wrapper (content : U) | Other (o : O).
Inductive objectList := ListWrapper (content : UL) | OtherList (l : L).

(** What the wrapped client is given. *)
Inductive kobject := KUnstructured (content : U) | KObject (o : O).
Inductive kobjectList := KUnstructuredList (content : UL) | KObjectList (l : L).

(** The methods of the wrapped client and of its status writer. *)
Inductive keff : Type -> Type :=
| KGet (key : Key) (obj : kobject) (opts : list Opts) : keff (kobject * option error)
| KList (list_ : kobjectList) (opts : list Opts) : keff (kobjectList * option error)
| KCreate (obj : kobject) (opts : list Opts) : keff (kobject * option error)
| KDelete (obj : kobject) (opts : list Opts) : keff (kobject * option error)
| KUpdate (obj : kobject) (opts : list Opts) : keff (kobject * option error)
| KPatch (obj : kobject) (patch : Patch) (opts : list Opts) : keff (kobject * option error)
| KDeleteAllOf (obj : kobject) (opts : list Opts) : keff (kobject * option error)
| KStatusCreate (obj : kobject) (subResource : object) (opts : list Opts) : keff (kobject * option error)
| KStatusUpdate (obj : kobject) (opts : list Opts) : keff (kobject * option error)
| KStatusPatch (obj : kobject) (patch : Patch) (opts : list Opts) : keff (kobject * option error)
| KGroupVersionKindFor (obj : kobject) : keff (GroupVersionKind + error)
| KIsObjectNamespaced (obj : kobject) : keff (bool + error).

(** [if u, ok := obj.(Wrapper); ok { f(u.GetUnstructured()) } else { f(obj) }],
    with the object the caller still holds. *)
Definition unwrap (obj : object) : kobject := match obj with Wrapper u => KUnstructured u | Other o => KObject o end.

Definition rewrap (obj : object) (k : kobject) : object :=
  match obj, k with
  | Wrapper _, KUnstructured u => Wrapper u
  | Other _, KObject o => Other o
  | obj, _ => obj
  end.

Definition viaObject (obj : object) (f : kobject -> keff (kobject * option error)) : prog keff (object * option error) :=
  '(k, err) ← trigger (f (unwrap obj));
  mret (rewrap obj k, err).

Definition WGet (key : Key) (obj : object) (opts : list Opts) := viaObject obj (fun o => KGet key o opts).
Definition WCreate (obj : object) (opts : list Opts) := viaObject obj (fun o => KCreate o opts).
Definition WDelete (obj : object) (opts : list Opts) := viaObject obj (fun o => KDelete o opts).
Definition WUpdate (obj : object) (opts : list Opts) := viaObject obj (fun o => KUpdate o opts).
Definition WPatch (obj : object) (patch : Patch) (opts : list Opts) := viaObject obj (fun o => KPatch o patch opts).
Definition WDeleteAllOf (obj : object) (opts : list Opts) := viaObject obj (fun o => KDeleteAllOf o opts).

(** The status writer; the subresource object is not unwrapped. *)
Definition WStatusCreate (obj subResource : object) (opts : list Opts) := viaObject obj (fun o => KStatusCreate o subResource opts).
Definition WStatusUpdate (obj : object) (opts : list Opts) := viaObject obj (fun o => KStatusUpdate o opts).
Definition WStatusPatch (obj : object) (patch : Patch) (opts : list Opts) := viaObject obj (fun o => KStatusPatch o patch opts).

Definition WGroupVersionKindFor (obj : object) : prog keff (GroupVersionKind + error) := trigger (KGroupVersionKindFor (unwrap obj)).
Definition WIsObjectNamespaced (obj : object) : prog keff (bool + error) := trigger (KIsObjectNamespaced (unwrap obj)).

Definition unwrapList (l : objectList) : kobjectList := match l with ListWrapper u => KUnstructuredList u | OtherList l => KObjectList l end.

Definition rewrapList (l : objectList) (k : kobjectList) : objectList :=
  match l, k with
  | ListWrapper _, KUnstructuredList u => ListWrapper u
  | OtherList _, KObjectList l => OtherList l
  | l, _ => l
  end.

Definition WList (l : objectList) (opts : list Opts) : prog keff (objectList * option error) :=
  '(k, err) ← trigger (KList (unwrapList l) opts);
  mret (rewrapList l k, err).

(** A wrapped client does not change the kind of the object it is given. *)
Definition same_kind (k k' : kobject) : Prop :=
  match k, k' with KUnstructured _, KUnstructured _ | KObject _, KObject _ => True | _, _ => False end.

(** Every method makes one call, on the content of a wrapper or on the object
    itself, and what that call leaves in its argument is what the caller finds
    in the wrapper or the object. *)
Lemma exec_viaObject (obj : object) (f : kobject -> keff (kobject * option error)) (tr : list (event keff)) res :
  exec (viaObject obj f) tr res <->
  exists k err, tr = [Ev (f (unwrap obj)) (k, err)] /\ res = Some (rewrap obj k, err).
Proof.
  unfold viaObject. cbn [mbind prog_bind bind_prog trigger exec mret prog_ret]. split.
  - intros ([k err] & tr' & -> & -> & ->). eauto.
  - intros (k & err & -> & ->). by exists (k, err), [].
Qed.

Lemma unwrap_rewrap (obj : object) (k : kobject) : same_kind (unwrap obj) k -> unwrap (rewrap obj k) = k.
Proof. by destruct obj, k. Qed.

(** The answer of a call on an object. *)
Definition answer (ev : event keff) : option (kobject * option error) :=
  match ev with
  | @Ev _ X e x =>
      match e in keff Y return Y -> option (kobject * option error) with
      | KList _ _ | KGroupVersionKindFor _ | KIsObjectNamespaced _ => fun _ => None
      | _ => Some
      end x
  end.

(** To the wrapped client, reading and then updating an object through the
    wrapper is reading and updating its unstructured content: the second call
    is made on exactly what the first one left, and what it leaves is what the
    caller holds in the end. *)
Theorem wrapper_read_update (key : Key) (obj obj' : object) (o1 o2 : list Opts) (k : kobject) err (tr : list (event keff)) res :
  same_kind (unwrap obj) k ->
  exec (WGet key obj o1) [Ev (KGet key (unwrap obj) o1) (k, err)] (Some (obj', err)) -> exec (WUpdate obj' o2) tr res ->
  exists k' err', tr = [Ev (KUpdate k o2) (k', err')] /\
    (same_kind k k' -> exists obj'', res = Some (obj'', err') /\ unwrap obj'' = k').
Proof.
  unfold WGet, WUpdate. rewrite !exec_viaObject. intros Hk (k0 & e & Hev & [= -> <-]) (k' & err' & -> & ->).
  pose proof (f_equal (fun l => head l ≫= answer) Hev) as Ha. cbn in Ha. injection Ha as <-.
  exists k', err'. rewrite unwrap_rewrap by done. split; [done|].
  intros H2. eexists. split; [done|]. apply unwrap_rewrap. by rewrite unwrap_rewrap.
Qed.

End client.

(** ** A concrete run *)

Definition demoKube (X : Type) (i : nat) (e : @keff string nat unit unit string unit unit X) : X :=
  match e in keff Y return Y with
  | KGet _ k _ => (match k with KUnstructured _ => KUnstructured "stored" | KObject o => KObject o end, None)
  | KList l _ => (l, None)
  | KCreate k _ | KDelete k _ | KUpdate k _ | KPatch k _ _ | KDeleteAllOf k _ | KStatusCreate k _ _ | KStatusUpdate k _ | KStatusPatch k _ _ => (k, None)
  | KGroupVersionKindFor _ => inr (errorString "unknown")
  | KIsObjectNamespaced _ => inl true
  end.

Lemma wrapper_read_update_witness :
  exists k' err', (run_with demoKube 0 (WUpdate (Wrapper "stored") [])).1 = [Ev (KUpdate (KUnstructured "stored") []) (k', err')].
Proof.
  destruct (wrapper_read_update "key" (Wrapper "") (Wrapper "stored") [] [] (KUnstructured "stored") None _ _ I
    (run_with_exec demoKube 0 (WGet "key" (Wrapper "") [])) (run_with_exec demoKube 0 (WUpdate (Wrapper "stored") [])))
    as (k' & err' & H & _). by exists k', err'.
Defined.
