(* ===== verification/Password.v ===== *)
(** * Passwords (pkg/password/password.go)

    The generator as a program that draws random numbers. *)

From S2P Require Import Prelude GoStrings GoErrors Prog.

Record Settings := MkSettings { CharacterSet : string; Length : Z }.

Definition DefaultSettings : Settings :=
  MkSettings "abcdefghijklmnopqrstuvwxyzABCDEFGHIJKLMNOPQRSTUVWXYZ0123456789" 27.

(** [rand.Int(rand.Reader, max)] *)
Inductive peff : Type -> Type :=
| PRand (max : nat) : peff (nat + error).

(** The loop that fills the password; [n] characters are missing. *)
Fixpoint fill (set : bytes) (n : nat) (pw : bytes) : prog peff (string * option error) :=
  match n with
  | 0 => mret (b2s pw, None)
  | S n' =>
      if decide (length set = 0) then Panic "crypto/rand: argument to Int is <= 0"
      else
        x ← trigger (PRand (length set));
        match x with
        | inr err => mret ("", Some err)
        | inl i =>
            match set !! i with
            | None => Panic "index out of range"
            | Some c => fill set n' (pw ++ [c])
            end
        end
  end.

(** [Settings.Generate] *)
Definition Generate (s : Settings) : prog peff (string * option error) :=
  if (Length s <? 0)%Z then Panic "makeslice: len out of range"
  else fill (s2b (CharacterSet s)) (Z.to_nat (Length s)) [].

Definition GenerateDefault : prog peff (string * option error) := Generate DefaultSettings.

(** What crypto/rand promises: a number below the maximum. *)
Definition in_range (ev : event peff) : Prop :=
  match ev with
  | @Ev _ X e x => match e in peff Y return Y -> Prop with PRand max => fun x => match x with inl i => i < max | inr _ => True end end x
  end.

(** The trace that draws the given numbers. *)
Definition draws (max : nat) (l : list nat) : list (event peff) := (fun i => Ev (PRand max) (inl i)) <$> l.

(** The settings make sense: [Generate] panics otherwise. *)
Definition valid (s : Settings) : Prop := (0 <= Length s)%Z /\ (CharacterSet s = "" -> Length s = 0%Z).

Lemma fill_exec (set : bytes) (n : nat) (pw : bytes) (tr : list (event peff)) res :
  (set = [] -> n = 0) -> Forall in_range tr -> exec (fill set n pw) tr res ->
  (exists l cs, tr = draws (length set) l /\ length l = n /\ mapM (set !!.) l = Some cs /\ res = Some (b2s (pw ++ cs), None)) \/
  (exists l err, tr = draws (length set) l ++ [Ev (PRand (length set)) (inr err)] /\ length l < n /\ res = Some ("", Some err)).
Proof.
  revert pw tr. induction n as [|n IH]; intros pw tr Hset Hr; cbn [fill].
  - intros [-> ->]. left. exists [], []. by rewrite app_nil_r.
  - destruct (decide (length set = 0)) as [H|Hne]; [apply nil_length_inv in H; by specialize (Hset H)|].
    cbn [mbind prog_bind bind_prog trigger exec]. intros (x & tr' & -> & He). apply Forall_cons in Hr as [Hx Hr]. cbn in Hx.
    destruct x as [i|err].
    + apply lookup_lt_is_Some in Hx as [c Hc]. rewrite Hc in He.
      destruct (IH (pw ++ [c]) tr') as [(l & cs & -> & Hl & Hcs & ->)|(l & err & -> & Hl & ->)]; [by destruct set|done..| |].
      * left. exists (i :: l), (c :: cs). split_and!; [done|simpl; lia| |by rewrite <- app_assoc].
        cbn [mapM]. rewrite Hc. cbn. by rewrite Hcs.
      * right. exists (i :: l), err. split_and!; [done|simpl; lia|done].
    + destruct He as [-> ->]. right. exists [], err. split_and!; [done|simpl; lia|done].
Qed.

Lemma mapM_lookup_elem {A} (set : list A) (l : list nat) (cs : list A) :
  mapM (set !!.) l = Some cs -> Forall (.∈ set) cs /\ length cs = length l.
Proof.
  intros H%mapM_Some. split; [|symmetry; by eapply Forall2_length].
  induction H as [|i c l cs Hc _ IH]; constructor; [by eapply list_elem_of_lookup_2|done].
Qed.

(** With a character set, generating a password of a length that is not
    negative never panics; it draws once per character, and gives exactly that
    many characters of the set, each the one that was drawn, or the error of
    the draw that failed and no password. *)
Theorem password_generated (s : Settings) (tr : list (event peff)) res :
  valid s -> Forall in_range tr -> exec (Generate s) tr res ->
  exists pw err, res = Some (pw, err) /\
    match err with
    | Some _ => pw = ""
    | None => Z.of_nat (length (s2b pw)) = Length s /\ Forall (.∈ s2b (CharacterSet s)) (s2b pw) /\
              Z.of_nat (length tr) = Length s
    end.
Proof.
  intros [Hl Hset] Hr. unfold Generate. rewrite (proj2 (Z.ltb_ge _ _) Hl). intros He.
  assert (s2b (CharacterSet s) = [] -> Z.to_nat (Length s) = 0) as Hset'.
  { intros H. rewrite Hset; [done|]. rewrite <- (b2s_s2b (CharacterSet s)). by rewrite H. }
  destruct (fill_exec _ _ _ _ _ Hset' Hr He)
    as [(l & cs & -> & Hn & Hcs & ->)|(l & err & -> & _ & ->)].
  - eexists _, _. split; [done|]. cbn [app]. apply mapM_lookup_elem in Hcs as [Hall Hlen].
    rewrite s2b_b2s. unfold draws. rewrite length_fmap. split_and!; [lia|done|lia].
  - by eexists _, _.
Qed.

Lemma fill_draws (set : bytes) (l : list nat) (pw cs : bytes) :
  mapM (set !!.) l = Some cs -> exec (fill set (length l) pw) (draws (length set) l) (Some (b2s (pw ++ cs), None)).
Proof.
  intros H%mapM_Some. revert pw. induction H as [|i c l cs Hc _ IH]; intros pw; cbn [fill length].
  - by rewrite app_nil_r.
  - rewrite decide_False by (apply lookup_lt_Some in Hc; lia). cbn [mbind prog_bind bind_prog trigger exec].
    exists (inl i), (draws (length set) l). split; [done|]. rewrite Hc. specialize (IH (pw ++ [c])). by rewrite <- app_assoc in IH.
Qed.

Lemma mapM_lookup_exists {A} (set cs : list A) : Forall (.∈ set) cs -> exists l, mapM (set !!.) l = Some cs.
Proof.
  induction 1 as [|c cs [i Hi]%list_elem_of_lookup_1 _ [l Hl]]; [by exists []|]. exists (i :: l). cbn. rewrite Hi. cbn. by rewrite Hl.
Qed.

Lemma mapM_lookup_inj {A} (set : list A) (l l' : list nat) (cs : list A) :
  NoDup set -> mapM (set !!.) l = Some cs -> mapM (set !!.) l' = Some cs -> l' = l.
Proof.
  intros Hn H%mapM_Some. revert l'. induction H as [|i c l cs Hc _ IH]; intros l' H'%mapM_Some; inversion H'; subst; [done|].
  f_equal; [by eapply NoDup_lookup|]. apply IH. by apply mapM_Some.
Qed.

Lemma draws_in_range (set : bytes) (l : list nat) (cs : bytes) : mapM (set !!.) l = Some cs -> Forall in_range (draws (length set) l).
Proof. intros H%mapM_Some. induction H as [|i c l cs Hc _ IH]; constructor; [by eapply lookup_lt_Some|done]. Qed.

Lemma draws_inj (max : nat) (l l' : list nat) : draws max l = draws max l' -> l = l'.
Proof.
  intros H. apply (f_equal (omap (fun ev : event peff => match ev with
    | @Ev _ X e x => match e in peff Y return Y -> option nat with PRand _ => fun x => match x with inl i => Some i | inr _ => None end end x end))) in H.
  unfold draws in H. assert (forall k : list nat, omap (fun ev : event peff => match ev with
    | @Ev _ X e x => match e in peff Y return Y -> option nat with PRand _ => fun x => match x with inl i => Some i | inr _ => None end end x end)
      ((fun i => Ev (PRand max) (inl i)) <$> k) = k) as Hk.
  { induction k as [|i k IH]; [done|]. csimpl. by rewrite IH. }
  by rewrite !Hk in H.
Qed.

(** Every password over the character set is drawn by some numbers, and by
    one sequence of them only if no character is repeated: with uniform draws
    all passwords are equally likely. *)
Theorem password_every (s : Settings) (pw : bytes) :
  Z.of_nat (length pw) = Length s -> Forall (.∈ s2b (CharacterSet s)) pw ->
  exists l, exec (Generate s) (draws (length (s2b (CharacterSet s))) l) (Some (b2s pw, None)) /\
    Forall in_range (draws (length (s2b (CharacterSet s))) l) /\
    (NoDup (s2b (CharacterSet s)) -> forall l',
       exec (Generate s) (draws (length (s2b (CharacterSet s))) l') (Some (b2s pw, None)) ->
       Forall in_range (draws (length (s2b (CharacterSet s))) l') -> l' = l).
Proof.
  intros Hlen Hpw. destruct (mapM_lookup_exists _ _ Hpw) as [l Hl]. exists l.
  assert (length l = Z.to_nat (Length s)) as Hll by (destruct (mapM_lookup_elem _ _ _ Hl); lia).
  unfold Generate. rewrite (proj2 (Z.ltb_ge (Length s) 0)) by lia. rewrite <- Hll. split_and!.
  - apply (fill_draws _ _ []). done.
  - by eapply draws_in_range.
  - intros Hn l' He Hr. assert (s2b (CharacterSet s) = [] -> length l = 0) as Hne by (intros H; rewrite H in Hl; by destruct l).
    destruct (fill_exec _ _ _ _ _ Hne Hr He) as [(l1 & cs & H1%draws_inj & _ & Hcs & [= Heq])|(? & ? & _ & _ & ?)]; [|done].
    subst l1. apply (f_equal s2b) in Heq. rewrite !s2b_b2s in Heq. subst cs. by eapply mapM_lookup_inj.
Qed.

(** ** Concrete runs *)

Definition demoRand (X : Type) (i : nat) (e : peff X) : X := match e in peff Y return Y with PRand max => inl (i * 7 mod max) end.

Lemma password_generated_witness :
  exists pw, (run_with demoRand 0 GenerateDefault).2 = Some (pw, None) /\ Z.of_nat (length (s2b pw)) = 27%Z.
Proof.
  assert (valid DefaultSettings) as Hv by (split; [vm_compute; discriminate|vm_compute; discriminate]).
  assert (Forall in_range (run_with demoRand 0 GenerateDefault).1) as Hr by (vm_compute; repeat constructor).
  destruct (password_generated DefaultSettings _ _ Hv Hr (run_with_exec demoRand 0 GenerateDefault)) as (pw & err & H1 & H2).
  exists pw. assert (err = None) as -> by (vm_compute in H1; congruence). split; [exact H1|apply H2].
Defined.

Lemma password_every_witness :
  exists l, exec (Generate (MkSettings "ab" 3)) (draws 2 l) (Some ("bab", None)).
Proof.
  destruct (password_every (MkSettings "ab" 3) (s2b "bab")) as (l & H & _);
    [reflexivity|apply (bool_decide_eq_true_1 (Forall _ _)); vm_compute; reflexivity|]. exists l. exact H.
Defined.
