(* ===== verification/Certificates.v ===== *)
(** * Mutual TLS (pkg/certificates/certificates.go)

    Loading a key pair and a certificate authority into a TLS configuration.
    The file system, key pairs and PEM parsing are parameters; [filepath.Clean]
    is modelled. *)

From S2P Require Import Prelude GoStrings GoErrors Prog.

(** ** filepath.Clean *)

(** The elements between separators. *)
Fixpoint splitPath (b : bytes) : list bytes :=
  match b with
  | [] => [[]]
  | c :: b' =>
      if ascii_eqb c "/" then [] :: splitPath b'
      else match splitPath b' with e :: es => (c :: e) :: es | [] => [[c]] end
  end.

(** One element after the elements kept so far, last first. *)
Definition cleanStep (rooted : bool) (kept : list bytes) (e : bytes) : list bytes :=
  if bool_decide (e = [] \/ e = s2b ".") then kept
  else if bool_decide (e = s2b "..") then
    match kept with
    | [] => if rooted then [] else [e]
    | k :: kept' => if bool_decide (k = s2b "..") then e :: kept else kept'
    end
  else e :: kept.

Fixpoint joinPath (es : list bytes) : bytes :=
  match es with
  | [] => []
  | [e] => e
  | e :: es' => e ++ s2b "/" ++ joinPath es'
  end.

Definition Clean (path : string) : string :=
  let b := s2b path in
  let rooted := bool_decide (head b = Some "/"%char) in
  let es := reverse (foldl (cleanStep rooted) [] (splitPath b)) in
  let out := (if rooted then s2b "/" else []) ++ joinPath es in
  if decide (out = []) then "." else b2s out.

Example clean1 : Clean "/etc//tls/./x/../ca.crt" = "/etc/tls/ca.crt".
Proof. vm_compute. reflexivity. Qed.
Example clean2 : Clean "../../a/.." = "../..".
Proof. vm_compute. reflexivity. Qed.
Example clean3 : Clean "/.." = "/" /\ Clean "" = "." /\ Clean "a/" = "a".
Proof. vm_compute. done. Qed.

(** ** The configuration *)

Section mtls.
Context {Certificate CertPool : Type}.

(** [tls.LoadX509KeyPair], [os.ReadFile]; [AppendCertsFromPEM] on a new pool
    gives nothing when no certificate is found. *)
Context (LoadX509KeyPair : string -> string -> Certificate + error) (ReadFile : string -> bytes + error)
  (AppendCertsFromPEM : bytes -> option CertPool).

Inductive ClientAuthType := NoClientCert | RequestClientCert | RequireAnyClientCert | VerifyClientCertIfGiven | RequireAndVerifyClientCert.

Definition VersionTLS12 : N := 0x0303.

Record Config := MkConfig {
  MinVersion : N;
  Certificates : list Certificate;
  ClientCAs : option CertPool;
  ClientAuth : ClientAuthType;
  RootCAs : option CertPool
}.

Definition LoadMTLSConfig (caPath certPath keyPath : string) (isServer : bool) : Config + error :=
  let tlsCertFilePath := Clean certPath in
  let tlsKeyFilePath := Clean keyPath in
  match LoadX509KeyPair tlsCertFilePath tlsKeyFilePath with
  | inr err => inr (wrapError "cannot load certificate" err)
  | inl certificate =>
      let caCertFilePath := Clean caPath in
      match ReadFile caCertFilePath with
      | inr err => inr (wrapError "cannot load CA certificate" err)
      | inl ca =>
          match AppendCertsFromPEM ca with
          | None => inr (errorString "invalid CA certificate")
          | Some pool =>
              inl (if isServer then MkConfig VersionTLS12 [certificate] (Some pool) RequireAndVerifyClientCert None
                   else MkConfig VersionTLS12 [certificate] None NoClientCert (Some pool))
          end
      end
  end.

(** Who is authenticated by a configuration, against which pool: a server
    checks its clients when it requires and verifies their certificates, and a
    client checks the server against its roots, or the system's. *)
Definition authenticatesPeer (isServer : bool) (c : Config) (pool : CertPool) : Prop :=
  if isServer then ClientAuth c = RequireAndVerifyClientCert /\ ClientCAs c = Some pool else RootCAs c = Some pool.

(** A configuration is loaded exactly when the key pair and the authority
    can be loaded, and then either side presents the certificate, refuses
    versions of TLS before 1.2, and authenticates its peer against exactly the
    authority of the file; never against none. *)
Theorem mtls_authenticates (caPath certPath keyPath : string) (isServer : bool) (c : Config) :
  LoadMTLSConfig caPath certPath keyPath isServer = inl c <->
  exists cert ca pool, LoadX509KeyPair (Clean certPath) (Clean keyPath) = inl cert /\ ReadFile (Clean caPath) = inl ca /\
    AppendCertsFromPEM ca = Some pool /\ authenticatesPeer isServer c pool /\
    Certificates c = [cert] /\ MinVersion c = VersionTLS12 /\
    (if isServer then RootCAs c = None else ClientCAs c = None /\ ClientAuth c = NoClientCert).
Proof.
  unfold LoadMTLSConfig, authenticatesPeer. destruct c as [v cs cca auth root]. simpl.
  destruct (LoadX509KeyPair _ _) as [cert|e]; [|naive_solver]. destruct (ReadFile _) as [ca|e]; [|naive_solver].
  destruct (AppendCertsFromPEM ca) as [pool|] eqn:Hp; [|naive_solver]. destruct isServer; naive_solver.
Qed.

End mtls.
