(* ===== verification/Webhook.v ===== *)
(** * Webhooks (pkg/webhook)

    Validators and mutators run chains of functions.  A function of a chain is
    an effect, so that theorems can speak of which functions are called; a
    mutating function may change the object it is given. *)

From S2P Require Import Prelude GoErrors Prog.

(** The functions of a chain, by their position in it. *)
Inductive veff (I : Type) : Type -> Type :=
| VCall (i : nat) (input : I) : veff I (list string * option error).
Arguments VCall {I} _ _.

Inductive ueff (O : Type) : Type -> Type :=
| UCall (i : nat) (obj : O) : ueff O (O * option error).
Arguments UCall {O} _ _.

(** The loop of [ValidateCreate], [ValidateUpdate] and [ValidateDelete] over the
    functions from the [i]th on. *)
Fixpoint validateLoop {I} (chain : nat) (i : nat) (input : I) (warnings : list string) : prog (veff I) (list string * option error) :=
  match chain with
  | 0 => mret (warnings, None)
  | S chain' =>
      '(warns, err) ← trigger (VCall i input);
      match err with
      | Some e => mret (warnings ++ warns, Some e)
      | None => validateLoop chain' (S i) input (warnings ++ warns)
      end
  end.

(** A validator, by the lengths of its chains. *)
Record Validator := MkValidator { CreationChain : nat; UpdateChain : nat; DeletionChain : nat }.

(** Functions are known by their positions, so an option that sets a chain to
    some functions sets its length. *)
Definition ValidatorOption : Type := Validator -> Validator.

Definition WithValidateCreationFns (fns : nat) : ValidatorOption := fun v => MkValidator fns (UpdateChain v) (DeletionChain v).
Definition WithValidateUpdateFns (fns : nat) : ValidatorOption := fun v => MkValidator (CreationChain v) fns (DeletionChain v).
Definition WithValidateDeletionFns (fns : nat) : ValidatorOption := fun v => MkValidator (CreationChain v) (UpdateChain v) fns.

Definition NewValidator (opts : list ValidatorOption) : Validator := foldl (fun vc f => f vc) (MkValidator 0 0 0) opts.

Definition ValidateCreate {O} (vc : Validator) (obj : O) : prog (veff O) (list string * option error) :=
  validateLoop (CreationChain vc) 0 obj [].

Definition ValidateUpdate {O} (vc : Validator) (oldObj newObj : O) : prog (veff (O * O)) (list string * option error) :=
  validateLoop (UpdateChain vc) 0 (oldObj, newObj) [].

Definition ValidateDelete {O} (vc : Validator) (obj : O) : prog (veff O) (list string * option error) :=
  validateLoop (DeletionChain vc) 0 obj [].

(** The loop of [Mutator.Default]. *)
Fixpoint mutateLoop {O} (chain : nat) (i : nat) (obj : O) : prog (ueff O) (O * option error) :=
  match chain with
  | 0 => mret (obj, None)
  | S chain' =>
      '(obj, err) ← trigger (UCall i obj);
      match err with
      | Some e => mret (obj, Some e)
      | None => mutateLoop chain' (S i) obj
      end
  end.

Record Mutator := MkMutator { MutationChain : nat }.

Definition MutatorOption : Type := Mutator -> Mutator.

Definition WithMutationFns (fns : nat) : MutatorOption := fun _ => MkMutator fns.

Definition NewMutator (opts : list MutatorOption) : Mutator := foldl (fun m f => f m) (MkMutator 0) opts.

Definition Default {O} (m : Mutator) (obj : O) : prog (ueff O) (O * option error) := mutateLoop (MutationChain m) 0 obj.

(** The calls of functions [i], [i+1], ... with their answers. *)
Definition calls {I} (i : nat) (input : I) (answers : list (list string * option error)) : list (event (veff I)) :=
  imap (fun k x => Ev (VCall (i + k) input) x) answers.

(** A validator calls the functions of its chain in order, up to the first one
    that returns an error, which is the error returned; the warnings are those
    of the functions called, in order. *)
Lemma validate_chain {I} (chain i : nat) (input : I) (warnings : list string) (tr : list (event (veff I))) res :
  exec (validateLoop chain i input warnings) tr res ->
  exists answers, tr = calls i input answers /\ length answers <= chain /\
    let ws := warnings ++ mjoin (fst <$> answers) in
    (res = Some (ws, None) /\ length answers = chain /\ Forall (fun a => a.2 = None) answers) \/
    (exists e before last, answers = before ++ [last] /\ res = Some (ws, Some e) /\ last.2 = Some e /\
       Forall (fun a => a.2 = None) before).
Proof.
  revert i warnings tr. induction chain as [|chain IH]; intros i warnings tr; cbn [validateLoop].
  { intros [-> ->]. exists []. simpl. rewrite app_nil_r. split_and!; [done..|]. by left. }
  cbn [mbind prog_bind bind_prog trigger exec]. intros ([warns err] & tr' & -> & He). destruct err as [e|].
  - destruct He as [-> ->]. exists [(warns, Some e)]. unfold calls. simpl. rewrite Nat.add_0_r, app_nil_r.
    split_and!; [done|lia|]. right. exists e, [], (warns, Some e). by split_and!.
  - destruct (IH _ _ _ He) as (answers & -> & Hl & H). exists ((warns, None) :: answers).
    unfold calls. rewrite imap_cons, Nat.add_0_r. split_and!.
    + f_equal. apply imap_ext. intros k x _. simpl. by rewrite Nat.add_succ_r.
    + simpl. lia.
    + csimpl. rewrite app_assoc. destruct H as [(-> & <- & Hf)|(e & before & last & -> & -> & Hl2 & Hf)].
      * left. split_and!; [done..|]. by constructor.
      * right. exists e, ((warns, None) :: before), last. split_and!; [done..|]. by constructor.
Qed.

(** The calls of mutating functions: each gets what the one before it left. *)
Fixpoint mutations {O} (i : nat) (obj : O) (answers : list (O * option error)) : list (event (ueff O)) :=
  match answers with
  | [] => []
  | a :: answers' => Ev (UCall i obj) a :: mutations (S i) a.1 answers'
  end.

(** A mutator gives each function what the one before it left, stops at the
    first error, and leaves the object as the last function called left it. *)
Lemma mutate_chain {O} (chain i : nat) (obj : O) (tr : list (event (ueff O))) res :
  exec (mutateLoop chain i obj) tr res ->
  exists answers, tr = mutations i obj answers /\ res = Some (default (obj, None) (last answers)) /\
    ((length answers = chain /\ Forall (fun a => a.2 = None) answers) \/
     (exists before a, answers = before ++ [a] /\ a.2 <> None /\ Forall (fun a => a.2 = None) before)).
Proof.
  revert i obj tr. induction chain as [|chain IH]; intros i obj tr; cbn [mutateLoop].
  { intros [-> ->]. exists []. split_and!; [done..|]. by left. }
  cbn [mbind prog_bind bind_prog trigger exec]. intros ([o1 err] & tr' & -> & He). destruct err as [e|].
  - destruct He as [-> ->]. exists [(o1, Some e)]. split_and!; [done..|]. right. by exists [], (o1, Some e).
  - destruct (IH _ _ _ He) as (answers & -> & -> & H). exists ((o1, None) :: answers). split_and!; [done|rewrite last_cons; by destruct (last answers)|].
    destruct H as [[<- Hf]|(before & a & -> & Ha & Hf)].
    + left. split; [done|]. by constructor.
    + right. exists ((o1, None) :: before), a. split_and!; [done..|]. by constructor.
Qed.

(** A validator that is given no functions allows everything, whatever it is
    asked; the last option that sets a chain decides. *)
Lemma new_validator_allows {O} (obj : O) (tr : list (event (veff O))) res :
  exec (ValidateCreate (NewValidator []) obj) tr res -> tr = [] /\ res = Some ([], None).
Proof. done. Qed.

Lemma last_option_decides (opts : list ValidatorOption) (n : nat) :
  CreationChain (NewValidator (opts ++ [WithValidateCreationFns n])) = n /\
  UpdateChain (NewValidator (opts ++ [WithValidateCreationFns n])) = UpdateChain (NewValidator opts).
Proof. unfold NewValidator. by rewrite foldl_app. Qed.
