(* ===== verification/Unstructured.v ===== *)
(** * Accessors of unstructured resources (pkg/resource/unstructured)

    Composite, claim and composed resources are JSON objects whose fields are
    read and written at fixed paths.  This file has what their accessors
    share; the object of a resource made by [New] is never a nil map.  What a
    Go type's encoding is belongs to encoding/json. *)

From S2P Require Import Prelude GoErrors FieldPath Json Paved Conditions.

Abbreviation Content := (gmap string any).

(** A nil pointer is encoded as [null], and another one as what it points to. *)
#[global] Instance JsonPointer {T} {JT : Json T} : Json (option T) := {|
  Marshal v := match v with None => inl "null" | Some x => Marshal x end;
  Unmarshal b := if bool_decide (b = "null") then inl None
                 else match Unmarshal b with inl x => inl (Some x) | inr err => inr err end
|}.

(** What the variable a value is decoded into holds at first, and what it holds
    when decoding failed, for code that ignores the error. *)
Class Decoded (T : Type) := { zero : T; partially : any -> T }.

(** [ConditionedStatus] as it is decoded from a status. *)
Record StatusConditions := MkStatusConditions { Conditions : list Condition }.

(** [ObservedStatus] *)
Record ObservedStatus := MkObservedStatus { StatusObservedGeneration : Z }.

Section access.
Context {JA : Json any}.

(** [out := &T{}; if err := fieldpath.Pave(c.Object).GetValueInto(path, out); err != nil { return nil }; return out] *)
Definition getAt {T} {JT : Json T} (o : Content) (path : string) : option T :=
  match GetValueInto (Pave (Some o) []) path with inl out => Some out | inr _ => None end.

(** [out := T{}; _ = fieldpath.Pave(c.Object).GetValueInto(path, &out)] *)
Definition getIgnoring {T} {JT : Json T} {D : Decoded T} (o : Content) (path : string) : T :=
  match GetValueInto (Pave (Some o) []) path with
  | inl out => out
  | inr _ => match GetValue (Pave (Some o) []) path with inl v => partially v | inr _ => zero end
  end.

(** [p, err := fieldpath.Pave(c.Object).GetString(path); if err != nil { return nil }; return &p] *)
Definition getStringAt (o : Content) (path : string) : option string :=
  match GetString (Pave (Some o) []) path with inl s => Some s | inr _ => None end.

(** [_ = fieldpath.Pave(c.Object).SetValue(path, v)]; the object is changed in place. *)
Definition setAt {T} {JT : Json T} (o : Content) (path : string) (v : T) : Content :=
  UnstructuredContent (SetValue (Pave (Some o) []) path v).1.

(** ** Conditions and generations, which the resources treat alike *)

Context {JS : Json StatusConditions} {DS : Decoded StatusConditions} {JC : Json (list Condition)}
        {JO : Json ObservedStatus} {DO : Decoded ObservedStatus} {JZ : Json Z}.

Definition getConditionAt (o : Content) (ct : string) : Condition :=
  match getAt (T:=StatusConditions) o "status" with
  | None => MkCondition "" "" 0 "" "" 0
  | Some conditioned => GetCondition ct (Conditions conditioned)
  end.

Definition setConditionsAt (o : Content) (conditions : list Condition) : Content :=
  let conditioned := getIgnoring (T:=StatusConditions) o "status" in
  setAt o "status.conditions" (SetConditions conditions (Conditions conditioned)).

Definition getConditionsAt (o : Content) : list Condition := Conditions (getIgnoring (T:=StatusConditions) o "status").

(** The status that is decoded is overwritten before it is used. *)
Definition setObservedGenerationAt (o : Content) (generation : Z) : Content :=
  setAt o "status.observedGeneration" generation.

Definition getObservedGenerationAt (o : Content) : Z :=
  StatusObservedGeneration (getIgnoring (T:=ObservedStatus) o "status").

(** ** Reading what was written *)

(** The fields on the way of a path are missing or objects. *)
Fixpoint open_at (m : Content) (fs : list string) : Prop :=
  match fs with
  | f :: ((_ :: _) as fs') =>
      match m !! f with None => True | Some (AObject m') => open_at m' fs' | Some _ => False end
  | _ => True
  end.

Lemma setLoop_fields (seen : Segments) (m : Content) (f : string) (fs : list string) (v : any) :
  open_at m (f :: fs) -> exists m', setLoop seen (AObject m) (SegmentField <$> f :: fs) v = (AObject m', Done).
Proof.
  revert seen m f. induction fs as [|g fs IH]; intros seen m f Ho; [by eexists|].
  rewrite !fmap_cons, setLoop_field.
  assert (exists m1, preparedField m f (SegmentField g) = AObject m1 /\ open_at m1 (g :: fs)) as (m1 & -> & H1).
  { unfold preparedField. cbn [open_at] in Ho. destruct (m !! f) as [[]|]; try done; [by eexists|].
    exists ∅. split; [done|]. by destruct fs. }
  destruct (IH (seen ++ [SegmentField f]) m1 g H1) as [m' Hm]. rewrite fmap_cons in Hm. rewrite Hm. by eexists.
Qed.

(** Along fields, setting a value changes what is read at diverging paths in
    no way. *)
Lemma setLoop_fields_frame (seen : Segments) (m m' : Content) (f : string) (fs : list string) (v : any) (q : Segments) o :
  setLoop seen (AObject m) (SegmentField <$> f :: fs) v = (AObject m', o) ->
  diverge (SegmentField <$> f :: fs) q = true -> lookup_path (AObject m') q = lookup_path (AObject m) q.
Proof.
  revert seen m m' f q o. induction fs as [|g fs IH]; intros seen m m' f q o Hs Hd; destruct q as [|[h|i] q]; try done.
  - simpl in Hs. simplify_eq. simpl in Hd |- *. case_decide; [done|]. by rewrite lookup_insert_ne by congruence.
  - rewrite !fmap_cons, setLoop_field in Hs. destruct (setLoop _ _ _ _) as [c o'] eqn:E. simplify_eq.
    cbn [lookup_path child]. rewrite fmap_cons in Hd. cbn [diverge] in Hd. case_decide as Hf.
    + injection Hf as <-. rewrite lookup_insert_eq. unfold preparedField in E.
      assert (forall m1, setLoop (seen ++ [SegmentField f]) (AObject m1) (SegmentField g :: (SegmentField <$> fs)) v = (c, o) ->
        lookup_path c q = lookup_path (AObject m1) q) as Hc.
      { clear E. intros m1 E1. assert (exists m2, c = AObject m2) as [m2 ->].
        { destruct fs as [|k fs]; [simpl in E1; simplify_eq; by eexists|].
          rewrite fmap_cons, setLoop_field in E1. destruct (setLoop _ _ _ _). simplify_eq. by eexists. }
        eapply (IH (seen ++ [SegmentField f])); [exact E1|exact Hd]. }
      destruct (m !! f) as [e|].
      * destruct e; [cbn [extendFor setLoop] in E; by simplify_eq..|]. by apply Hc.
      * rewrite (Hc ∅ E). destruct q as [|[k|j] q]; [done|..]; done.
    + by rewrite lookup_insert_ne by congruence.
Qed.

(** A path of fields. *)
Definition fields (path : string) (fs : list string) : Prop := Parse path = inl (SegmentField <$> fs) /\ fs <> [].

Lemma checkIndices_fields (max : N) (fs : list string) : checkIndices max (SegmentField <$> fs) = None.
Proof. by induction fs. Qed.

Lemma setAt_spec {T} {JT : Json T} (o : Content) (path : string) (fs : list string) (x : T) (j : any) :
  fields path fs -> open_at o fs -> toValidJSON x = inl j ->
  exists seen, setLoop seen (AObject o) (SegmentField <$> fs) j = (AObject (setAt o path x), Done).
Proof.
  intros [Hp Hn] Ho Hj. destruct fs as [|f fs]; [done|]. destruct (setLoop_fields [] o f fs j Ho) as [m' Hm].
  exists []. unfold setAt, SetValue, setValue, setRoot. rewrite Hp, Hj.
  assert (validateSegments (Pave (Some o) []) (SegmentField <$> f :: fs) = None) as ->.
  { unfold validateSegments. by rewrite checkIndices_fields, Tauto.if_same. }
  cbn [Paved.object Pave foldl]. by rewrite Hm.
Qed.

Lemma GetValue_lookup (o : Content) (path : string) (fs : list string) (v : any) :
  fields path fs -> GetValue (Pave (Some o) []) path = inl v <-> lookup_path (AObject o) (SegmentField <$> fs) = Some v.
Proof.
  intros [Hp Hn]. unfold GetValue. rewrite Hp. rewrite getValue_lookup; [done|]. by destruct fs.
Qed.

(** What was set is read back. *)
Lemma setAt_get {T} {JT : Json T} (o : Content) (path : string) (fs : list string) (x : T) (j : any) :
  fields path fs -> open_at o fs -> toValidJSON x = inl j ->
  GetValue (Pave (Some (setAt o path x)) []) path = inl j.
Proof.
  intros Hp Ho Hj. rewrite GetValue_lookup by done. destruct (setAt_spec o path fs x j Hp Ho Hj) as [seen Hs].
  eapply setLoop_get; [|exact Hs]. destruct Hp as [_ Hn]. by destruct fs.
Qed.

(** Paths that are not below the one that is set stay open. *)
Lemma setLoop_open (seen : Segments) (m m' : Content) (f : string) (fs gs : list string) (v : any) o :
  setLoop seen (AObject m) (SegmentField <$> f :: fs) v = (AObject m', o) ->
  open_at m (f :: fs) -> open_at m gs -> ~ (f :: fs) `prefix_of` gs -> open_at m' gs.
Proof.
  revert seen m m' f gs o. induction fs as [|g fs IH]; intros seen m m' f gs o Hs Hf Hg Hp; (destruct gs as [|h [|h2 gs]]; [done..|]).
  - simpl in Hs. simplify_eq. cbn [open_at] in Hg |- *. destruct (decide (h = f)) as [->|Hne]; [|by rewrite lookup_insert_ne].
    destruct Hp. by exists (h2 :: gs).
  - rewrite !fmap_cons, setLoop_field in Hs. destruct (setLoop _ _ _ _) as [c o'] eqn:E. simplify_eq. cbn [open_at] in Hg |- *.
    destruct (decide (h = f)) as [->|Hne]; [|by rewrite lookup_insert_ne]. rewrite lookup_insert_eq.
    assert (exists m1, preparedField m f (SegmentField g) = AObject m1 /\ open_at m1 (g :: fs) /\ open_at m1 (h2 :: gs)) as (m1 & Hm1 & H1 & H2).
    { unfold preparedField. cbn [open_at] in Hf. destruct (m !! f) as [[]|]; try done; [by eexists|].
      exists ∅. split_and!; [done|by destruct fs|by destruct gs]. }
    rewrite Hm1 in E. destruct (setLoop_fields (seen ++ [SegmentField f]) m1 g fs v H1) as [m2 Hm2].
    rewrite fmap_cons, E in Hm2. simplify_eq. refine (IH (seen ++ [SegmentField f]) m1 m2 g (h2 :: gs) Done _ H1 H2 _); [by rewrite fmap_cons|].
    intros [k Hk]. destruct Hp. exists k. cbn. by rewrite Hk.
Qed.

Lemma setAt_open {T} {JT : Json T} (o : Content) (path : string) (fs gs : list string) (x : T) :
  fields path fs -> open_at o fs -> open_at o gs -> ~ fs `prefix_of` gs -> open_at (setAt o path x) gs.
Proof.
  intros Hp Ho Hg Hn. destruct (toValidJSON x) as [j|e] eqn:Hj.
  - destruct (setAt_spec o path fs x j Hp Ho Hj) as [seen Hs]. destruct fs as [|f fs]; [by destruct Hp|]. by eapply setLoop_open.
  - unfold setAt, SetValue, setValue. by rewrite (proj1 Hp), Hj.
Qed.

(** Other values are not affected. *)
Lemma setAt_frame {T} {JT : Json T} (o : Content) (path other : string) (fs gs : list string) (x : T) (j v : any) :
  fields path fs -> fields other gs -> open_at o fs -> toValidJSON x = inl j ->
  diverge (SegmentField <$> fs) (SegmentField <$> gs) = true ->
  GetValue (Pave (Some (setAt o path x)) []) other = inl v <-> GetValue (Pave (Some o) []) other = inl v.
Proof.
  intros Hp Hq Ho Hj Hd. rewrite !(GetValue_lookup _ other gs) by done.
  destruct (setAt_spec o path fs x j Hp Ho Hj) as [seen Hs]. destruct Hp as [_ Hn]. destruct fs as [|f fs]; [done|].
  by rewrite (setLoop_fields_frame _ _ _ _ _ _ _ _ Hs Hd).
Qed.

End access.

(** A value that is the same after being encoded, read as generic data and
    encoded and decoded again. *)
Definition transparent {T} {JA : Json any} {JT : Json T} (x : T) : Prop :=
  exists j b, toValidJSON x = inl j /\ Marshal j = inl b /\ Unmarshal b = inl x.

Section roundtrip.
Context {JA : Json any} {T : Type} {JT : Json T}.

Lemma getAt_setAt (o : Content) (path : string) (fs : list string) (x : T) :
  fields path fs -> open_at o fs -> transparent x -> getAt (setAt o path (Some x)) path = Some x.
Proof.
  intros Hp Ho (j & b & Hj & Hb & Hx). unfold getAt, GetValueInto. assert (toValidJSON (Some x) = inl j) as Hj' by exact Hj.
  rewrite (setAt_get o path fs (Some x) j Hp Ho Hj').
  by rewrite Hb, Hx.
Qed.

Lemma getIgnoring_setAt {D : Decoded T} (o : Content) (path : string) (fs : list string) (x : T) :
  fields path fs -> open_at o fs -> transparent x -> getIgnoring (setAt o path x) path = x.
Proof.
  intros Hp Ho (j & b & Hj & Hb & Hx). unfold getIgnoring, GetValueInto. rewrite (setAt_get o path fs x j Hp Ho Hj).
  by rewrite Hb, Hx.
Qed.

(** What is read at a path, if anything is. *)
Lemma GetValue_frame {A} (f : any -> A) (a : A) (o : Content) (path other : string) (fs gs : list string) (x : T) (j : any) :
  fields path fs -> fields other gs -> open_at o fs -> toValidJSON x = inl j ->
  diverge (SegmentField <$> fs) (SegmentField <$> gs) = true ->
  (match GetValue (Pave (Some (setAt o path x)) []) other with inl v => f v | inr _ => a end) =
  (match GetValue (Pave (Some o) []) other with inl v => f v | inr _ => a end).
Proof.
  intros Hp Hq Ho Hj Hd.
  pose proof (fun v => setAt_frame o path other fs gs x j v Hp Hq Ho Hj Hd) as Hf.
  destruct (GetValue (Pave (Some o) []) other) as [v|e] eqn:E.
  - by rewrite (proj2 (Hf v) eq_refl).
  - destruct (GetValue (Pave (Some (setAt o path x)) []) other) as [v|e'] eqn:E'; [|done].
    by pose proof (proj1 (Hf v) eq_refl).
Qed.

Lemma getAt_alt {S} {JS : Json S} (o : Content) (path : string) :
  getAt (T:=S) o path = match GetValue (Pave (Some o) []) path with
                        | inl v => match Marshal v with
                                   | inl b => match Unmarshal b with inl out => Some out | inr _ => None end
                                   | inr _ => None
                                   end
                        | inr _ => None
                        end.
Proof. unfold getAt, GetValueInto. crush. Qed.

Lemma getIgnoring_alt {S} {JS : Json S} {D : Decoded S} (o : Content) (path : string) :
  getIgnoring (T:=S) o path = match GetValue (Pave (Some o) []) path with
                        | inl v => match Marshal v with
                                   | inl b => match Unmarshal b with inl out => out | inr _ => partially v end
                                   | inr _ => partially v
                                   end
                        | inr _ => zero
                        end.
Proof. unfold getIgnoring, GetValueInto. crush. Qed.

Lemma getStringAt_alt (o : Content) (path : string) :
  getStringAt o path = match GetValue (Pave (Some o) []) path with inl (AString s) => Some s | _ => None end.
Proof. unfold getStringAt, GetString. crush. Qed.

Lemma getAt_frame {S} {JS : Json S} (o : Content) (path other : string) (fs gs : list string) (x : T) (j : any) :
  fields path fs -> fields other gs -> open_at o fs -> toValidJSON x = inl j ->
  diverge (SegmentField <$> fs) (SegmentField <$> gs) = true ->
  getAt (T:=S) (setAt o path x) other = getAt (T:=S) o other.
Proof. intros. rewrite !getAt_alt. by eapply GetValue_frame. Qed.

Lemma getIgnoring_frame {S} {JS : Json S} {D : Decoded S} (o : Content) (path other : string) (fs gs : list string) (x : T) (j : any) :
  fields path fs -> fields other gs -> open_at o fs -> toValidJSON x = inl j ->
  diverge (SegmentField <$> fs) (SegmentField <$> gs) = true ->
  getIgnoring (T:=S) (setAt o path x) other = getIgnoring (T:=S) o other.
Proof. intros. rewrite !getIgnoring_alt. by eapply GetValue_frame. Qed.

Lemma getStringAt_frame (o : Content) (path other : string) (fs gs : list string) (x : T) (j : any) :
  fields path fs -> fields other gs -> open_at o fs -> toValidJSON x = inl j ->
  diverge (SegmentField <$> fs) (SegmentField <$> gs) = true ->
  getStringAt (setAt o path x) other = getStringAt o other.
Proof.
  intros. rewrite !getStringAt_alt. by eapply (GetValue_frame (fun v => match v with AString s => Some s | _ => None end) None).
Qed.

End roundtrip.

(** ** The status *)

(** The object at a field, which is empty if there is none. *)
Definition sub (m : Content) (f : string) : Content := match m !! f with Some (AObject m') => m' | _ => ∅ end.

(** Setting a field of an object in objects. *)
Fixpoint putAt (m : Content) (fs : list string) (j : any) : Content :=
  match fs with
  | [] => m
  | [f] => <[f := j]> m
  | f :: ((_ :: _) as fs') => <[f := AObject (putAt (sub m f) fs' j)]> m
  end.

Lemma setLoop_putAt (seen : Segments) (m : Content) (f : string) (fs : list string) (v : any) :
  open_at m (f :: fs) -> setLoop seen (AObject m) (SegmentField <$> f :: fs) v = (AObject (putAt m (f :: fs) v), Done).
Proof.
  revert seen m f. induction fs as [|g fs IH]; intros seen m f Ho; [done|]. rewrite !fmap_cons, setLoop_field.
  assert (preparedField m f (SegmentField g) = AObject (sub m f) /\ open_at (sub m f) (g :: fs)) as [-> H1].
  { unfold preparedField, sub. cbn [open_at] in Ho. destruct (m !! f) as [[]|]; try done. split; [done|]. by destruct fs. }
  specialize (IH (seen ++ [SegmentField f]) (sub m f) g H1). rewrite fmap_cons in IH. by rewrite IH.
Qed.

Section status.
Context {JA : Json any} {JS : Json StatusConditions} {DS : Decoded StatusConditions} {JC : Json (list Condition)}
        {JO : Json ObservedStatus} {DO : Decoded ObservedStatus} {JZ : Json Z}.

Lemma setAt_putAt {T} {JT : Json T} (o : Content) (path : string) (fs : list string) (x : T) (j : any) :
  fields path fs -> open_at o fs -> toValidJSON x = inl j -> setAt o path x = putAt o fs j.
Proof.
  intros Hp Ho Hj. destruct (setAt_spec o path fs x j Hp Ho Hj) as [seen Hs]. destruct fs as [|f fs]; [by destruct Hp|].
  rewrite setLoop_putAt in Hs by done. by injection Hs.
Qed.

Definition encodes (v : any) : Prop := exists b, Marshal v = inl b.

(** Decoding the value of a field gives [x]; a field that is missing is [z]. *)
Definition decodesField {T} {JT : Json T} (m : Content) (f : string) (x z : T) : Prop :=
  match m !! f with None => x = z | Some j => exists b, Marshal j = inl b /\ Unmarshal b = inl x end.

(** The fields Crossplane writes in a status.  Decoding a struct ignores the case
    of the names of fields; none of these is another one in another case. *)
Definition statusFields : list string := ["conditions"; "observedGeneration"; "connectionDetails"; "claimConditionTypes"; "crossplane"].

(** encoding/json: an object is encoded if its values are, a struct is decoded
    field by field, leaving out what it has no field for, and a slice is
    encoded element by element. *)
Class StatusJson : Prop := {
  marshal_object m : (forall k v, m !! k = Some v -> encodes v) -> encodes (AObject m);
  conditions_zero : zero (T:=StatusConditions) = MkStatusConditions [];
  observed_zero : zero (T:=ObservedStatus) = MkObservedStatus 0;
  unmarshal_conditions m b cs : (forall k, is_Some (m !! k) -> k ∈ statusFields) -> Marshal (AObject m) = inl b ->
    decodesField m "conditions" cs [] -> Unmarshal b = inl (MkStatusConditions cs);
  unmarshal_observed m b g : (forall k, is_Some (m !! k) -> k ∈ statusFields) -> Marshal (AObject m) = inl b ->
    decodesField m "observedGeneration" g 0%Z -> Unmarshal b = inl (MkObservedStatus g);
  conditions_transparent cs : Forall (fun c => transparent [c]) cs -> transparent cs
}.

(** The status of an object has these conditions and this generation. *)
Record statusHolds (o : Content) (cs : list Condition) (g : Z) : Prop := MkStatusHolds {
  sh_keys k : is_Some (sub o "status" !! k) -> k ∈ statusFields;
  sh_encodes k v : sub o "status" !! k = Some v -> encodes v;
  sh_details k v : sub (sub o "status") "connectionDetails" !! k = Some v -> encodes v;
  sh_conditions : decodesField (sub o "status") "conditions" cs [];
  sh_observed : decodesField (sub o "status") "observedGeneration" g 0%Z
}.

Lemma statusHolds_empty : statusHolds ∅ [] 0.
Proof. by split; intros *; unfold sub, decodesField; rewrite ?lookup_empty; try (intros [? ?]); try done. Qed.

(** What is read of a status. *)
Lemma statusHolds_get {SJ : StatusJson} (o : Content) (cs : list Condition) (g : Z) (f : string) :
  statusHolds o cs g -> open_at o ["status"; f] ->
  getConditionsAt o = cs /\ getObservedGenerationAt o = g /\ (is_Some (o !! "status") -> forall ct, getConditionAt o ct = GetCondition ct cs).
Proof.
  intros [Hk He Hd Hc Ho] Hop. unfold getConditionsAt, getObservedGenerationAt, getConditionAt. rewrite !getIgnoring_alt, getAt_alt.
  assert (forall v, GetValue (Pave (Some o) []) "status" = inl v <-> o !! "status" = Some v) as Hv.
  { intros v. rewrite (GetValue_lookup o "status" ["status"]) by done. cbn. by destruct (o !! "status"). }
  cbn [open_at] in Hop. destruct (o !! "status") as [[]|] eqn:E; try done.
  - rewrite (proj2 (Hv _) eq_refl). unfold sub in Hk, He, Hc, Ho. rewrite E in Hk, He, Hc, Ho.
    destruct (marshal_object m He) as [b Hb]. rewrite Hb, (unmarshal_conditions m b cs Hk Hb Hc), (unmarshal_observed m b g Hk Hb Ho). done.
  - unfold decodesField, sub in Hc, Ho. rewrite E, lookup_empty in Hc, Ho. subst cs g.
    destruct (GetValue (Pave (Some o) []) "status") as [v|err]; [by pose proof (proj1 (Hv v) eq_refl)|].
    rewrite conditions_zero, observed_zero. split_and!; [done..|]. by intros [? ?].
Qed.

(** Setting something that is not in the status. *)
Lemma statusHolds_frame (o o' : Content) (cs : list Condition) (g : Z) : o' !! "status" = o !! "status" -> statusHolds o cs g -> statusHolds o' cs g.
Proof. intros E [Hk He Hd Hc Ho]. by split; unfold sub in *; rewrite E. Qed.

Lemma sub_putAt (o : Content) (f : string) (fs : list string) (j : any) : fs <> [] -> sub (putAt o (f :: fs) j) f = putAt (sub o f) fs j.
Proof. destruct fs as [|h fs]; [done|]. intros _. unfold sub at 1. cbn [putAt]. by rewrite lookup_insert_eq. Qed.

(** Setting a field of the status. *)
Lemma statusHolds_put (o o' : Content) (f : string) (j : any) (cs cs' : list Condition) (g g' : Z) :
  f ∈ statusFields -> encodes j -> (f = "connectionDetails" -> forall k v, sub {["x" := j]} "x" !! k = Some v -> encodes v) ->
  sub o' "status" = <[f := j]> (sub o "status") -> statusHolds o cs g ->
  (if decide (f = "conditions") then exists b, Marshal j = inl b /\ Unmarshal b = inl cs' else cs' = cs) ->
  (if decide (f = "observedGeneration") then exists b, Marshal j = inl b /\ Unmarshal b = inl g' else g' = g) ->
  statusHolds o' cs' g'.
Proof.
  intros Hf Hj Hd E [Hk He Hde Hc Ho] Hcs Hg. split; rewrite E.
  - intros k [v [[<- _]|[_ Hv]]%lookup_insert_Some]; [done|]. by apply Hk.
  - intros k v [[_ <-]|[_ Hv]]%lookup_insert_Some; [done|]. by eapply He.
  - intros k v. unfold sub at 1. destruct (decide (f = "connectionDetails")) as [->|Hn].
    + rewrite lookup_insert_eq. intros Hv. apply (Hd eq_refl k v). unfold sub. by rewrite lookup_singleton_eq.
    + rewrite lookup_insert_ne by done. apply Hde.
  - unfold decodesField in *. destruct (decide (f = "conditions")) as [->|Hn]; [by rewrite lookup_insert_eq|by rewrite lookup_insert_ne, Hcs].
  - unfold decodesField in *. destruct (decide (f = "observedGeneration")) as [->|Hn]; [by rewrite lookup_insert_eq|by rewrite lookup_insert_ne, Hg].
Qed.

Lemma statusHolds_setConditions {SJ : StatusJson} (o : Content) (conds cs : list Condition) (g : Z) :
  statusHolds o cs g -> (forall f, open_at o ["status"; f]) -> transparent (SetConditions conds cs) ->
  statusHolds (setConditionsAt o conds) (SetConditions conds cs) g.
Proof.
  intros Hh Hop (j & b & Hj & Hb & Hx). destruct (statusHolds_get o cs g "" Hh (Hop _)) as [Hc _]. unfold getConditionsAt in Hc.
  unfold setConditionsAt. rewrite Hc, (setAt_putAt o "status.conditions" ["status"; "conditions"] _ j) by done.
  eapply (statusHolds_put o _ "conditions" j); [by repeat constructor|by exists b|done|by rewrite sub_putAt|exact Hh|by exists b|done].
Qed.

Lemma statusHolds_setGeneration (o : Content) (cs : list Condition) (g g' : Z) :
  statusHolds o cs g -> (forall f, open_at o ["status"; f]) -> transparent g' -> statusHolds (setObservedGenerationAt o g') cs g'.
Proof.
  intros Hh Hop (j & b & Hj & Hb & Hx). unfold setObservedGenerationAt.
  rewrite (setAt_putAt o "status.observedGeneration" ["status"; "observedGeneration"] _ j) by done.
  eapply (statusHolds_put o _ "observedGeneration" j); [by repeat constructor|by exists b|done|by rewrite sub_putAt|exact Hh|done|by exists b].
Qed.

(** Setting a field of the connection details in the status. *)
Lemma statusHolds_setDetails {SJ : StatusJson} {T} {JT : Json T} (o : Content) (path f : string) (x : T) (cs : list Condition) (g : Z) :
  fields path ["status"; "connectionDetails"; f] -> open_at o ["status"; "connectionDetails"; f] ->
  statusHolds o cs g -> transparent x -> statusHolds (setAt o path (Some x)) cs g.
Proof.
  intros Hp Hop Hh (j & b & Hj & Hb & Hx). assert (toValidJSON (Some x) = inl j) as Hj' by exact Hj.
  rewrite (setAt_putAt o path _ (Some x) j Hp Hop Hj').
  assert (forall k v, <[f := j]> (sub (sub o "status") "connectionDetails") !! k = Some v -> encodes v) as He.
  { intros k v [[_ <-]|[_ Hv]]%lookup_insert_Some; [by exists b|]. by eapply (sh_details o cs g Hh). }
  eapply (statusHolds_put o _ "connectionDetails"); [by repeat constructor|by apply marshal_object| |by rewrite sub_putAt|exact Hh|done|done].
  intros _. unfold sub at 1. rewrite lookup_singleton_eq. exact He.
Qed.

End status.
