(* ===== verification/Composite.v ===== *)
(** * Composite resources (pkg/resource/unstructured/composite)

    The accessors of composite resources.  Modern ones keep Crossplane's fields
    under [spec.crossplane] and [status.crossplane], legacy ones directly under
    [spec] and [status]. *)

From S2P Require Import Prelude GoStrings GoErrors GoTime FieldPath Json Paved Conditions Managed Unstructured.

Inductive SchemaVersion := SchemaModern | SchemaLegacy.

#[global] Instance SchemaVersion_eq_dec : EqDecision SchemaVersion.
Proof. solve_decision. Defined.

Record Composite := MkComposite { Object : Content; Schema : SchemaVersion }.

(** [reference.Claim] and [reference.Composite] *)
Record ClaimReference := MkClaimReference { clAPIVersion : string; clKind : string; clName : string; clNamespace : string }.

Record CompositeReference := MkCompositeReference {
  coAPIVersion : string; coKind : string; coName : string; coNamespace : option string
}.

(** What unstructured.Unstructured reads of an object. *)
Class UnstructuredMeta := {
  GetAPIVersion : Content -> string;
  GetKind : Content -> string;
  GetName : Content -> string;
  GetNamespace : Content -> string
}.

Section composite.
Context {JA : Json any} {UM : UnstructuredMeta}.
Context {LabelSelector ObjectReference LocalObjectReference : Type}.
Context {JL : Json LabelSelector} {JR : Json ObjectReference} {JLR : Json LocalObjectReference} {JSt : Json string}.
Context {JC : Json ClaimReference} {JSec : Json SecretReference} {JT : Json Time}.
Context {JRs : Json (list ObjectReference)} {DRs : Decoded (list ObjectReference)}.
Context {JTs : Json (list string)} {DTs : Decoded (list string)}.
Context {JS : Json StatusConditions} {DS : Decoded StatusConditions} {JCs : Json (list Condition)}.
Context {JO : Json ObservedStatus} {DO : Decoded ObservedStatus} {JZ : Json Z}.
Context (RefString : ObjectReference -> string) (emptyRef : ObjectReference).
Implicit Types c : Composite.

(** [path := modern; if c.Schema == SchemaLegacy { path = legacy }] *)
Definition schemaPath c (modern legacy : string) : string :=
  match Schema c with SchemaModern => modern | SchemaLegacy => legacy end.

Definition setObject (o : Content) c : Composite := MkComposite o (Schema c).

Definition GetCompositionSelector c : option LabelSelector :=
  getAt (Object c) (schemaPath c "spec.crossplane.compositionSelector" "spec.compositionSelector").

Definition SetCompositionSelector (sel : option LabelSelector) c : Composite :=
  setObject (setAt (Object c) (schemaPath c "spec.crossplane.compositionSelector" "spec.compositionSelector") sel) c.

Definition GetCompositionReference c : option ObjectReference :=
  getAt (Object c) (schemaPath c "spec.crossplane.compositionRef" "spec.compositionRef").

Definition SetCompositionReference (ref : option ObjectReference) c : Composite :=
  setObject (setAt (Object c) (schemaPath c "spec.crossplane.compositionRef" "spec.compositionRef") ref) c.

Definition GetCompositionRevisionReference c : option LocalObjectReference :=
  getAt (Object c) (schemaPath c "spec.crossplane.compositionRevisionRef" "spec.compositionRevisionRef").

Definition SetCompositionRevisionReference (ref : option LocalObjectReference) c : Composite :=
  setObject (setAt (Object c) (schemaPath c "spec.crossplane.compositionRevisionRef" "spec.compositionRevisionRef") ref) c.

Definition GetCompositionRevisionSelector c : option LabelSelector :=
  getAt (Object c) (schemaPath c "spec.crossplane.compositionRevisionSelector" "spec.compositionRevisionSelector").

Definition SetCompositionRevisionSelector (sel : option LabelSelector) c : Composite :=
  setObject (setAt (Object c) (schemaPath c "spec.crossplane.compositionRevisionSelector" "spec.compositionRevisionSelector") sel) c.

Definition SetCompositionUpdatePolicy (p : option string) c : Composite :=
  setObject (setAt (Object c) (schemaPath c "spec.crossplane.compositionUpdatePolicy" "spec.compositionUpdatePolicy") p) c.

Definition GetCompositionUpdatePolicy c : option string :=
  getStringAt (Object c) (schemaPath c "spec.crossplane.compositionUpdatePolicy" "spec.compositionUpdatePolicy").

Definition GetClaimReference c : option ClaimReference :=
  if decide (Schema c <> SchemaLegacy) then None else getAt (Object c) "spec.claimRef".

Definition SetClaimReference (ref : option ClaimReference) c : Composite :=
  if decide (Schema c <> SchemaLegacy) then c else setObject (setAt (Object c) "spec.claimRef" ref) c.

Definition GetResourceReferences c : list ObjectReference :=
  getIgnoring (Object c) (schemaPath c "spec.crossplane.resourceRefs" "spec.resourceRefs").

(** References that print like the empty one are left out. *)
Definition SetResourceReferences (refs : list ObjectReference) c : Composite :=
  let filtered := filter (fun ref => RefString ref <> RefString emptyRef) refs in
  setObject (setAt (Object c) (schemaPath c "spec.crossplane.resourceRefs" "spec.resourceRefs") filtered) c.

Definition GetReference c : CompositeReference :=
  MkCompositeReference (GetAPIVersion (Object c)) (GetKind (Object c)) (GetName (Object c))
    (if decide (GetNamespace (Object c) <> "") then Some (GetNamespace (Object c)) else None).

Definition GetWriteConnectionSecretToReference c : option SecretReference :=
  if decide (Schema c <> SchemaLegacy) then None else getAt (Object c) "spec.writeConnectionSecretToRef".

Definition SetWriteConnectionSecretToReference (ref : option SecretReference) c : Composite :=
  if decide (Schema c <> SchemaLegacy) then c
  else setObject (setAt (Object c) "spec.writeConnectionSecretToRef" ref) c.

Definition compositeGetCondition (ct : string) c : Condition := getConditionAt (Object c) ct.

Definition compositeSetConditions (conditions : list Condition) c : Composite :=
  setObject (setConditionsAt (Object c) conditions) c.

Definition compositeGetConditions c : list Condition := getConditionsAt (Object c).

Definition GetConnectionDetailsLastPublishedTime c : option Time :=
  getAt (Object c) (schemaPath c "status.crossplane.connectionDetails.lastPublishedTime" "status.connectionDetails.lastPublishedTime").

Definition SetConnectionDetailsLastPublishedTime (t : option Time) c : Composite :=
  setObject (setAt (Object c) (schemaPath c "status.crossplane.connectionDetails.lastPublishedTime"
                                 "status.connectionDetails.lastPublishedTime") t) c.

Definition SetObservedGeneration (generation : Z) c : Composite :=
  setObject (setObservedGenerationAt (Object c) generation) c.

Definition GetObservedGeneration c : Z := getObservedGenerationAt (Object c).

(** [None] is a nil slice. *)
Definition GetClaimConditionTypes c : list string :=
  if decide (Schema c <> SchemaLegacy) then [] else getIgnoring (Object c) "status.claimConditionTypes".

(** The loop over the types to set; [m] holds the types of [ts]. *)
Fixpoint addTypes (ts : list string) (m : gset string) (types : list string) : list string + error :=
  match types with
  | [] => inl ts
  | t :: types' =>
      if IsSystemConditionType t then
        inr (errorString ("cannot set system condition " +:+ t +:+ " as a claim condition"))
      else if decide (t ∈ m) then addTypes ts m types'
      else addTypes (ts ++ [t]) ({[t]} ∪ m) types'
  end.

Definition SetClaimConditionTypes (types : list string) c : Composite * option error :=
  if decide (Schema c <> SchemaLegacy) then (c, None)
  else
    let ts := GetClaimConditionTypes c in
    match addTypes ts (list_to_set ts) types with
    | inr err => (c, Some err)
    | inl ts => (setObject (setAt (Object c) "status.claimConditionTypes" ts) c, None)
    end.

(** ** Properties *)

(** The objects Crossplane's fields live in are missing or objects. *)
Definition wellformed c : Prop :=
  match Schema c with
  | SchemaModern => open_at (Object c) ["spec"; "crossplane"; ""] /\ open_at (Object c) ["status"; "crossplane"; "connectionDetails"; ""]
  | SchemaLegacy => open_at (Object c) ["spec"; ""] /\ open_at (Object c) ["status"; "connectionDetails"; ""]
  end.

Lemma schema_fields c (modern legacy : string) (fs gs : list string) :
  fields modern fs -> fields legacy gs ->
  (match Schema c with SchemaModern => open_at (Object c) fs | SchemaLegacy => open_at (Object c) gs end) ->
  exists hs, fields (schemaPath c modern legacy) hs /\ open_at (Object c) hs.
Proof. unfold schemaPath. destruct (Schema c); eauto. Qed.

Lemma schemaPath_setObject c (o : Content) (modern legacy : string) :
  schemaPath (setObject o c) modern legacy = schemaPath c modern legacy.
Proof. done. Qed.

(** Every getter returns what its setter was given, in both schemas, where the
    value survives its JSON encoding; a modern resource has no claim and no
    connection secret, and setting them changes nothing.  Conditions are merged
    into those that are there, and the types of claim conditions are added. *)
Definition settersEffective c : Prop :=
  (forall x, transparent x -> GetCompositionSelector (SetCompositionSelector (Some x) c) = Some x) /\
  (forall x, transparent x -> GetCompositionReference (SetCompositionReference (Some x) c) = Some x) /\
  (forall x, transparent x -> GetCompositionRevisionReference (SetCompositionRevisionReference (Some x) c) = Some x) /\
  (forall x, transparent x -> GetCompositionRevisionSelector (SetCompositionRevisionSelector (Some x) c) = Some x) /\
  (forall x, toValidJSON x = inl (AString x) -> GetCompositionUpdatePolicy (SetCompositionUpdatePolicy (Some x) c) = Some x) /\
  (forall x, transparent x -> GetConnectionDetailsLastPublishedTime (SetConnectionDetailsLastPublishedTime (Some x) c) = Some x) /\
  (forall x, transparent (filter (fun ref => RefString ref <> RefString emptyRef) x) ->
     GetResourceReferences (SetResourceReferences x c) = filter (fun ref => RefString ref <> RefString emptyRef) x) /\
  (forall g j, toValidJSON g = inl j ->
     GetValue (Pave (Some (Object (SetObservedGeneration g c))) []) "status.observedGeneration" = inl j) /\
  (forall conditions j, toValidJSON (SetConditions conditions (compositeGetConditions c)) = inl j ->
     GetValue (Pave (Some (Object (compositeSetConditions conditions c))) []) "status.conditions" = inl j) /\
  match Schema c with
  | SchemaLegacy =>
      (forall x, transparent x -> GetClaimReference (SetClaimReference (Some x) c) = Some x) /\
      (forall x, transparent x -> GetWriteConnectionSecretToReference (SetWriteConnectionSecretToReference (Some x) c) = Some x) /\
      (forall types ts, addTypes (GetClaimConditionTypes c) (list_to_set (GetClaimConditionTypes c)) types = inl ts -> transparent ts ->
         GetClaimConditionTypes (SetClaimConditionTypes types c).1 = ts /\ (SetClaimConditionTypes types c).2 = None)
  | SchemaModern =>
      (forall x, SetClaimReference x c = c) /\ (forall x, SetWriteConnectionSecretToReference x c = c) /\
      (forall x, SetClaimConditionTypes x c = (c, None)) /\
      GetClaimReference c = None /\ GetWriteConnectionSecretToReference c = None /\ GetClaimConditionTypes c = []
  end.

Lemma wellformed_status c (f : string) : wellformed c -> open_at (Object c) ["status"; f].
Proof. unfold wellformed. destruct (Schema c); intros [_ H]; cbn in H |- *; by destruct (Object c !! "status") as [[]|]. Qed.

(** On a composite resource whose Crossplane objects are not something else,
    every setter takes effect. *)
Theorem composite_roundtrip c : wellformed c -> settersEffective c.
Proof.
  intros Hw. pose proof (fun f => wellformed_status c f Hw) as Hst. unfold wellformed in Hw.
  assert (forall modern legacy fs gs, fields modern fs -> fields legacy gs ->
    (match Schema c with SchemaModern => open_at (Object c) fs | SchemaLegacy => open_at (Object c) gs end) ->
    forall T (J : Json T) (x : T), transparent x ->
    getAt (setAt (Object c) (schemaPath c modern legacy) (Some x)) (schemaPath c modern legacy) = Some x) as Hrt.
  { intros modern legacy fs gs H1 H2 H3 T J x Hx. destruct (schema_fields c modern legacy fs gs H1 H2 H3) as (hs & Hf & Ho).
    by eapply getAt_setAt. }
  assert (match Schema c with SchemaModern => open_at (Object c) ["spec"; "crossplane"; ""] | SchemaLegacy => open_at (Object c) ["spec"; ""] end) as Hs.
  { by destruct (Schema c), Hw. }
  split_and!.
  1-4: intros x Hx; eapply (Hrt _ _ ["spec"; "crossplane"; _] ["spec"; _]); [done|done|exact Hs|exact Hx].
  - intros x Hx. destruct (schema_fields c "spec.crossplane.compositionUpdatePolicy" "spec.compositionUpdatePolicy"
      ["spec"; "crossplane"; "compositionUpdatePolicy"] ["spec"; "compositionUpdatePolicy"]) as (hs & Hf & Ho); [done|done|exact Hs|].
    unfold GetCompositionUpdatePolicy, SetCompositionUpdatePolicy, getStringAt, GetString. cbn [Object setObject].
    assert (toValidJSON (Some x) = inl (AString x)) as Hx' by exact Hx.
    rewrite schemaPath_setObject. by rewrite (setAt_get _ _ hs (Some x) (AString x) Hf Ho Hx').
  - intros x Hx. eapply (Hrt _ _ ["status"; "crossplane"; "connectionDetails"; _] ["status"; "connectionDetails"; _]); [done|done| |done].
    by destruct (Schema c), Hw.
  - intros x Hx. destruct (schema_fields c "spec.crossplane.resourceRefs" "spec.resourceRefs"
      ["spec"; "crossplane"; "resourceRefs"] ["spec"; "resourceRefs"]) as (hs & Hf & Ho); [done|done|exact Hs|].
    by eapply getIgnoring_setAt.
  - intros g j Hj. by apply (setAt_get _ _ ["status"; "observedGeneration"]).
  - intros conditions j Hj. by apply (setAt_get _ _ ["status"; "conditions"]).
  - clear Hrt Hw. destruct c as [o []]; [done|]. split_and!; [intros x Hx; eapply (getAt_setAt _ _ ["spec"; _]); done..|].
    intros types ts Hts Ht. unfold SetClaimConditionTypes. rewrite decide_False by (intros Hn; by apply Hn). rewrite Hts. split; [|done].
    by apply (getIgnoring_setAt _ _ ["status"; "claimConditionTypes"]).
Qed.

Lemma addTypes_spec (ts types : list string) (m : gset string) :
  m = list_to_set ts ->
  match addTypes ts m types with
  | inr _ => exists t, t ∈ types /\ IsSystemConditionType t = true
  | inl ts' => (forall t, t ∈ types -> IsSystemConditionType t = false) /\
      (forall t, t ∈ ts' <-> t ∈ ts \/ t ∈ types) /\ ts `prefix_of` ts' /\ (NoDup ts -> NoDup ts')
  end.
Proof.
  clear emptyRef RefString. revert ts m. induction types as [|t types IH]; intros ts m ->; cbn [addTypes].
  { split; [by intros t ?%not_elem_of_nil|]. split; [set_solver|done]. }
  destruct (IsSystemConditionType t) eqn:Ht; [exists t; by split; [left|]|].
  case_decide as Hin.
  - specialize (IH ts _ eq_refl). destruct (addTypes _ _ _) as [ts'|e].
    + destruct IH as (H1 & H2 & H3 & H4). split_and!; [|set_solver|done..]. set_solver.
    + destruct IH as (u & ? & ?). exists u. by split; [right|].
  - specialize (IH (ts ++ [t]) ({[t]} ∪ list_to_set ts) ltac:(set_solver)). destruct (addTypes _ _ _) as [ts'|e].
    + destruct IH as (H1 & H2 & H3 & H4). split_and!; [set_solver|set_solver| |].
      * etrans; [|done]. by eexists.
      * intros Hn. apply H4, NoDup_app. split_and!; [done|set_solver|apply NoDup_singleton].
    + destruct IH as (u & ? & ?). exists u. by split; [right|].
Qed.

(** Claim condition types of a legacy composite resource grow: on success
    the stored types are the old ones, in their order, and the new ones, never
    twice and never a system condition among the new ones; on an error, which
    is returned exactly when a system condition is among the new ones, nothing
    is changed. *)
Theorem claim_condition_types c (types : list string) :
  Schema c = SchemaLegacy -> open_at (Object c) ["status"; "claimConditionTypes"] -> (forall ts : list string, transparent ts) ->
  let '(c', err) := SetClaimConditionTypes types c in
  let old := GetClaimConditionTypes c in
  match err with
  | Some _ => c' = c /\ exists t, t ∈ types /\ IsSystemConditionType t = true
  | None =>
      (forall t, t ∈ types -> IsSystemConditionType t = false) /\
      (forall t, t ∈ GetClaimConditionTypes c' <-> t ∈ old \/ t ∈ types) /\
      old `prefix_of` GetClaimConditionTypes c' /\ (NoDup old -> NoDup (GetClaimConditionTypes c'))
  end.
Proof.
  intros Hs Ho Ht. unfold SetClaimConditionTypes. rewrite Hs, decide_False by (intros Hn; by apply Hn).
  pose proof (addTypes_spec (GetClaimConditionTypes c) types _ eq_refl) as Ha.
  destruct (addTypes _ _ _) as [ts|err]; [|done].
  assert (GetClaimConditionTypes (setObject (setAt (Object c) "status.claimConditionTypes" ts) c) = ts) as ->; [|done].
  unfold GetClaimConditionTypes at 1. cbn [setObject Schema Object]. rewrite Hs, decide_False by (intros Hn; by apply Hn).
  eapply (getIgnoring_setAt _ _ ["status"; "claimConditionTypes"]); [done|exact Ho|apply Ht].
Qed.

End composite.

(** ** Concrete resources *)

(** Lists of strings, encoded by a number. *)
Definition encodeStrings (ts : list string) : string := b2s (FormatUint (Npos (encode ts))).

Definition decodeStrings (b : string) : option (list string) :=
  match read_digits 0 (s2b b) with Some (Npos p) => decode p | _ => None end.

Lemma decode_encodeStrings (ts : list string) : decodeStrings (encodeStrings ts) = Some ts.
Proof.
  unfold decodeStrings, encodeStrings, FormatUint. rewrite s2b_b2s, read_digits_digits; [apply decode_encode|apply N_size_bound|done].
Qed.

(** An encoding of generic data that knows the literals and lists of strings. *)
Definition JsonDemo : Json any := {|
  Marshal v := match v with
               | AArray l => match stringElements l with Some ts => inl (encodeStrings ts) | None => inr (errorString "unsupported") end
               | _ => Marshal (Json:=JsonLiterals) v
               end;
  Unmarshal b := match decodeStrings b with
                 | Some ts => inl (AArray (AString <$> ts))
                 | None => Unmarshal (Json:=JsonLiterals) b
                 end
|}.

Definition JsonStrings : Json (list string) := {|
  Marshal ts := inl (encodeStrings ts);
  Unmarshal b := match decodeStrings b with Some ts => inl ts | None => inr (errorString "unsupported") end
|}.

Lemma stringElements_fmap (ts : list string) : stringElements (AString <$> ts) = Some ts.
Proof. induction ts as [|t ts IH]; [done|]. csimpl. by rewrite IH. Qed.

Lemma JsonStrings_transparent (ts : list string) : transparent (JA:=JsonDemo) (JT:=JsonStrings) ts.
Proof.
  exists (AArray (AString <$> ts)), (encodeStrings ts). unfold toValidJSON. cbn [Marshal Unmarshal JsonStrings JsonDemo].
  by rewrite decode_encodeStrings, stringElements_fmap.
Qed.

Definition demoTypes : Decoded (list string) := {| zero := []; partially _ := [] |}.

Definition demoComposite (s : SchemaVersion) : Composite :=
  MkComposite {["spec" := AObject {["x" := AInt 1]}]} s.

Lemma claim_condition_types_witness :
  GetClaimConditionTypes (JA:=JsonDemo) (JTs:=JsonStrings) (DTs:=demoTypes)
    (SetClaimConditionTypes (JA:=JsonDemo) (JTs:=JsonStrings) (DTs:=demoTypes) ["a"; "b"; "a"] (demoComposite SchemaLegacy)).1 = ["a"; "b"] /\
  NoDup (GetClaimConditionTypes (JA:=JsonDemo) (JTs:=JsonStrings) (DTs:=demoTypes)
    (SetClaimConditionTypes (JA:=JsonDemo) (JTs:=JsonStrings) (DTs:=demoTypes) ["a"; "b"; "a"] (demoComposite SchemaLegacy)).1).
Proof.
  split; [vm_compute; reflexivity|].
  pose proof (claim_condition_types (JA:=JsonDemo) (JTs:=JsonStrings) (DTs:=demoTypes) (demoComposite SchemaLegacy) ["a"; "b"; "a"]
    eq_refl I JsonStrings_transparent) as H.
  destruct (SetClaimConditionTypes _ _) as [c' err] eqn:E. destruct err as [e|].
  - by vm_compute in E.
  - apply H. vm_compute. constructor.
Defined.
