(* ===== verification/Claim.v ===== *)
(** * Claims (pkg/resource/unstructured/claim)

    The accessors of composite resource claims. *)

From S2P Require Import Prelude GoErrors GoTime FieldPath Json Paved Conditions Unstructured Composite.

(** [LocalSecretReference] *)
Record LocalSecretReference := MkLocalSecretReference { LocalSecretName : string }.

Section claim.
Context {JA : Json any} {UM : UnstructuredMeta}.
Context {LabelSelector ObjectReference LocalObjectReference : Type}.
Context {JL : Json LabelSelector} {JR : Json ObjectReference} {JLR : Json LocalObjectReference} {JSt : Json string}.
Context {JC : Json CompositeReference} {JSec : Json LocalSecretReference} {JT : Json Time}.
Context {JS : Json StatusConditions} {DS : Decoded StatusConditions} {JCs : Json (list Condition)}.
Context {JO : Json ObservedStatus} {DO : Decoded ObservedStatus} {JZ : Json Z}.
Implicit Types c : Content.

Definition claimGetCompositionSelector c : option LabelSelector := getAt c "spec.compositionSelector".

Definition claimSetCompositionSelector (sel : option LabelSelector) c : Content := setAt c "spec.compositionSelector" sel.

Definition claimGetCompositionReference c : option ObjectReference := getAt c "spec.compositionRef".

Definition claimSetCompositionReference (ref : option ObjectReference) c : Content := setAt c "spec.compositionRef" ref.

Definition claimGetCompositionRevisionReference c : option LocalObjectReference := getAt c "spec.compositionRevisionRef".

Definition claimSetCompositionRevisionReference (ref : option LocalObjectReference) c : Content :=
  setAt c "spec.compositionRevisionRef" ref.

Definition claimGetCompositionRevisionSelector c : option LabelSelector := getAt c "spec.compositionRevisionSelector".

Definition claimSetCompositionRevisionSelector (ref : option LabelSelector) c : Content :=
  setAt c "spec.compositionRevisionSelector" ref.

Definition claimSetCompositionUpdatePolicy (p : option string) c : Content := setAt c "spec.compositionUpdatePolicy" p.

Definition claimGetCompositionUpdatePolicy c : option string := getStringAt c "spec.compositionUpdatePolicy".

Definition SetCompositeDeletePolicy (p : option string) c : Content := setAt c "spec.compositeDeletePolicy" p.

Definition GetCompositeDeletePolicy c : option string := getStringAt c "spec.compositeDeletePolicy".

Definition GetResourceReference c : option CompositeReference := getAt c "spec.resourceRef".

Definition SetResourceReference (ref : option CompositeReference) c : Content := setAt c "spec.resourceRef" ref.

Definition claimGetReference c : ClaimReference :=
  MkClaimReference (GetAPIVersion c) (GetKind c) (GetName c) (GetNamespace c).

Definition claimGetWriteConnectionSecretToReference c : option LocalSecretReference :=
  getAt c "spec.writeConnectionSecretToRef".

Definition claimSetWriteConnectionSecretToReference (ref : option LocalSecretReference) c : Content :=
  setAt c "spec.writeConnectionSecretToRef" ref.

Definition claimGetCondition (ct : string) c : Condition := getConditionAt c ct.

Definition claimSetConditions (conditions : list Condition) c : Content := setConditionsAt c conditions.

Definition claimGetConnectionDetailsLastPublishedTime c : option Time := getAt c "status.connectionDetails.lastPublishedTime".

Definition claimSetConnectionDetailsLastPublishedTime (t : option Time) c : Content :=
  setAt c "status.connectionDetails.lastPublishedTime" t.

Definition claimSetObservedGeneration (generation : Z) c : Content := setObservedGenerationAt c generation.

Definition claimGetObservedGeneration c : Z := getObservedGenerationAt c.

(** The paths of a claim's spec that accessors write. *)
Definition claimPaths : list string :=
  ["compositionSelector"; "compositionRef"; "compositionRevisionRef"; "compositionRevisionSelector";
   "compositionUpdatePolicy"; "compositeDeletePolicy"; "resourceRef"; "writeConnectionSecretToRef"].

(** On a claim whose spec is missing or an object, what is set at one of the
    paths is read back, and does not change what is read at the others. *)
Lemma claim_fields c {T : Type} {J : Json T} (f : string) (x : T) :
  open_at c ["spec"; ""] -> f ∈ claimPaths -> transparent x ->
  getAt (setAt c ("spec." +:+ f) (Some x)) ("spec." +:+ f) = Some x /\
  forall g {S} {JS2 : Json S}, g ∈ claimPaths -> g <> f ->
    getAt (T:=S) (setAt c ("spec." +:+ f) (Some x)) ("spec." +:+ g) = getAt (T:=S) c ("spec." +:+ g).
Proof.
  intros Ho Hf Hx.
  assert (forall h, h ∈ claimPaths -> fields ("spec." +:+ h) ["spec"; h]) as Hp.
  { intros h Hh. unfold claimPaths in Hh. repeat (apply elem_of_cons in Hh as [->|Hh]; [by split|]). by apply not_elem_of_nil in Hh. }
  split; [by eapply getAt_setAt; [apply Hp| |]|].
  intros g S JS2 Hg Hne. destruct Hx as (j & b & Hj & _).
  eapply getAt_frame; [by apply Hp|by apply Hp|done|exact Hj|].
  cbn. rewrite decide_True by done. rewrite decide_False by congruence. done.
Qed.

(** On a claim whose spec is missing or an object every getter returns what its
    setter was given, and the composite a claim is bound to is not affected by
    what selects its composition. *)
Lemma claim_roundtrip c :
  open_at c ["spec"; ""] ->
  (forall x, transparent x -> claimGetCompositionSelector (claimSetCompositionSelector (Some x) c) = Some x) /\
  (forall x, transparent x -> claimGetCompositionReference (claimSetCompositionReference (Some x) c) = Some x) /\
  (forall x, transparent x -> claimGetCompositionRevisionReference (claimSetCompositionRevisionReference (Some x) c) = Some x) /\
  (forall x, transparent x -> claimGetCompositionRevisionSelector (claimSetCompositionRevisionSelector (Some x) c) = Some x) /\
  (forall x, transparent x -> claimGetWriteConnectionSecretToReference (claimSetWriteConnectionSecretToReference (Some x) c) = Some x) /\
  (forall x, transparent x -> GetResourceReference (SetResourceReference (Some x) c) = Some x) /\
  (forall x, transparent x -> GetResourceReference (claimSetCompositionSelector (Some x) c) = GetResourceReference c) /\
  (forall x, transparent x -> GetResourceReference (claimSetCompositionReference (Some x) c) = GetResourceReference c).
Proof.
  intros Ho. assert (forall f, f ∈ ["compositionSelector"; "compositionRef"; "compositionRevisionRef"; "compositionRevisionSelector";
    "writeConnectionSecretToRef"; "resourceRef"] -> f ∈ claimPaths) as Hin by (unfold claimPaths; set_solver).
  split_and!; intros x Hx.
  - apply (claim_fields c "compositionSelector" x Ho); [set_solver|done].
  - apply (claim_fields c "compositionRef" x Ho); [set_solver|done].
  - apply (claim_fields c "compositionRevisionRef" x Ho); [set_solver|done].
  - apply (claim_fields c "compositionRevisionSelector" x Ho); [set_solver|done].
  - apply (claim_fields c "writeConnectionSecretToRef" x Ho); [set_solver|done].
  - apply (claim_fields c "resourceRef" x Ho); [set_solver|done].
  - apply (claim_fields c "compositionSelector" x Ho); [set_solver|done|set_solver|done].
  - apply (claim_fields c "compositionRef" x Ho); [set_solver|done|set_solver|done].
Qed.

End claim.
