(* ===== verification/Composed.v ===== *)
(** * Composed resources (pkg/resource/unstructured/composed)

    The accessors of composed resources, and the owners of one. *)

From S2P Require Import Prelude GoErrors FieldPath Json Paved Meta Conditions Managed Unstructured.

(** The owner references in an object, as unstructured.Unstructured reads and
    writes them; reading gives a new slice. *)
Class UnstructuredOwners := {
  GetOwnerReferences : Content -> list OwnerReference;
  PutOwnerReferences : list OwnerReference -> Content -> Content;
  get_put_owners refs o : GetOwnerReferences (PutOwnerReferences refs o) = refs
}.

Section composed.
Context {JA : Json any} {UO : UnstructuredOwners} {JSec : Json SecretReference}.
Context {JS : Json StatusConditions} {DS : Decoded StatusConditions} {JCs : Json (list Condition)}.
Context {JO : Json ObservedStatus} {DO : Decoded ObservedStatus} {JZ : Json Z}.
Implicit Types cr : Content.

Definition composedGetCondition (ct : string) cr : Condition := getConditionAt cr ct.

Definition composedSetConditions (c : list Condition) cr : Content := setConditionsAt cr c.

Definition composedGetWriteConnectionSecretToReference cr : option SecretReference :=
  getAt cr "spec.writeConnectionSecretToRef".

Definition composedSetWriteConnectionSecretToReference (r : option SecretReference) cr : Content :=
  setAt cr "spec.writeConnectionSecretToRef" r.

Definition composedSetObservedGeneration (generation : Z) cr : Content := setObservedGenerationAt cr generation.

Definition composedGetObservedGeneration cr : Z := getObservedGenerationAt cr.

Definition OwnedBy (u : string) cr : bool :=
  existsb (fun owner => bool_decide (OwnerUID owner = u)) (GetOwnerReferences cr).

(** The loop returns at the first owner with the UID. *)
Definition RemoveOwnerRef (u : string) cr : Content :=
  let refs := GetOwnerReferences cr in
  match find_index (fun r => bool_decide (OwnerUID r = u)) refs with
  | Some i => PutOwnerReferences (remove_at i refs) cr
  | None => cr
  end.

(** Removing an owner whose UID occurs once leaves exactly the other owners
    in their order, and the resource is no longer owned by it; of an owner
    that occurs twice only the first occurrence is removed; and nothing
    changes for a UID that is no owner. *)
Theorem remove_owner (u : string) cr (l1 l2 : list OwnerReference) (r : OwnerReference) :
  GetOwnerReferences cr = l1 ++ r :: l2 -> OwnerUID r = u -> Forall (fun o => OwnerUID o <> u) l1 ->
  GetOwnerReferences (RemoveOwnerRef u cr) = l1 ++ l2 /\
  (OwnedBy u (RemoveOwnerRef u cr) = true <-> Exists (fun o => OwnerUID o = u) l2) /\
  forall v, v <> u -> OwnedBy v (RemoveOwnerRef u cr) = OwnedBy v cr.
Proof.
  intros Hr Hu Hl. assert (GetOwnerReferences (RemoveOwnerRef u cr) = l1 ++ l2) as Hg.
  { unfold RemoveOwnerRef. rewrite Hr, find_index_app_not.
    - cbn [find_index]. rewrite bool_decide_eq_true_2 by done. cbn. rewrite Nat.add_0_r, get_put_owners. apply remove_at_app.
    - eapply Forall_impl; [exact Hl|]. intros o Ho. by apply bool_decide_eq_false. }
  assert (forall v l, existsb (fun owner => bool_decide (OwnerUID owner = v)) l = true <-> Exists (fun o => OwnerUID o = v) l) as He.
  { intros v l. rewrite existsb_exists, Exists_exists. setoid_rewrite bool_decide_eq_true. setoid_rewrite list_elem_of_In. done. }
  unfold OwnedBy. rewrite Hg. split_and!; [done| |].
  - rewrite He, Exists_app. split; [|by right]. intros [H|H]; [|done]. exfalso.
    apply Exists_exists in H as (o & Ho & E). rewrite Forall_forall in Hl. by apply (Hl o).
  - intros v Hv. apply eq_true_iff_eq. rewrite !He, Hr, !Exists_app, Exists_cons. naive_solver.
Qed.

End composed.

(** Owner references kept under one field, by UID. *)
Definition ownersAt : UnstructuredOwners.
Proof.
  refine {| GetOwnerReferences o := match o !! "owners" with
              | Some (AArray l) => omap (fun v => match v with
                  | AArray [AString a; AString k; AString n; AString u; AInt c; AInt b] =>
                      Some (MkOwnerReference a k n u (if decide (c = 2%Z) then None else Some (bool_decide (c = 1%Z)))
                              (if decide (b = 2%Z) then None else Some (bool_decide (b = 1%Z))))
                  | _ => None end) l
              | _ => [] end;
            PutOwnerReferences refs o := <["owners" := AArray ((fun r => AArray [AString (APIVersion r); AString (Kind r);
              AString (OwnerName r); AString (OwnerUID r);
              AInt (match Controller r with None => 2 | Some true => 1 | Some false => 0 end)%Z;
              AInt (match BlockOwnerDeletion r with None => 2 | Some true => 1 | Some false => 0 end)%Z]) <$> refs)]> o |}.
  intros refs o. rewrite lookup_insert_eq. induction refs as [|[a k n u [[]|] [[]|]] refs IH]; [done|..]; csimpl; by rewrite IH.
Defined.

Definition demoOwner (u : string) : OwnerReference := MkOwnerReference "v1" "Kind" "n" u None None.

Lemma remove_owner_witness :
  GetOwnerReferences (UnstructuredOwners:=ownersAt)
    (RemoveOwnerRef (UO:=ownersAt) "b" (PutOwnerReferences (UnstructuredOwners:=ownersAt) [demoOwner "a"; demoOwner "b"; demoOwner "c"] ∅))
  = [demoOwner "a"; demoOwner "c"].
Proof.
  refine (proj1 (remove_owner (UO:=ownersAt) "b" _ [demoOwner "a"] [demoOwner "c"] (demoOwner "b") _ _ _)).
  - vm_compute. reflexivity.
  - reflexivity.
  - by repeat constructor.
Defined.
