(* ===== verification/Constructors.v ===== *)
(** * Making unstructured resources (pkg/resource/unstructured)

    The constructors of composite, claim and composed resources and their
    options, and what every resource made and changed through the packages has
    in common: the objects Crossplane's fields live in are objects, so that the
    round trips of the accessors apply to it. *)

From S2P Require Import Prelude GoErrors GoTime FieldPath Json Paved Conditions Meta Managed Unstructured Composite Claim Composed.

(** An object whose metadata is missing or an object, as every object the API
    server gives is. *)
Definition metadataOpen (o : Content) : Prop :=
  match o !! "metadata" with None | Some (AObject _) => True | _ => False end.

(** What unstructured.Unstructured writes of an object's identity: none of it is
    in the spec or the status, and what is written is read back. *)
Class UnstructuredSetters `{UnstructuredMeta} := {
  SetGroupVersionKind : GroupVersionKind -> Content -> Content;
  SetName : string -> Content -> Content;
  SetNamespace : string -> Content -> Content;
  SetUID : string -> Content -> Content;
  ListSetAPIVersion : string -> Content -> Content;
  ListSetKind : string -> Content -> Content;
  FromAPIVersionAndKind : string -> string -> GroupVersionKind;
  get_set_name n o : metadataOpen o -> GetName (SetName n o) = n;
  get_set_namespace n o : metadataOpen o -> GetNamespace (SetNamespace n o) = n;
  name_set_namespace n o : GetName (SetNamespace n o) = GetName o;
  name_set_uid u o : GetName (SetUID u o) = GetName o;
  namespace_set_uid u o : GetNamespace (SetUID u o) = GetNamespace o;
  set_gvk_metadata gvk o : SetGroupVersionKind gvk o !! "metadata" = o !! "metadata";
  set_name_metadata n o : metadataOpen o -> metadataOpen (SetName n o);
  set_gvk_field gvk o f : f = "spec" \/ f = "status" -> SetGroupVersionKind gvk o !! f = o !! f;
  set_name_field n o f : f = "spec" \/ f = "status" -> SetName n o !! f = o !! f;
  set_namespace_field n o f : f = "spec" \/ f = "status" -> SetNamespace n o !! f = o !! f;
  set_uid_field u o f : f = "spec" \/ f = "status" -> SetUID u o !! f = o !! f
}.

(** ** What the resources have in common *)

(** The objects of Crossplane's fields, in either schema. *)
Definition skeleton : list (list string) :=
  [["spec"; "crossplane"; ""]; ["status"; "crossplane"; "connectionDetails"; ""]; ["status"; "connectionDetails"; ""]].

Definition sound (o : Content) : Prop := Forall (open_at o) skeleton.

(** A field in one of these objects that is not one of them. *)
Inductive leaf : list string -> Prop :=
| leaf_modern f : f <> "" -> leaf ["spec"; "crossplane"; f]
| leaf_spec f : f <> "crossplane" -> leaf ["spec"; f]
| leaf_status f : f <> "crossplane" -> f <> "connectionDetails" -> leaf ["status"; f]
| leaf_modern_details f : f <> "" -> leaf ["status"; "crossplane"; "connectionDetails"; f]
| leaf_details f : f <> "" -> leaf ["status"; "connectionDetails"; f].

Lemma leaf_open (fs : list string) (o : Content) : leaf fs -> sound o -> open_at o fs.
Proof.
  unfold sound, skeleton. rewrite !Forall_cons. intros Hl (H1 & H2 & H3 & _).
  destruct Hl; [exact H1| | |exact H2|exact H3]; cbn in H1, H3 |- *; [by destruct (o !! "spec") as [[]|]|by destruct (o !! "status") as [[]|]].
Qed.

Lemma leaf_prefix (fs gs : list string) : leaf fs -> gs ∈ skeleton -> ~ fs `prefix_of` gs.
Proof. unfold skeleton. rewrite !elem_of_cons, elem_of_nil. intros Hl Hg [k Hk]. destruct Hl; naive_solver. Qed.

Lemma sound_setAt {JA : Json any} {T} {J : Json T} (o : Content) (path : string) (fs : list string) (x : T) :
  fields path fs -> leaf fs -> sound o -> sound (setAt o path x).
Proof.
  intros Hp Hl Hs. pose proof (leaf_open fs o Hl Hs) as Ho. unfold sound in *. rewrite Forall_forall in *. intros gs Hg.
  eapply (setAt_open o path fs); [done|done|by apply Hs|by apply leaf_prefix].
Qed.

Lemma sound_fields (o o' : Content) : (forall f, f = "spec" \/ f = "status" -> o' !! f = o !! f) -> sound o -> sound o'.
Proof. intros Hf. unfold sound, skeleton. rewrite !Forall_cons, !Forall_nil. cbn [open_at]. rewrite (Hf "spec"), (Hf "status") by auto. done. Qed.

Lemma sound_empty : sound ∅.
Proof. unfold sound, skeleton. by repeat constructor. Qed.

Section constructors.
Context {JA : Json any} {UM : UnstructuredMeta} {US : UnstructuredSetters}.
Context {LabelSelector ObjectRef LocalObjectReference : Type}.
Context {JL : Json LabelSelector} {JR : Json ObjectRef} {JLR : Json LocalObjectReference} {JSt : Json string}.
Context {JC : Json ClaimReference} {JCo : Json CompositeReference} {JSec : Json SecretReference} {JLSec : Json LocalSecretReference} {JT : Json Time}.
Context {JRs : Json (list ObjectRef)} {DRs : Decoded (list ObjectRef)} {JTs : Json (list string)} {DTs : Decoded (list string)}.
Context {JS : Json StatusConditions} {DS : Decoded StatusConditions} {JCs : Json (list Condition)}.
Context {JO : Json ObservedStatus} {DO : Decoded ObservedStatus} {JZ : Json Z}.
Context (RefString : ObjectRef -> string) (emptyRef : ObjectRef).

(** ** Composite resources *)

Definition CompositeOption : Type := Composite -> Composite.

Definition compositeWithGroupVersionKind (gvk : GroupVersionKind) : CompositeOption := fun c => setObject (SetGroupVersionKind gvk (Object c)) c.
Definition compositeWithConditions (conds : list Condition) : CompositeOption := compositeSetConditions conds.
Definition compositeWithSchema (s : SchemaVersion) : CompositeOption := fun c => MkComposite (Object c) s.

Definition NewComposite (opts : list CompositeOption) : Composite := foldl (fun c f => f c) (MkComposite ∅ SchemaModern) opts.

(** ** Claims *)

Definition ClaimOption : Type := Content -> Content.

Definition claimWithGroupVersionKind (gvk : GroupVersionKind) : ClaimOption := SetGroupVersionKind gvk.
Definition claimWithConditions (conds : list Condition) : ClaimOption := claimSetConditions conds.

Definition NewClaim (opts : list ClaimOption) : Content := foldl (fun c f => f c) ∅ opts.

(** ** Composed resources *)

Definition ComposedOption : Type := Content -> Content.

Definition FromReference (ref : ObjectReference) : ComposedOption := fun cr =>
  SetUID (ORUID ref) (SetNamespace (ORNamespace ref) (SetName (ORName ref)
    (SetGroupVersionKind (FromAPIVersionAndKind (ORAPIVersion ref) (ORKind ref)) cr))).

Definition composedWithConditions (conds : list Condition) : ComposedOption := composedSetConditions conds.

Definition NewComposed (opts : list ComposedOption) : Content := foldl (fun c f => f c) ∅ opts.

(** The object of a list of composed resources. *)
Definition UnstructuredList : Type := Content.

Definition ListOption : Type := UnstructuredList -> UnstructuredList.

Definition FromReferenceToList (ref : ObjectReference) : ListOption := fun list =>
  ListSetKind (ORKind ref +:+ "List") (ListSetAPIVersion (ORAPIVersion ref) list).

Definition NewList (opts : list ListOption) : UnstructuredList := foldl (fun l f => f l) ∅ opts.

(** A composed resource made of a reference is named by it. *)
Lemma from_reference_named (ref : ObjectReference) :
  GetName (NewComposed [FromReference ref]) = ORName ref /\ GetNamespace (NewComposed [FromReference ref]) = ORNamespace ref.
Proof.
  unfold NewComposed, FromReference. cbn [foldl].
  assert (forall gvk, metadataOpen (SetGroupVersionKind gvk ∅)) as Hm by (intros gvk; unfold metadataOpen; by rewrite set_gvk_metadata).
  rewrite name_set_uid, name_set_namespace, namespace_set_uid. by rewrite get_set_name, get_set_namespace by auto using set_name_metadata.
Qed.

(** A write at one of two paths, as the schema says. *)
Lemma sound_schema {T} {J : Json T} (c : Composite) (modern legacy : string) (fs gs : list string) (x : T) :
  fields modern fs -> fields legacy gs -> leaf fs -> leaf gs -> sound (Object c) -> sound (setAt (Object c) (schemaPath c modern legacy) x).
Proof. intros. unfold schemaPath. destruct (Schema c); by eapply sound_setAt. Qed.

(** What changes a composite resource: the options of the package and its
    setters, and the setters of its identity. *)
Inductive compositeOption : CompositeOption -> Prop :=
| option_gvk gvk : compositeOption (compositeWithGroupVersionKind gvk)
| option_conditions conds : compositeOption (compositeWithConditions conds)
| option_schema s : compositeOption (compositeWithSchema s).

Inductive compositeSetter : (Composite -> Composite) -> Prop :=
| set_option f : compositeOption f -> compositeSetter f
| set_name n : compositeSetter (fun c => setObject (SetName n (Object c)) c)
| set_namespace n : compositeSetter (fun c => setObject (SetNamespace n (Object c)) c)
| set_uid u : compositeSetter (fun c => setObject (SetUID u (Object c)) c)
| set_selector (sel : option LabelSelector) : compositeSetter (SetCompositionSelector sel)
| set_reference (ref : option ObjectRef) : compositeSetter (SetCompositionReference ref)
| set_revision_reference (ref : option LocalObjectReference) : compositeSetter (SetCompositionRevisionReference ref)
| set_revision_selector (sel : option LabelSelector) : compositeSetter (SetCompositionRevisionSelector sel)
| set_update_policy p : compositeSetter (SetCompositionUpdatePolicy p)
| set_claim ref : compositeSetter (SetClaimReference ref)
| set_resources refs : compositeSetter (SetResourceReferences RefString emptyRef refs)
| set_secret ref : compositeSetter (SetWriteConnectionSecretToReference ref)
| set_published t : compositeSetter (SetConnectionDetailsLastPublishedTime t)
| set_generation g : compositeSetter (SetObservedGeneration g)
| set_claim_conditions ts : compositeSetter (fun c => (SetClaimConditionTypes ts c).1).

Lemma option_sound (f : CompositeOption) (c : Composite) : compositeOption f -> sound (Object c) -> sound (Object (f c)).
Proof.
  intros [gvk|conds|s] Hs; [|eapply (sound_setAt _ _ ["status"; "conditions"]); [done|by constructor|done]|done].
  eapply sound_fields; [|exact Hs]. intros. by apply set_gvk_field.
Qed.

Ltac spec_sound := eapply (sound_schema _ _ _ ["spec"; "crossplane"; _] ["spec"; _]); [done|done|by constructor|by constructor|done].

Lemma setter_sound (f : Composite -> Composite) (c : Composite) : compositeSetter f -> sound (Object c) -> sound (Object (f c)).
Proof.
  intros Hf Hs. destruct Hf; cbn beta.
  - by apply option_sound.
  - eapply sound_fields; [|exact Hs]. intros. by apply set_name_field.
  - eapply sound_fields; [|exact Hs]. intros. by apply set_namespace_field.
  - eapply sound_fields; [|exact Hs]. intros. by apply set_uid_field.
  - spec_sound.
  - spec_sound.
  - spec_sound.
  - spec_sound.
  - spec_sound.
  - unfold SetClaimReference. case_decide; [done|]. eapply (sound_setAt _ _ ["spec"; _]); [done|by constructor|done].
  - spec_sound.
  - unfold SetWriteConnectionSecretToReference. case_decide; [done|]. eapply (sound_setAt _ _ ["spec"; _]); [done|by constructor|done].
  - eapply (sound_schema c _ _ ["status"; "crossplane"; "connectionDetails"; _] ["status"; "connectionDetails"; _]); [done|done|by constructor|by constructor|done].
  - eapply (sound_setAt _ _ ["status"; _]); [done|by constructor|done].
  - unfold SetClaimConditionTypes. case_decide; [done|]. destruct (addTypes _ _ _); [|done].
    eapply (sound_setAt _ _ ["status"; _]); [done|by constructor|done].
Qed.

Lemma foldl_sound {A} (content : A -> Content) (P : (A -> A) -> Prop) (fs : list (A -> A)) (c : A) :
  (forall f c, P f -> sound (content c) -> sound (content (f c))) -> Forall P fs -> sound (content c) -> sound (content (foldl (fun c f => f c) c fs)).
Proof. intros HP Hfs. revert c. induction Hfs as [|f fs Hf _ IH]; intros c Hc; [done|]. apply IH. by apply HP. Qed.

Lemma sound_wellformed (c : Composite) : sound (Object c) -> wellformed c.
Proof.
  intros Hs. assert (open_at (Object c) ["spec"; ""]) as H1 by (eapply leaf_open; [by constructor|done]).
  unfold sound, skeleton in Hs. rewrite !Forall_cons in Hs. destruct_and!. unfold wellformed. by destruct (Schema c).
Qed.

(** C36: on a composite resource made by the package's constructor and options,
    and changed by any sequence of its setters and options, in either schema
    and also when the schema changes on the way, every setter of Crossplane's
    fields takes effect: the getter returns the value, if it is not nil and
    survives its JSON encoding, where empty references are left out, and the
    generation and the merged conditions are in the status.  The setters of
    the claim, its condition types and the connection secret do nothing in the
    modern schema.  This holds because the objects Crossplane's fields live in
    stay missing or objects: no setter ever puts a value where another one
    expects an object, whatever the encoding of the values. *)
Theorem composite_typed (opts : list CompositeOption) (fs : list (Composite -> Composite)) :
  Forall compositeOption opts -> Forall compositeSetter fs ->
  let c := foldl (fun c f => f c) (NewComposite opts) fs in
  wellformed c /\ settersEffective (LabelSelector:=LabelSelector) (LocalObjectReference:=LocalObjectReference) RefString emptyRef c.
Proof.
  intros Ho Hf c. assert (wellformed c) as Hw.
  { apply sound_wellformed. eapply (foldl_sound Object); [exact setter_sound|done|].
    eapply (foldl_sound Object); [exact option_sound|done|exact sound_empty]. }
  split; [done|by apply composite_roundtrip].
Qed.

(** ** Claims and composed resources *)

Inductive claimSetter : ClaimOption -> Prop :=
| claim_gvk gvk : claimSetter (claimWithGroupVersionKind gvk)
| claim_conditions conds : claimSetter (claimWithConditions conds)
| claim_name n : claimSetter (SetName n)
| claim_namespace n : claimSetter (SetNamespace n)
| claim_selector (sel : option LabelSelector) : claimSetter (claimSetCompositionSelector sel)
| claim_reference (ref : option ObjectRef) : claimSetter (claimSetCompositionReference ref)
| claim_revision_reference (ref : option LocalObjectReference) : claimSetter (claimSetCompositionRevisionReference ref)
| claim_revision_selector (sel : option LabelSelector) : claimSetter (claimSetCompositionRevisionSelector sel)
| claim_update_policy p : claimSetter (claimSetCompositionUpdatePolicy p)
| claim_delete_policy p : claimSetter (SetCompositeDeletePolicy p)
| claim_resource ref : claimSetter (SetResourceReference ref)
| claim_secret ref : claimSetter (claimSetWriteConnectionSecretToReference ref)
| claim_published t : claimSetter (claimSetConnectionDetailsLastPublishedTime t)
| claim_generation g : claimSetter (claimSetObservedGeneration g).

Lemma claimSetter_sound (f : ClaimOption) (c : Content) : claimSetter f -> sound c -> sound (f c).
Proof.
  intros Hf Hs. destruct Hf; cbn beta.
  1: eapply sound_fields; [intros; by apply set_gvk_field|done].
  2: eapply sound_fields; [intros; by apply set_name_field|done].
  2: eapply sound_fields; [intros; by apply set_namespace_field|done].
  1: eapply (sound_setAt _ _ ["status"; _]); [done|by constructor|done].
  1-8: eapply (sound_setAt _ _ ["spec"; _]); [done|by constructor|done].
  - eapply (sound_setAt _ _ ["status"; "connectionDetails"; _]); [done|by constructor|done].
  - eapply (sound_setAt _ _ ["status"; _]); [done|by constructor|done].
Qed.

(** What the accessors of a claim need of it. *)
Lemma claim_typed (opts fs : list ClaimOption) :
  Forall claimSetter opts -> Forall claimSetter fs ->
  open_at (foldl (fun c f => f c) (NewClaim opts) fs) ["spec"; ""] /\
  open_at (foldl (fun c f => f c) (NewClaim opts) fs) ["status"; "connectionDetails"; ""].
Proof.
  intros Ho Hf. assert (sound (foldl (fun c f => f c) (NewClaim opts) fs)) as Hs.
  { eapply (foldl_sound id); [exact claimSetter_sound|done|]. eapply (foldl_sound id); [exact claimSetter_sound|done|exact sound_empty]. }
  split; [by eapply leaf_open; [constructor|]|]. unfold sound, skeleton in Hs. rewrite !Forall_cons in Hs. by destruct_and!.
Qed.

Inductive composedSetter : ComposedOption -> Prop :=
| composed_from ref : composedSetter (FromReference ref)
| composed_conditions conds : composedSetter (composedWithConditions conds)
| composed_secret r : composedSetter (composedSetWriteConnectionSecretToReference r)
| composed_generation g : composedSetter (composedSetObservedGeneration g).

Lemma composedSetter_sound (f : ComposedOption) (c : Content) : composedSetter f -> sound c -> sound (f c).
Proof.
  intros [ref|conds|r|g] Hs.
  - eapply sound_fields; [|exact Hs]. intros fld Hf. unfold FromReference.
    by rewrite set_uid_field, set_namespace_field, set_name_field, set_gvk_field.
  - eapply (sound_setAt _ _ ["status"; _]); [done|by constructor|done].
  - eapply (sound_setAt _ _ ["spec"; _]); [done|by constructor|done].
  - eapply (sound_setAt _ _ ["status"; _]); [done|by constructor|done].
Qed.

Lemma composed_typed (opts fs : list ComposedOption) :
  Forall composedSetter opts -> Forall composedSetter fs -> open_at (foldl (fun c f => f c) (NewComposed opts) fs) ["spec"; ""].
Proof.
  intros Ho Hf. eapply leaf_open; [by constructor|]. eapply (foldl_sound id); [exact composedSetter_sound|done|].
  eapply (foldl_sound id); [exact composedSetter_sound|done|exact sound_empty].
Qed.

End constructors.

(** ** A concrete resource *)

(** An identity kept in the metadata, the way unstructured.Unstructured does. *)
Definition metadataOf (o : Content) : Content := match o !! "metadata" with Some (AObject m) => m | _ => ∅ end.
Definition metadataField (f : string) (o : Content) : string := match metadataOf o !! f with Some (AString s) => s | _ => "" end.
Definition topField (f : string) (o : Content) : string := match o !! f with Some (AString s) => s | _ => "" end.
Definition putMetadata (f v : string) (o : Content) : Content := <["metadata" := AObject (<[f := AString v]> (metadataOf o))]> o.

Definition metaDemo : UnstructuredMeta := {|
  GetAPIVersion := topField "apiVersion"; GetKind := topField "kind";
  GetName := metadataField "name"; GetNamespace := metadataField "namespace"
|}.

Lemma metadataField_put (f g v : string) (o : Content) : metadataField f (putMetadata g v o) = if decide (f = g) then v else metadataField f o.
Proof.
  unfold metadataField, putMetadata. unfold metadataOf at 1. rewrite lookup_insert_eq.
  case_decide; subst; [by rewrite lookup_insert_eq|by rewrite lookup_insert_ne].
Qed.

Definition settersDemo : UnstructuredSetters (H:=metaDemo).
Proof.
  refine {|
    SetGroupVersionKind gvk o := <["kind" := AString (GKind gvk)]> (<["apiVersion" := AString (Group gvk +:+ "/" +:+ Version gvk)]> o);
    SetName := putMetadata "name"; SetNamespace := putMetadata "namespace"; SetUID := putMetadata "uid";
    ListSetAPIVersion v o := <["apiVersion" := AString v]> o; ListSetKind k o := <["kind" := AString k]> o;
    FromAPIVersionAndKind v k := MkGVK "" v k |}.
  1-5: intros; cbn [GetName GetNamespace metaDemo]; by rewrite metadataField_put.
  - intros. by rewrite !lookup_insert_ne.
  - intros n o _. unfold metadataOpen, putMetadata. by rewrite lookup_insert_eq.
  - intros gvk o f [->| ->]; by rewrite !lookup_insert_ne.
  - intros gvk o f [->| ->]; unfold putMetadata; by rewrite !lookup_insert_ne.
  - intros gvk o f [->| ->]; unfold putMetadata; by rewrite !lookup_insert_ne.
  - intros gvk o f [->| ->]; unfold putMetadata; by rewrite !lookup_insert_ne.
Defined.

Definition noJson (T : Type) : Json T := Build_Json T (fun _ => inr (errorString "")) (fun _ => inr (errorString "")).

(** A resource that becomes legacy after its selector was set. *)
Definition demoSetters : list (Composite -> Composite) :=
  [SetCompositionSelector (JA:=JsonDemo) (JL:=JsonBool) (Some true); compositeWithSchema SchemaLegacy;
   SetCompositionSelector (JA:=JsonDemo) (JL:=JsonBool) (Some false)].

Lemma composite_typed_witness :
  let c := foldl (fun c f => f c) (NewComposite [compositeWithGroupVersionKind (UM:=metaDemo) (US:=settersDemo) (MkGVK "g" "v1" "K")]) demoSetters in
  wellformed c /\
  Object c !! "spec" = Some (AObject {["crossplane" := AObject {["compositionSelector" := ABool true]}; "compositionSelector" := ABool false]}) /\
  GetCompositionSelector (JA:=JsonDemo) (JL:=JsonBool) (SetCompositionSelector (JA:=JsonDemo) (JL:=JsonBool) (Some true) c) = Some true.
Proof.
  destruct (composite_typed (JA:=JsonDemo) (UM:=metaDemo) (US:=settersDemo) (LabelSelector:=bool) (ObjectRef:=unit) (LocalObjectReference:=unit)
    (JL:=JsonBool) (JR:=noJson _) (JLR:=noJson _) (JSt:=noJson _) (JC:=noJson _) (JSec:=noJson _) (JT:=noJson _) (JRs:=noJson _)
    (DRs:={| zero := []; partially _ := [] |}) (JTs:=noJson _)
    (DTs:=demoTypes) (JS:=noJson _) (DS:={| zero := MkStatusConditions []; partially _ := MkStatusConditions [] |}) (JCs:=noJson _) (JZ:=noJson _)
    (fun _ => "") tt [compositeWithGroupVersionKind (UM:=metaDemo) (US:=settersDemo) (MkGVK "g" "v1" "K")] demoSetters) as [Hw He].
  - repeat constructor.
  - unfold demoSetters. constructor; [apply set_selector|]. constructor; [apply set_option, option_schema|]. constructor; [apply set_selector|constructor].
  - split; [exact Hw|]. split; [vm_compute; reflexivity|]. destruct He as [He _]. apply (He true). exists (ABool true), "true". vm_compute. done.
Defined.
