(* ===== verification/Interfaces.v ===== *)
(** * The interfaces of resources (pkg/resource/interfaces.go)

    Go's interfaces as type classes, with the methods' names.  Interfaces whose
    methods differ only in the type of what they hold are one class with that
    type as a parameter.  A struct that embeds another has its methods: [Embeds]
    is the embedding, and the promoted methods are instances found through it.
    The metadata and copies every resource has (the interface Object) are left
    out of the classes; where they matter they are those of Applicator.v. *)

From S2P Require Import Prelude GoTime Conditions Meta Managed Applicator Reference ProviderConfig Unstructured Composite Claim.

(** ** Attributes of resources *)

Class Conditioned (O : Type) := {
  SetConditions : list Condition -> O -> O;
  GetCondition : string -> O -> Condition
}.

Class ClaimReferencer (O : Type) := {
  SetClaimReference : option ClaimReference -> O -> O;
  GetClaimReference : O -> option ClaimReference
}.

(** [ManagedResourceReferencer], [RequiredTypedResourceReferencer] and
    [CompositeResourceReferencer]. *)
Class ResourceReferencer (V O : Type) := {
  SetResourceReference : V -> O -> O;
  GetResourceReference : O -> V
}.

(** [ConnectionSecretWriterTo] and [LocalConnectionSecretWriterTo]. *)
Class ConnectionSecretWriterTo (V O : Type) := {
  SetWriteConnectionSecretToReference : option V -> O -> O;
  GetWriteConnectionSecretToReference : O -> option V
}.

Class Manageable (O : Type) := {
  SetManagementPolicies : list string -> O -> O;
  GetManagementPolicies : O -> list string
}.

Class Orphanable (O : Type) := {
  SetDeletionPolicy : string -> O -> O;
  GetDeletionPolicy : O -> string
}.

(** [ProviderConfigReferencer], [TypedProviderConfigReferencer] and the ones of
    usages, whose references are required. *)
Class ProviderConfigReferencer (V O : Type) := {
  GetProviderConfigReference : O -> V;
  SetProviderConfigReference : V -> O -> O
}.

Class CompositionSelector (LabelSelector O : Type) := {
  SetCompositionSelector : option LabelSelector -> O -> O;
  GetCompositionSelector : O -> option LabelSelector
}.

Class CompositionReferencer (ObjectRef O : Type) := {
  SetCompositionReference : option ObjectRef -> O -> O;
  GetCompositionReference : O -> option ObjectRef
}.

Class CompositionRevisionReferencer (LocalObjectReference O : Type) := {
  SetCompositionRevisionReference : option LocalObjectReference -> O -> O;
  GetCompositionRevisionReference : O -> option LocalObjectReference
}.

Class CompositionRevisionSelector (LabelSelector O : Type) := {
  SetCompositionRevisionSelector : option LabelSelector -> O -> O;
  GetCompositionRevisionSelector : O -> option LabelSelector
}.

Class CompositionUpdater (O : Type) := {
  SetCompositionUpdatePolicy : option string -> O -> O;
  GetCompositionUpdatePolicy : O -> option string
}.

Class CompositeResourceDeleter (O : Type) := {
  SetCompositeDeletePolicy : option string -> O -> O;
  GetCompositeDeletePolicy : O -> option string
}.

Class ComposedResourcesReferencer (ObjectRef O : Type) := {
  SetResourceReferences : list ObjectRef -> O -> O;
  GetResourceReferences : O -> list ObjectRef
}.

Class EnvironmentConfigReferencer (ObjectRef O : Type) := {
  SetEnvironmentConfigReferences : list ObjectRef -> O -> O;
  GetEnvironmentConfigReferences : O -> list ObjectRef
}.

Class UserCounter (O : Type) := { SetUsers : Z -> O -> O; GetUsers : O -> Z }.

Class ConnectionDetailsPublishedTimer (O : Type) := {
  SetConnectionDetailsLastPublishedTime : option Time -> O -> O;
  GetConnectionDetailsLastPublishedTime : O -> option Time
}.

Class ReconciliationObserver (O : Type) := {
  SetObservedGeneration : Z -> O -> O;
  GetObservedGeneration : O -> Z
}.

(** ** Kinds of resources *)

(** [LegacyProviderConfigUsage] and [TypedProviderConfigUsage] differ in how they
    refer to a ProviderConfig. *)
Class ProviderConfigI (O : Type) := {
  providerConfig_users :: UserCounter O;
  providerConfig_conditioned :: Conditioned O
}.

Class ProviderConfigUsageI (O : Type) := { usage_resource :: ResourceReferencer TypedReference O }.

Class TypedProviderConfigUsageI (O : Type) := {
  typedUsage_usage :: ProviderConfigUsageI O;
  typedUsage_config :: ProviderConfigReferencer ProviderConfigReference O
}.

Class LegacyProviderConfigUsageI (O : Type) := {
  legacyUsage_usage :: ProviderConfigUsageI O;
  legacyUsage_config :: ProviderConfigReferencer Reference O
}.

Class ManagedI (O : Type) := {
  managed_manageable :: Manageable O;
  managed_conditioned :: Conditioned O
}.

Class ModernManagedI (O : Type) := {
  modern_managed :: ManagedI O;
  modern_secret :: ConnectionSecretWriterTo LocalSecretReference O;
  modern_config :: ProviderConfigReferencer (option ProviderConfigReference) O
}.

Class LegacyManagedI (O : Type) := {
  legacy_managed :: ManagedI O;
  legacy_secret :: ConnectionSecretWriterTo SecretReference O;
  legacy_config :: ProviderConfigReferencer (option Reference) O;
  legacy_orphanable :: Orphanable O
}.

Class CompositeI (LabelSelector ObjectRef LocalObjectReference O : Type) := {
  composite_selector :: CompositionSelector LabelSelector O;
  composite_reference :: CompositionReferencer ObjectRef O;
  composite_updater :: CompositionUpdater O;
  composite_revision_reference :: CompositionRevisionReferencer LocalObjectReference O;
  composite_revision_selector :: CompositionRevisionSelector LabelSelector O;
  composite_resources :: ComposedResourcesReferencer ObjectRef O;
  composite_conditioned :: Conditioned O;
  composite_observer :: ReconciliationObserver O
}.

Class LegacyCompositeI (LabelSelector ObjectRef LocalObjectReference O : Type) := {
  legacyComposite_composite :: CompositeI LabelSelector ObjectRef LocalObjectReference O;
  legacyComposite_claim :: ClaimReferencer O;
  legacyComposite_secret :: ConnectionSecretWriterTo SecretReference O;
  legacyComposite_published :: ConnectionDetailsPublishedTimer O
}.

Class ComposedI (O : Type) := {
  composed_conditioned :: Conditioned O;
  composed_secret :: ConnectionSecretWriterTo SecretReference O;
  composed_observer :: ReconciliationObserver O
}.

Class CompositeClaimI (LabelSelector ObjectRef LocalObjectReference O : Type) := {
  claim_selector :: CompositionSelector LabelSelector O;
  claim_reference :: CompositionReferencer ObjectRef O;
  claim_updater :: CompositionUpdater O;
  claim_revision_reference :: CompositionRevisionReferencer LocalObjectReference O;
  claim_revision_selector :: CompositionRevisionSelector LabelSelector O;
  claim_deleter :: CompositeResourceDeleter O;
  claim_resource :: ResourceReferencer (option CompositeReference) O;
  claim_secret :: ConnectionSecretWriterTo LocalSecretReference O;
  claim_conditioned :: Conditioned O;
  claim_published :: ConnectionDetailsPublishedTimer O;
  claim_observer :: ReconciliationObserver O
}.

(** ** Embedding *)

Class Embeds (O E : Type) := {
  embedded : O -> E;
  embed : E -> O -> O;
  embedded_embed e o : embedded (embed e o) = e;
  embed_embedded o : embed (embedded o) o = o
}.

Section promoted.
Context {O E : Type} {EM : Embeds O E}.

(** A method of the embedded value, as a method of the struct around it. *)
Definition promote (f : E -> E) (o : O) : O := embed (f (embedded o)) o.

#[export] Instance promoted_Conditioned `{!Conditioned E} : Conditioned O :=
  {| SetConditions c := promote (SetConditions c); GetCondition ct o := GetCondition ct (embedded o) |}.
#[export] Instance promoted_ClaimReferencer `{!ClaimReferencer E} : ClaimReferencer O :=
  {| SetClaimReference r := promote (SetClaimReference r); GetClaimReference o := GetClaimReference (embedded o) |}.
#[export] Instance promoted_ResourceReferencer `{!ResourceReferencer V E} : ResourceReferencer V O :=
  {| SetResourceReference r := promote (SetResourceReference r); GetResourceReference o := GetResourceReference (embedded o) |}.
#[export] Instance promoted_ConnectionSecretWriterTo `{!ConnectionSecretWriterTo V E} : ConnectionSecretWriterTo V O :=
  {| SetWriteConnectionSecretToReference r := promote (SetWriteConnectionSecretToReference r);
     GetWriteConnectionSecretToReference o := GetWriteConnectionSecretToReference (embedded o) |}.
#[export] Instance promoted_Manageable `{!Manageable E} : Manageable O :=
  {| SetManagementPolicies p := promote (SetManagementPolicies p); GetManagementPolicies o := GetManagementPolicies (embedded o) |}.
#[export] Instance promoted_Orphanable `{!Orphanable E} : Orphanable O :=
  {| SetDeletionPolicy p := promote (SetDeletionPolicy p); GetDeletionPolicy o := GetDeletionPolicy (embedded o) |}.
#[export] Instance promoted_ProviderConfigReferencer `{!ProviderConfigReferencer V E} : ProviderConfigReferencer V O :=
  {| SetProviderConfigReference r := promote (SetProviderConfigReference r);
     GetProviderConfigReference o := GetProviderConfigReference (embedded o) |}.
#[export] Instance promoted_CompositionSelector `{!CompositionSelector L E} : CompositionSelector L O :=
  {| SetCompositionSelector s := promote (SetCompositionSelector s); GetCompositionSelector o := GetCompositionSelector (embedded o) |}.
#[export] Instance promoted_CompositionReferencer `{!CompositionReferencer R E} : CompositionReferencer R O :=
  {| SetCompositionReference r := promote (SetCompositionReference r); GetCompositionReference o := GetCompositionReference (embedded o) |}.
#[export] Instance promoted_CompositionRevisionReferencer `{!CompositionRevisionReferencer R E} : CompositionRevisionReferencer R O :=
  {| SetCompositionRevisionReference r := promote (SetCompositionRevisionReference r);
     GetCompositionRevisionReference o := GetCompositionRevisionReference (embedded o) |}.
#[export] Instance promoted_CompositionRevisionSelector `{!CompositionRevisionSelector L E} : CompositionRevisionSelector L O :=
  {| SetCompositionRevisionSelector s := promote (SetCompositionRevisionSelector s);
     GetCompositionRevisionSelector o := GetCompositionRevisionSelector (embedded o) |}.
#[export] Instance promoted_CompositionUpdater `{!CompositionUpdater E} : CompositionUpdater O :=
  {| SetCompositionUpdatePolicy p := promote (SetCompositionUpdatePolicy p);
     GetCompositionUpdatePolicy o := GetCompositionUpdatePolicy (embedded o) |}.
#[export] Instance promoted_CompositeResourceDeleter `{!CompositeResourceDeleter E} : CompositeResourceDeleter O :=
  {| SetCompositeDeletePolicy p := promote (SetCompositeDeletePolicy p); GetCompositeDeletePolicy o := GetCompositeDeletePolicy (embedded o) |}.
#[export] Instance promoted_ComposedResourcesReferencer `{!ComposedResourcesReferencer R E} : ComposedResourcesReferencer R O :=
  {| SetResourceReferences r := promote (SetResourceReferences r); GetResourceReferences o := GetResourceReferences (embedded o) |}.
#[export] Instance promoted_EnvironmentConfigReferencer `{!EnvironmentConfigReferencer R E} : EnvironmentConfigReferencer R O :=
  {| SetEnvironmentConfigReferences r := promote (SetEnvironmentConfigReferences r);
     GetEnvironmentConfigReferences o := GetEnvironmentConfigReferences (embedded o) |}.
#[export] Instance promoted_UserCounter `{!UserCounter E} : UserCounter O :=
  {| SetUsers i := promote (SetUsers i); GetUsers o := GetUsers (embedded o) |}.
#[export] Instance promoted_ConnectionDetailsPublishedTimer `{!ConnectionDetailsPublishedTimer E} : ConnectionDetailsPublishedTimer O :=
  {| SetConnectionDetailsLastPublishedTime t := promote (SetConnectionDetailsLastPublishedTime t);
     GetConnectionDetailsLastPublishedTime o := GetConnectionDetailsLastPublishedTime (embedded o) |}.
#[export] Instance promoted_ReconciliationObserver `{!ReconciliationObserver E} : ReconciliationObserver O :=
  {| SetObservedGeneration g := promote (SetObservedGeneration g); GetObservedGeneration o := GetObservedGeneration (embedded o) |}.

End promoted.

(** ** Statuses *)

#[export] Instance ConditionedStatus_Conditioned : Conditioned ConditionedStatus :=
  {| SetConditions := Conditions.SetConditions; GetCondition := Conditions.GetCondition |}.

#[export] Instance ObservedStatus_Observer : ReconciliationObserver ObservedStatus :=
  {| SetObservedGeneration generation _ := MkObservedStatus generation; GetObservedGeneration := StatusObservedGeneration |}.

(** [ResourceStatus] embeds both. *)
Record ResourceStatus := MkResourceStatus { rsConditioned : ConditionedStatus; rsObserved : ObservedStatus }.

#[export] Instance ResourceStatus_conditioned : Embeds ResourceStatus ConditionedStatus.
Proof. by refine {| embedded := rsConditioned; embed e o := MkResourceStatus e (rsObserved o) |}; [|intros []]. Defined.
#[export] Instance ResourceStatus_observed : Embeds ResourceStatus ObservedStatus.
Proof. by refine {| embedded := rsObserved; embed e o := MkResourceStatus (rsConditioned o) e |}; [|intros []]. Defined.
