(* ===== verification/Fakes.v ===== *)
(** * Fake resources (pkg/resource/fake/mocks.go)

    The structs that stand for resources in tests, each with the interface it
    implements, and the resources put together from them by embedding. *)

From S2P Require Import Prelude GoErrors GoTime FieldPath Json Paved Conditions Meta Managed Applicator Reference ProviderConfig Unstructured Composite Claim Constructors Interfaces.

(** ** Structs with one attribute *)

Record mockConditioned := MkMockConditioned { mcConditions : list Condition }.
#[export] Instance mockConditioned_impl : Conditioned mockConditioned :=
  {| Interfaces.SetConditions c _ := MkMockConditioned c;
     Interfaces.GetCondition ct _ := MkCondition ct ConditionUnknown 0 "" "" 0 |}.

Record mockClaimReferencer := MkMockClaimReferencer { mclRef : option ClaimReference }.
#[export] Instance mockClaimReferencer_impl : ClaimReferencer mockClaimReferencer :=
  {| Interfaces.SetClaimReference r _ := MkMockClaimReferencer r; Interfaces.GetClaimReference := mclRef |}.

Record mockManagedResourceReferencer := MkMockManagedResourceReferencer { mmrRef : option ObjectReference }.
#[export] Instance mockManagedResourceReferencer_impl : ResourceReferencer (option ObjectReference) mockManagedResourceReferencer :=
  {| SetResourceReference r _ := MkMockManagedResourceReferencer r; GetResourceReference := mmrRef |}.

Record mockTypedProviderConfigReferencer := MkMockTypedProviderConfigReferencer { mtpRef : option ProviderConfigReference }.
#[export] Instance mockTypedProviderConfigReferencer_impl : ProviderConfigReferencer (option ProviderConfigReference) mockTypedProviderConfigReferencer :=
  {| SetProviderConfigReference p _ := MkMockTypedProviderConfigReferencer p; GetProviderConfigReference := mtpRef |}.

Record mockLegacyProviderConfigReferencer := MkMockLegacyProviderConfigReferencer { mlpRef : option Reference }.
#[export] Instance mockLegacyProviderConfigReferencer_impl : ProviderConfigReferencer (option Reference) mockLegacyProviderConfigReferencer :=
  {| SetProviderConfigReference p _ := MkMockLegacyProviderConfigReferencer p; GetProviderConfigReference := mlpRef |}.

Record mockRequiredProviderConfigReferencer := MkMockRequiredProviderConfigReferencer { mrpRef : Reference }.
#[export] Instance mockRequiredProviderConfigReferencer_impl : ProviderConfigReferencer Reference mockRequiredProviderConfigReferencer :=
  {| SetProviderConfigReference p _ := MkMockRequiredProviderConfigReferencer p; GetProviderConfigReference := mrpRef |}.

Record mockRequiredTypedProviderConfigReferencer := MkMockRequiredTypedProviderConfigReferencer { mrtRef : ProviderConfigReference }.
#[export] Instance mockRequiredTypedProviderConfigReferencer_impl : ProviderConfigReferencer ProviderConfigReference mockRequiredTypedProviderConfigReferencer :=
  {| SetProviderConfigReference p _ := MkMockRequiredTypedProviderConfigReferencer p; GetProviderConfigReference := mrtRef |}.

Record mockRequiredTypedResourceReferencer := MkMockRequiredTypedResourceReferencer { mrrRef : TypedReference }.
#[export] Instance mockRequiredTypedResourceReferencer_impl : ResourceReferencer TypedReference mockRequiredTypedResourceReferencer :=
  {| SetResourceReference p _ := MkMockRequiredTypedResourceReferencer p; GetResourceReference := mrrRef |}.

Record mockLocalConnectionSecretWriterTo := MkMockLocalConnectionSecretWriterTo { mlsRef : option LocalSecretReference }.
#[export] Instance mockLocalConnectionSecretWriterTo_impl : ConnectionSecretWriterTo LocalSecretReference mockLocalConnectionSecretWriterTo :=
  {| Interfaces.SetWriteConnectionSecretToReference r _ := MkMockLocalConnectionSecretWriterTo r;
     Interfaces.GetWriteConnectionSecretToReference := mlsRef |}.

Record mockConnectionSecretWriterTo := MkMockConnectionSecretWriterTo { mcsRef : option SecretReference }.
#[export] Instance mockConnectionSecretWriterTo_impl : ConnectionSecretWriterTo SecretReference mockConnectionSecretWriterTo :=
  {| Interfaces.SetWriteConnectionSecretToReference r _ := MkMockConnectionSecretWriterTo r;
     Interfaces.GetWriteConnectionSecretToReference := mcsRef |}.

Record mockManageable := MkMockManageable { mmPolicy : list string }.
#[export] Instance mockManageable_impl : Manageable mockManageable :=
  {| SetManagementPolicies p _ := MkMockManageable p; GetManagementPolicies := mmPolicy |}.

Record mockOrphanable := MkMockOrphanable { moPolicy : string }.
#[export] Instance mockOrphanable_impl : Orphanable mockOrphanable :=
  {| SetDeletionPolicy p _ := MkMockOrphanable p; GetDeletionPolicy := moPolicy |}.

Record mockCompositionUpdater := MkMockCompositionUpdater { mcuPolicy : option string }.
#[export] Instance mockCompositionUpdater_impl : CompositionUpdater mockCompositionUpdater :=
  {| Interfaces.SetCompositionUpdatePolicy p _ := MkMockCompositionUpdater p; Interfaces.GetCompositionUpdatePolicy := mcuPolicy |}.

Record mockCompositeResourceDeleter := MkMockCompositeResourceDeleter { mcdPolicy : option string }.
#[export] Instance mockCompositeResourceDeleter_impl : CompositeResourceDeleter mockCompositeResourceDeleter :=
  {| Interfaces.SetCompositeDeletePolicy p _ := MkMockCompositeResourceDeleter p; Interfaces.GetCompositeDeletePolicy := mcdPolicy |}.

Record mockCompositeResourceReferencer := MkMockCompositeResourceReferencer { mcrRef : option CompositeReference }.
#[export] Instance mockCompositeResourceReferencer_impl : ResourceReferencer (option CompositeReference) mockCompositeResourceReferencer :=
  {| SetResourceReference p _ := MkMockCompositeResourceReferencer p; GetResourceReference := mcrRef |}.

Record mockConnectionDetailsLastPublishedTimer := MkMockConnectionDetailsLastPublishedTimer { mctTime : option Time }.
#[export] Instance mockConnectionDetailsLastPublishedTimer_impl : ConnectionDetailsPublishedTimer mockConnectionDetailsLastPublishedTimer :=
  {| Interfaces.SetConnectionDetailsLastPublishedTime t _ := MkMockConnectionDetailsLastPublishedTimer t;
     Interfaces.GetConnectionDetailsLastPublishedTime := mctTime |}.

Record mockUserCounter := MkMockUserCounter { muUsers : Z }.
#[export] Instance mockUserCounter_impl : UserCounter mockUserCounter :=
  {| Interfaces.SetUsers i _ := MkMockUserCounter i; GetUsers := muUsers |}.

Record mockCompositionReferencer (R : Type) := MkMockCompositionReferencer { mcfRef : option R }.
#[export] Instance mockCompositionReferencer_impl {R} : CompositionReferencer R (mockCompositionReferencer R) :=
  {| Interfaces.SetCompositionReference r _ := MkMockCompositionReferencer R r; Interfaces.GetCompositionReference := mcfRef R |}.

Record mockCompositionSelector (L : Type) := MkMockCompositionSelector { mcsSel : option L }.
#[export] Instance mockCompositionSelector_impl {L} : CompositionSelector L (mockCompositionSelector L) :=
  {| Interfaces.SetCompositionSelector s _ := MkMockCompositionSelector L s; Interfaces.GetCompositionSelector := mcsSel L |}.

Record mockCompositionRevisionReferencer (R : Type) := MkMockCompositionRevisionReferencer { mcvRef : option R }.
#[export] Instance mockCompositionRevisionReferencer_impl {R} : CompositionRevisionReferencer R (mockCompositionRevisionReferencer R) :=
  {| Interfaces.SetCompositionRevisionReference r _ := MkMockCompositionRevisionReferencer R r;
     Interfaces.GetCompositionRevisionReference := mcvRef R |}.

Record mockCompositionRevisionSelector (L : Type) := MkMockCompositionRevisionSelector { mcvSel : option L }.
#[export] Instance mockCompositionRevisionSelector_impl {L} : CompositionRevisionSelector L (mockCompositionRevisionSelector L) :=
  {| Interfaces.SetCompositionRevisionSelector s _ := MkMockCompositionRevisionSelector L s;
     Interfaces.GetCompositionRevisionSelector := mcvSel L |}.

Record mockComposedResourcesReferencer (R : Type) := MkMockComposedResourcesReferencer { mcrRefs : list R }.
#[export] Instance mockComposedResourcesReferencer_impl {R} : ComposedResourcesReferencer R (mockComposedResourcesReferencer R) :=
  {| Interfaces.SetResourceReferences r _ := MkMockComposedResourcesReferencer R r; Interfaces.GetResourceReferences := mcrRefs R |}.

Record mockEnvironmentConfigReferencer (R : Type) := MkMockEnvironmentConfigReferencer { mecRefs : list R }.
#[export] Instance mockEnvironmentConfigReferencer_impl {R} : EnvironmentConfigReferencer R (mockEnvironmentConfigReferencer R) :=
  {| SetEnvironmentConfigReferences r _ := MkMockEnvironmentConfigReferencer R r; GetEnvironmentConfigReferences := mecRefs R |}.

(** A test that sets the conditions of this one and reads them finds none. *)
Lemma mockConditioned_blind (c : list Condition) (ct : string) (m : mockConditioned) :
  CStatus (Interfaces.GetCondition ct (Interfaces.SetConditions c m)) = ConditionUnknown.
Proof. done. Qed.

(** ** Structs that embed them *)

Ltac solve_embeds := solve [done | by intros []].

Record mockManaged := MkMockManaged { mmMeta : ObjectMeta; mmManageable : mockManageable; mmStatus : ConditionedStatus }.
#[export] Instance mockManaged_manageable : Embeds mockManaged mockManageable.
Proof. refine {| embedded := mmManageable; embed e o := MkMockManaged (mmMeta o) e (mmStatus o) |}; solve_embeds. Defined.
#[export] Instance mockManaged_status : Embeds mockManaged ConditionedStatus.
Proof. refine {| embedded := mmStatus; embed e o := MkMockManaged (mmMeta o) (mmManageable o) e |}; solve_embeds. Defined.
#[export] Instance mockManaged_impl : ManagedI mockManaged.
Proof. split; apply _. Defined.

Record mockModernManaged := MkMockModernManaged {
  mnMeta : ObjectMeta; mnConfig : mockTypedProviderConfigReferencer; mnSecret : mockLocalConnectionSecretWriterTo;
  mnManageable : mockManageable; mnStatus : ConditionedStatus
}.
#[export] Instance mockModernManaged_config : Embeds mockModernManaged mockTypedProviderConfigReferencer.
Proof. refine {| embedded := mnConfig; embed e o := MkMockModernManaged (mnMeta o) e (mnSecret o) (mnManageable o) (mnStatus o) |}; solve_embeds. Defined.
#[export] Instance mockModernManaged_secret : Embeds mockModernManaged mockLocalConnectionSecretWriterTo.
Proof. refine {| embedded := mnSecret; embed e o := MkMockModernManaged (mnMeta o) (mnConfig o) e (mnManageable o) (mnStatus o) |}; solve_embeds. Defined.
#[export] Instance mockModernManaged_manageable : Embeds mockModernManaged mockManageable.
Proof. refine {| embedded := mnManageable; embed e o := MkMockModernManaged (mnMeta o) (mnConfig o) (mnSecret o) e (mnStatus o) |}; solve_embeds. Defined.
#[export] Instance mockModernManaged_status : Embeds mockModernManaged ConditionedStatus.
Proof. refine {| embedded := mnStatus; embed e o := MkMockModernManaged (mnMeta o) (mnConfig o) (mnSecret o) (mnManageable o) e |}; solve_embeds. Defined.
#[export] Instance mockModernManaged_impl : ModernManagedI mockModernManaged.
Proof. repeat (split; try apply _). Defined.

Record mockLegacyManaged := MkMockLegacyManaged {
  mlMeta : ObjectMeta; mlConfig : mockLegacyProviderConfigReferencer; mlSecret : mockConnectionSecretWriterTo;
  mlManageable : mockManageable; mlOrphanable : mockOrphanable; mlStatus : ConditionedStatus
}.
#[export] Instance mockLegacyManaged_config : Embeds mockLegacyManaged mockLegacyProviderConfigReferencer.
Proof. refine {| embedded := mlConfig; embed e o := MkMockLegacyManaged (mlMeta o) e (mlSecret o) (mlManageable o) (mlOrphanable o) (mlStatus o) |}; solve_embeds. Defined.
#[export] Instance mockLegacyManaged_secret : Embeds mockLegacyManaged mockConnectionSecretWriterTo.
Proof. refine {| embedded := mlSecret; embed e o := MkMockLegacyManaged (mlMeta o) (mlConfig o) e (mlManageable o) (mlOrphanable o) (mlStatus o) |}; solve_embeds. Defined.
#[export] Instance mockLegacyManaged_manageable : Embeds mockLegacyManaged mockManageable.
Proof. refine {| embedded := mlManageable; embed e o := MkMockLegacyManaged (mlMeta o) (mlConfig o) (mlSecret o) e (mlOrphanable o) (mlStatus o) |}; solve_embeds. Defined.
#[export] Instance mockLegacyManaged_orphanable : Embeds mockLegacyManaged mockOrphanable.
Proof. refine {| embedded := mlOrphanable; embed e o := MkMockLegacyManaged (mlMeta o) (mlConfig o) (mlSecret o) (mlManageable o) e (mlStatus o) |}; solve_embeds. Defined.
#[export] Instance mockLegacyManaged_status : Embeds mockLegacyManaged ConditionedStatus.
Proof. refine {| embedded := mlStatus; embed e o := MkMockLegacyManaged (mlMeta o) (mlConfig o) (mlSecret o) (mlManageable o) (mlOrphanable o) e |}; solve_embeds. Defined.
#[export] Instance mockLegacyManaged_impl : LegacyManagedI mockLegacyManaged.
Proof. repeat (split; try apply _). Defined.

Record mockComposed := MkMockComposed { mdMeta : ObjectMeta; mdSecret : mockConnectionSecretWriterTo; mdStatus : ResourceStatus }.
#[export] Instance mockComposed_secret : Embeds mockComposed mockConnectionSecretWriterTo.
Proof. refine {| embedded := mdSecret; embed e o := MkMockComposed (mdMeta o) e (mdStatus o) |}; solve_embeds. Defined.
#[export] Instance mockComposed_status : Embeds mockComposed ResourceStatus.
Proof. refine {| embedded := mdStatus; embed e o := MkMockComposed (mdMeta o) (mdSecret o) e |}; solve_embeds. Defined.
#[export] Instance mockComposed_impl : ComposedI mockComposed.
Proof. split; apply _. Defined.

Record mockProviderConfig := MkMockProviderConfig { mpMeta : ObjectMeta; mpUsers : mockUserCounter; mpStatus : ConditionedStatus }.
#[export] Instance mockProviderConfig_users : Embeds mockProviderConfig mockUserCounter.
Proof. refine {| embedded := mpUsers; embed e o := MkMockProviderConfig (mpMeta o) e (mpStatus o) |}; solve_embeds. Defined.
#[export] Instance mockProviderConfig_status : Embeds mockProviderConfig ConditionedStatus.
Proof. refine {| embedded := mpStatus; embed e o := MkMockProviderConfig (mpMeta o) (mpUsers o) e |}; solve_embeds. Defined.
#[export] Instance mockProviderConfig_impl : ProviderConfigI mockProviderConfig.
Proof. split; apply _. Defined.

Record mockProviderConfigUsage := MkMockProviderConfigUsage {
  mgcMeta : ObjectMeta; mgcConfig : mockRequiredTypedProviderConfigReferencer; mgcResource : mockRequiredTypedResourceReferencer
}.
#[export] Instance mockProviderConfigUsage_config : Embeds mockProviderConfigUsage mockRequiredTypedProviderConfigReferencer.
Proof. refine {| embedded := mgcConfig; embed e o := MkMockProviderConfigUsage (mgcMeta o) e (mgcResource o) |}; solve_embeds. Defined.
#[export] Instance mockProviderConfigUsage_resource : Embeds mockProviderConfigUsage mockRequiredTypedResourceReferencer.
Proof. refine {| embedded := mgcResource; embed e o := MkMockProviderConfigUsage (mgcMeta o) (mgcConfig o) e |}; solve_embeds. Defined.
#[export] Instance mockProviderConfigUsage_impl : TypedProviderConfigUsageI mockProviderConfigUsage.
Proof. repeat (split; try apply _). Defined.

Record mockLegacyProviderConfigUsage := MkMockLegacyProviderConfigUsage {
  mhMeta : ObjectMeta; mhConfig : mockRequiredProviderConfigReferencer; mhResource : mockRequiredTypedResourceReferencer
}.
#[export] Instance mockLegacyProviderConfigUsage_config : Embeds mockLegacyProviderConfigUsage mockRequiredProviderConfigReferencer.
Proof. refine {| embedded := mhConfig; embed e o := MkMockLegacyProviderConfigUsage (mhMeta o) e (mhResource o) |}; solve_embeds. Defined.
#[export] Instance mockLegacyProviderConfigUsage_resource : Embeds mockLegacyProviderConfigUsage mockRequiredTypedResourceReferencer.
Proof. refine {| embedded := mhResource; embed e o := MkMockLegacyProviderConfigUsage (mhMeta o) (mhConfig o) e |}; solve_embeds. Defined.
#[export] Instance mockLegacyProviderConfigUsage_impl : LegacyProviderConfigUsageI mockLegacyProviderConfigUsage.
Proof. repeat (split; try apply _). Defined.

Record mockComposite (L R LR : Type) := MkMockComposite {
  mkMeta : ObjectMeta;
  mkSelector : mockCompositionSelector L;
  mkReference : mockCompositionReferencer R;
  mkRevision : mockCompositionRevisionReferencer LR;
  mkRevisionSelector : mockCompositionRevisionSelector L;
  mkUpdater : mockCompositionUpdater;
  mkResources : mockComposedResourcesReferencer R;
  mkEnvironment : mockEnvironmentConfigReferencer R;
  mkClaim : mockClaimReferencer;
  mkSecret : mockConnectionSecretWriterTo;
  mkStatus : ResourceStatus;
  mkPublished : mockConnectionDetailsLastPublishedTimer
}.
Arguments MkMockComposite {L} {R} {LR} _ _ _ _ _ _ _ _ _ _ _ _.
Arguments mkMeta {L} {R} {LR} _.
Arguments mkSelector {L} {R} {LR} _.
Arguments mkReference {L} {R} {LR} _.
Arguments mkRevision {L} {R} {LR} _.
Arguments mkRevisionSelector {L} {R} {LR} _.
Arguments mkUpdater {L} {R} {LR} _.
Arguments mkResources {L} {R} {LR} _.
Arguments mkEnvironment {L} {R} {LR} _.
Arguments mkClaim {L} {R} {LR} _.
Arguments mkSecret {L} {R} {LR} _.
Arguments mkStatus {L} {R} {LR} _.
Arguments mkPublished {L} {R} {LR} _.
#[export] Instance mockComposite_mkSelector {L R LR : Type} : Embeds (mockComposite L R LR) (mockCompositionSelector L).
Proof. refine {| embedded := mkSelector; embed e o := MkMockComposite (mkMeta o) e (mkReference o) (mkRevision o) (mkRevisionSelector o) (mkUpdater o) (mkResources o) (mkEnvironment o) (mkClaim o) (mkSecret o) (mkStatus o) (mkPublished o) |}; solve_embeds. Defined.
#[export] Instance mockComposite_mkReference {L R LR : Type} : Embeds (mockComposite L R LR) (mockCompositionReferencer R).
Proof. refine {| embedded := mkReference; embed e o := MkMockComposite (mkMeta o) (mkSelector o) e (mkRevision o) (mkRevisionSelector o) (mkUpdater o) (mkResources o) (mkEnvironment o) (mkClaim o) (mkSecret o) (mkStatus o) (mkPublished o) |}; solve_embeds. Defined.
#[export] Instance mockComposite_mkRevision {L R LR : Type} : Embeds (mockComposite L R LR) (mockCompositionRevisionReferencer LR).
Proof. refine {| embedded := mkRevision; embed e o := MkMockComposite (mkMeta o) (mkSelector o) (mkReference o) e (mkRevisionSelector o) (mkUpdater o) (mkResources o) (mkEnvironment o) (mkClaim o) (mkSecret o) (mkStatus o) (mkPublished o) |}; solve_embeds. Defined.
#[export] Instance mockComposite_mkRevisionSelector {L R LR : Type} : Embeds (mockComposite L R LR) (mockCompositionRevisionSelector L).
Proof. refine {| embedded := mkRevisionSelector; embed e o := MkMockComposite (mkMeta o) (mkSelector o) (mkReference o) (mkRevision o) e (mkUpdater o) (mkResources o) (mkEnvironment o) (mkClaim o) (mkSecret o) (mkStatus o) (mkPublished o) |}; solve_embeds. Defined.
#[export] Instance mockComposite_mkUpdater {L R LR : Type} : Embeds (mockComposite L R LR) mockCompositionUpdater.
Proof. refine {| embedded := mkUpdater; embed e o := MkMockComposite (mkMeta o) (mkSelector o) (mkReference o) (mkRevision o) (mkRevisionSelector o) e (mkResources o) (mkEnvironment o) (mkClaim o) (mkSecret o) (mkStatus o) (mkPublished o) |}; solve_embeds. Defined.
#[export] Instance mockComposite_mkResources {L R LR : Type} : Embeds (mockComposite L R LR) (mockComposedResourcesReferencer R).
Proof. refine {| embedded := mkResources; embed e o := MkMockComposite (mkMeta o) (mkSelector o) (mkReference o) (mkRevision o) (mkRevisionSelector o) (mkUpdater o) e (mkEnvironment o) (mkClaim o) (mkSecret o) (mkStatus o) (mkPublished o) |}; solve_embeds. Defined.
#[export] Instance mockComposite_mkEnvironment {L R LR : Type} : Embeds (mockComposite L R LR) (mockEnvironmentConfigReferencer R).
Proof. refine {| embedded := mkEnvironment; embed e o := MkMockComposite (mkMeta o) (mkSelector o) (mkReference o) (mkRevision o) (mkRevisionSelector o) (mkUpdater o) (mkResources o) e (mkClaim o) (mkSecret o) (mkStatus o) (mkPublished o) |}; solve_embeds. Defined.
#[export] Instance mockComposite_mkClaim {L R LR : Type} : Embeds (mockComposite L R LR) mockClaimReferencer.
Proof. refine {| embedded := mkClaim; embed e o := MkMockComposite (mkMeta o) (mkSelector o) (mkReference o) (mkRevision o) (mkRevisionSelector o) (mkUpdater o) (mkResources o) (mkEnvironment o) e (mkSecret o) (mkStatus o) (mkPublished o) |}; solve_embeds. Defined.
#[export] Instance mockComposite_mkSecret {L R LR : Type} : Embeds (mockComposite L R LR) mockConnectionSecretWriterTo.
Proof. refine {| embedded := mkSecret; embed e o := MkMockComposite (mkMeta o) (mkSelector o) (mkReference o) (mkRevision o) (mkRevisionSelector o) (mkUpdater o) (mkResources o) (mkEnvironment o) (mkClaim o) e (mkStatus o) (mkPublished o) |}; solve_embeds. Defined.
#[export] Instance mockComposite_mkStatus {L R LR : Type} : Embeds (mockComposite L R LR) ResourceStatus.
Proof. refine {| embedded := mkStatus; embed e o := MkMockComposite (mkMeta o) (mkSelector o) (mkReference o) (mkRevision o) (mkRevisionSelector o) (mkUpdater o) (mkResources o) (mkEnvironment o) (mkClaim o) (mkSecret o) e (mkPublished o) |}; solve_embeds. Defined.
#[export] Instance mockComposite_mkPublished {L R LR : Type} : Embeds (mockComposite L R LR) mockConnectionDetailsLastPublishedTimer.
Proof. refine {| embedded := mkPublished; embed e o := MkMockComposite (mkMeta o) (mkSelector o) (mkReference o) (mkRevision o) (mkRevisionSelector o) (mkUpdater o) (mkResources o) (mkEnvironment o) (mkClaim o) (mkSecret o) (mkStatus o) e |}; solve_embeds. Defined.
#[export] Instance mockComposite_impl {L R LR : Type} : LegacyCompositeI L R LR (mockComposite L R LR).
Proof. repeat (split; try apply _). Defined.

Record mockCompositeClaim (L R LR : Type) := MkMockCompositeClaim {
  mqMeta : ObjectMeta;
  mqSelector : mockCompositionSelector L;
  mqReference : mockCompositionReferencer R;
  mqRevision : mockCompositionRevisionReferencer LR;
  mqRevisionSelector : mockCompositionRevisionSelector L;
  mqDeleter : mockCompositeResourceDeleter;
  mqUpdater : mockCompositionUpdater;
  mqResource : mockCompositeResourceReferencer;
  mqSecret : mockLocalConnectionSecretWriterTo;
  mqStatus : ResourceStatus;
  mqPublished : mockConnectionDetailsLastPublishedTimer
}.
Arguments MkMockCompositeClaim {L} {R} {LR} _ _ _ _ _ _ _ _ _ _ _.
Arguments mqMeta {L} {R} {LR} _.
Arguments mqSelector {L} {R} {LR} _.
Arguments mqReference {L} {R} {LR} _.
Arguments mqRevision {L} {R} {LR} _.
Arguments mqRevisionSelector {L} {R} {LR} _.
Arguments mqDeleter {L} {R} {LR} _.
Arguments mqUpdater {L} {R} {LR} _.
Arguments mqResource {L} {R} {LR} _.
Arguments mqSecret {L} {R} {LR} _.
Arguments mqStatus {L} {R} {LR} _.
Arguments mqPublished {L} {R} {LR} _.
#[export] Instance mockCompositeClaim_mqSelector {L R LR : Type} : Embeds (mockCompositeClaim L R LR) (mockCompositionSelector L).
Proof. refine {| embedded := mqSelector; embed e o := MkMockCompositeClaim (mqMeta o) e (mqReference o) (mqRevision o) (mqRevisionSelector o) (mqDeleter o) (mqUpdater o) (mqResource o) (mqSecret o) (mqStatus o) (mqPublished o) |}; solve_embeds. Defined.
#[export] Instance mockCompositeClaim_mqReference {L R LR : Type} : Embeds (mockCompositeClaim L R LR) (mockCompositionReferencer R).
Proof. refine {| embedded := mqReference; embed e o := MkMockCompositeClaim (mqMeta o) (mqSelector o) e (mqRevision o) (mqRevisionSelector o) (mqDeleter o) (mqUpdater o) (mqResource o) (mqSecret o) (mqStatus o) (mqPublished o) |}; solve_embeds. Defined.
#[export] Instance mockCompositeClaim_mqRevision {L R LR : Type} : Embeds (mockCompositeClaim L R LR) (mockCompositionRevisionReferencer LR).
Proof. refine {| embedded := mqRevision; embed e o := MkMockCompositeClaim (mqMeta o) (mqSelector o) (mqReference o) e (mqRevisionSelector o) (mqDeleter o) (mqUpdater o) (mqResource o) (mqSecret o) (mqStatus o) (mqPublished o) |}; solve_embeds. Defined.
#[export] Instance mockCompositeClaim_mqRevisionSelector {L R LR : Type} : Embeds (mockCompositeClaim L R LR) (mockCompositionRevisionSelector L).
Proof. refine {| embedded := mqRevisionSelector; embed e o := MkMockCompositeClaim (mqMeta o) (mqSelector o) (mqReference o) (mqRevision o) e (mqDeleter o) (mqUpdater o) (mqResource o) (mqSecret o) (mqStatus o) (mqPublished o) |}; solve_embeds. Defined.
#[export] Instance mockCompositeClaim_mqDeleter {L R LR : Type} : Embeds (mockCompositeClaim L R LR) mockCompositeResourceDeleter.
Proof. refine {| embedded := mqDeleter; embed e o := MkMockCompositeClaim (mqMeta o) (mqSelector o) (mqReference o) (mqRevision o) (mqRevisionSelector o) e (mqUpdater o) (mqResource o) (mqSecret o) (mqStatus o) (mqPublished o) |}; solve_embeds. Defined.
#[export] Instance mockCompositeClaim_mqUpdater {L R LR : Type} : Embeds (mockCompositeClaim L R LR) mockCompositionUpdater.
Proof. refine {| embedded := mqUpdater; embed e o := MkMockCompositeClaim (mqMeta o) (mqSelector o) (mqReference o) (mqRevision o) (mqRevisionSelector o) (mqDeleter o) e (mqResource o) (mqSecret o) (mqStatus o) (mqPublished o) |}; solve_embeds. Defined.
#[export] Instance mockCompositeClaim_mqResource {L R LR : Type} : Embeds (mockCompositeClaim L R LR) mockCompositeResourceReferencer.
Proof. refine {| embedded := mqResource; embed e o := MkMockCompositeClaim (mqMeta o) (mqSelector o) (mqReference o) (mqRevision o) (mqRevisionSelector o) (mqDeleter o) (mqUpdater o) e (mqSecret o) (mqStatus o) (mqPublished o) |}; solve_embeds. Defined.
#[export] Instance mockCompositeClaim_mqSecret {L R LR : Type} : Embeds (mockCompositeClaim L R LR) mockLocalConnectionSecretWriterTo.
Proof. refine {| embedded := mqSecret; embed e o := MkMockCompositeClaim (mqMeta o) (mqSelector o) (mqReference o) (mqRevision o) (mqRevisionSelector o) (mqDeleter o) (mqUpdater o) (mqResource o) e (mqStatus o) (mqPublished o) |}; solve_embeds. Defined.
#[export] Instance mockCompositeClaim_mqStatus {L R LR : Type} : Embeds (mockCompositeClaim L R LR) ResourceStatus.
Proof. refine {| embedded := mqStatus; embed e o := MkMockCompositeClaim (mqMeta o) (mqSelector o) (mqReference o) (mqRevision o) (mqRevisionSelector o) (mqDeleter o) (mqUpdater o) (mqResource o) (mqSecret o) e (mqPublished o) |}; solve_embeds. Defined.
#[export] Instance mockCompositeClaim_mqPublished {L R LR : Type} : Embeds (mockCompositeClaim L R LR) mockConnectionDetailsLastPublishedTimer.
Proof. refine {| embedded := mqPublished; embed e o := MkMockCompositeClaim (mqMeta o) (mqSelector o) (mqReference o) (mqRevision o) (mqRevisionSelector o) (mqDeleter o) (mqUpdater o) (mqResource o) (mqSecret o) (mqStatus o) e |}; solve_embeds. Defined.
#[export] Instance mockCompositeClaim_impl {L R LR : Type} : CompositeClaimI L R LR (mockCompositeClaim L R LR).
Proof. repeat (split; try apply _). Defined.
