(* ===== verification/TestDoubles.v ===== *)
(** * Test doubles against the real resources
      (pkg/resource/fake/mocks.go, pkg/resource/unstructured/composite)

    What a legacy composite resource promises is a record of attributes, each of
    which a setter replaces, and a list of conditions, into which a setter
    merges others.  Both the unstructured resource, whose attributes are at
    paths of one JSON-like object, and the fake, whose attributes are fields of
    a struct, implement it: code that works with one through the interface sees
    the same with the other. *)

From S2P Require Import Prelude GoStrings GoErrors GoTime FieldPath Json Paved Conditions Meta Managed Unstructured Composite Claim Constructors Interfaces Fakes.

(** ** The specification *)

Section spec.
Context {L R LR : Type}.

(** What the getters of a legacy composite resource give. *)
Record attributes := MkAttributes {
  atSelector : option L; atReference : option R; atUpdatePolicy : option string; atRevision : option LR;
  atRevisionSelector : option L; atResources : list R; atClaim : option ClaimReference;
  atSecret : option SecretReference; atPublished : option Time
}.

(** A call of a setter. *)
Inductive setting :=
| PutSelector (x : L)
| PutReference (x : R)
| PutUpdatePolicy (x : option string)
| PutRevision (x : LR)
| PutRevisionSelector (x : L)
| PutResources (x : list R)
| PutClaim (x : ClaimReference)
| PutSecret (x : SecretReference)
| PutPublished (x : Time)
| PutGeneration (x : Z)
| PutConditions (x : list Condition).

Definition putAttribute (s : setting) (a : attributes) : attributes :=
  let '(MkAttributes sel ref pol rev rsel res cl sec pub) := a in
  match s with
  | PutSelector x => MkAttributes (Some x) ref pol rev rsel res cl sec pub
  | PutReference x => MkAttributes sel (Some x) pol rev rsel res cl sec pub
  | PutUpdatePolicy x => MkAttributes sel ref x rev rsel res cl sec pub
  | PutRevision x => MkAttributes sel ref pol (Some x) rsel res cl sec pub
  | PutRevisionSelector x => MkAttributes sel ref pol rev (Some x) res cl sec pub
  | PutResources x => MkAttributes sel ref pol rev rsel x cl sec pub
  | PutClaim x => MkAttributes sel ref pol rev rsel res (Some x) sec pub
  | PutSecret x => MkAttributes sel ref pol rev rsel res cl (Some x) pub
  | PutPublished x => MkAttributes sel ref pol rev rsel res cl sec (Some x)
  | PutGeneration _ | PutConditions _ => a
  end.

Definition unset : attributes := MkAttributes None None None None None [] None None None.

(** A composite resource, with the generation it was observed at, its conditions
    and whether anything of its status was set. *)
Record resource := MkResource { reAttributes : attributes; reGeneration : Z; reConditions : list Condition; reStatus : bool }.

(** The setters of the status. *)
Definition ofStatus (s : setting) : bool := match s with PutPublished _ | PutGeneration _ | PutConditions _ => true | _ => false end.

Definition put (r : resource) (s : setting) : resource :=
  MkResource (putAttribute s (reAttributes r))
    (match s with PutGeneration g => g | _ => reGeneration r end)
    (match s with PutConditions x => Conditions.SetConditions x (reConditions r) | _ => reConditions r end)
    (ofStatus s || reStatus r).

Definition newResource : resource := MkResource unset 0 [] false.

(** The calls and the reads, through the interface. *)
Definition perform {O} `{!LegacyCompositeI L R LR O} (o : O) (s : setting) : O :=
  match s with
  | PutSelector x => Interfaces.SetCompositionSelector (Some x) o
  | PutReference x => Interfaces.SetCompositionReference (Some x) o
  | PutUpdatePolicy x => Interfaces.SetCompositionUpdatePolicy x o
  | PutRevision x => Interfaces.SetCompositionRevisionReference (Some x) o
  | PutRevisionSelector x => Interfaces.SetCompositionRevisionSelector (Some x) o
  | PutResources x => Interfaces.SetResourceReferences x o
  | PutClaim x => Interfaces.SetClaimReference (Some x) o
  | PutSecret x => Interfaces.SetWriteConnectionSecretToReference (Some x) o
  | PutPublished x => Interfaces.SetConnectionDetailsLastPublishedTime (Some x) o
  | PutGeneration x => Interfaces.SetObservedGeneration x o
  | PutConditions x => Interfaces.SetConditions x o
  end.

(** The getters; the one of conditions is given a type. *)
Definition view {O} `{!LegacyCompositeI L R LR O} (o : O) : attributes * Z :=
  (MkAttributes (Interfaces.GetCompositionSelector o) (Interfaces.GetCompositionReference o) (Interfaces.GetCompositionUpdatePolicy o)
    (Interfaces.GetCompositionRevisionReference o) (Interfaces.GetCompositionRevisionSelector o) (Interfaces.GetResourceReferences o)
    (Interfaces.GetClaimReference o) (Interfaces.GetWriteConnectionSecretToReference o) (Interfaces.GetConnectionDetailsLastPublishedTime o),
   Interfaces.GetObservedGeneration o).

Definition conditionOf {O} `{!LegacyCompositeI L R LR O} (ct : string) (o : O) : Condition := Interfaces.GetCondition ct o.

(** An implementation, for the settings it supports, from a new object.  Nothing
    is promised of the conditions of a resource without a status. *)
Class Implements (O : Type) `{!LegacyCompositeI L R LR O} (supports : setting -> Prop) (new : O) (models : O -> resource -> Prop) : Prop := {
  new_models : models new newResource;
  perform_models s o r : supports s -> models o r -> models (perform o s) (put r s);
  models_view o r : models o r -> view o = (reAttributes r, reGeneration r);
  models_condition o r ct : models o r -> reStatus r = true -> conditionOf ct o = Conditions.GetCondition ct (reConditions r)
}.

Lemma implements_run {O} `{!LegacyCompositeI L R LR O} (supports : setting -> Prop) (new : O) (models : O -> resource -> Prop) (ss : list setting) (o : O) (r : resource) :
  Implements O supports new models -> Forall supports ss -> models o r -> models (foldl perform o ss) (foldl put r ss).
Proof. intros I Hs. revert o r. induction Hs as [|s ss Hs _ IH]; intros o r Ho; [done|]. cbn [foldl]. apply IH. by apply (perform_models s o r). Qed.

Lemma put_status (ss : list setting) (r : resource) : reStatus r = true \/ Exists (fun s => ofStatus s = true) ss -> reStatus (foldl put r ss) = true.
Proof.
  revert r. induction ss as [|s ss IH]; intros r; [by intros [?|?%Exists_nil]|]. rewrite Exists_cons. intros H. cbn [foldl]. apply IH. cbn.
  destruct H as [->|[->|H]]; [left; apply orb_true_r|by left|by right].
Qed.

(** Two implementations cannot be told apart. *)
Lemma implementations_agree {O P} `{!LegacyCompositeI L R LR O, !LegacyCompositeI L R LR P}
    (supports supports' : setting -> Prop) (o : O) (p : P) (models : O -> resource -> Prop) (models' : P -> resource -> Prop) (ss : list setting) :
  Implements O supports o models -> Implements P supports' p models' -> Forall supports ss -> Forall supports' ss ->
  view (foldl perform o ss) = view (foldl perform p ss) /\
  (Exists (fun s => ofStatus s = true) ss -> forall ct, conditionOf ct (foldl perform o ss) = conditionOf ct (foldl perform p ss)).
Proof.
  intros I J Hs Hs'. pose proof (implements_run supports o models ss o newResource I Hs (new_models (Implements:=I))) as Ho.
  pose proof (implements_run supports' p models' ss p newResource J Hs' (new_models (Implements:=J))) as Hp. split.
  - by rewrite (models_view _ _ Ho), (models_view _ _ Hp).
  - intros Hst ct. by rewrite (models_condition _ _ ct Ho), (models_condition _ _ ct Hp) by (apply put_status; by right).
Qed.

End spec.
Arguments attributes : clear implicits.
Arguments setting : clear implicits.
Arguments resource : clear implicits.

(** ** The fake *)

Definition zeroMeta : ObjectMeta := MkObjectMeta "" "" "" 0 "" None None [] [] None (MkTime 0 0).

Definition newMock (L R LR : Type) : mockComposite L R LR :=
  MkMockComposite zeroMeta (MkMockCompositionSelector L None) (MkMockCompositionReferencer R None)
    (MkMockCompositionRevisionReferencer LR None) (MkMockCompositionRevisionSelector L None) (MkMockCompositionUpdater None)
    (MkMockComposedResourcesReferencer R []) (MkMockEnvironmentConfigReferencer R []) (MkMockClaimReferencer None)
    (MkMockConnectionSecretWriterTo None) (MkResourceStatus [] (MkObservedStatus 0)) (MkMockConnectionDetailsLastPublishedTimer None).

Definition mockModels {L R LR : Type} (o : mockComposite L R LR) (r : resource L R LR) : Prop :=
  view o = (reAttributes r, reGeneration r) /\ rsConditioned (mkStatus o) = reConditions r.

Lemma mock_implements (L R LR : Type) : Implements (mockComposite L R LR) (fun _ => True) (newMock L R LR) mockModels.
Proof.
  split; [done| |by intros o r []|].
  - intros s o [a g cs st] _ [Hv Hc]. cbn in Hv, Hc. injection Hv as <- <-. subst cs. by destruct s.
  - intros o r ct [_ Hc] _. by rewrite <- Hc.
Qed.

(** ** The unstructured resource *)

Section unstructured.
Context {JA : Json any} .
Context {L R LR : Type}.
Context {JL : Json L} {JR : Json R} {JLR : Json LR} {JSt : Json string}.
Context {JC : Json ClaimReference} {JSec : Json SecretReference} {JT : Json Time}.
Context {JRs : Json (list R)} {DRs : Decoded (list R)}.
Context {JS : Json StatusConditions} {DS : Decoded StatusConditions} {JCs : Json (list Condition)}.
Context {JO : Json ObservedStatus} {DO : Decoded ObservedStatus} {JZ : Json Z}.
Context (RefString : R -> string) (emptyRef : R).

#[local] Instance unstructuredComposite : LegacyCompositeI L R LR Composite := {|
  legacyComposite_composite := {|
    composite_selector := {| Interfaces.SetCompositionSelector := Composite.SetCompositionSelector;
                             Interfaces.GetCompositionSelector := Composite.GetCompositionSelector |};
    composite_reference := {| Interfaces.SetCompositionReference := Composite.SetCompositionReference;
                              Interfaces.GetCompositionReference := Composite.GetCompositionReference |};
    composite_updater := {| Interfaces.SetCompositionUpdatePolicy := Composite.SetCompositionUpdatePolicy;
                            Interfaces.GetCompositionUpdatePolicy := Composite.GetCompositionUpdatePolicy |};
    composite_revision_reference := {| Interfaces.SetCompositionRevisionReference := Composite.SetCompositionRevisionReference;
                                       Interfaces.GetCompositionRevisionReference := Composite.GetCompositionRevisionReference |};
    composite_revision_selector := {| Interfaces.SetCompositionRevisionSelector := Composite.SetCompositionRevisionSelector;
                                      Interfaces.GetCompositionRevisionSelector := Composite.GetCompositionRevisionSelector |};
    composite_resources := {| Interfaces.SetResourceReferences := Composite.SetResourceReferences RefString emptyRef;
                              Interfaces.GetResourceReferences := Composite.GetResourceReferences |};
    composite_conditioned := {| Interfaces.SetConditions := compositeSetConditions; Interfaces.GetCondition := compositeGetCondition |};
    composite_observer := {| Interfaces.SetObservedGeneration := Composite.SetObservedGeneration;
                             Interfaces.GetObservedGeneration := Composite.GetObservedGeneration |}
  |};
  legacyComposite_claim := {| Interfaces.SetClaimReference := Composite.SetClaimReference; Interfaces.GetClaimReference := Composite.GetClaimReference |};
  legacyComposite_secret := {| Interfaces.SetWriteConnectionSecretToReference := Composite.SetWriteConnectionSecretToReference;
                               Interfaces.GetWriteConnectionSecretToReference := Composite.GetWriteConnectionSecretToReference |};
  legacyComposite_published := {| Interfaces.SetConnectionDetailsLastPublishedTime := Composite.SetConnectionDetailsLastPublishedTime;
                                  Interfaces.GetConnectionDetailsLastPublishedTime := Composite.GetConnectionDetailsLastPublishedTime |}
|}.

(** Values that survive being encoded as JSON, and references that are not
    empty. *)
Definition supported (s : setting L R LR) : Prop :=
  match s with
  | PutSelector x | PutRevisionSelector x => transparent x
  | PutReference x => transparent x
  | PutUpdatePolicy (Some x) => toValidJSON x = inl (AString x)
  | PutUpdatePolicy None => toValidJSON (@None string) = inl ANil
  | PutRevision x => transparent x
  | PutResources x => transparent x /\ Forall (fun ref => RefString ref <> RefString emptyRef) x
  | PutClaim x => transparent x
  | PutSecret x => transparent x
  | PutPublished x => transparent x
  | PutGeneration x => transparent x
  | PutConditions x => Forall (fun c => transparent [c]) x
  end.

(** The object of a legacy resource, as it is read and written. *)
Definition attributesAt (o : Content) : attributes L R LR :=
  MkAttributes (getAt o "spec.compositionSelector") (getAt o "spec.compositionRef") (getStringAt o "spec.compositionUpdatePolicy")
    (getAt o "spec.compositionRevisionRef") (getAt o "spec.compositionRevisionSelector") (getIgnoring o "spec.resourceRefs")
    (getAt o "spec.claimRef") (getAt o "spec.writeConnectionSecretToRef") (getAt o "status.connectionDetails.lastPublishedTime").

Definition written (s : setting L R LR) (o : Content) : Content :=
  match s with
  | PutSelector x => setAt o "spec.compositionSelector" (Some x)
  | PutReference x => setAt o "spec.compositionRef" (Some x)
  | PutUpdatePolicy x => setAt o "spec.compositionUpdatePolicy" x
  | PutRevision x => setAt o "spec.compositionRevisionRef" (Some x)
  | PutRevisionSelector x => setAt o "spec.compositionRevisionSelector" (Some x)
  | PutResources x => setAt o "spec.resourceRefs" (filter (fun ref => RefString ref <> RefString emptyRef) x)
  | PutClaim x => setAt o "spec.claimRef" (Some x)
  | PutSecret x => setAt o "spec.writeConnectionSecretToRef" (Some x)
  | PutPublished x => setAt o "status.connectionDetails.lastPublishedTime" (Some x)
  | PutGeneration x => setObservedGenerationAt o x
  | PutConditions x => setConditionsAt o x
  end.

Lemma perform_written (s : setting L R LR) (o : Content) :
  perform (MkComposite o SchemaLegacy) s = MkComposite (written s o) SchemaLegacy.
Proof. by destruct s. Qed.

Lemma written_sound (s : setting L R LR) (o : Content) : sound o -> sound (written s o).
Proof.
  intros Hs. destruct s; [eapply (sound_setAt _ _ ["spec"; _]); [done|by constructor|done]..| | |].
  - eapply (sound_setAt _ _ ["status"; "connectionDetails"; _]); [done|by constructor|done].
  - eapply (sound_setAt _ _ ["status"; _]); [done|by constructor|done].
  - eapply (sound_setAt _ _ ["status"; _]); [done|by constructor|done].
Qed.

(** The paths of the attributes. *)
Lemma legacy_paths :
  fields "spec.compositionSelector" ["spec"; "compositionSelector"] /\
  fields "spec.compositionRef" ["spec"; "compositionRef"] /\
  fields "spec.compositionUpdatePolicy" ["spec"; "compositionUpdatePolicy"] /\
  fields "spec.compositionRevisionRef" ["spec"; "compositionRevisionRef"] /\
  fields "spec.compositionRevisionSelector" ["spec"; "compositionRevisionSelector"] /\
  fields "spec.resourceRefs" ["spec"; "resourceRefs"] /\
  fields "spec.claimRef" ["spec"; "claimRef"] /\
  fields "spec.writeConnectionSecretToRef" ["spec"; "writeConnectionSecretToRef"] /\
  fields "status.connectionDetails.lastPublishedTime" ["status"; "connectionDetails"; "lastPublishedTime"] /\
  fields "status.observedGeneration" ["status"; "observedGeneration"] /\
  fields "status.conditions" ["status"; "conditions"].
Proof. split_and!; done. Qed.

Lemma filter_all {A} (P : A -> Prop) `{!forall x, Decision (P x)} (l : list A) : Forall P l -> filter P l = l.
Proof. induction 1 as [|x l Hx _ IH]; [done|]. by rewrite filter_cons_True, IH. Qed.

(** Reading an attribute after one was set: this one, or another. *)
Ltac legacy_read Ho Hj Hx :=
  match goal with
  | |- getAt (setAt _ ?p _) ?p = _ => eapply getAt_setAt; [eassumption|exact Ho|exact Hx]
  | |- getIgnoring (setAt _ ?p _) ?p = _ => eapply getIgnoring_setAt; [eassumption|exact Ho|exact Hx]
  | |- getAt (setAt _ ?p _) ?q = _ => eapply getAt_frame; [eassumption|eassumption|exact Ho|exact Hj|vm_compute; reflexivity]
  | |- getIgnoring (setAt _ ?p _) ?q = _ => eapply getIgnoring_frame; [eassumption|eassumption|exact Ho|exact Hj|vm_compute; reflexivity]
  | |- getStringAt (setAt _ ?p _) ?q = _ => eapply getStringAt_frame; [eassumption|eassumption|exact Ho|exact Hj|vm_compute; reflexivity]
  end.

Lemma transparent_valid {T} {J : Json T} (x : T) : transparent x -> exists j, toValidJSON x = inl j.
Proof. intros (j & b & Hj & _). eauto. Qed.

Lemma written_attributes (s : setting L R LR) (o : Content) (j : any) :
  supported s -> sound o -> (forall x, s = PutConditions x -> toValidJSON (Conditions.SetConditions x (getConditionsAt o)) = inl j) ->
  attributesAt (written s o) = putAttribute s (attributesAt o).
Proof.
  intros Hx Hs Hc. pose proof legacy_paths as Hpaths. destruct_and! Hpaths.
  assert (forall f, f <> "crossplane" -> open_at o ["spec"; f]) as Hf by (intros; eapply leaf_open; [by constructor|done]).
  assert (forall f, f <> "crossplane" -> f <> "connectionDetails" -> open_at o ["status"; f]) as Hg by (intros; eapply leaf_open; [by constructor|done]).
  destruct s as [x|x|x|x|x|x|x|x|x|x|x]; cbn in Hx; unfold attributesAt, putAttribute; cbn [written].
  - destruct (transparent_valid x Hx) as [i Hj]. f_equal; legacy_read (Hf "compositionSelector" ltac:(done)) Hj Hx.
  - destruct (transparent_valid x Hx) as [i Hj]. f_equal; legacy_read (Hf "compositionRef" ltac:(done)) Hj Hx.
  - assert (exists v, toValidJSON x = inl v /\ match v with AString s => Some s | _ => None end = x) as (v & Hx' & Hv) by (destruct x; eauto).
    f_equal; try legacy_read (Hf "compositionUpdatePolicy" ltac:(done)) Hx' Hx.
    rewrite getStringAt_alt. by rewrite (setAt_get _ _ ["spec"; "compositionUpdatePolicy"] x v) by (done || by apply Hf).
  - destruct (transparent_valid x Hx) as [i Hj]. f_equal; legacy_read (Hf "compositionRevisionRef" ltac:(done)) Hj Hx.
  - destruct (transparent_valid x Hx) as [i Hj]. f_equal; legacy_read (Hf "compositionRevisionSelector" ltac:(done)) Hj Hx.
  - destruct Hx as [Hx Hn]. rewrite (filter_all (fun ref => RefString ref <> RefString emptyRef) x) by exact Hn.
    destruct (transparent_valid x Hx) as [i Hj]. f_equal; legacy_read (Hf "resourceRefs" ltac:(done)) Hj Hx.
  - destruct (transparent_valid x Hx) as [i Hj]. f_equal; legacy_read (Hf "claimRef" ltac:(done)) Hj Hx.
  - destruct (transparent_valid x Hx) as [i Hj]. f_equal; legacy_read (Hf "writeConnectionSecretToRef" ltac:(done)) Hj Hx.
  - assert (open_at o ["status"; "connectionDetails"; "lastPublishedTime"]) as Ho by (eapply leaf_open; [by constructor|done]).
    destruct (transparent_valid x Hx) as [i Hj]. f_equal; legacy_read Ho Hj Hx.
  - destruct (transparent_valid x Hx) as [i Hj]. unfold setObservedGenerationAt. f_equal; legacy_read (Hg "observedGeneration" ltac:(done) ltac:(done)) Hj Hx.
  - specialize (Hc x eq_refl). unfold setConditionsAt. f_equal; legacy_read (Hg "conditions" ltac:(done) ltac:(done)) Hc Hx.
Qed.

(** The settings of the spec leave the status alone. *)
Lemma written_spec (s : setting L R LR) (o : Content) : ofStatus s = false -> sound o -> written s o !! "status" = o !! "status".
Proof.
  intros Hn Hs.
  assert (forall T (J : Json T) path f (x : T), fields path ["spec"; f] -> f <> "crossplane" -> setAt o path x !! "status" = o !! "status") as Hset.
  { intros T J path f x Hp Hf. assert (open_at o ["spec"; f]) as Ho by (eapply leaf_open; [by constructor|done]).
    destruct (toValidJSON x) as [j|e] eqn:Hj; [|unfold setAt, SetValue, setValue; by rewrite (proj1 Hp), Hj].
    rewrite (setAt_putAt o path _ x j Hp Ho Hj). cbn [putAt]. by rewrite lookup_insert_ne. }
  by destruct s; try done; eapply Hset.
Qed.

Lemma SetConditions_all (P : Condition -> Prop) (conds cs : list Condition) : Forall P conds -> Forall P cs -> Forall P (Conditions.SetConditions conds cs).
Proof.
  intros Hc. revert cs. induction Hc as [|c conds Hp _ IH]; intros cs Hcs; [done|]. apply IH. unfold setCondition.
  assert (Forall P (replaceCondition c cs).1) as Hr.
  { clear IH. induction Hcs as [|d cs Hd _ IHc]; [constructor|]. cbn [replaceCondition]. destruct (replaceCondition c cs) as [r b].
    repeat case_match; by constructor. }
  destruct (replaceCondition c cs) as [r []]; [done|]. apply Forall_app. by repeat constructor.
Qed.

Definition compositeModels (c : Composite) (r : resource L R LR) : Prop :=
  Schema c = SchemaLegacy /\ sound (Object c) /\ attributesAt (Object c) = reAttributes r /\
  statusHolds (Object c) (reConditions r) (reGeneration r) /\ Forall (fun c => transparent [c]) (reConditions r) /\
  (reStatus r = true -> is_Some (Object c !! "status")).

Lemma sound_status (o : Content) (f : string) : sound o -> open_at o ["status"; f].
Proof.
  intros Hs. assert (open_at o ["status"; "connectionDetails"; "x"]) as H by (eapply leaf_open; [by constructor|done]).
  cbn in H |- *. by destruct (o !! "status") as [[]|].
Qed.

Lemma written_status {SJ : StatusJson} (s : setting L R LR) (o : Content) (cs : list Condition) (g : Z) :
  supported s -> ofStatus s = true -> sound o -> statusHolds o cs g -> Forall (fun c => transparent [c]) cs ->
  is_Some (written s o !! "status") /\
  statusHolds (written s o) (match s with PutConditions x => Conditions.SetConditions x cs | _ => cs end) (match s with PutGeneration x => x | _ => g end).
Proof.
  intros Hx Hst Hs Hh Hcs. pose proof (fun f => sound_status o f Hs) as Hop. destruct s as [| | | | | | | |x|x|x]; try discriminate Hst; cbn [supported] in Hx; cbn [written].
  - assert (open_at o ["status"; "connectionDetails"; "lastPublishedTime"]) as Ho by (eapply leaf_open; [by constructor|done]).
    split; [|by eapply (statusHolds_setDetails o _ "lastPublishedTime")]. destruct (transparent_valid x Hx) as [j Hj].
    assert (toValidJSON (Some x) = inl j) as Hj' by exact Hj.
    rewrite (setAt_putAt o _ ["status"; "connectionDetails"; "lastPublishedTime"] (Some x) j) by done. cbn [putAt]. by rewrite lookup_insert_eq.
  - split; [|by eapply statusHolds_setGeneration]. destruct (transparent_valid x Hx) as [j Hj]. unfold setObservedGenerationAt.
    rewrite (setAt_putAt o _ ["status"; "observedGeneration"] x j) by (done || apply Hop). cbn [putAt]. by rewrite lookup_insert_eq.
  - assert (transparent (Conditions.SetConditions x cs)) as Ht by (by apply conditions_transparent, SetConditions_all).
    split; [|by apply statusHolds_setConditions]. destruct (transparent_valid _ Ht) as [j Hj]. unfold setConditionsAt.
    pose proof (proj1 (statusHolds_get o cs g "" Hh (Hop _))) as Hc. unfold getConditionsAt in Hc. rewrite Hc.
    rewrite (setAt_putAt o _ ["status"; "conditions"] _ j) by (done || apply Hop). cbn [putAt]. by rewrite lookup_insert_eq.
Qed.

Lemma unstructured_implements {SJ : StatusJson} :
  zero (T:=list R) = [] -> Implements Composite supported (MkComposite ∅ SchemaLegacy) compositeModels.
Proof.
  intros Hz. split.
  - split_and!; [done|exact sound_empty| |exact statusHolds_empty|constructor|done].
    unfold attributesAt, newResource, unset. cbn [reAttributes Object]. by f_equal.
  - intros s [o sc] r Hx (Hl & Hs & Ha & Hh & Hcs & Hi). cbn [Schema Object] in *. subst sc. rewrite perform_written.
    assert (Forall (fun c => transparent [c]) (reConditions (put r s))) as Hcs' by (destruct s; try done; by apply SetConditions_all).
    assert (exists j, forall x, s = PutConditions x -> toValidJSON (Conditions.SetConditions x (getConditionsAt o)) = inl j) as [j Hj].
    { destruct s as [| | | | | | | | | |x]; try (by exists ANil). destruct (transparent_valid _ (conditions_transparent _ Hcs')) as [j Hj].
      exists j. intros y [= <-]. by rewrite (proj1 (statusHolds_get o _ _ "" Hh (sound_status o _ Hs))). }
    assert (attributesAt (written s o) = reAttributes (put r s)) as Ha' by (rewrite (written_attributes s o j), Ha by done; by destruct s).
    assert (sound (written s o)) as Hs' by by apply written_sound.
    destruct (ofStatus s) eqn:Hst.
    + destruct (written_status s o _ _ Hx Hst Hs Hh Hcs) as [Hi' Hh']. by split_and!.
    + pose proof (written_spec s o Hst Hs) as Hw. split_and!; [done..| |done|].
      * eapply statusHolds_frame; [exact Hw|]. by destruct s.
      * cbn [put reStatus Object]. rewrite Hst, Hw. exact Hi.
  - intros [o sc] r (Hl & Hs & Ha & Hh & _). cbn [Schema Object] in *. subst sc.
    change (view (MkComposite o SchemaLegacy)) with (attributesAt o, getObservedGenerationAt o).
    destruct (statusHolds_get o _ _ "" Hh (sound_status o _ Hs)) as (_ & Hg & _). by rewrite Ha, Hg.
  - intros [o sc] r ct (Hl & Hs & Ha & Hh & _ & Hi) Hst. by apply (statusHolds_get o _ _ "" Hh (sound_status o _ Hs)), Hi.
Qed.

(** C37: a fake legacy composite resource and an unstructured one, both new, give
    the same from every getter after any sequence of calls of setters: those of
    the composition, its revision, the selectors, the update policy, the claim,
    the resources, the connection secret, the time of publishing, the observed
    generation and the conditions.  The values are not nil (but for the update
    policy) and survive their JSON encoding, references to resources are not
    empty, and conditions are compared once anything of the status was set:
    before, the unstructured resource gives an empty condition
    ([condition_before_status]). *)
Theorem fake_composite_faithful {SJ : StatusJson} (ss : list (setting L R LR)) :
  zero (T:=list R) = [] -> Forall supported ss ->
  let real := foldl perform (NewComposite [compositeWithSchema SchemaLegacy]) ss in
  let fake := foldl perform (newMock L R LR) ss in
  view real = view fake /\
  (Exists (fun s => ofStatus s = true) ss -> forall ct, conditionOf ct real = conditionOf ct fake).
Proof.
  intros Hz Hss. eapply (implementations_agree supported (fun _ => True)); [by apply unstructured_implements|apply mock_implements|done|].
  by apply Forall_true.
Qed.

(** Without a status the unstructured resource gives a condition without a type,
    where the fake gives one of unknown status. *)
Lemma condition_before_status (ct : string) :
  conditionOf ct (NewComposite [compositeWithSchema SchemaLegacy]) = MkCondition "" "" 0 "" "" 0 /\
  conditionOf ct (newMock L R LR) = MkCondition ct ConditionUnknown 0 "" "" 0.
Proof. done. Qed.

(** An empty reference is not kept by the unstructured resource. *)
Lemma empty_reference_dropped (c : Composite) :
  Composite.SetResourceReferences RefString emptyRef [emptyRef] c = Composite.SetResourceReferences RefString emptyRef [] c.
Proof. unfold Composite.SetResourceReferences. by rewrite filter_cons_False by auto. Qed.

(** A nil reference is read back as an empty one: encoding/json decodes null to
    the zero value. *)
Lemma nil_claim_reference (o : Content) (z : ClaimReference) :
  sound o -> toValidJSON (@None ClaimReference) = inl ANil -> Marshal ANil = inl "null" -> Unmarshal "null" = inl z ->
  Composite.GetClaimReference (Composite.SetClaimReference None (MkComposite o SchemaLegacy)) = Some z.
Proof.
  intros Hs Hn Hm Hu. assert (open_at o ["spec"; "claimRef"]) as Ho by (eapply leaf_open; [by constructor|done]).
  change (getAt (T:=ClaimReference) (setAt o "spec.claimRef" (@None ClaimReference)) "spec.claimRef" = Some z).
  by rewrite getAt_alt, (setAt_get o "spec.claimRef" ["spec"; "claimRef"] None ANil), Hm, Hu.
Qed.

End unstructured.

(** ** A concrete run *)

(** Values encoded by a number with a tag, which generic data has as a list of
    two strings. *)
Definition JsonTagged (tag : string) (A : Type) `{Countable A} : Json A := {|
  Marshal x := inl (encodeStrings [tag; b2s (FormatUint (Npos (encode x)))]);
  Unmarshal b := match decodeStrings b with
                 | Some [t; s] =>
                     match read_digits 0 (s2b s) with
                     | Some (Npos p) => match decode p with Some x => inl x | None => inr (errorString "unsupported") end
                     | _ => inr (errorString "unsupported")
                     end
                 | _ => inr (errorString "unsupported")
                 end
|}.

#[local] Instance Condition_countable : Countable Condition.
Proof.
  refine (inj_countable' (fun c => (CType c, CStatus c, LastTransitionTime c, Reason c, Message c, ObservedGeneration c))
    (fun '(t, s, l, r, m, g) => MkCondition t s l r m g) _). by intros [].
Defined.

(** Objects are encoded by what a status has in them. *)
Definition fieldText (m : Content) (f : string) : string :=
  match m !! f with
  | None => ""
  | Some v => match Marshal (Json:=JsonDemo) v with inl b => "=" +:+ b | inr _ => "?" end
  end.

Definition JsonStatus : Json any := {|
  Marshal v := match v with
               | AObject m => inl (encodeStrings ["object"; fieldText m "conditions"; fieldText m "observedGeneration"])
               | _ => Marshal (Json:=JsonDemo) v
               end;
  Unmarshal b := Unmarshal (Json:=JsonDemo) b
|}.

Definition fromText {A B : Type} (J : Json A) (z : A) (f : A -> B) (text : string) : B + error :=
  match text with
  | "" => inl (f z)
  | String _ b => match Unmarshal b with inl x => inl (f x) | inr err => inr err end
  end.

Definition JsonConditions : Json (list Condition) := JsonTagged "conditions" (list Condition).
Definition JsonInt : Json Z := JsonTagged "int" Z.

Definition JsonStatusConditions : Json StatusConditions := {|
  Marshal _ := inr (errorString "unsupported");
  Unmarshal b := match decodeStrings b with
                 | Some [_; c; _] => fromText JsonConditions [] MkStatusConditions c
                 | _ => inr (errorString "unsupported")
                 end
|}.

Definition JsonObserved : Json ObservedStatus := {|
  Marshal _ := inr (errorString "unsupported");
  Unmarshal b := match decodeStrings b with
                 | Some [_; _; g] => fromText JsonInt 0%Z MkObservedStatus g
                 | _ => inr (errorString "unsupported")
                 end
|}.

Definition decodedConditions : Decoded StatusConditions := {| zero := MkStatusConditions []; partially _ := MkStatusConditions [] |}.
Definition decodedObserved : Decoded ObservedStatus := {| zero := MkObservedStatus 0; partially _ := MkObservedStatus 0 |}.

Lemma tagged_transparent (tag : string) (A : Type) `{Countable A} (x : A) : transparent (JA:=JsonStatus) (JT:=JsonTagged tag A) x.
Proof.
  exists (AArray (AString <$> [tag; b2s (FormatUint (Npos (encode x)))])), (encodeStrings [tag; b2s (FormatUint (Npos (encode x)))]).
  unfold toValidJSON. cbn [Marshal Unmarshal JsonTagged JsonStatus JsonDemo]. rewrite decode_encodeStrings, stringElements_fmap.
  split_and!; [done..|]. unfold FormatUint. by rewrite s2b_b2s, read_digits_digits, decode_encode by (apply N_size_bound || done).
Qed.

Lemma fromText_cons {A B : Type} (J : Json A) (z : A) (f : A -> B) (b : string) :
  fromText J z f ("=" +:+ b) = match Unmarshal b with inl x => inl (f x) | inr err => inr err end.
Proof. done. Qed.

(** A field of a status is decoded from its text. *)
Lemma fromText_field {A B : Type} (tag : string) `{Countable A} (z x : A) (f : A -> B) (m : Content) (field : string) :
  decodesField (JA:=JsonStatus) (JT:=JsonTagged tag A) m field x z -> fromText (JsonTagged tag A) z f (fieldText m field) = inl (f x).
Proof.
  unfold decodesField, fieldText. destruct (m !! field) as [j|]; [|by intros ->]. intros (b & Hb & Hu). destruct j as [| | | | | |m'].
  7:{ cbn [Marshal JsonStatus] in Hb. injection Hb as <-. cbn [Unmarshal JsonTagged] in Hu. by rewrite decode_encodeStrings in Hu. }
  all: change (Marshal (Json:=JsonStatus) ?v) with (Marshal (Json:=JsonDemo) v) in Hb; by rewrite Hb, fromText_cons, Hu.
Qed.

Lemma statusJson :
  StatusJson (JA:=JsonStatus) (JS:=JsonStatusConditions) (DS:=decodedConditions) (JC:=JsonConditions) (JO:=JsonObserved)
    (DO:=decodedObserved) (JZ:=JsonInt).
Proof.
  split.
  - intros m _. eexists. reflexivity.
  - done.
  - done.
  - intros m b cs _ [= <-] Hc. cbn [Unmarshal JsonStatusConditions]. rewrite decode_encodeStrings. by eapply fromText_field.
  - intros m b g _ [= <-] Hc. cbn [Unmarshal JsonObserved]. rewrite decode_encodeStrings. by eapply fromText_field.
  - intros cs _. apply tagged_transparent.
Qed.

Definition demoSettings : list (setting bool bool unit) :=
  [PutSelector true; PutReference true; PutSelector false; PutUpdatePolicy None; PutConditions [MkCondition TypeReady ConditionFalse 1 "Creating" "" 0];
   PutGeneration 3; PutConditions [MkCondition TypeSynced ConditionTrue 2 "ReconcileSuccess" "" 3; MkCondition TypeReady ConditionTrue 5 "Available" "" 3]].

Definition demoImpl : LegacyCompositeI bool bool unit Composite :=
  unstructuredComposite (JA:=JsonStatus) (JL:=JsonBool) (JR:=JsonBool) (JLR:=noJson _) (JSt:=noJson _) (JC:=noJson _)
    (JSec:=noJson _) (JT:=noJson _) (JRs:=noJson _) (DRs:={| zero := []; partially _ := [] |}) (JS:=JsonStatusConditions)
    (DS:=decodedConditions) (JCs:=JsonConditions) (JO:=JsonObserved) (DO:=decodedObserved) (JZ:=JsonInt) (fun _ => "") true.

Lemma fake_composite_faithful_witness :
  let real := foldl (perform (LegacyCompositeI0:=demoImpl)) (NewComposite [compositeWithSchema SchemaLegacy]) demoSettings in
  view (LegacyCompositeI0:=demoImpl) real = (MkAttributes (Some false) (Some true) None None None [] None None None, 3%Z) /\
  conditionOf (LegacyCompositeI0:=demoImpl) TypeReady real = MkCondition TypeReady ConditionTrue 5 "Available" "" 3.
Proof.
  assert (forall b, transparent (JA:=JsonStatus) (JT:=JsonBool) b) as Ht by (intros []; [exists (ABool true), "true"|exists (ABool false), "false"]; done).
  destruct (fake_composite_faithful (JA:=JsonStatus) (L:=bool) (R:=bool) (LR:=unit) (JL:=JsonBool) (JR:=JsonBool) (JLR:=noJson _) (JSt:=noJson _) (JC:=noJson _)
    (JSec:=noJson _) (JT:=noJson _) (JRs:=noJson _) (DRs:={| zero := []; partially _ := [] |}) (JS:=JsonStatusConditions)
    (DS:=decodedConditions) (JCs:=JsonConditions) (JO:=JsonObserved) (DO:=decodedObserved) (JZ:=JsonInt) (fun _ => "") true (SJ:=statusJson) demoSettings eq_refl)
    as [Hv Hc].
  - unfold demoSettings. apply Forall_cons; split; [apply (Ht true)|]. apply Forall_cons; split; [apply (Ht true)|].
    apply Forall_cons; split; [apply (Ht false)|]. apply Forall_cons; split; [vm_compute; reflexivity|].
    apply Forall_cons; split; [apply Forall_singleton, tagged_transparent|]. apply Forall_cons; split; [apply (tagged_transparent "int" Z)|].
    apply Forall_singleton. repeat apply Forall_cons_2; [apply tagged_transparent..|apply Forall_nil_2].
  - cbv zeta. split; [exact Hv|]. etransitivity; [apply Hc; do 4 right; by left|reflexivity].
Defined.
