(* ===== verification/Logging.v ===== *)
(** * Logging (pkg/logging)

    The loggers of the package over those of logr, and the filter that is put
    between klog and the logger of a program.  What is logged is what reaches
    the sink of the program. *)

From S2P Require Import Prelude GoStrings.

(** [strings.Contains(s, substr)] *)
Fixpoint Contains (s substr : bytes) : bool :=
  bool_decide (take (length substr) s = substr) || match s with [] => false | _ :: s' => Contains s' substr end.

Lemma Contains_iff (s substr : bytes) : Contains s substr = true <-> exists l r, s = l ++ substr ++ r.
Proof.
  induction s as [|c s IH]; cbn [Contains]; rewrite orb_true_iff, bool_decide_eq_true.
  - rewrite take_nil. split; [intros [<-|?]; [by exists [], []|done]|].
    intros (l & r & H). symmetry in H. apply app_eq_nil in H as [_ H]. apply app_eq_nil in H as [-> _]. by left.
  - rewrite IH. split.
    + intros [H|(l & r & ->)]; [exists [], (drop (length substr) (c :: s)); cbn [app]; by rewrite <- H at 1; rewrite take_drop|by exists (c :: l), r].
    + intros (l & r & H). destruct l as [|c' l]; cbn in H.
      * left. by rewrite H, take_app_length.
      * right. simplify_eq. by exists l, r.
Qed.

(** What go-logr/logr has of a sink: messages and errors it is given, the levels
    it logs at, and the sinks made of it.  Not every sink counts the depth of
    calls. *)
Class LogSink (S KV : Type) := {
  sinkInfo : S -> Z -> string -> list KV -> list (Z * string * list KV);
  sinkError : S -> string -> list KV -> list (string * list KV);
  sinkEnabled : S -> Z -> bool;
  sinkWithValues : list KV -> S -> S;
  sinkWithName : string -> S -> S;
  sinkWithCallDepth : option (Z -> S -> S)
}.

(** ** The filter of klog's messages *)

Section filter.
Context {S KV : Type} {LS : LogSink S KV}.

(** A sink that is filtered, or the program's own: a sink is replaced by one of
    the type the method it was asked for has. *)
Inductive sink := plain (s : S) | requestThrottlingFilter (LogSink_ : S).

Definition klogToLogrLevel (klogLvl : Z) : Z := if (3 <=? klogLvl)%Z then (klogLvl - 3)%Z else 0%Z.

Definition throttling (msg : string) : bool := Contains (s2b msg) (s2b "Waited for ") && Contains (s2b msg) (s2b "  request: ").

Definition filterInfo (l : S) (level : Z) (msg : string) (kv : list KV) : list (Z * string * list KV) :=
  if negb (Contains (s2b msg) (s2b "Waited for ")) || negb (Contains (s2b msg) (s2b "  request: ")) then []
  else sinkInfo l (klogToLogrLevel level) msg kv.

Definition filterEnabled (l : S) (level : Z) : bool := sinkEnabled l (klogToLogrLevel level).

Definition filterWithCallDepth (depth : Z) (l : S) : sink :=
  match sinkWithCallDepth with Some f => requestThrottlingFilter (f depth l) | None => requestThrottlingFilter l end.

(** The methods of a sink; those the filter does not have are those of the sink
    it embeds. *)
#[export] Instance sink_LogSink : LogSink sink KV := {|
  sinkInfo l := match l with plain s => sinkInfo s | requestThrottlingFilter s => filterInfo s end;
  sinkError l := match l with plain s | requestThrottlingFilter s => sinkError s end;
  sinkEnabled l := match l with plain s => sinkEnabled s | requestThrottlingFilter s => filterEnabled s end;
  sinkWithValues kv l := match l with plain s | requestThrottlingFilter s => plain (sinkWithValues kv s) end;
  sinkWithName n l := match l with plain s | requestThrottlingFilter s => plain (sinkWithName n s) end;
  sinkWithCallDepth := Some (fun depth l => match l with
    | plain s => match sinkWithCallDepth with Some f => plain (f depth s) | None => plain s end
    | requestThrottlingFilter s => filterWithCallDepth depth s
    end)
|}.

(** Messages that are not about throttled requests are dropped, others are
    logged with their values; levels of 3 and less are logged as information,
    one above as debugging. *)
Lemma filter_exact (l : S) (level : Z) (msg : string) (kv : list KV) :
  sinkInfo (requestThrottlingFilter l) level msg kv = (if throttling msg then sinkInfo l (Z.max 0 (level - 3)) msg kv else []).
Proof.
  cbn. unfold filterInfo, throttling, klogToLogrLevel.
  replace (Z.max 0 (level - 3)) with (if (3 <=? level)%Z then (level - 3)%Z else 0%Z) by (destruct (Z.leb_spec 3 level); lia).
  by destruct (Contains _ _), (Contains _ _).
Qed.

Lemma filter_depth (l : S) (depth level : Z) (msg : string) (kv : list KV) :
  throttling msg = false ->
  match sinkWithCallDepth (LogSink:=sink_LogSink) with
  | Some f => sinkInfo (f depth (requestThrottlingFilter l)) level msg kv = []
  | None => False
  end.
Proof.
  intros Hm. cbn [sinkWithCallDepth sink_LogSink]. unfold filterWithCallDepth.
  destruct (sinkWithCallDepth (S:=S)); rewrite filter_exact; by rewrite Hm.
Qed.

(** A logger made of the filtered one with values or a name is not filtered: it
    logs everything, at klog's levels. *)
Lemma filter_lost (l : S) (level : Z) (msg name : string) (kv kv' : list KV) :
  sinkInfo (sinkWithValues kv' (requestThrottlingFilter l)) level msg kv = sinkInfo (sinkWithValues kv' l) level msg kv /\
  sinkInfo (sinkWithName name (requestThrottlingFilter l)) level msg kv = sinkInfo (sinkWithName name l) level msg kv.
Proof. done. Qed.

End filter.
Arguments sink : clear implicits.

(** ** Crossplane's loggers *)

(** What go-logr/logr has of a logger: V raises its level. *)
Class Logr (L KV : Type) := {
  logrInfo : L -> string -> list KV -> list (Z * string * list KV);
  logrV : Z -> L -> L;
  logrWithValues : list KV -> L -> L;
  logrV_WithValues n kv l : logrV n (logrWithValues kv l) = logrWithValues kv (logrV n l)
}.

Section loggers.
Context {logr KV : Type} {LG : Logr logr KV}.

Inductive Logger := nopLogger | logrLogger (log : logr).

Definition NewNopLogger : Logger := nopLogger.
Definition NewLogrLogger (l : logr) : Logger := logrLogger l.

Definition LoggerInfo (l : Logger) (msg : string) (kv : list KV) : list (Z * string * list KV) :=
  match l with nopLogger => [] | logrLogger log => logrInfo log msg kv end.

Definition LoggerDebug (l : Logger) (msg : string) (kv : list KV) : list (Z * string * list KV) :=
  match l with nopLogger => [] | logrLogger log => logrInfo (logrV 1 log) msg kv end.

Definition LoggerWithValues (kv : list KV) (l : Logger) : Logger :=
  match l with nopLogger => nopLogger | logrLogger log => logrLogger (logrWithValues kv log) end.

(** Debug messages are one level above the others, whatever values were added;
    without a logger nothing is logged. *)
Lemma debug_above (l : logr) (msg : string) (kvs : list (list KV)) (kv : list KV) :
  LoggerDebug (foldl (fun l kv => LoggerWithValues kv l) (NewLogrLogger l) kvs) msg kv =
  LoggerInfo (foldl (fun l kv => LoggerWithValues kv l) (NewLogrLogger (logrV 1 l)) kvs) msg kv.
Proof.
  revert l. induction kvs as [|v kvs IH]; intros l; [done|]. 
  cbn [foldl LoggerWithValues NewLogrLogger]. rewrite <- logrV_WithValues. exact (IH (logrWithValues v l)).
Qed.

End loggers.

(** ** An example: the filter and its loss *)

(** A sink that keeps the messages and their levels. *)
Definition demoSink : LogSink unit unit := {|
  sinkInfo _ level msg kv := [(level, msg, kv)];
  sinkError _ msg kv := [(msg, kv)];
  sinkEnabled _ _ := true;
  sinkWithValues _ s := s;
  sinkWithName _ s := s;
  sinkWithCallDepth := None
|}.

#[local] Existing Instance demoSink.

Example filter_noise :
  sinkInfo (requestThrottlingFilter tt) 4 "Listing and watching" [] = [] /\
  sinkInfo (sinkWithValues [tt] (requestThrottlingFilter tt)) 4 "Listing and watching" [] =
    [(4%Z, "Listing and watching", [])] /\
  sinkInfo (requestThrottlingFilter tt) 4 "Waited for 1s due to throttling,  request: GET" [] =
    [(1%Z, "Waited for 1s due to throttling,  request: GET", [])].
Proof. vm_compute. done. Qed.
