(* ===== verification/Setup.v ===== *)
(** * Setting controllers up (pkg/ratelimiter/default.go, pkg/controller/options.go)

    The default rate limiters and options.  Go's int has 64 bits; the limits
    given to the API client are products of the rate that is asked for. *)

From Stdlib Require Import SpecFloat.
From S2P Require Import Prelude GoErrors GoTime Policies Logging.

(** Arithmetic on int. *)
Definition int64 (z : Z) : Z := ((z + 2 ^ 63) mod 2 ^ 64 - 2 ^ 63)%Z.

Lemma int64_small (z : Z) : (- 2 ^ 63 <= z < 2 ^ 63)%Z -> int64 z = z.
Proof. intros Hz. unfold int64. rewrite Z.mod_small by lia. lia. Qed.

(** [float32(n)] and [float64(n)]: the nearest floats with 24 and 53 bits. *)
Definition float32 (n : Z) : spec_float := binary_normalize 24 128 n 0 false.
Definition float64 (n : Z) : spec_float := binary_normalize 53 1024 n 0 false.

(** ** Rate limiters *)

(** [rate.NewLimiter(limit, burst)]; a [rate.Limit] is a float64. *)
Record Limiter := MkLimiter { limit : spec_float; limiterBurst : Z }.

(** The limiter over names that holds one. *)
Record BucketRateLimiter := MkBucketRateLimiter { bucketLimiter : Limiter }.

Definition NewGlobal (rps : Z) : BucketRateLimiter := MkBucketRateLimiter (MkLimiter (float64 rps) (int64 (rps * 10))).

(** [workqueue.NewTypedItemExponentialFailureRateLimiter(base, max)] *)
Record ControllerRateLimiter := MkControllerRateLimiter { baseDelay : Z; maxDelay : Z }.

Definition NewController : ControllerRateLimiter := MkControllerRateLimiter (1 * second) (60 * second).

(** [rest.Config]: the limits, and the rest of it. *)
Record RESTConfig (C : Type) := MkRESTConfig { QPS : spec_float; Burst : Z; restOf : C }.
Arguments MkRESTConfig {C} _ _ _.
Arguments QPS {C} _.
Arguments Burst {C} _.
Arguments restOf {C} _.

(** [copy] is rest.CopyConfig. *)
Definition LimitRESTConfig {C} (copy : RESTConfig C -> RESTConfig C) (cfg : RESTConfig C) (rps : Z) : RESTConfig C :=
  MkRESTConfig (float32 (int64 (rps * 5))) (int64 (rps * 10)) (restOf (copy cfg)).

(** The value of a finite float, if it is an integer of at least a bit. *)
Definition intValue (x : spec_float) : option Z :=
  match x with
  | S754_zero _ => Some 0%Z
  | S754_finite s m e => if (0 <=? e)%Z then Some ((if s then -1 else 1) * Zpos m * 2 ^ e)%Z
                         else if (Zpos m mod 2 ^ (- e) =? 0)%Z then Some ((if s then -1 else 1) * (Zpos m / 2 ^ (- e)))%Z else None
  | _ => None
  end.

(** Up to 2^63/10 reconciles per second neither limit overflows, and more do. *)
Lemma limits_bounded {C} (copy : RESTConfig C -> RESTConfig C) (cfg : RESTConfig C) (rps : Z) :
  (0 <= rps < 2 ^ 63)%Z ->
  Burst (LimitRESTConfig copy cfg rps) = limiterBurst (bucketLimiter (NewGlobal rps)) /\
  (rps <= 922337203685477580 -> Burst (LimitRESTConfig copy cfg rps) = 10 * rps /\ QPS (LimitRESTConfig copy cfg rps) = float32 (5 * rps))%Z /\
  (rps = 922337203685477581 -> Burst (LimitRESTConfig copy cfg rps) < 0)%Z.
Proof.
  intros Hr. cbn. split_and!; [done| |by intros ->].
  intros Hb. rewrite !int64_small by lia. split; [lia|]. f_equal. lia.
Qed.

Example default_limits :
  intValue (QPS (LimitRESTConfig id (MkRESTConfig S754_nan 0 tt) 10)) = Some 50%Z /\ Burst (LimitRESTConfig id (MkRESTConfig S754_nan 0 tt) 10) = 100%Z.
Proof. vm_compute. done. Qed.

(** ** Options *)

Section options.
Context {L R E M CL G : Type}.

(** A gate is an interface, and may be nil or hold a nil pointer. *)
Record Options := MkOptions {
  OptLogger : @Logger L;
  GlobalRateLimiter : R;
  PollInterval : Z;
  MaxConcurrentReconciles : Z;
  Features : option Flags;
  ESSOptions : option E;
  MetricOptions : option M;
  ChangeLogOptions : option CL;
  OptGate : option (option G)
}.

(** [bucket] makes a rate limiter of the bucket. *)
Definition DefaultOptions (bucket : BucketRateLimiter -> R) : Options :=
  MkOptions NewNopLogger (bucket (NewGlobal 1)) (60 * second) 1 (Some (MkFlags None)) None None None None.

(** [controller.Options] of controller-runtime, the fields that are set. *)
Record ControllerOptions := MkControllerOptions { coMaxConcurrentReconciles : Z; coRateLimiter : ControllerRateLimiter; coRecoverPanic : option bool }.

Definition ForControllerRuntime (o : Options) : ControllerOptions :=
  MkControllerOptions (MaxConcurrentReconciles o) NewController (Some true).

(** [Setup] of the reconciler of custom resource definitions; [complete] builds
    the controller with controller-runtime. *)
Definition SetupGate (complete : @Logger L -> G -> option error) (o : Options) : option error :=
  match OptGate o with
  | None | Some None => Some (errorString "gate is required")
  | Some (Some gate) => complete (OptLogger o) gate
  end.

Lemma default_options_ungated (bucket : BucketRateLimiter -> R) (complete : @Logger L -> G -> option error) :
  SetupGate complete (DefaultOptions bucket) = Some (errorString "gate is required").
Proof. done. Qed.

End options.
