(* ===== verification/Resources.v ===== *)
(** * The rest of pkg/resource and of apis/common

    Tags of external resources, statuses of references, conversions of
    references, the finalizers other than the API's, and applicators that retry
    as often as they are told to. *)

From S2P Require Import Prelude GoStrings GoErrors Conditions Meta Prog Managed Composite Claim Applicator Reference ProviderConfig.

Definition IsConditionTrue (c : Condition) : bool := bool_decide (CStatus c = ConditionTrue).

Definition NewNotAllowed (message : string) : error := notAllowedError (errorString message).

(** [MustCreateObject], of what the creater answers; [inr] is a panic. *)
Definition MustCreateObject {Obj} (New : GroupVersionKind -> Obj + error) (kind : GroupVersionKind) : Obj + error :=
  match New kind with inr err => inr err | inl obj => inl obj end.

Lemma not_allowed_ignored (message : string) :
  IsNotAllowed (Some (NewNotAllowed message)) = true /\ Ignore IsNotAllowed (Some (NewNotAllowed message)) = None /\
  Error (NewNotAllowed message) = message.
Proof. done. Qed.

(** ** Tags of external resources *)

Definition ExternalResourceTagKeyKind : string := "crossplane-kind".
Definition ExternalResourceTagKeyName : string := "crossplane-name".
Definition ExternalResourceTagKeyProvider : string := "crossplane-providerconfig".
Definition ExternalResourceTagKeyProviderConfigKind : string := "crossplane-providerconfig-kind".

(** [strings.ToLower] of ASCII strings, as the names of groups and kinds are. *)
Definition toLower (c : ascii) : ascii :=
  let n := N_of_ascii c in if ((65 <=? n) && (n <=? 90))%N then ascii_of_N (n + 32) else c.

Definition ToLower (s : string) : string := b2s (toLower <$> s2b s).

(** The recommended names of controllers of a kind. *)
Definition ManagedControllerName (kind : string) : string := "managed/" +:+ ToLower kind.
Definition ProviderConfigControllerName (kind : string) : string := "providerconfig/" +:+ ToLower kind.

(** How a managed resource refers to its ProviderConfig: the interface it
    implements, if any, and the reference, which may be nil. *)
Inductive configReferencer := typedConfig (r : option ProviderConfigReference) | legacyConfig (r : option Reference) | noConfig.

(** [groupKind] is the text of the group and kind of the resource. *)
Definition GetExternalTags (groupKind name : string) (config : configReferencer) : gmap string string :=
  let tags : gmap string string := {[ ExternalResourceTagKeyKind := ToLower groupKind; ExternalResourceTagKeyName := name ]} in
  match config with
  | typedConfig (Some pcRef) =>
      let tags := if decide (pcrName pcRef <> "") then <[ExternalResourceTagKeyProvider := pcrName pcRef]> tags else tags in
      if decide (pcrKind pcRef <> "") then <[ExternalResourceTagKeyProviderConfigKind := pcrKind pcRef]> tags else tags
  | legacyConfig (Some pcRef) => if decide (rName pcRef <> "") then <[ExternalResourceTagKeyProvider := rName pcRef]> tags else tags
  | _ => tags
  end.

(** The name and the kind of the ProviderConfig a resource refers to. *)
Definition configName (config : configReferencer) : string :=
  match config with typedConfig (Some r) => pcrName r | legacyConfig (Some r) => rName r | _ => "" end.
Definition configKind (config : configReferencer) : string :=
  match config with typedConfig (Some r) => pcrKind r | _ => "" end.

(** A tag is there with the value it stands for, and only when that is not
    empty; kind and name always are. *)
Lemma external_tags (groupKind name : string) (config : configReferencer) (k v : string) :
  GetExternalTags groupKind name config !! k = Some v <->
  (k = ExternalResourceTagKeyKind /\ v = ToLower groupKind) \/ (k = ExternalResourceTagKeyName /\ v = name) \/
  (k = ExternalResourceTagKeyProvider /\ v = configName config /\ v <> "") \/
  (k = ExternalResourceTagKeyProviderConfigKind /\ v = configKind config /\ v <> "").
Proof.
  assert (GetExternalTags groupKind name config !! k =
    if decide (k = ExternalResourceTagKeyKind) then Some (ToLower groupKind) else if decide (k = ExternalResourceTagKeyName) then Some name
    else if decide (k = ExternalResourceTagKeyProvider) then (if decide (configName config <> "") then Some (configName config) else None)
    else if decide (k = ExternalResourceTagKeyProviderConfigKind) then (if decide (configKind config <> "") then Some (configKind config) else None)
    else None) as ->.
  { unfold GetExternalTags. destruct config as [[r|]|[r|]|]; cbn [configName configKind]; repeat case_decide; subst; try done;
      rewrite ?lookup_insert_ne, ?lookup_insert_eq by congruence; rewrite ?lookup_insert_ne, ?lookup_insert_eq, ?lookup_singleton_ne by congruence; done. }
  repeat case_decide; subst; split; (intros [= <-] || intros [[? ->]|[[? ->]|[(? & -> & ?)|(? & -> & ?)]]]); try done; eauto 6.
Qed.

(** ** Statuses of references *)

Inductive ReferenceStatusType := MkStatusType (t : Z).

Definition ReferenceStatusUnknown : ReferenceStatusType := MkStatusType 0.
Definition ReferenceNotFound : ReferenceStatusType := MkStatusType 1.
Definition ReferenceNotReady : ReferenceStatusType := MkStatusType 2.
Definition ReferenceReady : ReferenceStatusType := MkStatusType 3.

(** [None] is a panic: the type is the index into a slice. *)
Definition StatusTypeString (t : ReferenceStatusType) : option string :=
  let '(MkStatusType i) := t in
  if (i <? 0)%Z then None else ["Unknown"; "NotFound"; "NotReady"; "Ready"] !! Z.to_nat i.

Record ReferenceStatus := MkReferenceStatus { rsName : string; rsStatus : ReferenceStatusType }.

Definition formatInt (z : Z) : string :=
  (if (z <? 0)%Z then "-" else "") +:+ b2s (FormatUint (Z.abs_N z)).

(** fmt recovers the panic of a String method, and prints it. *)
Definition printedPanic (i : Z) : string :=
  "%!s(PANIC=String method: runtime error: index out of range [" +:+ formatInt i +:+ "]" +:+ (if (i <? 0)%Z then "" else " with length 4") +:+ ")".

Definition ReferenceStatusString (r : ReferenceStatus) : string :=
  "{reference:" +:+ rsName r +:+ " status:" +:+
  (match StatusTypeString (rsStatus r) with Some s => s | None => let '(MkStatusType i) := rsStatus r in printedPanic i end) +:+ "}".

Example reference_status_printed :
  ReferenceStatusString (MkReferenceStatus "a" ReferenceNotReady) = "{reference:a status:NotReady}" /\
  ReferenceStatusString (MkReferenceStatus "a" (MkStatusType 7)) =
    "{reference:a status:%!s(PANIC=String method: runtime error: index out of range [7] with length 4)}".
Proof. vm_compute. done. Qed.

Lemma status_type_string (t : Z) : is_Some (StatusTypeString (MkStatusType t)) <-> (0 <= t <= 3)%Z.
Proof.
  cbn. destruct (Z.ltb_spec t 0); [split; [by intros []|lia]|]. rewrite lookup_lt_is_Some. cbn [length]. lia.
Qed.

Lemma status_type_injective (t u : ReferenceStatusType) (s : string) : StatusTypeString t = Some s -> StatusTypeString u = Some s -> t = u.
Proof.
  destruct t as [t], u as [u]. intros Ht Hu.
  assert (0 <= t <= 3)%Z as H1 by (apply status_type_string; eauto). assert (0 <= u <= 3)%Z as H2 by (apply status_type_string; eauto).
  assert (t = 0 \/ t = 1 \/ t = 2 \/ t = 3)%Z as [->|[->|[->| ->]]] by lia; assert (u = 0 \/ u = 1 \/ u = 2 \/ u = 3)%Z as [->|[->|[->| ->]]] by lia;
    vm_compute in Ht, Hu; congruence.
Qed.

(** ** References *)

Record LocalSecretKeySelector := MkLocalSecretKeySelector { lskReference : LocalSecretReference; lskKey : string }.

Definition ToSecretKeySelector (namespace : string) (ls : LocalSecretKeySelector) : SecretKeySelector :=
  MkSecretKeySelector namespace (LocalSecretName (lskReference ls)) (lskKey ls).

(** What schema.GroupVersionKind does with a group that holds no slash. *)
Class GVKText `{MetaV1} := {
  FromAPIVersionAndKind : string -> string -> GroupVersionKind;
  from_to gvk : (forall l r, Group gvk <> l +:+ "/" +:+ r) -> (forall l r, Version gvk <> l +:+ "/" +:+ r) -> Version gvk <> "" ->
    FromAPIVersionAndKind (ToAPIVersionAndKind gvk).1 (ToAPIVersionAndKind gvk).2 = gvk
}.

Section typed.
Context `{GT : GVKText}.

Definition TypedSetGroupVersionKind (gvk : GroupVersionKind) (obj : TypedReference) : TypedReference :=
  let '(apiVersion, kind) := ToAPIVersionAndKind gvk in MkTypedReference apiVersion kind (RefName obj) (RefUID obj).

Definition TypedGroupVersionKind (obj : TypedReference) : GroupVersionKind := FromAPIVersionAndKind (RefAPIVersion obj) (RefKind obj).

Lemma typed_gvk (gvk : GroupVersionKind) (obj : TypedReference) :
  (forall l r, Group gvk <> l +:+ "/" +:+ r) -> (forall l r, Version gvk <> l +:+ "/" +:+ r) -> Version gvk <> "" ->
  TypedGroupVersionKind (TypedSetGroupVersionKind gvk obj) = gvk /\ RefName (TypedSetGroupVersionKind gvk obj) = RefName obj /\
  RefUID (TypedSetGroupVersionKind gvk obj) = RefUID obj.
Proof.
  intros H1 H2 H3. unfold TypedSetGroupVersionKind, TypedGroupVersionKind. pose proof (from_to gvk H1 H2 H3) as Hg.
  by destruct (ToAPIVersionAndKind gvk) as [a k].
Qed.

(** References to claims and composites. *)
Definition ClaimGroupVersionKind (c : ClaimReference) : GroupVersionKind := FromAPIVersionAndKind (clAPIVersion c) (clKind c).
Definition CompositeGroupVersionKind (c : CompositeReference) : GroupVersionKind := FromAPIVersionAndKind (coAPIVersion c) (coKind c).

End typed.

(** ** Finalizers and applicators *)

Section finalizers.
Context {O : Type} {OO : Object O} {KE : KErrors}.

(** The interface, as the operations of one that implements it. *)
Record Finalizer := MkFinalizer {
  AddFinalizerOf : O -> prog (ceff O) (O * option error);
  RemoveFinalizerOf : O -> prog (ceff O) (O * option error)
}.

Definition NewNopFinalizer : Finalizer := MkFinalizer (fun o => mret (o, None)) (fun o => mret (o, None)).
Definition NewAPIFinalizer (finalizer : string) : Finalizer := MkFinalizer (APIAddFinalizer finalizer) (APIRemoveFinalizer finalizer).

(** [FinalizerFns]: the functions it holds. *)
Definition FinalizerFns (add remove : O -> prog (ceff O) (O * option error)) : Finalizer := MkFinalizer add remove.

(** [ApplicatorWithRetry]; a backoff is the number of attempts after the first,
    of which [retry.DefaultRetry] makes four. *)
Record ApplicatorWithRetry := MkApplicatorWithRetry {
  retried : O -> prog (ceff O) (O * option error); shouldRetry : option error -> bool; backoff : nat
}.

Definition DefaultRetry : nat := 4.

Definition NewApplicatorWithRetry (applicator : O -> prog (ceff O) (O * option error)) (shouldRetry : option error -> bool) (b : option nat) : ApplicatorWithRetry :=
  MkApplicatorWithRetry applicator shouldRetry (match b with Some n => n | None => DefaultRetry end).

Definition ApplyWithRetry (awr : ApplicatorWithRetry) : O -> prog (ceff O) (O * option error) :=
  OnError (backoff awr) (shouldRetry awr) (retried awr).

(** Without a backoff of its own this is the applicator of the reconcilers. *)
Lemma default_retry (applicator : O -> prog (ceff O) (O * option error)) (retry : option error -> bool) :
  ApplyWithRetry (NewApplicatorWithRetry applicator retry None) = RetryApply retry applicator.
Proof. done. Qed.

(** The pauses in a trace. *)
Definition isPause (ev : event (ceff O)) : bool := match ev with Ev CSleep _ => true | _ => false end.
Definition pauses (tr : list (event (ceff O))) : nat := length (List.filter isPause tr).

Lemma pauses_app (t u : list (event (ceff O))) : pauses (t ++ u) = pauses t + pauses u.
Proof. unfold pauses. by rewrite List.filter_app, length_app. Qed.

Lemma exec_trigger_pause {A} (k : unit -> prog (ceff O) A) (tr : list (event (ceff O))) (r : option A) :
  exec (x ← trigger CSleep; k x) tr r -> exists tr', tr = Ev CSleep tt :: tr' /\ exec (k tt) tr' r.
Proof. cbn. intros ([] & tr' & -> & H). eauto. Qed.

(** An applicator is tried at most once more than the backoff says, and an error
    that should be retried is returned only after that many attempts. *)
Lemma retry_bounded (fn : O -> prog (ceff O) (O * option error)) (retry : option error -> bool) (n : nat) (o : O)
    (tr : list (event (ceff O))) (r : option (O * option error)) :
  (forall o tr r, exec (fn o) tr r -> pauses tr = 0) -> exec (OnError n retry fn o) tr r ->
  pauses tr <= n /\ forall o' e, r = Some (o', Some e) -> retry (Some e) = true -> pauses tr = n.
Proof.
  intros Hfn. revert o tr r. induction n as [|n IH]; intros o tr r; cbn [OnError]; intros He;
    apply exec_bind in He as [[He ->]|([o1 err] & tr1 & tr2 & -> & He & Hr)]; try (rewrite (Hfn _ _ _ He); split; [lia|done]);
    rewrite pauses_app, (Hfn _ _ _ He); destruct err as [e|]; try (destruct Hr as [-> ->]; by split; [cbn; lia|]);
    destruct (retry (Some e)) eqn:Hre; try (destruct Hr as [-> ->]; split; [cbn; lia|intros o' e' [= _ <-]; congruence]).
  - destruct Hr as [-> ->]. by split; [|intros o' e' [= _ <-]].
  - apply exec_trigger_pause in Hr as (tr' & -> & Hr). destruct (IH o1 tr' r Hr) as [Hle Heq]. cbn.
    split; [unfold pauses in Hle; cbn; lia|]. intros o' e' Hres Hre'. specialize (Heq o' e' Hres Hre'). unfold pauses in *. cbn. lia.
Qed.

End finalizers.
