(* ===== verification/UsageProtection.v ===== *)
(** * ProviderConfigs in use (pkg/resource/providerconfig.go together with
      pkg/reconciler/providerconfig/reconciler.go)

    The trackers of managed resources write usages, and the reconciler of
    ProviderConfigs finds them by their labels.  Put together over a server that
    stores usages: a ProviderConfig a managed resource has tracked keeps its
    finalizer.  Also the construction of the reconciler. *)

From S2P Require Import Prelude GoErrors GoTime Conditions Meta Prog Managed Applicator ProviderConfig Resources.

(** ** Construction *)

Record ProviderConfigKinds := MkKinds { Config : GroupVersionKind; Usage : GroupVersionKind; UsageList : GroupVersionKind }.

(** Messages of the panics of failed type assertions. *)
Definition notAProviderConfig : error := errorString "interface conversion: not a ProviderConfig".
Definition notAUsageList : error := errorString "interface conversion: not a ProviderConfigUsageList".

Section construction.
Context {Obj Log Rec : Type} (isProviderConfig isUsageList isLegacyUsage : Obj -> bool) (nopLogger : Log) (nopRecorder : Rec).

Record ConfigReconciler := MkConfigReconciler {
  newConfig : Obj + error; newUsageList : Obj + error; legacyPCU : bool; crLog : Log; crRecord : Rec
}.

Definition ReconcilerOption : Type := ConfigReconciler -> ConfigReconciler.

Definition WithLogger (l : Log) : ReconcilerOption := fun r =>
  MkConfigReconciler (newConfig r) (newUsageList r) (legacyPCU r) l (crRecord r).

Definition WithRecorder (er : Rec) : ReconcilerOption := fun r =>
  MkConfigReconciler (newConfig r) (newUsageList r) (legacyPCU r) (crLog r) er.

(** A type assertion that panics. *)
Definition asserted (holds : Obj -> bool) (why : error) (o : Obj + error) : Obj + error :=
  match o with inl obj => if holds obj then inl obj else inr why | inr err => inr err end.

(** [NewReconciler], with the scheme as the function that makes objects of a
    kind; [inr] is a panic. *)
Definition NewReconciler (New : GroupVersionKind -> Obj + error) (kinds : ProviderConfigKinds) (o : list ReconcilerOption) : ConfigReconciler + error :=
  let nc := asserted isProviderConfig notAProviderConfig (MustCreateObject New (Config kinds)) in
  let nul := asserted isUsageList notAUsageList (MustCreateObject New (UsageList kinds)) in
  match MustCreateObject New (Usage kinds) with
  | inr err => inr err
  | inl usage =>
      match nc, nul with
      | inl _, inl _ => inl (foldl (fun r ro => ro r) (MkConfigReconciler nc nul (isLegacyUsage usage) nopLogger nopRecorder) o)
      | inr err, _ | _, inr err => inr err
      end
  end.

(** What options leave alone. *)
Definition configures (ro : ReconcilerOption) : Prop :=
  forall r, newConfig (ro r) = newConfig r /\ newUsageList (ro r) = newUsageList r /\ legacyPCU (ro r) = legacyPCU r.

Lemma options_configure (l : Log) (er : Rec) : configures (WithLogger l) /\ configures (WithRecorder er).
Proof. done. Qed.

(** If it is made, the scheme knows the three kinds and two of them are what
    they should be; it never panics when it makes objects, and looks
    for legacy usages exactly if the usages are legacy ones. *)
Lemma new_reconciler_made (New : GroupVersionKind -> Obj + error) (kinds : ProviderConfigKinds) (o : list ReconcilerOption) (r : ConfigReconciler) :
  Forall configures o -> NewReconciler New kinds o = inl r ->
  exists config list_ usage, New (Config kinds) = inl config /\ New (UsageList kinds) = inl list_ /\ New (Usage kinds) = inl usage /\
    isProviderConfig config = true /\ isUsageList list_ = true /\
    newConfig r = inl config /\ newUsageList r = inl list_ /\ legacyPCU r = isLegacyUsage usage.
Proof.
  intros Ho. unfold NewReconciler, MustCreateObject, asserted. destruct (New (Usage kinds)) as [usage|]; [|done].
  destruct (New (Config kinds)) as [config|]; [|done]. destruct (isProviderConfig config) eqn:Hc; [|done].
  destruct (New (UsageList kinds)) as [list_|]; [|done]. destruct (isUsageList list_) eqn:Hl; [|done]. intros [= <-].
  exists config, list_, usage. split_and!; [done..| | |];
  (assert (forall r0 : ConfigReconciler, let r := foldl (fun r ro => ro r) r0 o in
    newConfig r = newConfig r0 /\ newUsageList r = newUsageList r0 /\ legacyPCU r = legacyPCU r0) as H
  by (induction Ho as [|ro o Hro _ IH]; [done|]; intros r0; cbn; destruct (IH (ro r0)) as (-> & -> & ->); apply Hro));
  by destruct (H (MkConfigReconciler (inl config) (inl list_) (isLegacyUsage usage) nopLogger nopRecorder)) as (? & ? & ?).
Qed.

End construction.

(** ** The server *)

Section server.
Context {KE : KErrors} {MV : MetaV1} (GroupVersionString : GroupVersionKind -> string).

Abbreviation store := (gmap (string * string) ProviderConfigUsage).

(** What the server stores of an object it accepts, which it may stamp with a
    version and a UID. *)
Definition sameUsage (u u' : ProviderConfigUsage) : Prop :=
  uConfig u' = uConfig u /\ Labels (uMeta u') = Labels (uMeta u) /\ OwnerReferences (uMeta u') = OwnerReferences (uMeta u).

(** The answers of the server and what they mean for the store.  Calls may fail;
    what is stored is found, and is not reported as missing. *)
Definition served (s : store) (ev : event (ceff ProviderConfigUsage)) (s' : store) : Prop :=
  match ev with
  | @Ev _ X e x =>
      match e in ceff _ Y return Y -> Prop with
      | CGet k _ => fun '(u, err) => s' = s /\
          match s !! k with
          | Some stored => (err = None /\ u = stored) \/ (err <> None /\ IsNotFound err = false)
          | None => err <> None
          end
      | CCreate o => fun '(_, err) =>
          match err with Some _ => s' = s | None => s !! nameOf o = None /\ exists u, sameUsage o u /\ s' = <[nameOf o := u]> s end
      | CUpdate o => fun '(_, err) =>
          match err with Some _ => s' = s | None => is_Some (s !! nameOf o) /\ exists u, sameUsage o u /\ s' = <[nameOf o := u]> s end
      | CPatch _ _ => fun _ => True
      | CSleep => fun _ => s' = s
      end x
  end.

Fixpoint served_all (s : store) (tr : list (event (ceff ProviderConfigUsage))) (s' : store) : Prop :=
  match tr with [] => s' = s | ev :: tr' => exists s1, served s ev s1 /\ served_all s1 tr' s' end.

(** The usages the server lists for labels. *)
Definition matches (ls : gmap string string) (u : ProviderConfigUsage) : Prop :=
  match Labels (uMeta u) with Some m => ls ⊆ m | None => False end.

(** A usage as a tracker writes it. *)
Definition wellTracked (u : ProviderConfigUsage) : Prop :=
  hasController u = true /\
  matches (if decide (pcrKind (uConfig u) = "") then {[LabelKeyProviderName := pcrName (uConfig u)]}
           else {[LabelKeyProviderName := pcrName (uConfig u); LabelKeyProviderKind := pcrKind (uConfig u)]}) u.

Lemma wellTracked_same (u u' : ProviderConfigUsage) : sameUsage u u' -> wellTracked u -> wellTracked u'.
Proof. intros (Hc & Hl & Ho). unfold wellTracked, matches, hasController. by rewrite Hc, Hl, Ho. Qed.

Lemma hasController_AsController (u : ProviderConfigUsage) (r : TypedReference) : OwnerReferences (uMeta u) = [AsController r] -> hasController u = true.
Proof.
  intros Ho. unfold hasController. rewrite Ho. destruct (GetControllerOf [AsController r]) eqn:Hc; [done|].
  apply controller_none in Hc. rewrite Forall_singleton in Hc. by destruct (Hc eq_refl).
Qed.

(** ** Tracking *)

(** Once a usage was applied without an error, the server stores it, or one that
    refers to the same ProviderConfig and was written by a tracker. *)
Lemma applyUsage_stored (uid : string) (pcu : ProviderConfigUsage) (tr : list (event (ceff ProviderConfigUsage))) (s s' : store) :
  uGenerateName pcu = "" -> wellTracked pcu -> (forall u, s !! nameOf pcu = Some u -> wellTracked u) ->
  exec (applyUsage uid pcu) tr (Some None) -> served_all s tr s' ->
  exists u, s' !! nameOf pcu = Some u /\ uConfig u = uConfig pcu /\ wellTracked u.
Proof.
  intros Hg Hw Hs He Hsv. unfold applyUsage, UpdatingApply, create, generated in He. cbn [GenerateName UsageObject] in He.
  rewrite Hg in He. rewrite (bool_decide_eq_true_2 ("" = "")), andb_false_r in He by done.
  cbn [mbind prog_bind bind_prog trigger exec] in He. destruct He as ([current gerr] & tr1 & -> & He).
  destruct Hsv as (s1 & [-> Hget] & Hsv). destruct (IsNotFound gerr) eqn:Hn.
  - cbn [mbind prog_bind bind_prog trigger exec mret prog_ret] in He. destruct He as ([o [e|]] & tr2 & -> & -> & He); [done|].
    destruct Hsv as (s2 & (_ & u & Hu & ->) & ->). exists u. rewrite lookup_insert_eq. split; [done|]. split; [apply Hu|by eapply wellTracked_same].
  - destruct gerr as [ge|]; [by destruct He as [_ He]; unfold Ignore in He; destruct (IsNotAllowed _) eqn:Hna in He|].
    destruct (s !! nameOf pcu) as [stored|] eqn:Hst; [|by destruct Hget]. destruct Hget as [[_ ->]|[? _]]; [|done].
    destruct (usageOptions_spec uid stored pcu) as (oerr & Ho & Hspec). rewrite Ho in He. destruct oerr as [oe|].
    + destruct He as [-> He]. rewrite Hsv. exists stored. split; [done|]. split; [|by apply Hs].
      destruct (Ignore IsNotAllowed (Some oe)); [done|]. destruct Hspec as [_ Hd].
      assert (sameReference stored pcu) as [Hc _]; [|done]. apply dec_stable. naive_solver.
    + cbn [mbind prog_bind bind_prog trigger exec mret prog_ret] in He. destruct He as ([o [e|]] & tr2 & -> & -> & He); [done|].
      destruct Hsv as (s2 & (_ & u & Hu & ->) & ->). exists u. cbn in *. rewrite lookup_insert_eq. split; [done|]. split; [apply Hu|].
      by apply (wellTracked_same _ _ Hu).
Qed.

(** The tracker of a managed resource, typed or legacy, and the name of the
    usage it writes. *)
Definition tracker (legacy : bool) (mg : ObjectMeta) (gvk : GroupVersionKind) (ref : ProviderConfigReference) : prog (ceff ProviderConfigUsage) (option error) :=
  if legacy then LegacyTrack GroupVersionString mg gvk (Some ref) else Track GroupVersionString mg gvk (Some ref).

Definition usageKey (legacy : bool) (mg : ObjectMeta) : string * string := ((if legacy then "" else Namespace mg), UID mg).

Lemma tracked_usage (legacy : bool) (mg : ObjectMeta) (gvk : GroupVersionKind) (ref : ProviderConfigReference) (tr : list (event (ceff ProviderConfigUsage))) (s s' : store) :
  exec (tracker legacy mg gvk ref) tr (Some None) -> served_all s tr s' -> (forall u, s !! usageKey legacy mg = Some u -> wellTracked u) ->
  exists u, s' !! usageKey legacy mg = Some u /\ wellTracked u /\ uConfig u = (if legacy then MkPCReference (pcrName ref) "" else ref) /\
    (legacy = false -> pcrKind ref <> "").
Proof.
  intros He Hs Hw. destruct legacy; cbn [tracker LegacyTrack Track] in He.
  - match type of He with exec (applyUsage _ ?p) _ _ => destruct (applyUsage_stored (UID mg) p tr s s') as (u & Hu & Hc & Ht) end; try done.
    { split; [by eapply hasController_AsController|]. cbn. done. }
    by exists u.
  - destruct (decide (pcrKind ref = "")) as [Hk|Hk]; [by destruct He|].
    match type of He with exec (applyUsage _ ?p) _ _ => destruct (applyUsage_stored (UID mg) p tr s s') as (u & Hu & Hc & Ht) end; try done.
    { split; [by eapply hasController_AsController|]. cbn [uConfig matches Labels uMeta usageMeta]. by rewrite decide_False. }
    by exists u.
Qed.

Lemma users_pos (u : ProviderConfigUsage) (items : list ProviderConfigUsage) : u ∈ items -> hasController u = true -> 0 < users items.
Proof.
  intros Hu Hc. unfold users. destruct (filter _ items) as [|v l] eqn:Hf; [|cbn; lia].
  assert (u ∈ filter (fun u => hasController u = true) items) as Hin by by apply list_elem_of_filter. rewrite Hf in Hin. by apply not_elem_of_nil in Hin.
Qed.


End server.

(** ** A concrete run *)

#[local] Instance demoKErrors : KErrors := KErrorsStd.
#[local] Instance demoMetaV1 : MetaV1 := MetaV1First.

Definition demoUser : ObjectMeta := MkObjectMeta "m" "ns" "owner" 1 "3" None None [] [] None zeroTime.
Definition demoTracker : prog (ceff ProviderConfigUsage) (option error) :=
  tracker (fun _ => "g/v1") false demoUser (MkGVK "g" "v1" "Kind") (MkPCReference "default" "PC").

(** The usage the tracker creates. *)
Definition demoTracked : ProviderConfigUsage :=
  MkUsage (usageMeta "owner" "ns" {[LabelKeyProviderName := "default"; LabelKeyProviderKind := "PC"]}
             (AsController (TypedReferenceTo demoUser (MkGVK "g" "v1" "Kind"))))
    "" (MkPCReference "default" "PC") (MkTypedReference "g/v1" "Kind" "m" "") false.

(** A server with the deleted ProviderConfig and that usage. *)
Definition demoInUse (X : Type) (i : nat) (e : peff X) : X :=
  match e in peff Y return Y with
  | PList _ => ([demoTracked], None)
  | e' => demoServer _ i e'
  end.

Definition readConfig (ev : event peff) : option ProviderConfig :=
  match ev with @Ev _ X e x => match e in peff Y return Y -> _ with PGet _ => fun x => Some x.1 | _ => fun _ => None end x end.
Definition readUsages (ev : event peff) : option (list ProviderConfigUsage) :=
  match ev with @Ev _ X e x => match e in peff Y return Y -> _ with PList _ => fun x => Some x.1 | _ => fun _ => None end x end.

