(* ===== verification/Heap.v ===== *)
(** * Go's memory

    Structs that hold pointers, slices and maps are values with addresses in
    them; what is behind an address is a cell of the heap.  [repr h t v D] says
    that the struct [t] stands for the value [v] in the heap [h], and that [D]
    are the cells it reaches.  Code over the heap is in a monad whose failures
    are the panics of following a nil pointer. *)

From S2P Require Import Prelude.

Definition loc : Type := positive.

(** Pointers, slices (a window of an array) and maps of strings; [None] is nil. *)
Record ptr (T : Type) := Ptr { addr : option loc }.
Arguments Ptr {T} _.
Arguments addr {T} _.

Record slice (T : Type) := MkSlice { backing : option loc; offset : nat; slen : nat }.
Arguments MkSlice {T} _ _ _.
Arguments backing {T} _.
Arguments offset {T} _.
Arguments slen {T} _.

Record gomap := MkGoMap { table : option loc }.

Section heap.
Context {cell : Type}.

#[local] Abbreviation heap := (gmap loc cell).

Definition M (A : Type) : Type := heap -> option (A * heap).

#[export] Instance M_ret : MRet M := fun A a h => Some (a, h).
#[export] Instance M_bind : MBind M := fun A B f m h => match m h with Some (a, h') => f a h' | None => None end.

(** The types that are behind addresses. *)
Class Storable (T : Type) := {
  toCell : T -> cell;
  ofCell : cell -> option T;
  of_to x : ofCell (toCell x) = Some x
}.

Definition load {T} `{!Storable T} (l : loc) : M T := fun h =>
  match h !! l ≫= ofCell with Some x => Some (x, h) | None => None end.

Definition new {T} `{!Storable T} (x : T) : M loc := fun h =>
  let l := fresh (dom h) in Some (l, <[l := toCell x]> h).

Definition store {T} `{!Storable T} (l : loc) (x : T) : M unit := fun h =>
  match h !! l with Some _ => Some (tt, <[l := toCell x]> h) | None => None end.

Lemma loaded_dom {T} `{!Storable T} (h : heap) (l : loc) (x : T) : h !! l ≫= ofCell = Some x -> l ∈ dom h.
Proof. intros (c & Hc & _)%bind_Some. apply elem_of_dom. eauto. Qed.

(** ** What structs stand for *)

Class Repr (T V : Type) := {
  repr : heap -> T -> V -> gset loc -> Prop;
  repr_dom h t v D : repr h t v D -> D ⊆ dom h;
  repr_local h h' t v D : repr h t v D -> (forall l, l ∈ D -> h' !! l = h !! l) -> repr h' t v D
}.

(** Values without addresses stand for themselves. *)
Definition flat (T : Type) : Repr T T.
Proof. refine {| repr h t v D := t = v /\ D = ∅ |}; [set_solver|done]. Defined.

#[export] Instance pair_repr {A B VA VB} (RA : Repr A VA) (RB : Repr B VB) : Repr (A * B) (VA * VB).
Proof.
  refine {| repr h t v D := exists D1 D2, D = D1 ∪ D2 /\ repr h t.1 v.1 D1 /\ repr h t.2 v.2 D2 |}.
  - intros h t v D (D1 & D2 & -> & H1 & H2). apply repr_dom in H1, H2. set_solver.
  - intros h h' t v D (D1 & D2 & -> & H1 & H2) Hl. exists D1, D2.
    split_and!; [done|eapply repr_local; [exact H1|]|eapply repr_local; [exact H2|]]; set_solver.
Defined.

#[export] Instance ptr_repr {T V} (S : Storable T) (R : Repr T V) : Repr (ptr T) (option V).
Proof.
  refine {| repr h t v D := match addr t, v with
    | None, None => D = ∅
    | Some l, Some v => exists x D0, h !! l ≫= ofCell = Some x /\ repr h x v D0 /\ D = {[l]} ∪ D0
    | _, _ => False
    end |}.
  - intros h [[l|]] [v|] D; try done; [|set_solver]. intros (x & D0 & Hl & Hr & ->). apply repr_dom in Hr.
    apply loaded_dom in Hl. set_solver.
  - intros h h' [[l|]] [v|] D; try done. intros (x & D0 & Hl & Hr & ->) Hh. exists x, D0.
    split_and!; [by rewrite Hh by set_solver|eapply repr_local; [exact Hr|]; set_solver|done].
Defined.

(** Slices and maps whose elements have no addresses. *)
#[export] Instance slice_repr {T} (S : Storable (list T)) : Repr (slice T) (option (list T)).
Proof.
  refine {| repr h t v D := match backing t, v with
    | None, None => D = ∅
    | Some l, Some v => exists xs, h !! l ≫= ofCell = Some xs /\ v = take (slen t) (drop (offset t) xs) /\ length v = slen t /\ D = {[l]}
    | _, _ => False
    end |}.
  - intros h [[l|] o n] [v|] D; try done; [|set_solver]. intros (xs & Hl & _ & _ & ->).
    apply loaded_dom in Hl. set_solver.
  - intros h h' [[l|] o n] [v|] D; try done. intros (xs & Hl & Hv & Hn & ->) Hh. exists xs.
    split_and!; [by rewrite Hh by set_solver|done..].
Defined.

#[export] Instance gomap_repr (S : Storable (gmap string string)) : Repr gomap (option (gmap string string)).
Proof.
  refine {| repr h t v D := match table t, v with
    | None, None => D = ∅
    | Some l, Some v => h !! l ≫= ofCell = Some v /\ D = {[l]}
    | _, _ => False
    end |}.
  - intros h [[l|]] [v|] D; try done; [|set_solver]. intros [Hl ->].
    apply loaded_dom in Hl. set_solver.
  - intros h h' [[l|]] [v|] D; try done. intros [Hl ->] Hh. split; [by rewrite Hh by set_solver|done].
Defined.

(** A struct stands for what its fields stand for. *)
Definition struct_repr {T V P VP} (R : Repr P VP) (fields : T -> P) (build : VP -> V) : Repr T V.
Proof.
  refine {| repr h t v D := exists vp, v = build vp /\ repr h (fields t) vp D |}.
  - intros h t v D (vp & _ & H). by apply repr_dom in H.
  - intros h h' t v D (vp & -> & H) Hl. exists vp. split; [done|]. by eapply repr_local.
Defined.

(** ** Copies *)

(** The patterns of the generated code: a field with a pointer, a slice or a map
    is copied to new memory unless it is nil. *)
Definition copyPtr {T} `{!Storable T} (DeepCopyInto : T -> M T) (p : ptr T) : M (ptr T) :=
  match addr p with
  | None => mret p
  | Some l =>
      x ← load l;
      out ← new x;
      y ← DeepCopyInto x;
      _ ← store out y;
      mret (Ptr (Some out))
  end.

Fixpoint copyElements {T} (DeepCopyInto : T -> M T) (xs : list T) : M (list T) :=
  match xs with
  | [] => mret []
  | x :: xs' => y ← DeepCopyInto x; ys ← copyElements DeepCopyInto xs'; mret (y :: ys)
  end.

Definition copySlice {T} `{!Storable (list T)} (DeepCopyInto : T -> M T) (s : slice T) : M (slice T) :=
  match backing s with
  | None => mret s
  | Some l =>
      xs ← load l;
      ys ← copyElements DeepCopyInto (take (slen s) (drop (offset s) xs));
      out ← new ys;
      mret (MkSlice (Some out) 0 (slen s))
  end.

Definition copyMap `{!Storable (gmap string string)} (m : gomap) : M gomap :=
  match table m with
  | None => mret m
  | Some l =>
      kvs ← load l;
      out ← new (list_to_map (map_to_list kvs) : gmap string string);
      mret (MkGoMap (Some out))
  end.

(** Copying never fails, gives a struct that stands for the same value, does not
    touch the cells there are, and reaches new ones only. *)
Definition copies {T V} {R : Repr T V} (copy : T -> M T) : Prop :=
  forall h t v D, repr h t v D ->
  exists t' h' D', copy t h = Some (t', h') /\ h ⊆ h' /\ D' ## dom h /\ repr h' t' v D'.

(** The original and the copy are two values: writing to the cells of one does
    not change the other. *)
Definition independent {T V} {R : Repr T V} (copy : T -> M T) : Prop :=
  forall h t v D, repr h t v D ->
  exists t' h' D', copy t h = Some (t', h') /\ repr h' t v D /\ repr h' t' v D' /\
    (forall l c, l ∈ D' -> repr (<[l := c]> h') t v D) /\ (forall l c, l ∈ D -> repr (<[l := c]> h') t' v D').

Lemma repr_mono {T V} {R : Repr T V} (h h' : heap) (t : T) (v : V) (D : gset loc) : repr h t v D -> h ⊆ h' -> repr h' t v D.
Proof.
  intros Hr Hs. eapply repr_local; [exact Hr|]. intros l Hl. apply repr_dom in Hr.
  assert (is_Some (h !! l)) as [c Hc] by (apply elem_of_dom; set_solver). rewrite Hc. by eapply lookup_weaken.
Qed.

Lemma copies_independent {T V} {R : Repr T V} (copy : T -> M T) : copies copy -> independent copy.
Proof.
  intros Hc h t v D Hr. destruct (Hc h t v D Hr) as (t' & h' & D' & He & Hs & Hd & Hr'). exists t', h', D'.
  pose proof (repr_dom _ _ _ _ Hr) as HD. split_and!; [done|by eapply repr_mono|done| |].
  - intros l c Hl. eapply repr_local; [by eapply repr_mono|]. intros k Hk. apply lookup_insert_ne. set_solver.
  - intros l c Hl. eapply repr_local; [exact Hr'|]. intros k Hk. apply lookup_insert_ne. set_solver.
Qed.

Lemma copies_flat (T : Type) : copies (R:=flat T) mret.
Proof. intros h t v D [-> ->]. exists v, h, ∅. split_and!; [done|done|set_solver|by split]. Qed.

(** The fields of a struct, one after the other. *)
Definition copyPair {A B} (f : A -> M A) (g : B -> M B) (p : A * B) : M (A * B) := x ← f p.1; y ← g p.2; mret (x, y).

Lemma copies_pair {A B VA VB} {RA : Repr A VA} {RB : Repr B VB} (f : A -> M A) (g : B -> M B) :
  copies f -> copies g -> copies (copyPair f g).
Proof.
  intros Hf Hg h [a b] [va vb] D (D1 & D2 & -> & H1 & H2). cbn in H1, H2.
  destruct (Hf h a va D1 H1) as (a' & h1 & D1' & Ea & Hs1 & Hd1 & Ha).
  destruct (Hg h1 b vb D2 (repr_mono _ _ _ _ _ H2 Hs1)) as (b' & h2 & D2' & Eb & Hs2 & Hd2 & Hb).
  exists (a', b'), h2, (D1' ∪ D2'). split_and!.
  - unfold copyPair, mbind, M_bind. cbn. by rewrite Ea, Eb.
  - by etransitivity.
  - apply subseteq_dom in Hs1. set_solver.
  - exists D1', D2'. split_and!; [done|by eapply repr_mono|done].
Qed.

Lemma copies_struct {T V P VP} {R : Repr P VP} (fields : T -> P) (build : VP -> V) (unfields : P -> T) (f : P -> M P) (g : T -> M T) :
  (forall p, fields (unfields p) = p) -> (forall t h, g t h = match f (fields t) h with Some (p, h') => Some (unfields p, h') | None => None end) ->
  copies f -> copies (R:=struct_repr R fields build) g.
Proof.
  intros Hu Hg Hf h t v D (vp & -> & Hr). destruct (Hf h (fields t) vp D Hr) as (p & h' & D' & Ef & Hs & Hd & Hp).
  exists (unfields p), h', D'. split_and!; [by rewrite Hg, Ef|done|done|]. exists vp. by rewrite Hu.
Qed.

Lemma fresh_not_in (h : heap) : fresh (dom h) ∉ dom h.
Proof. apply is_fresh. Qed.

Lemma copies_ptr {T V} {S : Storable T} {R : Repr T V} (f : T -> M T) : copies f -> copies (R:=ptr_repr S R) (copyPtr f).
Proof.
  intros Hf h [[l|]] [v|] D; try done; cbn -[fresh].
  2: { intros ->. exists (Ptr None), h, ∅. split_and!; [done|done|set_solver|done]. }
  intros (x & D0 & Hl & Hr & ->). pose proof (fresh_not_in h) as Hfr. set (k := fresh (dom h)) in *.
  assert (h ⊆ <[k := toCell x]> h) as Hs1 by (apply insert_subseteq; by apply not_elem_of_dom).
  destruct (Hf (<[k := toCell x]> h) x v D0 (repr_mono _ _ _ _ _ Hr Hs1)) as (y & h2 & D2 & Ey & Hs2 & Hd2 & Hy).
  rewrite dom_insert in Hd2. assert (k ∈ dom h2) as Hk by (apply subseteq_dom in Hs2; rewrite dom_insert in Hs2; set_solver).
  exists (Ptr (Some k)), (<[k := toCell y]> h2), ({[k]} ∪ D2). split_and!.
  - unfold copyPtr, mbind, M_bind, load, new. cbn -[fresh]. rewrite Hl. fold k. rewrite Ey. unfold store.
    apply elem_of_dom in Hk as [c ->]. done.
  - transitivity (<[k := toCell y]> h).
    + apply insert_subseteq. by apply not_elem_of_dom.
    + rewrite <- (insert_insert_eq h k (toCell y) (toCell x)). by apply insert_mono.
  - set_solver.
  - cbn. exists y, D2. split_and!; [by rewrite lookup_insert_eq; cbn; rewrite of_to| |done].
    eapply repr_local; [exact Hy|]. intros j Hj. apply lookup_insert_ne. set_solver.
Qed.

(** New memory for a value without addresses. *)
Lemma new_spec {T} `{!Storable T} (h : heap) (x : T) :
  exists l h', new x h = Some (l, h') /\ h ⊆ h' /\ (l ∉ dom h) /\ (h' !! l ≫= ofCell) = Some x.
Proof.
  exists (fresh (dom h)), (<[fresh (dom h) := toCell x]> h). split_and!; [done| |apply fresh_not_in|].
  - apply insert_subseteq, not_elem_of_dom, fresh_not_in.
  - rewrite lookup_insert_eq. cbn. apply of_to.
Qed.

Lemma copyElements_ret {T} (f : T -> M T) (xs : list T) (h : heap) : (forall x h, f x h = Some (x, h)) -> copyElements f xs h = Some (xs, h).
Proof. intros Hf. induction xs as [|x xs IH]; [done|]. cbn. unfold mbind, M_bind. by rewrite Hf, IH. Qed.

Lemma copies_slice {T} {S : Storable (list T)} (f : T -> M T) : (forall x h, f x h = Some (x, h)) -> copies (R:=slice_repr S) (copySlice f).
Proof.
  intros Hf h [[l|] o n] [v|] D; try done; cbn [repr slice_repr backing offset slen].
  2: { intros ->. exists (MkSlice None o n), h, ∅. split_and!; [done|done|set_solver|done]. }
  intros (xs & Hl & Hv & Hn & ->). destruct (new_spec h v) as (k & h' & Ek & Hs & Hk & Hx).
  exists (MkSlice (Some k) 0 n), h', {[k]}. split_and!; [|done|set_solver|].
  - unfold copySlice, mbind, M_bind, load. cbn [backing offset slen]. rewrite Hl, copyElements_ret by done. rewrite <- Hv. by rewrite Ek.
  - cbn. exists v. split_and!; [done|rewrite drop_0, <- Hn; by rewrite firstn_all|done|done].
Qed.

Lemma copies_map {S : Storable (gmap string string)} : copies (R:=gomap_repr S) copyMap.
Proof.
  intros h [[l|]] [v|] D; try done; cbn [repr gomap_repr table].
  2: { intros ->. exists (MkGoMap None), h, ∅. split_and!; [done|done|set_solver|done]. }
  intros [Hl ->]. destruct (new_spec h v) as (k & h' & Ek & Hs & Hk & Hx).
  exists (MkGoMap (Some k)), h', {[k]}. split_and!; [|done|set_solver|done].
  unfold copyMap, mbind, M_bind, load. cbn [table]. rewrite Hl, list_to_map_to_list. by rewrite Ek.
Qed.

End heap.
Arguments M : clear implicits.
Arguments Storable : clear implicits.
Arguments Repr : clear implicits.
