(* ===== verification/VersionOption.v ===== *)
(** * The option that stores a resource version (pkg/resource/resource.go)

    [StoreCurrentRV] writes through a pointer of its caller, so that a list of
    apply options that has it is code over Go's memory; the other options are
    those of the applicators. *)

From S2P Require Import Prelude GoErrors Meta Applicator Heap.

Section options.
Context {cell O : Type} {OO : Object O} {SS : Storable cell string}.
Implicit Types (current desired : O) (h : gmap loc cell).

Abbreviation GoM := (M cell).

Definition EffectfulOption : Type := O -> O -> GoM ((O * O) * option error).

Definition pureOption (fn : ApplyOption) : EffectfulOption := fun current desired => mret (fn current desired).

(** Writing through a nil pointer panics. *)
Definition StoreCurrentRV (origRV : ptr string) : EffectfulOption := fun current desired =>
  match addr origRV with
  | None => fun _ => None
  | Some l => _ ← store l (ResourceVersion (metaOf current)); mret ((current, desired), None)
  end.

(** The loop of the applicators over such options. *)
Fixpoint runOptions (ao : list EffectfulOption) current desired : GoM ((O * O) * option error) :=
  match ao with
  | [] => mret ((current, desired), None)
  | fn :: ao' =>
      out ← fn current desired;
      match out with
      | (cd, Some err) => mret (cd, Some err)
      | ((current, desired), None) => runOptions ao' current desired
      end
  end.

(** Options that leave the memory alone. *)
Lemma runOptions_pure (ao : list ApplyOption) current desired h :
  runOptions (pureOption <$> ao) current desired h = Some (applyOptions ao current desired, h).
Proof.
  revert current desired. induction ao as [|fn ao IH]; [done|]. intros current desired. cbn. unfold mbind, M_bind, pureOption, mret, M_ret.
  destruct (fn current desired) as [[c d] [err|]]; [done|]. apply IH.
Qed.

Lemma runOptions_app (ao1 ao2 : list EffectfulOption) current desired h :
  runOptions (ao1 ++ ao2) current desired h =
  (out ← runOptions ao1 current desired;
   match out with (cd, Some err) => mret (cd, Some err) | ((c, d), None) => runOptions ao2 c d end) h.
Proof.
  revert current desired h. induction ao1 as [|fn ao IH]; [done|]. intros current desired h. cbn. unfold mbind, M_bind.
  destruct (fn current desired h) as [[[[c d] [err|]] h']|]; [done| |done]. apply IH.
Qed.

Lemma applyOptions_app (ao1 ao2 : list (@ApplyOption O)) current desired :
  applyOptions (ao1 ++ ao2) current desired =
  match applyOptions ao1 current desired with (cd, Some err) => (cd, Some err) | ((c, d), None) => applyOptions ao2 c d end.
Proof.
  revert current desired. induction ao1 as [|fn ao IH]; [done|]. intros current desired. cbn.
  destruct (fn current desired) as [[c d] [err|]]; [done|apply IH].
Qed.

(** Wherever it is in the list, and with the pointer of a variable, the option
    changes nothing of what the others do, and the variable holds the version of
    the object as the options before it left it, unless one of them failed; in
    that case it keeps its value. *)
Theorem store_current_rv (before after : list ApplyOption) current desired h (l : loc) :
  l ∈ dom h ->
  runOptions ((pureOption <$> before) ++ StoreCurrentRV (Ptr (Some l)) :: (pureOption <$> after)) current desired h =
  Some (applyOptions (before ++ after) current desired,
        match applyOptions before current desired with
        | ((c, _), None) => <[l := toCell (ResourceVersion (metaOf c))]> h
        | (_, Some _) => h
        end).
Proof.
  intros [x Hx]%elem_of_dom. rewrite runOptions_app, applyOptions_app. unfold mbind at 1, M_bind at 1. rewrite runOptions_pure.
  destruct (applyOptions before current desired) as [[c d] [err|]]; [done|].
  cbn. unfold mbind, M_bind, store. rewrite Hx. apply runOptions_pure.
Qed.

(** A nil pointer panics unless an earlier option failed. *)
Lemma store_current_rv_nil (before after : list ApplyOption) current desired h :
  runOptions ((pureOption <$> before) ++ StoreCurrentRV (Ptr None) :: (pureOption <$> after)) current desired h = None <->
  (applyOptions before current desired).2 = None.
Proof.
  rewrite runOptions_app. unfold mbind at 1, M_bind at 1. rewrite runOptions_pure.
  destruct (applyOptions before current desired) as [[c d] [err|]]; cbn; naive_solver.
Qed.

End options.
