(* ===== verification/MockClient.v ===== *)
(** * Support for tests (pkg/test/fake.go, cmp.go and retry.go)

    The client that tests pass to controllers: a struct of functions, one for
    each call, any of which may be nil.  The functions of a test may change the
    object they are given and the variables of the test, of type [S]; calling
    a nil function panics.  [interp] runs code over the client with a mock. *)

From Stdlib Require Import Sorted SpecFloat.
From stdpp Require Import sorting.
From S2P Require Import Prelude GoErrors Conditions Meta Prog Applicator FloatValues Resources.

(** Code that runs in a test: it changes the test's variables, or panics. *)
Definition T (S A : Type) : Type := S -> option (A * S).

#[export] Instance T_ret S : MRet (T S) := fun A a s => Some (a, s).
#[export] Instance T_bind S : MBind (T S) := fun A B f m s => match m s with Some (a, s') => f a s' | None => None end.

Section fns.
Context {S : Type}.

(** [ObjectFn], [RuntimeObjectFn] and [ObjectListFn]: the object as the function
    left it, and its error. *)
Definition ObjectFn (O : Type) : Type := O -> T S (O * option error).

(** [for _, fn := range ofn { if err := fn(obj); err != nil { return err } }; return err] *)
Fixpoint runFns {O} (err : option error) (ofn : list (ObjectFn O)) (obj : O) : T S (O * option error) :=
  match ofn with
  | [] => mret (obj, err)
  | fn :: ofn' =>
      '(obj, e) ← fn obj;
      match e with
      | Some e => mret (obj, Some e)
      | None => runFns err ofn' obj
      end
  end.

(** What runs when the functions are called one after the other. *)
Fixpoint chain {O} (ofn : list (ObjectFn O)) (obj : O) : T S O :=
  match ofn with [] => mret obj | fn :: ofn' => '(obj, _) ← fn obj; chain ofn' obj end.

(** The functions succeed one after the other. *)
Fixpoint succeed {O} (ofn : list (ObjectFn O)) (obj : O) (s : S) : Prop :=
  match ofn with
  | [] => True
  | fn :: ofn' => exists obj' s', fn obj s = Some ((obj', None), s') /\ succeed ofn' obj' s'
  end.

Lemma runFns_succeed {O} (err : option error) (ofn : list (ObjectFn O)) (obj : O) (s : S) :
  succeed ofn obj s -> exists obj' s', chain ofn obj s = Some (obj', s') /\ runFns err ofn obj s = Some ((obj', err), s').
Proof.
  revert obj s. induction ofn as [|fn ofn IH]; intros obj s; [by exists obj, s|]. intros (obj1 & s1 & Hf & Hs).
  destruct (IH obj1 s1 Hs) as (obj' & s' & Hc & Hr). exists obj', s'. cbn. unfold mbind, T_bind. by rewrite Hf.
Qed.

(** The functions before the first one that fails run, in order; none runs after
    it, and its error is returned instead of the one supplied. *)
Lemma runFns_first_error {O} (err : option error) (ofn : list (ObjectFn O)) (fn : ObjectFn O) (rest : list (ObjectFn O)) (obj : O) (s : S) (e : error) obj1 s1 obj2 s2 :
  succeed ofn obj s -> chain ofn obj s = Some (obj1, s1) -> fn obj1 s1 = Some ((obj2, Some e), s2) ->
  runFns err (ofn ++ fn :: rest) obj s = Some ((obj2, Some e), s2).
Proof.
  revert obj s. induction ofn as [|fn' ofn IH]; intros obj s Hs Hc Hf.
  - cbn in *. unfold mbind, T_bind. unfold mret, T_ret in Hc. simplify_eq. by rewrite Hf.
  - destruct Hs as (o' & s' & He & Hs). cbn in *. unfold mbind, T_bind in *. rewrite He in Hc. rewrite He. by apply IH.
Qed.

End fns.

(** ** The client *)

Section client.
Context {S O OL RO Key Scheme Patch Mapper : Type}.
Context {GetOpt ListOpt CreateOpt DeleteOpt DeleteAllOfOpt UpdateOpt PatchOpt SGetOpt SCreateOpt SUpdateOpt SPatchOpt : Type}.

Definition MockGetFn := Key -> O -> T S (O * option error).
Definition MockListFn := OL -> list ListOpt -> T S (OL * option error).
Definition MockCreateFn := O -> list CreateOpt -> T S (O * option error).
Definition MockDeleteFn := O -> list DeleteOpt -> T S (O * option error).
Definition MockDeleteAllOfFn := O -> list DeleteAllOfOpt -> T S (O * option error).
Definition MockUpdateFn := O -> list UpdateOpt -> T S (O * option error).
Definition MockPatchFn := O -> Patch -> list PatchOpt -> T S (O * option error).
Definition MockSubResourceGetFn := O -> O -> list SGetOpt -> T S ((O * O) * option error).
Definition MockSubResourceCreateFn := O -> O -> list SCreateOpt -> T S ((O * O) * option error).
Definition MockSubResourceUpdateFn := O -> list SUpdateOpt -> T S (O * option error).
Definition MockSubResourcePatchFn := O -> Patch -> list SPatchOpt -> T S (O * option error).
Definition MockSchemeFn := T S (option Scheme).
Definition MockGroupVersionKindForFn := RO -> T S (RO * (GroupVersionKind * option error)).
Definition MockIsObjectNamespacedFn := RO -> T S (RO * (bool * option error)).

Definition NewMockGetFn (err : option error) (ofn : list (ObjectFn (S:=S) O)) : MockGetFn := fun _ obj => runFns err ofn obj.
Definition NewMockListFn (err : option error) (ofn : list (ObjectFn (S:=S) OL)) : MockListFn := fun obj _ => runFns err ofn obj.
Definition NewMockCreateFn (err : option error) (ofn : list (ObjectFn (S:=S) O)) : MockCreateFn := fun obj _ => runFns err ofn obj.
Definition NewMockDeleteFn (err : option error) (ofn : list (ObjectFn (S:=S) O)) : MockDeleteFn := fun obj _ => runFns err ofn obj.
Definition NewMockDeleteAllOfFn (err : option error) (ofn : list (ObjectFn (S:=S) O)) : MockDeleteAllOfFn := fun obj _ => runFns err ofn obj.
Definition NewMockUpdateFn (err : option error) (ofn : list (ObjectFn (S:=S) O)) : MockUpdateFn := fun obj _ => runFns err ofn obj.
Definition NewMockPatchFn (err : option error) (ofn : list (ObjectFn (S:=S) O)) : MockPatchFn := fun obj _ _ => runFns err ofn obj.

Definition NewMockSubResourceCreateFn (err : option error) (ofn : list (ObjectFn (S:=S) O)) : MockSubResourceCreateFn := fun obj subResource _ =>
  '(obj, e) ← runFns err ofn obj; mret ((obj, subResource), e).
Definition NewMockSubResourceUpdateFn (err : option error) (ofn : list (ObjectFn (S:=S) O)) : MockSubResourceUpdateFn := fun obj _ => runFns err ofn obj.
Definition NewMockSubResourcePatchFn (err : option error) (ofn : list (ObjectFn (S:=S) O)) : MockSubResourcePatchFn := fun obj _ _ => runFns err ofn obj.

Definition NewMockSchemeFn (scheme : option Scheme) : MockSchemeFn := mret scheme.

Definition NewMockGroupVersionKindForFn (err : option error) (gvk : GroupVersionKind) (rofn : list (ObjectFn (S:=S) RO)) : MockGroupVersionKindForFn := fun obj =>
  '(obj, e) ← runFns err rofn obj; mret (obj, (gvk, e)).

Definition NewMockIsObjectNamespacedFn (err : option error) (isNamespaced : bool) (rofn : list (ObjectFn (S:=S) RO)) : MockIsObjectNamespacedFn := fun obj =>
  '(obj, e) ← runFns err rofn obj; mret (obj, (isNamespaced, e)).

(** A function that was not set is nil. *)
Record MockClient := MkMockClient {
  MockGet : option MockGetFn;
  MockList : option MockListFn;
  MockCreate : option MockCreateFn;
  MockDelete : option MockDeleteFn;
  MockDeleteAllOf : option MockDeleteAllOfFn;
  MockUpdate : option MockUpdateFn;
  MockPatch : option MockPatchFn;
  MockStatusCreate : option MockSubResourceCreateFn;
  MockStatusUpdate : option MockSubResourceUpdateFn;
  MockStatusPatch : option MockSubResourcePatchFn;
  MockSubResourceGet : option MockSubResourceGetFn;
  MockSubResourceCreate : option MockSubResourceCreateFn;
  MockSubResourceUpdate : option MockSubResourceUpdateFn;
  MockSubResourcePatch : option MockSubResourcePatchFn;
  MockScheme : option MockSchemeFn;
  MockGroupVersionKindFor : option MockGroupVersionKindForFn;
  MockIsObjectNamespaced : option MockIsObjectNamespacedFn
}.

Record MockSubResourceClient := MkMockSubResourceClient {
  MockSubGet : option MockSubResourceGetFn;
  MockSubCreate : option MockSubResourceCreateFn;
  MockSubUpdate : option MockSubResourceUpdateFn;
  MockSubPatch : option MockSubResourcePatchFn
}.

Definition NewMockClient : MockClient :=
  {| MockGet := Some (NewMockGetFn None []);
     MockList := Some (NewMockListFn None []);
     MockCreate := Some (NewMockCreateFn None []);
     MockDelete := Some (NewMockDeleteFn None []);
     MockDeleteAllOf := Some (NewMockDeleteAllOfFn None []);
     MockUpdate := Some (NewMockUpdateFn None []);
     MockPatch := Some (NewMockPatchFn None []);
     MockStatusCreate := None;
     MockStatusUpdate := Some (NewMockSubResourceUpdateFn None []);
     MockStatusPatch := Some (NewMockSubResourcePatchFn None []);
     MockSubResourceGet := None;
     MockSubResourceCreate := None;
     MockSubResourceUpdate := None;
     MockSubResourcePatch := None;
     MockScheme := Some (NewMockSchemeFn None);
     MockGroupVersionKindFor := Some (NewMockGroupVersionKindForFn None (MkGVK "" "" "") []);
     MockIsObjectNamespaced := Some (NewMockIsObjectNamespacedFn None false []) |}.

(** Calling a function value. *)
Definition call {F A} (fn : option F) (f : F -> T S A) : T S A :=
  match fn with None => fun _ => None | Some fn => f fn end.

Implicit Types (c : MockClient) (m : MockSubResourceClient).

Definition Get c (key : Key) (obj : O) (_ : list GetOpt) := call (MockGet c) (fun fn => fn key obj).
Definition List_ c (l : OL) (opts : list ListOpt) := call (MockList c) (fun fn => fn l opts).
Definition Create c (obj : O) (opts : list CreateOpt) := call (MockCreate c) (fun fn => fn obj opts).
Definition Delete c (obj : O) (opts : list DeleteOpt) := call (MockDelete c) (fun fn => fn obj opts).
Definition DeleteAllOf c (obj : O) (opts : list DeleteAllOfOpt) := call (MockDeleteAllOf c) (fun fn => fn obj opts).
Definition Update c (obj : O) (opts : list UpdateOpt) := call (MockUpdate c) (fun fn => fn obj opts).
Definition PatchObject c (obj : O) (patch : Patch) (opts : list PatchOpt) := call (MockPatch c) (fun fn => fn obj patch opts).

Definition Status c : MockSubResourceClient := MkMockSubResourceClient None (MockStatusCreate c) (MockStatusUpdate c) (MockStatusPatch c).

Definition SubResource c (_ : string) : MockSubResourceClient :=
  MkMockSubResourceClient (MockSubResourceGet c) (MockSubResourceCreate c) (MockSubResourceUpdate c) (MockSubResourcePatch c).

Definition RESTMapper c : option Mapper := None.
Definition ClientScheme c := call (MockScheme c) id.
Definition GroupVersionKindFor c (obj : RO) := call (MockGroupVersionKindFor c) (fun fn => fn obj).
Definition IsObjectNamespaced c (obj : RO) := call (MockIsObjectNamespaced c) (fun fn => fn obj).

Definition SubGet m (obj subResource : O) (opts : list SGetOpt) := call (MockSubGet m) (fun fn => fn obj subResource opts).
Definition SubCreate m (obj subResource : O) (opts : list SCreateOpt) := call (MockSubCreate m) (fun fn => fn obj subResource opts).
Definition SubUpdate m (obj : O) (opts : list SUpdateOpt) := call (MockSubUpdate m) (fun fn => fn obj opts).
Definition SubPatch m (obj : O) (patch : Patch) (opts : list SPatchOpt) := call (MockSubPatch m) (fun fn => fn obj patch opts).

(** ** Properties *)

(** Every call of the client itself leaves its argument and the test as they
    are and succeeds, and so do the updates of its status. *)
Lemma new_mock_client_nop (key : Key) (obj : O) (l : OL) (patch : Patch) (s : S) g lo cr de da up pa su sp :
  Get NewMockClient key obj g s = Some ((obj, None), s) /\ List_ NewMockClient l lo s = Some ((l, None), s) /\
  Create NewMockClient obj cr s = Some ((obj, None), s) /\ Delete NewMockClient obj de s = Some ((obj, None), s) /\
  DeleteAllOf NewMockClient obj da s = Some ((obj, None), s) /\ Update NewMockClient obj up s = Some ((obj, None), s) /\
  PatchObject NewMockClient obj patch pa s = Some ((obj, None), s) /\
  SubUpdate (Status NewMockClient) obj su s = Some ((obj, None), s) /\ SubPatch (Status NewMockClient) obj patch sp s = Some ((obj, None), s).
Proof. done. Qed.

(** Creating its status panics, and so does every call of its subresources. *)
Lemma new_mock_client_panics (name : string) (obj sub : O) (patch : Patch) (s : S) sc sg su sp :
  SubCreate (Status NewMockClient) obj sub sc s = None /\ SubGet (SubResource NewMockClient name) obj sub sg s = None /\
  SubCreate (SubResource NewMockClient name) obj sub sc s = None /\ SubUpdate (SubResource NewMockClient name) obj su s = None /\
  SubPatch (SubResource NewMockClient name) obj patch sp s = None.
Proof. done. Qed.

End client.

Arguments MockClient : clear implicits.

(** ** Running code with a mock client

    What the applicators do with the client, when it is a mock; a patch is known
    by the object it is made of. *)

Section interp.
Context {S O OL RO Scheme : Type} {ListOpt CreateOpt DeleteOpt DeleteAllOfOpt UpdateOpt PatchOpt SGetOpt SCreateOpt SUpdateOpt SPatchOpt : Type}.
Context {OO : Object O} {KE : KErrors}.

Abbreviation Mock := (MockClient S O OL RO (string * string) Scheme O ListOpt CreateOpt DeleteOpt DeleteAllOfOpt UpdateOpt PatchOpt SGetOpt SCreateOpt SUpdateOpt SPatchOpt).

Definition handle (c : Mock) {X} (e : ceff O X) : T S X :=
  match e with
  | CGet key o => Get (GetOpt:=unit) c key o []
  | CCreate o => Create c o []
  | CUpdate o => Update c o []
  | CPatch o desired => PatchObject c o desired []
  | CSleep => mret tt
  end.

Fixpoint interp (c : Mock) {A} (p : prog (ceff O) A) : T S A :=
  match p with
  | Ret a => mret a
  | Panic _ => fun _ => None
  | Vis e k => x ← handle c e; interp c (k x)
  end.

Lemma interp_bind (c : Mock) {A B} (f : A -> prog (ceff O) B) (p : prog (ceff O) A) (s : S) :
  interp c (p ≫= f) s = (x ← interp c p; interp c (f x)) s.
Proof.
  revert s. induction p as [a|why|X e k IH]; intros s; [done|done|]. cbn. unfold mbind, T_bind.
  destruct (handle c e s) as [[x s']|]; [|done]. apply IH.
Qed.

(** What a test sees is an execution of the code, with the answers of the mock. *)
Lemma interp_exec (c : Mock) {A} (p : prog (ceff O) A) (s s' : S) (a : A) :
  interp c p s = Some (a, s') -> exists tr, exec p tr (Some a).
Proof.
  revert s. induction p as [b|why|X e k IH]; intros s; cbn.
  - unfold mret, T_ret. intros [= -> _]. by exists [].
  - done.
  - unfold mbind, T_bind. destruct (handle c e s) as [[x s1]|]; [|done]. intros H. destruct (IH x s1 H) as [tr Htr].
    exists (Ev e x :: tr). by exists x, tr.
Qed.

(** Where the object is not found, whatever the options say, the applicator
    creates it as Get left it, and reports what the creation does; no other
    function of the client is called. *)
Lemma mock_apply_creates (c : Mock) (ao : list ApplyOption) (o o1 : O) (s s1 : S) (err : option error) (create : MockCreateFn) :
  generated o = false -> Get (GetOpt:=unit) c (nameOf o) o [] s = Some ((o1, err), s1) -> IsNotFound err = true -> MockCreate c = Some create ->
  interp c (PatchingApply ao o) s = ('(o2, e) ← create o1 []; mret (o2, Wrap e "cannot create object")) s1.
Proof.
  intros Hg Hget Hnf Hc. unfold PatchingApply. rewrite Hg. cbn. unfold mbind at 1, T_bind at 1. rewrite Hget. cbn. rewrite Hnf.
  unfold Applicator.create. cbn. unfold Create, call. rewrite Hc. unfold mbind, T_bind. by destruct (create o1 [] s1) as [[[o2 e] s2]|].
Qed.

(** With the mock that does nothing, what is read is the object to apply: the
    options see the same object twice, and unless one of them fails the object
    is left as they leave it. *)
Lemma new_mock_client_applies (ao : list ApplyOption) (o : O) (s : S) :
  interp NewMockClient (PatchingApply ao o) s =
  Some (if generated o then (o, None)
        else match applyOptions ao o o with ((o', _), err) => (o', err) end, s).
Proof.
  unfold PatchingApply. destruct (generated o); [done|]. cbn. unfold mbind, T_bind. cbn.
  unfold mret, T_ret. cbn. rewrite reason_nil. destruct (applyOptions ao o o) as [[o1 d] [err|]]; done.
Qed.

End interp.

(** ** Comparing *)

(** The dynamic type of an error. *)
Inductive errorType := TErrorString | TWrapError | TStatusError | TNotFound | TNotControllable | TNotAllowed | TMissingRef.
#[global] Instance errorType_eq_dec : EqDecision errorType.
Proof. solve_decision. Defined.

Definition typeOf (e : error) : errorType :=
  match e with
  | errorString _ | contextCanceled => TErrorString
  | wrapError _ _ => TWrapError
  | statusError _ _ => TStatusError
  | notFoundError _ => TNotFound
  | notControllableError _ => TNotControllable
  | notAllowedError _ => TNotAllowed
  | missingRefError _ => TMissingRef
  end.

Definition EquateErrors (a b : option error) : bool :=
  match a, b with
  | None, None => true
  | Some a, Some b => if decide (typeOf a <> typeOf b) then false else bool_decide (Error a = Error b)
  | _, _ => false
  end.

Lemma EquateErrors_iff (a b : option error) :
  EquateErrors a b = true <-> (fun e => (typeOf e, Error e)) <$> a = (fun e => (typeOf e, Error e)) <$> b.
Proof.
  destruct a as [a|], b as [b|]; cbn; [|done..].
  destruct (decide (typeOf a <> typeOf b)) as [Hne|Heq]; [split; [done|by intros [= Ht _]; destruct Hne]|]. rewrite bool_decide_eq_true. apply dec_stable in Heq.
  split; [by intros ->; rewrite Heq|by intros [= _ ->]].
Qed.

(** What is required of comparers. *)
#[export] Instance EquateErrors_equivalence : Equivalence (fun a b => EquateErrors a b = true).
Proof. split; intros ?; setoid_rewrite EquateErrors_iff; [done|by intros ? ->|by intros ? ? -> ->]. Qed.

(** Only the texts of wrapped errors are compared: the cause may be of another
    type, which a test with this option does not notice. *)
Lemma EquateErrors_cause (msg : string) (e e' : error) :
  Error e = Error e' -> EquateErrors (Some (wrapError msg e)) (Some (wrapError msg e')) = true.
Proof. intros He. apply EquateErrors_iff. cbn. by rewrite He. Qed.

(** [EquateConditions]: conditions are compared by type. *)
Definition conditionLess (i j : Condition) : bool := String.ltb (CType i) (CType j).

Lemma conditionLess_spec (i j : Condition) : conditionLess i j = false <-> String.le (CType j) (CType i).
Proof.
  unfold conditionLess, String.ltb, String.le, String.leb. rewrite (String.compare_antisym (CType j) (CType i)).
  destruct (String.compare (CType i) (CType j)); cbn; naive_solver.
Qed.

(** What cmpopts does with [less]: it sorts the slices, in any stable or unstable
    way, and compares the results. *)
Section conditions.
Context (sortSlice : list Condition -> list Condition).
Hypothesis sortSlice_permutation : forall l, sortSlice l ≡ₚ l.
Hypothesis sortSlice_sorted : forall l, Sorted (fun i j => conditionLess j i = false) (sortSlice l).

Definition EquateConditions (a b : list Condition) : bool := bool_decide (sortSlice a = sortSlice b).

Lemma sorted_conditions (l : list Condition) : StronglySorted (fun i j => String.le (CType i) (CType j)) (sortSlice l).
Proof using sortSlice_sorted.
  apply Sorted_StronglySorted; [intros ? ? ?; apply transitivity|]. induction (sortSlice_sorted l) as [|c x _ IH Hc]; constructor; [done|].
  destruct Hc; constructor. by apply conditionLess_spec.
Qed.

(** Conditions of different types, which is what statuses hold, are equal up to
    their order; no order of equal conditions is taken for a difference. *)
Theorem equate_conditions_iff (a b : list Condition) : NoDup (CType <$> a) -> EquateConditions a b = true <-> a ≡ₚ b.
Proof using All.
  intros Hnd. unfold EquateConditions. rewrite bool_decide_eq_true. split.
  - intros He. by rewrite <- (sortSlice_permutation a), He, sortSlice_permutation.
  - intros Hp. assert (sortSlice a ≡ₚ sortSlice b) as Hs by by rewrite !sortSlice_permutation.
    assert (NoDup (CType <$> sortSlice a)) as Hd by by rewrite sortSlice_permutation.
    pose proof (sorted_conditions a) as Ha. pose proof (sorted_conditions b) as Hb.
    revert Hs Hd Ha Hb. generalize (sortSlice a), (sortSlice b). clear. intros x. induction x as [|c x IH]; intros y Hp Hd Hx Hy.
    { by apply Permutation_nil_l in Hp as ->. }
    destruct y as [|d y]; [by apply Permutation_nil_r in Hp|].
    apply StronglySorted_inv in Hx as [Hx Hc], Hy as [Hy Hd']. cbn in Hd. apply NoDup_cons in Hd as [Hn Hd].
    assert (c = d) as ->.
    { assert (c ∈ d :: y) as Hin by (rewrite <- Hp; by left). assert (d ∈ c :: x) as Hin' by (rewrite Hp; by left).
      apply elem_of_cons in Hin as [|Hin]; [done|]. apply elem_of_cons in Hin' as [|Hin']; [done|].
      rewrite Forall_forall in Hc, Hd'. apply Hc in Hin' as H1. apply Hd' in Hin as H2. destruct Hn.
      rewrite (anti_symm String.le _ _ H1 H2). by apply list_elem_of_fmap_2. }
    f_equal. apply IH; [by apply Permutation_cons_inv in Hp|done..].
Qed.

End conditions.

(** Any way to sort will do. *)
Definition byType (i j : Condition) : Prop := String.le (CType i) (CType j).
#[export] Instance byType_dec : RelDecision byType.
Proof. intros i j. unfold byType. apply _. Defined.

Example equate_conditions_demo :
  EquateConditions (merge_sort byType) [Available 0; ReconcileSuccess 0] [ReconcileSuccess 0; Available 0] = true /\
  EquateConditions (merge_sort byType) [Available 0; ReconcileSuccess 0] [Unavailable 0; ReconcileSuccess 0] = false.
Proof. vm_compute. done. Qed.

(** ** Retrying *)

(** [wait.Backoff], with the duration in nanoseconds. *)
Record Backoff := MkBackoff { Steps : nat; Duration : Z; Factor : float64; JitterFactor : float64 }.

Definition DefaultRetry : Backoff :=
  {| Steps := 500; Duration := 10 * 1000000; Factor := S754_finite false 4503599627370496 (-52); JitterFactor := S754_finite false 7205759403792794 (-56) |}.

(** The constants 1.0 and 0.1. *)
Lemma DefaultRetry_constants : nearest false 1 1 = Some (Factor DefaultRetry) /\ nearest false 1 10 = Some (JitterFactor DefaultRetry).
Proof. by vm_compute. Qed.
