(* ===== verification/FakeCopies.v ===== *)
(** * Copies of fake resources (DeepCopyObject of pkg/resource/fake/mocks.go)

    The fakes copy themselves by encoding themselves as JSON and decoding the
    result into an empty struct.  Which fields of a struct are encoded, and under
    which keys, is decided by encoding/json: the fields of embedded structs are
    promoted, and of several with one key the one that is embedded least deeply
    is taken, or the one of those whose key is from a tag; if that leaves more
    than one, all of them are dropped.  How the values of the fields are encoded
    is a parameter. *)

From S2P Require Import Prelude GoErrors GoTime Conditions Meta Managed Reference ProviderConfig Unstructured Composite Claim Interfaces Fakes TestDoubles.

(** ** Structs in encoding/json *)

(** What encoding and decoding a value gives, if it can be encoded. *)
Class Codec (V : Type) := { encodable : V -> bool; recoded : V -> V }.

#[export] Instance option_codec {V} (C : Codec V) : Codec (option V) :=
  {| encodable v := match v with Some v => encodable v | None => true end; recoded v := recoded <$> v |}.
#[export] Instance list_codec {V} (C : Codec V) : Codec (list V) := {| encodable := forallb encodable; recoded := fmap recoded |}.
#[export] Instance Z_codec : Codec Z := {| encodable _ := true; recoded v := v |}.

(** A field of a struct: its key, how deeply it is embedded, and whether the key
    is from a tag; whether its value can be encoded, and what decoding the
    encoding of [src] writes to [dst]. *)
Record jsonField (T : Type) := MkField {
  key : string; depth : nat; tagged : bool; fieldEncodable : T -> bool; copyField : T -> T -> T
}.
Arguments MkField {T} _ _ _ _ _.
Arguments key {T} _.
Arguments depth {T} _.
Arguments tagged {T} _.
Arguments fieldEncodable {T} _ _.
Arguments copyField {T} _ _ _.

(** The fields of a struct that are its own, and those of structs it embeds. *)
Definition ownField {T V} `{!Codec V} (k : string) (tag : bool) (omit : V -> bool) (get : T -> V) (set : V -> T -> T) : jsonField T :=
  {| key := k; depth := 0; tagged := tag;
     fieldEncodable src := omit (get src) || encodable (get src);
     copyField src dst := if omit (get src) then dst else set (recoded (get src)) dst |}.

Definition embeddedField {T E} (get : T -> E) (set : E -> T -> T) (f : jsonField E) : jsonField T :=
  {| key := key f; depth := S (depth f); tagged := tagged f;
     fieldEncodable src := fieldEncodable f (get src);
     copyField src dst := set (copyField f (get src) (get dst)) dst |}.

Class JsonStruct (T : Type) := { jsonFields : list (jsonField T); zeroStruct : T }.

Definition promoted {T E} `{!Embeds T E, !JsonStruct E} : list (jsonField T) := embeddedField embedded embed <$> jsonFields.

(** Tag of a field that is always written, and of those left out when empty. *)
Definition always {V} (v : V) : bool := false.

Definition outranks {T} (f g : jsonField T) : bool :=
  negb (String.eqb (key f) (key g)) || (depth f <? depth g) || ((depth f =? depth g) && tagged f && negb (tagged g)).

Fixpoint dominantFrom {T} (before fs : list (jsonField T)) : list (jsonField T) :=
  match fs with
  | [] => []
  | f :: fs' => (if forallb (outranks f) (before ++ fs') then [f] else []) ++ dominantFrom (before ++ [f]) fs'
  end.

(** [dominantField] for every key. *)
Definition dominant {T} (fs : list (jsonField T)) : list (jsonField T) := dominantFrom [] fs.

(** [out := &T{}; j, err := json.Marshal(o); if err != nil { panic(err) };
    _ = json.Unmarshal(j, out); return out]; [None] is the panic. *)
Definition jsonCopy {T} `{!JsonStruct T} (o : T) : option T :=
  let fs := dominant jsonFields in
  if forallb (fun f => fieldEncodable f o) fs then Some (foldl (fun out f => copyField f o out) zeroStruct fs) else None.

(** A field is kept exactly if it outranks every other one of its key. *)
Lemma dominantFrom_spec {T} (before fs : list (jsonField T)) (f : jsonField T) :
  f ∈ dominantFrom before fs <-> exists l r, fs = l ++ f :: r /\ forallb (outranks f) (before ++ l ++ r) = true.
Proof.
  revert before. induction fs as [|g fs IH]; intros before; cbn.
  - split; [by intros ?%not_elem_of_nil|]. by intros ([|? ?] & r & ? & _).
  - rewrite elem_of_app, IH. split.
    + intros [Hg|(l & r & -> & Hf)].
      * destruct (forallb _ _) eqn:Hb; [|by apply not_elem_of_nil in Hg]. apply list_elem_of_singleton in Hg as ->. by exists [], fs.
      * exists (g :: l), r. split; [done|]. by rewrite <- app_assoc in Hf.
    + intros ([|g' l] & r & Heq & Hf); simplify_eq/=.
      * left. rewrite Hf. by left.
      * right. exists l, r. split; [done|]. by rewrite <- app_assoc.
Qed.

(** Two fields of one key and depth, both with a tag or both without, stand in
    the way of each other. *)
Lemma ambiguous_fields {T} (f g : jsonField T) :
  key f = key g -> depth f = depth g -> tagged f = tagged g -> outranks f g = false /\ outranks g f = false.
Proof.
  intros Hk Hd Ht. unfold outranks. rewrite Hk, Hd, Ht, String.eqb_refl, Nat.ltb_irrefl, Nat.eqb_refl. by destruct (tagged g).
Qed.

(** ** The structs *)

Section fakes.
Context {L R LR RO : Type}.
Context {CL : Codec L} {CR : Codec R} {CLR : Codec LR} {CRO : Codec RO} {CStr : Codec string} {CM : Codec (gmap string string)} {CT : Codec Time}.
Context {CCond : Codec Condition} {COwner : Codec OwnerReference} {CSec : Codec SecretReference} {CLSec : Codec LocalSecretReference}.
Context {CRef : Codec Reference} {CPRef : Codec ProviderConfigReference} {CTRef : Codec TypedReference} {CClaim : Codec ClaimReference}.
Context {CCoRef : Codec CompositeReference}.

Definition emptyString (s : string) : bool := String.eqb s "".
Definition emptyMap (m : option (gmap string string)) : bool := match m with Some m => bool_decide (m = ∅) | None => true end.
Definition emptyList {V} (l : list V) : bool := match l with [] => true | _ => false end.
Definition isNil {V} (v : option V) : bool := match v with None => true | _ => false end.
Definition isZero (z : Z) : bool := (z =? 0)%Z.

#[export] Instance meta_json : JsonStruct ObjectMeta := {|
  jsonFields := [
    ownField "name" true emptyString Name (fun v m => MkObjectMeta v (Namespace m) (UID m) (Generation m) (ResourceVersion m) (Labels m) (Annotations m) (Finalizers m) (OwnerReferences m) (DeletionTimestamp m) (CreationTimestamp m));
    ownField "namespace" true emptyString Namespace (fun v m => MkObjectMeta (Name m) v (UID m) (Generation m) (ResourceVersion m) (Labels m) (Annotations m) (Finalizers m) (OwnerReferences m) (DeletionTimestamp m) (CreationTimestamp m));
    ownField "uid" true emptyString UID (fun v m => MkObjectMeta (Name m) (Namespace m) v (Generation m) (ResourceVersion m) (Labels m) (Annotations m) (Finalizers m) (OwnerReferences m) (DeletionTimestamp m) (CreationTimestamp m));
    ownField "resourceVersion" true emptyString ResourceVersion (fun v m => MkObjectMeta (Name m) (Namespace m) (UID m) (Generation m) v (Labels m) (Annotations m) (Finalizers m) (OwnerReferences m) (DeletionTimestamp m) (CreationTimestamp m));
    ownField "generation" true isZero Generation (fun v m => MkObjectMeta (Name m) (Namespace m) (UID m) v (ResourceVersion m) (Labels m) (Annotations m) (Finalizers m) (OwnerReferences m) (DeletionTimestamp m) (CreationTimestamp m));
    ownField "creationTimestamp" true always CreationTimestamp (fun v m => MkObjectMeta (Name m) (Namespace m) (UID m) (Generation m) (ResourceVersion m) (Labels m) (Annotations m) (Finalizers m) (OwnerReferences m) (DeletionTimestamp m) v);
    ownField "deletionTimestamp" true isNil DeletionTimestamp (fun v m => MkObjectMeta (Name m) (Namespace m) (UID m) (Generation m) (ResourceVersion m) (Labels m) (Annotations m) (Finalizers m) (OwnerReferences m) v (CreationTimestamp m));
    ownField "labels" true emptyMap Labels (fun v m => MkObjectMeta (Name m) (Namespace m) (UID m) (Generation m) (ResourceVersion m) v (Annotations m) (Finalizers m) (OwnerReferences m) (DeletionTimestamp m) (CreationTimestamp m));
    ownField "annotations" true emptyMap Annotations (fun v m => MkObjectMeta (Name m) (Namespace m) (UID m) (Generation m) (ResourceVersion m) (Labels m) v (Finalizers m) (OwnerReferences m) (DeletionTimestamp m) (CreationTimestamp m));
    ownField "ownerReferences" true emptyList OwnerReferences (fun v m => MkObjectMeta (Name m) (Namespace m) (UID m) (Generation m) (ResourceVersion m) (Labels m) (Annotations m) (Finalizers m) v (DeletionTimestamp m) (CreationTimestamp m));
    ownField "finalizers" true emptyList Finalizers (fun v m => MkObjectMeta (Name m) (Namespace m) (UID m) (Generation m) (ResourceVersion m) (Labels m) (Annotations m) v (OwnerReferences m) (DeletionTimestamp m) (CreationTimestamp m))
  ];
  zeroStruct := zeroMeta
|}.

Definition metaFields {T} (get : T -> ObjectMeta) (set : ObjectMeta -> T -> T) : list (jsonField T) := embeddedField get set <$> jsonFields.

#[export] Instance conditioned_json : JsonStruct ConditionedStatus :=
  {| jsonFields := [ownField "conditions" true emptyList id (fun v _ => v)]; zeroStruct := [] |}.
#[export] Instance observed_json : JsonStruct ObservedStatus :=
  {| jsonFields := [ownField "observedGeneration" true isZero StatusObservedGeneration (fun v _ => MkObservedStatus v)]; zeroStruct := MkObservedStatus 0 |}.
#[export] Instance status_json : JsonStruct ResourceStatus :=
  {| jsonFields := promoted (E:=ConditionedStatus) ++ promoted (E:=ObservedStatus); zeroStruct := MkResourceStatus [] (MkObservedStatus 0) |}.
#[export] Instance published_json : JsonStruct mockConnectionDetailsLastPublishedTimer :=
  {| jsonFields := [ownField "lastPublishedTime" true isNil mctTime (fun v _ => MkMockConnectionDetailsLastPublishedTimer v)];
     zeroStruct := MkMockConnectionDetailsLastPublishedTimer None |}.
#[export] Instance mockTypedProviderConfigReferencer_json : JsonStruct mockTypedProviderConfigReferencer :=
  {| jsonFields := [ownField "Ref" false always (mtpRef) (fun v _ => MkMockTypedProviderConfigReferencer v)]; zeroStruct := MkMockTypedProviderConfigReferencer None |}.
#[export] Instance mockLegacyProviderConfigReferencer_json : JsonStruct mockLegacyProviderConfigReferencer :=
  {| jsonFields := [ownField "Ref" false always (mlpRef) (fun v _ => MkMockLegacyProviderConfigReferencer v)]; zeroStruct := MkMockLegacyProviderConfigReferencer None |}.
#[export] Instance mockRequiredProviderConfigReferencer_json : JsonStruct mockRequiredProviderConfigReferencer :=
  {| jsonFields := [ownField "Ref" false always (mrpRef) (fun v _ => MkMockRequiredProviderConfigReferencer v)]; zeroStruct := MkMockRequiredProviderConfigReferencer (MkReference "" None) |}.
#[export] Instance mockRequiredTypedProviderConfigReferencer_json : JsonStruct mockRequiredTypedProviderConfigReferencer :=
  {| jsonFields := [ownField "Ref" false always (mrtRef) (fun v _ => MkMockRequiredTypedProviderConfigReferencer v)]; zeroStruct := MkMockRequiredTypedProviderConfigReferencer (MkPCReference "" "") |}.
#[export] Instance mockRequiredTypedResourceReferencer_json : JsonStruct mockRequiredTypedResourceReferencer :=
  {| jsonFields := [ownField "Ref" false always (mrrRef) (fun v _ => MkMockRequiredTypedResourceReferencer v)]; zeroStruct := MkMockRequiredTypedResourceReferencer (MkTypedReference "" "" "" "") |}.
#[export] Instance mockLocalConnectionSecretWriterTo_json : JsonStruct mockLocalConnectionSecretWriterTo :=
  {| jsonFields := [ownField "Ref" false always (mlsRef) (fun v _ => MkMockLocalConnectionSecretWriterTo v)]; zeroStruct := MkMockLocalConnectionSecretWriterTo None |}.
#[export] Instance mockConnectionSecretWriterTo_json : JsonStruct mockConnectionSecretWriterTo :=
  {| jsonFields := [ownField "Ref" false always (mcsRef) (fun v _ => MkMockConnectionSecretWriterTo v)]; zeroStruct := MkMockConnectionSecretWriterTo None |}.
#[export] Instance mockManageable_json : JsonStruct mockManageable :=
  {| jsonFields := [ownField "Policy" false always (mmPolicy) (fun v _ => MkMockManageable v)]; zeroStruct := MkMockManageable [] |}.
#[export] Instance mockOrphanable_json : JsonStruct mockOrphanable :=
  {| jsonFields := [ownField "Policy" false always (moPolicy) (fun v _ => MkMockOrphanable v)]; zeroStruct := MkMockOrphanable "" |}.
#[export] Instance mockCompositionUpdater_json : JsonStruct mockCompositionUpdater :=
  {| jsonFields := [ownField "Policy" false always (mcuPolicy) (fun v _ => MkMockCompositionUpdater v)]; zeroStruct := MkMockCompositionUpdater None |}.
#[export] Instance mockCompositeResourceDeleter_json : JsonStruct mockCompositeResourceDeleter :=
  {| jsonFields := [ownField "Policy" false always (mcdPolicy) (fun v _ => MkMockCompositeResourceDeleter v)]; zeroStruct := MkMockCompositeResourceDeleter None |}.
#[export] Instance mockCompositeResourceReferencer_json : JsonStruct mockCompositeResourceReferencer :=
  {| jsonFields := [ownField "Ref" false always (mcrRef) (fun v _ => MkMockCompositeResourceReferencer v)]; zeroStruct := MkMockCompositeResourceReferencer None |}.
#[export] Instance mockClaimReferencer_json : JsonStruct mockClaimReferencer :=
  {| jsonFields := [ownField "Ref" false always (mclRef) (fun v _ => MkMockClaimReferencer v)]; zeroStruct := MkMockClaimReferencer None |}.
#[export] Instance mockUserCounter_json : JsonStruct mockUserCounter :=
  {| jsonFields := [ownField "Users" false always (muUsers) (fun v _ => MkMockUserCounter v)]; zeroStruct := MkMockUserCounter 0%Z |}.
#[export] Instance mockCompositionReferencer_json : JsonStruct (mockCompositionReferencer R) :=
  {| jsonFields := [ownField "Ref" false always (mcfRef R) (fun v _ => MkMockCompositionReferencer R v)]; zeroStruct := MkMockCompositionReferencer R None |}.
#[export] Instance mockCompositionSelector_json : JsonStruct (mockCompositionSelector L) :=
  {| jsonFields := [ownField "Sel" false always (mcsSel L) (fun v _ => MkMockCompositionSelector L v)]; zeroStruct := MkMockCompositionSelector L None |}.
#[export] Instance mockCompositionRevisionReferencer_json : JsonStruct (mockCompositionRevisionReferencer LR) :=
  {| jsonFields := [ownField "Ref" false always (mcvRef LR) (fun v _ => MkMockCompositionRevisionReferencer LR v)]; zeroStruct := MkMockCompositionRevisionReferencer LR None |}.
#[export] Instance mockCompositionRevisionSelector_json : JsonStruct (mockCompositionRevisionSelector L) :=
  {| jsonFields := [ownField "Sel" false always (mcvSel L) (fun v _ => MkMockCompositionRevisionSelector L v)]; zeroStruct := MkMockCompositionRevisionSelector L None |}.
#[export] Instance mockComposedResourcesReferencer_json : JsonStruct (mockComposedResourcesReferencer R) :=
  {| jsonFields := [ownField "Refs" false always (mcrRefs R) (fun v _ => MkMockComposedResourcesReferencer R v)]; zeroStruct := MkMockComposedResourcesReferencer R [] |}.
#[export] Instance mockEnvironmentConfigReferencer_json : JsonStruct (mockEnvironmentConfigReferencer R) :=
  {| jsonFields := [ownField "Refs" false always (mecRefs R) (fun v _ => MkMockEnvironmentConfigReferencer R v)]; zeroStruct := MkMockEnvironmentConfigReferencer R [] |}.

(** ** The fakes *)

#[export] Instance mockManaged_json : JsonStruct mockManaged := {|
  jsonFields := metaFields mmMeta (fun e o => MkMockManaged e (mmManageable o) (mmStatus o)) ++
    promoted (E:=mockManageable) ++ promoted (E:=ConditionedStatus);
  zeroStruct := MkMockManaged zeroStruct zeroStruct zeroStruct 
|}.

Definition ManagedDeepCopyObject : mockManaged -> option mockManaged := jsonCopy.

#[export] Instance mockModernManaged_json : JsonStruct mockModernManaged := {|
  jsonFields := metaFields mnMeta (fun e o => MkMockModernManaged e (mnConfig o) (mnSecret o) (mnManageable o) (mnStatus o)) ++
    promoted (E:=mockTypedProviderConfigReferencer) ++ promoted (E:=mockLocalConnectionSecretWriterTo) ++ promoted (E:=mockManageable) ++ promoted (E:=ConditionedStatus);
  zeroStruct := MkMockModernManaged zeroStruct zeroStruct zeroStruct zeroStruct zeroStruct 
|}.

Definition ModernManagedDeepCopyObject : mockModernManaged -> option mockModernManaged := jsonCopy.

#[export] Instance mockLegacyManaged_json : JsonStruct mockLegacyManaged := {|
  jsonFields := metaFields mlMeta (fun e o => MkMockLegacyManaged e (mlConfig o) (mlSecret o) (mlManageable o) (mlOrphanable o) (mlStatus o)) ++
    promoted (E:=mockLegacyProviderConfigReferencer) ++ promoted (E:=mockConnectionSecretWriterTo) ++ promoted (E:=mockManageable) ++ promoted (E:=mockOrphanable) ++ promoted (E:=ConditionedStatus);
  zeroStruct := MkMockLegacyManaged zeroStruct zeroStruct zeroStruct zeroStruct zeroStruct zeroStruct 
|}.

Definition LegacyManagedDeepCopyObject : mockLegacyManaged -> option mockLegacyManaged := jsonCopy.

#[export] Instance mockComposite_json : JsonStruct (mockComposite L R LR) := {|
  jsonFields := metaFields mkMeta (fun e o => MkMockComposite e (mkSelector o) (mkReference o) (mkRevision o) (mkRevisionSelector o) (mkUpdater o) (mkResources o) (mkEnvironment o) (mkClaim o) (mkSecret o) (mkStatus o) (mkPublished o)) ++
    promoted (E:=mockCompositionSelector L) ++ promoted (E:=mockCompositionReferencer R) ++ promoted (E:=mockCompositionRevisionReferencer LR) ++ promoted (E:=mockCompositionRevisionSelector L) ++ promoted (E:=mockCompositionUpdater) ++ promoted (E:=mockComposedResourcesReferencer R) ++ promoted (E:=mockEnvironmentConfigReferencer R) ++ promoted (E:=mockClaimReferencer) ++ promoted (E:=mockConnectionSecretWriterTo) ++ promoted (E:=ResourceStatus) ++ promoted (E:=mockConnectionDetailsLastPublishedTimer);
  zeroStruct := MkMockComposite zeroStruct zeroStruct zeroStruct zeroStruct zeroStruct zeroStruct zeroStruct zeroStruct zeroStruct zeroStruct zeroStruct zeroStruct 
|}.

Definition CompositeDeepCopyObject : (mockComposite L R LR) -> option (mockComposite L R LR) := jsonCopy.

#[export] Instance mockComposed_json : JsonStruct mockComposed := {|
  jsonFields := metaFields mdMeta (fun e o => MkMockComposed e (mdSecret o) (mdStatus o)) ++
    promoted (E:=mockConnectionSecretWriterTo) ++ promoted (E:=ResourceStatus);
  zeroStruct := MkMockComposed zeroStruct zeroStruct zeroStruct 
|}.

Definition ComposedDeepCopyObject : mockComposed -> option mockComposed := jsonCopy.

#[export] Instance mockCompositeClaim_json : JsonStruct (mockCompositeClaim L R LR) := {|
  jsonFields := metaFields mqMeta (fun e o => MkMockCompositeClaim e (mqSelector o) (mqReference o) (mqRevision o) (mqRevisionSelector o) (mqDeleter o) (mqUpdater o) (mqResource o) (mqSecret o) (mqStatus o) (mqPublished o)) ++
    promoted (E:=mockCompositionSelector L) ++ promoted (E:=mockCompositionReferencer R) ++ promoted (E:=mockCompositionRevisionReferencer LR) ++ promoted (E:=mockCompositionRevisionSelector L) ++ promoted (E:=mockCompositeResourceDeleter) ++ promoted (E:=mockCompositionUpdater) ++ promoted (E:=mockCompositeResourceReferencer) ++ promoted (E:=mockLocalConnectionSecretWriterTo) ++ promoted (E:=ResourceStatus) ++ promoted (E:=mockConnectionDetailsLastPublishedTimer);
  zeroStruct := MkMockCompositeClaim zeroStruct zeroStruct zeroStruct zeroStruct zeroStruct zeroStruct zeroStruct zeroStruct zeroStruct zeroStruct zeroStruct 
|}.

Definition CompositeClaimDeepCopyObject : (mockCompositeClaim L R LR) -> option (mockCompositeClaim L R LR) := jsonCopy.

#[export] Instance mockProviderConfig_json : JsonStruct mockProviderConfig := {|
  jsonFields := metaFields mpMeta (fun e o => MkMockProviderConfig e (mpUsers o) (mpStatus o)) ++
    promoted (E:=mockUserCounter) ++ promoted (E:=ConditionedStatus);
  zeroStruct := MkMockProviderConfig zeroStruct zeroStruct zeroStruct 
|}.

Definition ProviderConfigDeepCopyObject : mockProviderConfig -> option mockProviderConfig := jsonCopy.

#[export] Instance mockProviderConfigUsage_json : JsonStruct mockProviderConfigUsage := {|
  jsonFields := metaFields mgcMeta (fun e o => MkMockProviderConfigUsage e (mgcConfig o) (mgcResource o)) ++
    promoted (E:=mockRequiredTypedProviderConfigReferencer) ++ promoted (E:=mockRequiredTypedResourceReferencer);
  zeroStruct := MkMockProviderConfigUsage zeroStruct zeroStruct zeroStruct 
|}.

Definition ProviderConfigUsageDeepCopyObject : mockProviderConfigUsage -> option mockProviderConfigUsage := jsonCopy.

#[export] Instance mockLegacyProviderConfigUsage_json : JsonStruct mockLegacyProviderConfigUsage := {|
  jsonFields := metaFields mhMeta (fun e o => MkMockLegacyProviderConfigUsage e (mhConfig o) (mhResource o)) ++
    promoted (E:=mockRequiredProviderConfigReferencer) ++ promoted (E:=mockRequiredTypedResourceReferencer);
  zeroStruct := MkMockLegacyProviderConfigUsage zeroStruct zeroStruct zeroStruct 
|}.

Definition LegacyProviderConfigUsageDeepCopyObject : mockLegacyProviderConfigUsage -> option mockLegacyProviderConfigUsage := jsonCopy.

(** Structs that embed a runtime.Object, which is a field like any other: the
    key is the name of the interface, and nothing but null is decoded into it. *)
Record mockObject := MkMockObject { moMeta : ObjectMeta; moObject : option RO }.
Record mockConnectionSecretOwner := MkMockConnectionSecretOwner { mcoObject : option RO; mcoMeta : ObjectMeta; mcoWriterTo : option SecretReference }.
Record mockLocalConnectionSecretOwner := MkMockLocalConnectionSecretOwner { mloObject : option RO; mloMeta : ObjectMeta; mloRef : option LocalSecretReference }.

Definition interfaceField {T} (get : T -> option RO) (set : option RO -> T -> T) : jsonField T :=
  {| key := "Object"; depth := 0; tagged := false; fieldEncodable src := encodable (get src); copyField src dst := set None dst |}.

#[export] Instance mockConnectionSecretOwner_impl : ConnectionSecretWriterTo SecretReference mockConnectionSecretOwner :=
  {| Interfaces.SetWriteConnectionSecretToReference r o := MkMockConnectionSecretOwner (mcoObject o) (mcoMeta o) r;
     Interfaces.GetWriteConnectionSecretToReference := mcoWriterTo |}.

#[export] Instance mockLocalConnectionSecretOwner_impl : ConnectionSecretWriterTo LocalSecretReference mockLocalConnectionSecretOwner :=
  {| Interfaces.SetWriteConnectionSecretToReference r o := MkMockLocalConnectionSecretOwner (mloObject o) (mloMeta o) r;
     Interfaces.GetWriteConnectionSecretToReference := mloRef |}.

#[export] Instance mockObject_json : JsonStruct mockObject := {|
  jsonFields := metaFields moMeta (fun e o => MkMockObject e (moObject o)) ++ [interfaceField moObject (fun v o => MkMockObject (moMeta o) v)];
  zeroStruct := MkMockObject zeroStruct None
|}.

#[export] Instance mockConnectionSecretOwner_json : JsonStruct mockConnectionSecretOwner := {|
  jsonFields := interfaceField mcoObject (fun v o => MkMockConnectionSecretOwner v (mcoMeta o) (mcoWriterTo o)) ::
    metaFields mcoMeta (fun e o => MkMockConnectionSecretOwner (mcoObject o) e (mcoWriterTo o)) ++
    [ownField "WriterTo" false always mcoWriterTo (fun v o => MkMockConnectionSecretOwner (mcoObject o) (mcoMeta o) v)];
  zeroStruct := MkMockConnectionSecretOwner None zeroStruct None
|}.

#[export] Instance mockLocalConnectionSecretOwner_json : JsonStruct mockLocalConnectionSecretOwner := {|
  jsonFields := interfaceField mloObject (fun v o => MkMockLocalConnectionSecretOwner v (mloMeta o) (mloRef o)) ::
    metaFields mloMeta (fun e o => MkMockLocalConnectionSecretOwner (mloObject o) e (mloRef o)) ++
    [ownField "Ref" false always mloRef (fun v o => MkMockLocalConnectionSecretOwner (mloObject o) (mloMeta o) v)];
  zeroStruct := MkMockLocalConnectionSecretOwner None zeroStruct None
|}.

Definition ObjectDeepCopyObject : mockObject -> option mockObject := jsonCopy.
Definition ConnectionSecretOwnerDeepCopyObject : mockConnectionSecretOwner -> option mockConnectionSecretOwner := jsonCopy.
Definition LocalConnectionSecretOwnerDeepCopyObject : mockLocalConnectionSecretOwner -> option mockLocalConnectionSecretOwner := jsonCopy.

(** ** What the copies hold *)

(** A struct with all of its fields encoded and decoded. *)
Definition copyOf {E} `{!JsonStruct E} (e : E) : E := foldl (fun out f => copyField f e out) zeroStruct jsonFields.

(** The copy of a fake, if it can be encoded, is [o']. *)
Definition copiedAs {T} `{!JsonStruct T} (DeepCopyObject : T -> option T) (copy : T -> T) : Prop :=
  forall o, (forallb (fun f => fieldEncodable f o) (dominant jsonFields) = true /\ DeepCopyObject o = Some (copy o)) \/
            (forallb (fun f => fieldEncodable f o) (dominant jsonFields) = false /\ DeepCopyObject o = None).

Lemma copied {T} `{!JsonStruct T} (copy : T -> T) :
  (forall o, foldl (fun out f => copyField f o out) zeroStruct (dominant jsonFields) = copy o) -> copiedAs jsonCopy copy.
Proof. intros He o. unfold jsonCopy. destruct (forallb _ _); [left|right]; [by rewrite He|done]. Qed.

(** Values that encoding and decoding does not change: metadata is copied as it
    is, except that empty maps become nil. *)
Definition exact {V} `{!Codec V} (v : V) : Prop := recoded v = v.

Lemma copy_own {T V} `{!Codec V} (k : string) (tag : bool) (omit : V -> bool) (get : T -> V) (set : V -> T -> T) (src dst : T) :
  exact (get src) -> (omit (get src) = true -> set (get src) dst = dst) -> copyField (ownField k tag omit get set) src dst = set (get src) dst.
Proof. unfold exact. cbn. intros -> Ho. destruct (omit _); [by rewrite Ho|done]. Qed.

Ltac meta_field k tac :=
  rewrite (copy_own k); cbn [Name Namespace UID Generation ResourceVersion Labels Annotations Finalizers OwnerReferences DeletionTimestamp CreationTimestamp zeroMeta];
  [|assumption || exact eq_refl|tac].

Lemma copy_meta (m : ObjectMeta) :
  exact (Name m) -> exact (Namespace m) -> exact (UID m) -> exact (ResourceVersion m) -> exact (Labels m) -> exact (Annotations m) ->
  exact (Finalizers m) -> exact (OwnerReferences m) -> exact (DeletionTimestamp m) -> exact (CreationTimestamp m) ->
  Labels m <> Some ∅ -> Annotations m <> Some ∅ -> copyOf m = m.
Proof.
  destruct m as [n ns u g rv la an fi ow de cr]. cbn [Name Namespace UID ResourceVersion Labels Annotations Finalizers OwnerReferences DeletionTimestamp CreationTimestamp].
  intros Hn Hns Hu Hrv Hla Han Hfi How Hde Hcr Hl Ha. unfold copyOf. cbn [foldl meta_json jsonFields zeroStruct].
  meta_field "name" ltac:(intros ->%String.eqb_eq; done).
  meta_field "namespace" ltac:(intros ->%String.eqb_eq; done).
  meta_field "uid" ltac:(intros ->%String.eqb_eq; done).
  meta_field "resourceVersion" ltac:(intros ->%String.eqb_eq; done).
  meta_field "generation" ltac:(intros ->%Z.eqb_eq; done).
  meta_field "creationTimestamp" ltac:(intros [=]).
  meta_field "deletionTimestamp" ltac:(destruct de; [intros [=]|]; done).
  meta_field "labels" ltac:(destruct la as [la|]; [intros ->%bool_decide_eq_true|]; done).
  meta_field "annotations" ltac:(destruct an as [an|]; [intros ->%bool_decide_eq_true|]; done).
  meta_field "ownerReferences" ltac:(destruct ow; [|intros [=]]; done).
  meta_field "finalizers" ltac:(destruct fi; [|intros [=]]; done).
  done.
Qed.

(** Fakes whose fields have keys of their own are copied, except for embedded
    runtime.Objects. *)
Theorem fake_copies_full :
  copiedAs ManagedDeepCopyObject (fun o => MkMockManaged (copyOf (mmMeta o)) (copyOf (mmManageable o)) (copyOf (mmStatus o))) /\
  copiedAs ComposedDeepCopyObject (fun o => MkMockComposed (copyOf (mdMeta o)) (copyOf (mdSecret o)) (copyOf (mdStatus o))) /\
  copiedAs ProviderConfigDeepCopyObject (fun o => MkMockProviderConfig (copyOf (mpMeta o)) (copyOf (mpUsers o)) (copyOf (mpStatus o))) /\
  copiedAs ObjectDeepCopyObject (fun o => MkMockObject (copyOf (moMeta o)) None) /\
  copiedAs ConnectionSecretOwnerDeepCopyObject (fun o => MkMockConnectionSecretOwner None (copyOf (mcoMeta o)) (recoded (mcoWriterTo o))) /\
  copiedAs LocalConnectionSecretOwnerDeepCopyObject (fun o => MkMockLocalConnectionSecretOwner None (copyOf (mloMeta o)) (recoded (mloRef o))).
Proof. split_and!; apply copied; intros o; reflexivity. Qed.

(** The fields of one key that several embedded structs have are empty in the
    copy: the references and the policy of a legacy managed resource, the
    references of a modern one and of usages, and everything but the metadata,
    the update policy of a composite, the status and the published time of
    composites and claims. *)
Theorem fake_copies_lose :
  copiedAs ModernManagedDeepCopyObject (fun o => MkMockModernManaged (copyOf (mnMeta o)) zeroStruct zeroStruct (copyOf (mnManageable o)) (copyOf (mnStatus o))) /\
  copiedAs LegacyManagedDeepCopyObject (fun o => MkMockLegacyManaged (copyOf (mlMeta o)) zeroStruct zeroStruct zeroStruct zeroStruct (copyOf (mlStatus o))) /\
  copiedAs CompositeDeepCopyObject (fun o => MkMockComposite (copyOf (mkMeta o)) zeroStruct zeroStruct zeroStruct zeroStruct (copyOf (mkUpdater o)) zeroStruct zeroStruct zeroStruct zeroStruct (copyOf (mkStatus o)) (copyOf (mkPublished o))) /\
  copiedAs CompositeClaimDeepCopyObject (fun o => MkMockCompositeClaim (copyOf (mqMeta o)) zeroStruct zeroStruct zeroStruct zeroStruct zeroStruct zeroStruct zeroStruct zeroStruct (copyOf (mqStatus o)) (copyOf (mqPublished o))) /\
  copiedAs ProviderConfigUsageDeepCopyObject (fun o => MkMockProviderConfigUsage (copyOf (mgcMeta o)) zeroStruct zeroStruct) /\
  copiedAs LegacyProviderConfigUsageDeepCopyObject (fun o => MkMockLegacyProviderConfigUsage (copyOf (mhMeta o)) zeroStruct zeroStruct).
Proof. split_and!; apply copied; intros o; reflexivity. Qed.

End fakes.

(** ** Example *)

#[local] Instance exactCodec (V : Type) : Codec V | 100 := {| encodable _ := true; recoded v := v |}.

(** A composite that was claimed keeps its generation in a copy, not its claim. *)
Example fake_copy_demo :
  let c := Interfaces.SetObservedGeneration 3%Z (Interfaces.SetClaimReference (Some (MkClaimReference "v1" "Claim" "c" "ns")) (newMock bool bool unit)) in
  match CompositeDeepCopyObject c with
  | Some o => Interfaces.GetClaimReference o = None /\ Interfaces.GetObservedGeneration o = 3%Z
  | None => False
  end.
Proof. done. Qed.
