(* ===== verification/DeepCopy.v ===== *)
(** * Deep copies (zz_generated.deepcopy.go of apis/common, v1 and v2)

    The functions that copy the structs of the API types, as code over Go's
    memory.  A DeepCopyInto is given a struct and what it writes to its argument
    is its result; a DeepCopy of a nil pointer is nil.  The structs in memory
    are records with addresses; what they stand for are the records of the other
    files, or tuples of what their fields stand for. *)

From S2P Require Import Prelude Conditions Meta Managed Reference ProviderConfig Wildcards Unstructured Composite Claim Resources Heap.

(** ** Structs *)

Record FsSelector := MkFsSelector { fsPath : string }.
Record EnvSelector := MkEnvSelector { envName : string }.
Record TypedUsage := MkTypedUsage { tuConfig : ProviderConfigReference; tuResource : TypedReference }.

Record mPolicy := MkMPolicy { mpResolve : ptr string; mpResolution : ptr string }.
Record mReference := MkMReference { mrName : string; mrPolicy : ptr mPolicy }.
Record mNamespacedReference := MkMNamespacedReference { mnrName : string; mnrNamespace : string; mnrPolicy : ptr mPolicy }.
Record mSelector := MkMSelector { msLabels : gomap; msController : ptr bool; msPolicy : ptr mPolicy }.
Record mNamespacedSelector := MkMNamespacedSelector { mnsLabels : gomap; mnsController : ptr bool; mnsPolicy : ptr mPolicy; mnsNamespace : string }.
Record mMergeOptions := MkMMergeOptions { mmoKeep : ptr bool; mmoAppend : ptr bool }.
Record mCredentialSelectors := MkMCredentialSelectors { mccFs : ptr FsSelector; mccEnv : ptr EnvSelector; mccSecret : ptr SecretKeySelector }.
Record mConditionedStatus := MkMConditionedStatus { mcsConditions : slice Condition }.
Record mResourceStatus := MkMResourceStatus { mrsConditioned : mConditionedStatus; mrsObserved : ObservedStatus }.
Record mProviderConfigStatus := MkMProviderConfigStatus { mpsConditioned : mConditionedStatus; mpsUsers : Z }.
Record mProviderConfigUsage := MkMProviderConfigUsage { mpuConfig : mReference; mpuResource : TypedReference }.
Record mResourceSpec := MkMResourceSpec { mspSecret : ptr SecretReference; mspConfig : ptr mReference; mspPolicies : slice string; mspDeletion : string }.
Record mTargetSpec := MkMTargetSpec { mtsSecret : ptr LocalSecretReference; mtsResource : ptr ObjectReference }.
Record mTargetStatus := MkMTargetStatus { mttConditioned : mConditionedStatus }.
Record mManagedResourceSpec := MkMManagedResourceSpec { mmsSecret : ptr LocalSecretReference; mmsConfig : ptr ProviderConfigReference; mmsPolicies : slice string }.

(** ** Cells *)

Inductive cell :=
| CellString (x : string)
| CellBool (x : bool)
| CellMap (x : gmap string string)
| CellStrings (x : list string)
| CellConditions (x : list Condition)
| CellFsSelector (x : FsSelector)
| CellEnvSelector (x : EnvSelector)
| CellSecretKeySelector (x : SecretKeySelector)
| CellSecretReference (x : SecretReference)
| CellLocalSecretReference (x : LocalSecretReference)
| CellObjectReference (x : ObjectReference)
| CellProviderConfigReference (x : ProviderConfigReference)
| CellTypedReference (x : TypedReference)
| CellObservedStatus (x : ObservedStatus)
| CellCondition (x : Condition)
| CellLocalSecretKeySelector (x : LocalSecretKeySelector)
| CellTypedUsage (x : TypedUsage)
| CellPolicy (x : mPolicy)
| CellReference (x : mReference)
| CellNamespacedReference (x : mNamespacedReference)
| CellSelector (x : mSelector)
| CellNamespacedSelector (x : mNamespacedSelector)
| CellMergeOptions (x : mMergeOptions)
| CellCommonCredentialSelectors (x : mCredentialSelectors)
| CellConditionedStatus (x : mConditionedStatus)
| CellResourceStatus (x : mResourceStatus)
| CellProviderConfigStatus (x : mProviderConfigStatus)
| CellProviderConfigUsage (x : mProviderConfigUsage)
| CellResourceSpec (x : mResourceSpec)
| CellTargetSpec (x : mTargetSpec)
| CellTargetStatus (x : mTargetStatus)
| CellManagedResourceSpec (x : mManagedResourceSpec).

#[export] Instance CellString_storable : Storable cell string := {| toCell := CellString; ofCell c := match c with CellString x => Some x | _ => None end; of_to _ := eq_refl |}.
#[export] Instance CellBool_storable : Storable cell bool := {| toCell := CellBool; ofCell c := match c with CellBool x => Some x | _ => None end; of_to _ := eq_refl |}.
#[export] Instance CellMap_storable : Storable cell (gmap string string) := {| toCell := CellMap; ofCell c := match c with CellMap x => Some x | _ => None end; of_to _ := eq_refl |}.
#[export] Instance CellStrings_storable : Storable cell (list string) := {| toCell := CellStrings; ofCell c := match c with CellStrings x => Some x | _ => None end; of_to _ := eq_refl |}.
#[export] Instance CellConditions_storable : Storable cell (list Condition) := {| toCell := CellConditions; ofCell c := match c with CellConditions x => Some x | _ => None end; of_to _ := eq_refl |}.
#[export] Instance CellFsSelector_storable : Storable cell FsSelector := {| toCell := CellFsSelector; ofCell c := match c with CellFsSelector x => Some x | _ => None end; of_to _ := eq_refl |}.
#[export] Instance CellEnvSelector_storable : Storable cell EnvSelector := {| toCell := CellEnvSelector; ofCell c := match c with CellEnvSelector x => Some x | _ => None end; of_to _ := eq_refl |}.
#[export] Instance CellSecretKeySelector_storable : Storable cell SecretKeySelector := {| toCell := CellSecretKeySelector; ofCell c := match c with CellSecretKeySelector x => Some x | _ => None end; of_to _ := eq_refl |}.
#[export] Instance CellSecretReference_storable : Storable cell SecretReference := {| toCell := CellSecretReference; ofCell c := match c with CellSecretReference x => Some x | _ => None end; of_to _ := eq_refl |}.
#[export] Instance CellLocalSecretReference_storable : Storable cell LocalSecretReference := {| toCell := CellLocalSecretReference; ofCell c := match c with CellLocalSecretReference x => Some x | _ => None end; of_to _ := eq_refl |}.
#[export] Instance CellObjectReference_storable : Storable cell ObjectReference := {| toCell := CellObjectReference; ofCell c := match c with CellObjectReference x => Some x | _ => None end; of_to _ := eq_refl |}.
#[export] Instance CellProviderConfigReference_storable : Storable cell ProviderConfigReference := {| toCell := CellProviderConfigReference; ofCell c := match c with CellProviderConfigReference x => Some x | _ => None end; of_to _ := eq_refl |}.
#[export] Instance CellTypedReference_storable : Storable cell TypedReference := {| toCell := CellTypedReference; ofCell c := match c with CellTypedReference x => Some x | _ => None end; of_to _ := eq_refl |}.
#[export] Instance CellObservedStatus_storable : Storable cell ObservedStatus := {| toCell := CellObservedStatus; ofCell c := match c with CellObservedStatus x => Some x | _ => None end; of_to _ := eq_refl |}.
#[export] Instance CellCondition_storable : Storable cell Condition := {| toCell := CellCondition; ofCell c := match c with CellCondition x => Some x | _ => None end; of_to _ := eq_refl |}.
#[export] Instance CellLocalSecretKeySelector_storable : Storable cell LocalSecretKeySelector := {| toCell := CellLocalSecretKeySelector; ofCell c := match c with CellLocalSecretKeySelector x => Some x | _ => None end; of_to _ := eq_refl |}.
#[export] Instance CellTypedUsage_storable : Storable cell TypedUsage := {| toCell := CellTypedUsage; ofCell c := match c with CellTypedUsage x => Some x | _ => None end; of_to _ := eq_refl |}.
#[export] Instance CellPolicy_storable : Storable cell mPolicy := {| toCell := CellPolicy; ofCell c := match c with CellPolicy x => Some x | _ => None end; of_to _ := eq_refl |}.
#[export] Instance CellReference_storable : Storable cell mReference := {| toCell := CellReference; ofCell c := match c with CellReference x => Some x | _ => None end; of_to _ := eq_refl |}.
#[export] Instance CellNamespacedReference_storable : Storable cell mNamespacedReference := {| toCell := CellNamespacedReference; ofCell c := match c with CellNamespacedReference x => Some x | _ => None end; of_to _ := eq_refl |}.
#[export] Instance CellSelector_storable : Storable cell mSelector := {| toCell := CellSelector; ofCell c := match c with CellSelector x => Some x | _ => None end; of_to _ := eq_refl |}.
#[export] Instance CellNamespacedSelector_storable : Storable cell mNamespacedSelector := {| toCell := CellNamespacedSelector; ofCell c := match c with CellNamespacedSelector x => Some x | _ => None end; of_to _ := eq_refl |}.
#[export] Instance CellMergeOptions_storable : Storable cell mMergeOptions := {| toCell := CellMergeOptions; ofCell c := match c with CellMergeOptions x => Some x | _ => None end; of_to _ := eq_refl |}.
#[export] Instance CellCommonCredentialSelectors_storable : Storable cell mCredentialSelectors := {| toCell := CellCommonCredentialSelectors; ofCell c := match c with CellCommonCredentialSelectors x => Some x | _ => None end; of_to _ := eq_refl |}.
#[export] Instance CellConditionedStatus_storable : Storable cell mConditionedStatus := {| toCell := CellConditionedStatus; ofCell c := match c with CellConditionedStatus x => Some x | _ => None end; of_to _ := eq_refl |}.
#[export] Instance CellResourceStatus_storable : Storable cell mResourceStatus := {| toCell := CellResourceStatus; ofCell c := match c with CellResourceStatus x => Some x | _ => None end; of_to _ := eq_refl |}.
#[export] Instance CellProviderConfigStatus_storable : Storable cell mProviderConfigStatus := {| toCell := CellProviderConfigStatus; ofCell c := match c with CellProviderConfigStatus x => Some x | _ => None end; of_to _ := eq_refl |}.
#[export] Instance CellProviderConfigUsage_storable : Storable cell mProviderConfigUsage := {| toCell := CellProviderConfigUsage; ofCell c := match c with CellProviderConfigUsage x => Some x | _ => None end; of_to _ := eq_refl |}.
#[export] Instance CellResourceSpec_storable : Storable cell mResourceSpec := {| toCell := CellResourceSpec; ofCell c := match c with CellResourceSpec x => Some x | _ => None end; of_to _ := eq_refl |}.
#[export] Instance CellTargetSpec_storable : Storable cell mTargetSpec := {| toCell := CellTargetSpec; ofCell c := match c with CellTargetSpec x => Some x | _ => None end; of_to _ := eq_refl |}.
#[export] Instance CellTargetStatus_storable : Storable cell mTargetStatus := {| toCell := CellTargetStatus; ofCell c := match c with CellTargetStatus x => Some x | _ => None end; of_to _ := eq_refl |}.
#[export] Instance CellManagedResourceSpec_storable : Storable cell mManagedResourceSpec := {| toCell := CellManagedResourceSpec; ofCell c := match c with CellManagedResourceSpec x => Some x | _ => None end; of_to _ := eq_refl |}.

(** ** What the structs stand for *)

#[export] Instance string_repr : Repr cell string string := flat string.
#[export] Instance bool_repr : Repr cell bool bool := flat bool.
#[export] Instance Z_repr : Repr cell Z Z := flat Z.
#[export] Instance FsSelector_repr : Repr cell FsSelector FsSelector := flat FsSelector.
#[export] Instance EnvSelector_repr : Repr cell EnvSelector EnvSelector := flat EnvSelector.
#[export] Instance SecretKeySelector_repr : Repr cell SecretKeySelector SecretKeySelector := flat SecretKeySelector.
#[export] Instance SecretReference_repr : Repr cell SecretReference SecretReference := flat SecretReference.
#[export] Instance LocalSecretReference_repr : Repr cell LocalSecretReference LocalSecretReference := flat LocalSecretReference.
#[export] Instance ObjectReference_repr : Repr cell ObjectReference ObjectReference := flat ObjectReference.
#[export] Instance ProviderConfigReference_repr : Repr cell ProviderConfigReference ProviderConfigReference := flat ProviderConfigReference.
#[export] Instance TypedReference_repr : Repr cell TypedReference TypedReference := flat TypedReference.
#[export] Instance ObservedStatus_repr : Repr cell ObservedStatus ObservedStatus := flat ObservedStatus.
#[export] Instance Condition_repr : Repr cell Condition Condition := flat Condition.
#[export] Instance LocalSecretKeySelector_repr : Repr cell LocalSecretKeySelector LocalSecretKeySelector := flat LocalSecretKeySelector.
#[export] Instance TypedUsage_repr : Repr cell TypedUsage TypedUsage := flat TypedUsage.

#[export] Instance mPolicy_repr : Repr cell mPolicy Policy :=
  struct_repr _ (fun t => (mpResolve t, mpResolution t)) (fun v => MkPolicy v.1 v.2).
#[export] Instance mReference_repr : Repr cell mReference Reference :=
  struct_repr _ (fun t => (mrName t, mrPolicy t)) (fun v => MkReference v.1 v.2).
#[export] Instance mNamespacedReference_repr : Repr cell mNamespacedReference NamespacedReference :=
  struct_repr _ (fun t => (mnrName t, mnrNamespace t, mnrPolicy t)) (fun v => MkNamespacedReference v.1.1 v.1.2 v.2).
#[export] Instance mSelector_repr : Repr cell mSelector (option (gmap string string) * option bool * option Policy) :=
  struct_repr _ (fun t => (msLabels t, msController t, msPolicy t)) (id).
#[export] Instance mNamespacedSelector_repr : Repr cell mNamespacedSelector (option (gmap string string) * option bool * option Policy * string) :=
  struct_repr _ (fun t => (mnsLabels t, mnsController t, mnsPolicy t, mnsNamespace t)) (id).
#[export] Instance mMergeOptions_repr : Repr cell mMergeOptions MergeOptions :=
  struct_repr _ (fun t => (mmoKeep t, mmoAppend t)) (fun v => MkMergeOptions v.1 v.2).
#[export] Instance mCredentialSelectors_repr : Repr cell mCredentialSelectors (option FsSelector * option EnvSelector * option SecretKeySelector) :=
  struct_repr _ (fun t => (mccFs t, mccEnv t, mccSecret t)) (id).
#[export] Instance mConditionedStatus_repr : Repr cell mConditionedStatus (option (list Condition)) :=
  struct_repr _ (fun t => mcsConditions t) (id).
#[export] Instance mResourceStatus_repr : Repr cell mResourceStatus (option (list Condition) * ObservedStatus) :=
  struct_repr _ (fun t => (mrsConditioned t, mrsObserved t)) (id).
#[export] Instance mProviderConfigStatus_repr : Repr cell mProviderConfigStatus (option (list Condition) * Z) :=
  struct_repr _ (fun t => (mpsConditioned t, mpsUsers t)) (id).
#[export] Instance mProviderConfigUsage_repr : Repr cell mProviderConfigUsage (Reference * TypedReference) :=
  struct_repr _ (fun t => (mpuConfig t, mpuResource t)) (id).
#[export] Instance mResourceSpec_repr : Repr cell mResourceSpec (option SecretReference * option Reference * option (list string) * string) :=
  struct_repr _ (fun t => (mspSecret t, mspConfig t, mspPolicies t, mspDeletion t)) (id).
#[export] Instance mTargetSpec_repr : Repr cell mTargetSpec (option LocalSecretReference * option ObjectReference) :=
  struct_repr _ (fun t => (mtsSecret t, mtsResource t)) (id).
#[export] Instance mTargetStatus_repr : Repr cell mTargetStatus (option (list Condition)) :=
  struct_repr _ (fun t => mttConditioned t) (id).
#[export] Instance mManagedResourceSpec_repr : Repr cell mManagedResourceSpec (option LocalSecretReference * option ProviderConfigReference * option (list string)) :=
  struct_repr _ (fun t => (mmsSecret t, mmsConfig t, mmsPolicies t)) (id).

(** ** The functions *)

Abbreviation GoM := (M cell).

Definition FsSelectorDeepCopyInto (in_ : FsSelector) : GoM FsSelector := mret in_.
Definition EnvSelectorDeepCopyInto (in_ : EnvSelector) : GoM EnvSelector := mret in_.
Definition SecretKeySelectorDeepCopyInto (in_ : SecretKeySelector) : GoM SecretKeySelector := mret in_.
Definition SecretReferenceDeepCopyInto (in_ : SecretReference) : GoM SecretReference := mret in_.
Definition LocalSecretReferenceDeepCopyInto (in_ : LocalSecretReference) : GoM LocalSecretReference := mret in_.
Definition ProviderConfigReferenceDeepCopyInto (in_ : ProviderConfigReference) : GoM ProviderConfigReference := mret in_.
Definition TypedReferenceDeepCopyInto (in_ : TypedReference) : GoM TypedReference := mret in_.
Definition ObservedStatusDeepCopyInto (in_ : ObservedStatus) : GoM ObservedStatus := mret in_.
Definition ConditionDeepCopyInto (in_ : Condition) : GoM Condition := mret in_.
Definition LocalSecretKeySelectorDeepCopyInto (in_ : LocalSecretKeySelector) : GoM LocalSecretKeySelector := mret in_.
Definition TypedProviderConfigUsageDeepCopyInto (in_ : TypedUsage) : GoM TypedUsage := mret in_.

Definition PolicyDeepCopyInto (in_ : mPolicy) : GoM mPolicy :=
  pResolve ← copyPtr mret (mpResolve in_);
  pResolution ← copyPtr mret (mpResolution in_);
  mret (MkMPolicy pResolve pResolution).

Definition ReferenceDeepCopyInto (in_ : mReference) : GoM mReference :=
  rPolicy ← copyPtr PolicyDeepCopyInto (mrPolicy in_);
  mret (MkMReference (mrName in_) rPolicy).

Definition NamespacedReferenceDeepCopyInto (in_ : mNamespacedReference) : GoM mNamespacedReference :=
  nrPolicy ← copyPtr PolicyDeepCopyInto (mnrPolicy in_);
  mret (MkMNamespacedReference (mnrName in_) (mnrNamespace in_) nrPolicy).

Definition SelectorDeepCopyInto (in_ : mSelector) : GoM mSelector :=
  sLabels ← copyMap (msLabels in_);
  sController ← copyPtr mret (msController in_);
  sPolicy ← copyPtr PolicyDeepCopyInto (msPolicy in_);
  mret (MkMSelector sLabels sController sPolicy).

Definition NamespacedSelectorDeepCopyInto (in_ : mNamespacedSelector) : GoM mNamespacedSelector :=
  nsLabels ← copyMap (mnsLabels in_);
  nsController ← copyPtr mret (mnsController in_);
  nsPolicy ← copyPtr PolicyDeepCopyInto (mnsPolicy in_);
  mret (MkMNamespacedSelector nsLabels nsController nsPolicy (mnsNamespace in_)).

Definition MergeOptionsDeepCopyInto (in_ : mMergeOptions) : GoM mMergeOptions :=
  moKeep ← copyPtr mret (mmoKeep in_);
  moAppend ← copyPtr mret (mmoAppend in_);
  mret (MkMMergeOptions moKeep moAppend).

Definition CommonCredentialSelectorsDeepCopyInto (in_ : mCredentialSelectors) : GoM mCredentialSelectors :=
  ccFs ← copyPtr mret (mccFs in_);
  ccEnv ← copyPtr mret (mccEnv in_);
  ccSecret ← copyPtr mret (mccSecret in_);
  mret (MkMCredentialSelectors ccFs ccEnv ccSecret).

Definition ConditionedStatusDeepCopyInto (in_ : mConditionedStatus) : GoM mConditionedStatus :=
  csConditions ← copySlice ConditionDeepCopyInto (mcsConditions in_);
  mret (MkMConditionedStatus csConditions).

Definition ResourceStatusDeepCopyInto (in_ : mResourceStatus) : GoM mResourceStatus :=
  rsConditioned ← ConditionedStatusDeepCopyInto (mrsConditioned in_);
  mret (MkMResourceStatus rsConditioned (mrsObserved in_)).

(** The type of apis/common/v1 has the same fields, copied in the same way. *)
Definition v1ResourceStatusDeepCopyInto (in_ : mResourceStatus) : GoM mResourceStatus :=
  conditioned ← ConditionedStatusDeepCopyInto (mrsConditioned in_);
  observed ← ObservedStatusDeepCopyInto (mrsObserved in_);
  mret (MkMResourceStatus conditioned observed).

Definition ProviderConfigStatusDeepCopyInto (in_ : mProviderConfigStatus) : GoM mProviderConfigStatus :=
  psConditioned ← ConditionedStatusDeepCopyInto (mpsConditioned in_);
  mret (MkMProviderConfigStatus psConditioned (mpsUsers in_)).

Definition ProviderConfigUsageDeepCopyInto (in_ : mProviderConfigUsage) : GoM mProviderConfigUsage :=
  puConfig ← ReferenceDeepCopyInto (mpuConfig in_);
  mret (MkMProviderConfigUsage puConfig (mpuResource in_)).

Definition ResourceSpecDeepCopyInto (in_ : mResourceSpec) : GoM mResourceSpec :=
  spSecret ← copyPtr mret (mspSecret in_);
  spConfig ← copyPtr ReferenceDeepCopyInto (mspConfig in_);
  spPolicies ← copySlice mret (mspPolicies in_);
  mret (MkMResourceSpec spSecret spConfig spPolicies (mspDeletion in_)).

Definition TargetSpecDeepCopyInto (in_ : mTargetSpec) : GoM mTargetSpec :=
  tsSecret ← copyPtr mret (mtsSecret in_);
  tsResource ← copyPtr mret (mtsResource in_);
  mret (MkMTargetSpec tsSecret tsResource).

Definition TargetStatusDeepCopyInto (in_ : mTargetStatus) : GoM mTargetStatus :=
  ttConditioned ← ConditionedStatusDeepCopyInto (mttConditioned in_);
  mret (MkMTargetStatus ttConditioned).

Definition ManagedResourceSpecDeepCopyInto (in_ : mManagedResourceSpec) : GoM mManagedResourceSpec :=
  msSecret ← copyPtr mret (mmsSecret in_);
  msConfig ← copyPtr mret (mmsConfig in_);
  msPolicies ← copySlice mret (mmsPolicies in_);
  mret (MkMManagedResourceSpec msSecret msConfig msPolicies).

(** The policies are a slice; a nil one is copied to an empty one. *)
Definition ManagementPoliciesDeepCopyInto (in_ : slice string) : GoM (slice string) :=
  match backing in_ with
  | None => out ← new ([] : list string); mret (MkSlice (Some out) 0 0)
  | Some _ => copySlice mret in_
  end.

Definition ManagementPoliciesDeepCopy (in_ : slice string) : GoM (slice string) :=
  match backing in_ with None => mret in_ | Some _ => ManagementPoliciesDeepCopyInto in_ end.

Definition FsSelectorDeepCopy : ptr FsSelector -> GoM (ptr FsSelector) := copyPtr FsSelectorDeepCopyInto.
Definition EnvSelectorDeepCopy : ptr EnvSelector -> GoM (ptr EnvSelector) := copyPtr EnvSelectorDeepCopyInto.
Definition SecretKeySelectorDeepCopy : ptr SecretKeySelector -> GoM (ptr SecretKeySelector) := copyPtr SecretKeySelectorDeepCopyInto.
Definition SecretReferenceDeepCopy : ptr SecretReference -> GoM (ptr SecretReference) := copyPtr SecretReferenceDeepCopyInto.
Definition LocalSecretReferenceDeepCopy : ptr LocalSecretReference -> GoM (ptr LocalSecretReference) := copyPtr LocalSecretReferenceDeepCopyInto.
Definition ProviderConfigReferenceDeepCopy : ptr ProviderConfigReference -> GoM (ptr ProviderConfigReference) := copyPtr ProviderConfigReferenceDeepCopyInto.
Definition TypedReferenceDeepCopy : ptr TypedReference -> GoM (ptr TypedReference) := copyPtr TypedReferenceDeepCopyInto.
Definition ObservedStatusDeepCopy : ptr ObservedStatus -> GoM (ptr ObservedStatus) := copyPtr ObservedStatusDeepCopyInto.
Definition ConditionDeepCopy : ptr Condition -> GoM (ptr Condition) := copyPtr ConditionDeepCopyInto.
Definition LocalSecretKeySelectorDeepCopy : ptr LocalSecretKeySelector -> GoM (ptr LocalSecretKeySelector) := copyPtr LocalSecretKeySelectorDeepCopyInto.
Definition TypedProviderConfigUsageDeepCopy : ptr TypedUsage -> GoM (ptr TypedUsage) := copyPtr TypedProviderConfigUsageDeepCopyInto.
Definition PolicyDeepCopy : ptr mPolicy -> GoM (ptr mPolicy) := copyPtr PolicyDeepCopyInto.
Definition ReferenceDeepCopy : ptr mReference -> GoM (ptr mReference) := copyPtr ReferenceDeepCopyInto.
Definition NamespacedReferenceDeepCopy : ptr mNamespacedReference -> GoM (ptr mNamespacedReference) := copyPtr NamespacedReferenceDeepCopyInto.
Definition SelectorDeepCopy : ptr mSelector -> GoM (ptr mSelector) := copyPtr SelectorDeepCopyInto.
Definition NamespacedSelectorDeepCopy : ptr mNamespacedSelector -> GoM (ptr mNamespacedSelector) := copyPtr NamespacedSelectorDeepCopyInto.
Definition MergeOptionsDeepCopy : ptr mMergeOptions -> GoM (ptr mMergeOptions) := copyPtr MergeOptionsDeepCopyInto.
Definition CommonCredentialSelectorsDeepCopy : ptr mCredentialSelectors -> GoM (ptr mCredentialSelectors) := copyPtr CommonCredentialSelectorsDeepCopyInto.
Definition ConditionedStatusDeepCopy : ptr mConditionedStatus -> GoM (ptr mConditionedStatus) := copyPtr ConditionedStatusDeepCopyInto.
Definition ResourceStatusDeepCopy : ptr mResourceStatus -> GoM (ptr mResourceStatus) := copyPtr ResourceStatusDeepCopyInto.
Definition v1ResourceStatusDeepCopy : ptr mResourceStatus -> GoM (ptr mResourceStatus) := copyPtr v1ResourceStatusDeepCopyInto.
Definition ProviderConfigStatusDeepCopy : ptr mProviderConfigStatus -> GoM (ptr mProviderConfigStatus) := copyPtr ProviderConfigStatusDeepCopyInto.
Definition ProviderConfigUsageDeepCopy : ptr mProviderConfigUsage -> GoM (ptr mProviderConfigUsage) := copyPtr ProviderConfigUsageDeepCopyInto.
Definition ResourceSpecDeepCopy : ptr mResourceSpec -> GoM (ptr mResourceSpec) := copyPtr ResourceSpecDeepCopyInto.
Definition TargetSpecDeepCopy : ptr mTargetSpec -> GoM (ptr mTargetSpec) := copyPtr TargetSpecDeepCopyInto.
Definition TargetStatusDeepCopy : ptr mTargetStatus -> GoM (ptr mTargetStatus) := copyPtr TargetStatusDeepCopyInto.
Definition ManagedResourceSpecDeepCopy : ptr mManagedResourceSpec -> GoM (ptr mManagedResourceSpec) := copyPtr ManagedResourceSpecDeepCopyInto.

(** ** Properties *)

Ltac copies_fields :=
  repeat match goal with
  | |- copies (copyPair _ _) => apply copies_pair
  | |- copies (copyPtr _) => apply copies_ptr
  | |- copies copyMap => apply copies_map
  | |- copies (copySlice _) => by apply copies_slice
  | |- copies mret => apply copies_flat
  end; auto with golib.

(** The functions copy the fields of a struct one after the other. *)
Ltac field_by_field :=
  intros t h; match goal with |- ?f t h = _ => unfold f end; unfold copyPair, mbind, M_bind, mret, M_ret; cbn [fst snd];
  repeat match goal with |- context [match ?x with Some _ => _ | None => _ end] => destruct x as [[? ?]|]; [|done] end; done.

Lemma Policy_copies : copies PolicyDeepCopyInto.
Proof. eapply (copies_struct _ _ (fun p => MkMPolicy p.1 p.2) (copyPair (copyPtr mret) (copyPtr mret))); [by intros [? ?]|field_by_field|copies_fields]. Qed.
#[export] Hint Resolve Policy_copies : golib.

Lemma Reference_copies : copies ReferenceDeepCopyInto.
Proof. eapply (copies_struct _ _ (fun p => MkMReference p.1 p.2) (copyPair mret (copyPtr PolicyDeepCopyInto))); [by intros [? ?]|field_by_field|copies_fields]. Qed.
#[export] Hint Resolve Reference_copies : golib.

Lemma NamespacedReference_copies : copies NamespacedReferenceDeepCopyInto.
Proof. eapply (copies_struct _ _ (fun p => MkMNamespacedReference p.1.1 p.1.2 p.2) (copyPair (copyPair mret mret) (copyPtr PolicyDeepCopyInto))); [by intros [[? ?] ?]|field_by_field|copies_fields]. Qed.
#[export] Hint Resolve NamespacedReference_copies : golib.

Lemma Selector_copies : copies SelectorDeepCopyInto.
Proof. eapply (copies_struct _ _ (fun p => MkMSelector p.1.1 p.1.2 p.2) (copyPair (copyPair copyMap (copyPtr mret)) (copyPtr PolicyDeepCopyInto))); [by intros [[? ?] ?]|field_by_field|copies_fields]. Qed.
#[export] Hint Resolve Selector_copies : golib.

Lemma NamespacedSelector_copies : copies NamespacedSelectorDeepCopyInto.
Proof. eapply (copies_struct _ _ (fun p => MkMNamespacedSelector p.1.1.1 p.1.1.2 p.1.2 p.2) (copyPair (copyPair (copyPair copyMap (copyPtr mret)) (copyPtr PolicyDeepCopyInto)) mret)); [by intros [[[? ?] ?] ?]|field_by_field|copies_fields]. Qed.
#[export] Hint Resolve NamespacedSelector_copies : golib.

Lemma MergeOptions_copies : copies MergeOptionsDeepCopyInto.
Proof. eapply (copies_struct _ _ (fun p => MkMMergeOptions p.1 p.2) (copyPair (copyPtr mret) (copyPtr mret))); [by intros [? ?]|field_by_field|copies_fields]. Qed.
#[export] Hint Resolve MergeOptions_copies : golib.

Lemma CommonCredentialSelectors_copies : copies CommonCredentialSelectorsDeepCopyInto.
Proof. eapply (copies_struct _ _ (fun p => MkMCredentialSelectors p.1.1 p.1.2 p.2) (copyPair (copyPair (copyPtr mret) (copyPtr mret)) (copyPtr mret))); [by intros [[? ?] ?]|field_by_field|copies_fields]. Qed.
#[export] Hint Resolve CommonCredentialSelectors_copies : golib.

Lemma ConditionedStatus_copies : copies ConditionedStatusDeepCopyInto.
Proof. eapply (copies_struct _ _ (fun p => MkMConditionedStatus p) (copySlice ConditionDeepCopyInto)); [done|field_by_field|copies_fields]. Qed.
#[export] Hint Resolve ConditionedStatus_copies : golib.

Lemma ResourceStatus_copies : copies ResourceStatusDeepCopyInto.
Proof. eapply (copies_struct _ _ (fun p => MkMResourceStatus p.1 p.2) (copyPair ConditionedStatusDeepCopyInto mret)); [by intros [? ?]|field_by_field|copies_fields]. Qed.
#[export] Hint Resolve ResourceStatus_copies : golib.

Lemma v1ResourceStatus_copies : copies v1ResourceStatusDeepCopyInto.
Proof. eapply (copies_struct _ _ (fun p => MkMResourceStatus p.1 p.2) (copyPair ConditionedStatusDeepCopyInto mret)); [by intros [? ?]|field_by_field|copies_fields]. Qed.
#[export] Hint Resolve v1ResourceStatus_copies : golib.

Lemma ProviderConfigStatus_copies : copies ProviderConfigStatusDeepCopyInto.
Proof. eapply (copies_struct _ _ (fun p => MkMProviderConfigStatus p.1 p.2) (copyPair ConditionedStatusDeepCopyInto mret)); [by intros [? ?]|field_by_field|copies_fields]. Qed.
#[export] Hint Resolve ProviderConfigStatus_copies : golib.

Lemma ProviderConfigUsage_copies : copies ProviderConfigUsageDeepCopyInto.
Proof. eapply (copies_struct _ _ (fun p => MkMProviderConfigUsage p.1 p.2) (copyPair ReferenceDeepCopyInto mret)); [by intros [? ?]|field_by_field|copies_fields]. Qed.
#[export] Hint Resolve ProviderConfigUsage_copies : golib.

Lemma ResourceSpec_copies : copies ResourceSpecDeepCopyInto.
Proof. eapply (copies_struct _ _ (fun p => MkMResourceSpec p.1.1.1 p.1.1.2 p.1.2 p.2) (copyPair (copyPair (copyPair (copyPtr mret) (copyPtr ReferenceDeepCopyInto)) (copySlice mret)) mret)); [by intros [[[? ?] ?] ?]|field_by_field|copies_fields]. Qed.
#[export] Hint Resolve ResourceSpec_copies : golib.

Lemma TargetSpec_copies : copies TargetSpecDeepCopyInto.
Proof. eapply (copies_struct _ _ (fun p => MkMTargetSpec p.1 p.2) (copyPair (copyPtr mret) (copyPtr mret))); [by intros [? ?]|field_by_field|copies_fields]. Qed.
#[export] Hint Resolve TargetSpec_copies : golib.

Lemma TargetStatus_copies : copies TargetStatusDeepCopyInto.
Proof. eapply (copies_struct _ _ (fun p => MkMTargetStatus p) ConditionedStatusDeepCopyInto); [done|field_by_field|copies_fields]. Qed.
#[export] Hint Resolve TargetStatus_copies : golib.

Lemma ManagedResourceSpec_copies : copies ManagedResourceSpecDeepCopyInto.
Proof. eapply (copies_struct _ _ (fun p => MkMManagedResourceSpec p.1.1 p.1.2 p.2) (copyPair (copyPair (copyPtr mret) (copyPtr mret)) (copySlice mret))); [by intros [[? ?] ?]|field_by_field|copies_fields]. Qed.
#[export] Hint Resolve ManagedResourceSpec_copies : golib.

Lemma ManagementPolicies_copies : copies ManagementPoliciesDeepCopy.
Proof.
  intros h t v D Hr. pose proof (copies_slice (S:=CellStrings_storable) (mret (M:=GoM)) (fun _ _ => eq_refl) h t v D Hr) as Hc.
  unfold ManagementPoliciesDeepCopy, ManagementPoliciesDeepCopyInto, copySlice in *. by destruct (backing t).
Qed.

(** C32: for every type of the API, its DeepCopy succeeds on whatever the pointer
    leads to, nil included, and gives a value equal to the original that shares
    no memory with it: whatever is written behind the pointers, in the slices
    and in the maps of one of the two, the other still has its value. *)
Theorem deep_copies_independent :
  independent FsSelectorDeepCopy /\
  independent EnvSelectorDeepCopy /\
  independent SecretKeySelectorDeepCopy /\
  independent SecretReferenceDeepCopy /\
  independent LocalSecretReferenceDeepCopy /\
  independent ProviderConfigReferenceDeepCopy /\
  independent TypedReferenceDeepCopy /\
  independent ObservedStatusDeepCopy /\
  independent ConditionDeepCopy /\
  independent LocalSecretKeySelectorDeepCopy /\
  independent TypedProviderConfigUsageDeepCopy /\
  independent PolicyDeepCopy /\
  independent ReferenceDeepCopy /\
  independent NamespacedReferenceDeepCopy /\
  independent SelectorDeepCopy /\
  independent NamespacedSelectorDeepCopy /\
  independent MergeOptionsDeepCopy /\
  independent CommonCredentialSelectorsDeepCopy /\
  independent ConditionedStatusDeepCopy /\
  independent ResourceStatusDeepCopy /\
  independent v1ResourceStatusDeepCopy /\
  independent ProviderConfigStatusDeepCopy /\
  independent ProviderConfigUsageDeepCopy /\
  independent ResourceSpecDeepCopy /\
  independent TargetSpecDeepCopy /\
  independent TargetStatusDeepCopy /\
  independent ManagedResourceSpecDeepCopy /\
  independent ManagementPoliciesDeepCopy.
Proof.
  split_and!; apply copies_independent.
  1-11: apply copies_ptr; exact (copies_flat _).
  all: first [apply ManagementPolicies_copies|apply copies_ptr; auto with golib].
Qed.

(** ** Unstructured resources

    Composites, claims and composed resources embed an unstructured object,
    whose copy is apimachinery's; composites also have a schema. *)

Section unstructured.
Context {C U V : Type} {R : Repr C U V} (UnstructuredDeepCopyInto : U -> M C U).

Record mComposite := MkMComposite { mucUnstructured : U; mucSchema : SchemaVersion }.
Record mClaim := MkMClaim { muclUnstructured : U }.
Record mComposed := MkMComposed { mucdUnstructured : U }.

Context {SComposite : Storable C mComposite} {SClaim : Storable C mClaim} {SComposed : Storable C mComposed}.

Definition CompositeDeepCopyInto (in_ : mComposite) : M C mComposite :=
  out ← UnstructuredDeepCopyInto (mucUnstructured in_);
  mret (MkMComposite out (mucSchema in_)).

Definition ClaimDeepCopyInto (in_ : mClaim) : M C mClaim :=
  out ← UnstructuredDeepCopyInto (muclUnstructured in_);
  mret (MkMClaim out).

Definition ComposedDeepCopyInto (in_ : mComposed) : M C mComposed :=
  out ← UnstructuredDeepCopyInto (mucdUnstructured in_);
  mret (MkMComposed out).

Definition CompositeDeepCopy : ptr mComposite -> M C (ptr mComposite) := copyPtr CompositeDeepCopyInto.
Definition ClaimDeepCopy : ptr mClaim -> M C (ptr mClaim) := copyPtr ClaimDeepCopyInto.
Definition ComposedDeepCopy : ptr mComposed -> M C (ptr mComposed) := copyPtr ComposedDeepCopyInto.

(** An interface is nil ([None]) or holds a pointer, which may be nil itself. *)
Definition asObject {T} (p : ptr T) : option (ptr T) :=
  match addr p with Some _ => Some p | None => None end.

Definition CompositeDeepCopyObject (p : ptr mComposite) : M C (option (ptr mComposite)) := c ← CompositeDeepCopy p; mret (asObject c).
Definition ClaimDeepCopyObject (p : ptr mClaim) : M C (option (ptr mClaim)) := c ← ClaimDeepCopy p; mret (asObject c).
Definition ComposedDeepCopyObject (p : ptr mComposed) : M C (option (ptr mComposed)) := c ← ComposedDeepCopy p; mret (asObject c).

#[export] Instance mComposite_repr : Repr C mComposite (V * SchemaVersion) :=
  struct_repr (pair_repr R (flat SchemaVersion)) (fun t => (mucUnstructured t, mucSchema t)) id.
#[export] Instance mClaim_repr : Repr C mClaim V := struct_repr R muclUnstructured id.
#[export] Instance mComposed_repr : Repr C mComposed V := struct_repr R mucdUnstructured id.

(** What the copies rely on: apimachinery copies the unstructured object. *)
Hypothesis UnstructuredDeepCopyInto_copies : copies UnstructuredDeepCopyInto.

Lemma unstructured_copies_independent : independent CompositeDeepCopy /\ independent ClaimDeepCopy /\ independent ComposedDeepCopy.
Proof using All.
  split_and!; apply copies_independent, copies_ptr.
  - eapply (copies_struct _ _ (fun p => MkMComposite p.1 p.2) (copyPair UnstructuredDeepCopyInto mret)); [by intros [? ?]|field_by_field|].
    apply copies_pair; [done|exact (copies_flat _)].
  - eapply (copies_struct _ _ MkMClaim UnstructuredDeepCopyInto); [done|field_by_field|done].
  - eapply (copies_struct _ _ MkMComposed UnstructuredDeepCopyInto); [done|field_by_field|done].
Qed.

(** The object is nil exactly when the pointer is: never an interface that holds
    a nil pointer. *)
Lemma composite_object_nil (h h' : gmap loc C) (p : ptr mComposite) (o : option (ptr mComposite)) :
  CompositeDeepCopyObject p h = Some (o, h') -> o = None <-> addr p = None.
Proof using.
  unfold CompositeDeepCopyObject, CompositeDeepCopy, copyPtr, asObject, mbind, M_bind, mret, M_ret.
  destruct (addr p) as [l|] eqn:Hp; [|rewrite Hp; naive_solver].
  unfold load, new, store. destruct (h !! l ≫= ofCell); [|done]. cbn.
  destruct (CompositeDeepCopyInto _ _) as [[y h1]|]; [|done]. destruct (h1 !! _); [|done]. naive_solver.
Qed.

End unstructured.

(** ** Examples *)

(** A selector with labels, and a policy that it shares with another struct. *)
Definition demoHeap : gmap loc cell :=
  {[1%positive := CellMap {["a" := "b"]}; 2%positive := CellString "Always"; 3%positive := CellPolicy (MkMPolicy (Ptr (Some 2%positive)) (Ptr None));
    4%positive := CellSelector (MkMSelector (MkGoMap (Some 1%positive)) (Ptr None) (Ptr (Some 3%positive)))]}.

Example demo_selector : repr demoHeap (Ptr (T:=mSelector) (Some 4%positive)) (Some (Some {["a" := "b"]}, None, Some (MkPolicy (Some "Always") None))) {[1; 2; 3; 4]}%positive.
Proof.
  exists (MkMSelector (MkGoMap (Some 1%positive)) (Ptr None) (Ptr (Some 3%positive))), {[1; 2; 3]}%positive.
  split; [done|]. split; [|set_solver]. exists (Some {["a" := "b"]}, None, Some (MkPolicy (Some "Always") None)). split; [done|].
  exists {[1]}%positive, {[2; 3]}%positive. split; [set_solver|]. split.
  - exists {[1]}%positive, ∅. split; [set_solver|]. by split.
  - exists (MkMPolicy (Ptr (Some 2%positive)) (Ptr None)), {[2]}%positive. split; [done|]. split; [|set_solver].
    exists (Some "Always", None). split; [done|]. exists {[2]}%positive, ∅. split; [set_solver|]. split; [|done].
    exists "Always", ∅. split; [done|]. split; [done|set_solver].
Qed.

(** Changing the labels of the copy leaves the original alone. *)
Example demo_copy :
  match SelectorDeepCopy (Ptr (Some 4%positive)) demoHeap with
  | Some (p, h) => size h = 8 /\ p <> Ptr (Some 4%positive) /\ h !! 1%positive = demoHeap !! 1%positive
  | None => False
  end.
Proof. vm_compute. done. Qed.

(** Without the copies of the fields the two would share their labels. *)
Example shallow_shares : ~ independent (copyPtr (mret (M:=GoM)) : ptr mSelector -> GoM (ptr mSelector)).
Proof.
  intros Hi. destruct (Hi _ _ _ _ demo_selector) as (t' & h' & D' & He & _ & _ & _ & Hw). vm_compute in He. simplify_eq.
  specialize (Hw 1%positive (CellBool true) ltac:(set_solver)). destruct Hw as (x & D0 & Hx & Hr & _). vm_compute in Hx. simplify_eq.
  destruct Hr as ([[? ?] ?] & ? & ? & ? & _ & (? & ? & _ & Hm & _) & _). vm_compute in Hm. by destruct o as [m|]; [destruct Hm|].
Qed.
