(* ===== verification/ManagedReconciler.v ===== *)
(** * The managed resource reconciler (pkg/reconciler/managed/reconciler.go)

    [Reconcile], cut into the stretches of the method between its main decision
    points.  Each stretch is a program over the effects of [Managed.meff] that
    either returns or goes on with the next one, as the method does.  Contexts,
    their timeouts and logging are left out: a call that times out is one that
    answers with an error, and any call may. *)

From S2P Require Import Prelude GoErrors GoTime Conditions Meta Policies Prog Managed.

Section reconciler.
Context {KE : KErrors} {LP : LenientParser}.
Implicit Types (r : Reconciler) (m : Managed) (record : string) (policy : ManagementPoliciesChecker).

(** Lines 928-933: the resolver for the object's kind and policies. *)
Definition newPolicy r m : ManagementPoliciesChecker :=
  let managementPoliciesEnabled := Enabled EnableBetaManagementPolicies (Some (features r)) in
  let supported := WithSupportedManagementPolicies (supportedManagementPolicies r) in
  if legacy r then
    NewLegacyManagementPoliciesResolver managementPoliciesEnabled (mgPolicies m) (mgDeletionPolicy m) [supported]
  else NewManagementPoliciesResolver managementPoliciesEnabled (mgPolicies m) [supported].

(** [return reconcile.Result{Requeue: true}, nil] *)
Definition requeue m record : prog meff Out := mret (MkOut requeueResult None m record).

(** ** External resource exists and nothing is being deleted *)

(** Lines 1421-1502: nothing to do, or update. *)
Definition reconcileUpdate r m record policy (observation : ExternalObservation) (managedPreOp : Managed) : prog meff Out :=
  if ResourceUpToDate observation then
    reconcileAfter ← trigger (EPollInterval m (pollInterval r));
    m ← markConditions m [ReconcileSuccess];
    _ ← trigger (EMetric FirstTimeReady m);
    _ ← trigger (EMetric Unchanged m);
    returnWithStatus (MkResult false reconcileAfter) m record
  else if negb (pShouldUpdate policy) then
    reconcileAfter ← trigger (EPollInterval m (pollInterval r));
    m ← markConditions m [ReconcileSuccess];
    returnWithStatus (MkResult false reconcileAfter) m record
  else
    '(m, update, err) ← trigger (EExternalUpdate m);
    match err with
    | Some e =>
        _ ← trigger (EChangeLog managedPreOp OPERATION_TYPE_UPDATE (Some e) (chAdditionalDetails update));
        _ ← warn record m "CannotUpdateExternalResource" e;
        m ← markConditions m [fun t => ReconcileError t (wrapError errReconcileUpdate e)];
        returnWithStatus requeueResult m record
    | None =>
        _ ← trigger (EMetric Drift m);
        _ ← trigger (EChangeLog managedPreOp OPERATION_TYPE_UPDATE None (chAdditionalDetails update));
        '(m, err) ← trigger (EPublishConnection m (chConnectionDetails update));
        match err with
        | Some e =>
            _ ← warn record m "CannotPublishConnectionDetails" e;
            m ← markConditions m [fun t => ReconcileError t e];
            returnWithStatus requeueResult m record
        | None =>
            reconcileAfter ← trigger (EPollInterval m (pollInterval r));
            _ ← emit_event record m TypeNormal "UpdatedExternalResource" "Successfully requested update of external resource";
            m ← markConditions m [ReconcileSuccess];
            returnWithStatus (MkResult false reconcileAfter) m record
        end
    end.

(** Lines 1404-1419. *)
Definition reconcileLateInit r m record policy (observation : ExternalObservation) (managedPreOp : Managed) : prog meff Out :=
  if ResourceLateInitialized observation && pShouldLateInitialize policy then
    '(m, err) ← trigger (EUpdate m);
    match err with
    | Some e =>
        _ ← warn record m "CannotUpdateManagedResource" e;
        m ← markConditions m [fun t => ReconcileError t (wrapError errUpdateManaged e)];
        returnWithStatus requeueResult m record
    | None => reconcileUpdate r m record policy observation managedPreOp
    end
  else reconcileUpdate r m record policy observation managedPreOp.

(** ** Creating *)

(** Lines 1344-1401: the external resource was created. *)
Definition createSucceeded m (creation : ExternalChange) (managedPreOp : Managed) : prog meff Out :=
  let record := GetExternalName (mgMeta m) in
  _ ← trigger (EChangeLog managedPreOp OPERATION_TYPE_CREATE None (chAdditionalDetails creation));
  now ← trigger ENow;
  let m := set_meta (SetExternalCreateSucceeded now (mgMeta m)) m in
  '(m, err) ← trigger (EUpdateCriticalAnnotations m);
  match err with
  | Some e =>
      if IsConflict (Some e) then requeue m record
      else
        _ ← warn record m "CannotUpdateManagedResource" (wrapError errUpdateManagedAnnotations e);
        m ← markConditions m [Creating; fun t => ReconcileError t (wrapError errUpdateManagedAnnotations e)];
        returnWithStatus requeueResult m record
  | None =>
      '(m, err) ← trigger (EPublishConnection m (chConnectionDetails creation));
      match err with
      | Some e =>
          if IsConflict (Some e) then requeue m record
          else
            _ ← warn record m "CannotPublishConnectionDetails" e;
            m ← markConditions m [Creating; fun t => ReconcileError t e];
            returnWithStatus requeueResult m record
      | None =>
          _ ← emit_event record m TypeNormal "CreatedExternalResource" "Successfully requested creation of external resource";
          m ← markConditions m [Creating; ReconcileSuccess];
          returnWithStatus requeueResult m record
      end
  end.

(** Lines 1304-1342: the call to create it failed. *)
Definition createFailed m record (creation : ExternalChange) (e : error) (managedPreOp : Managed) : prog meff Out :=
  _ ← (if IsConflict (Some e) then mret () else warn record m "CannotCreateExternalResource" e);
  now ← trigger ENow;
  let m := set_meta (SetExternalCreateFailed now (mgMeta m)) m in
  '(m, err) ← trigger (EUpdateCriticalAnnotations m);
  _ ← match err with
      | Some e' => warn record m "CannotUpdateManagedResource" (wrapError errUpdateManagedAnnotations e')
      | None => mret ()
      end;
  _ ← trigger (EChangeLog managedPreOp OPERATION_TYPE_CREATE (Some e) (chAdditionalDetails creation));
  m ← markConditions m [Creating; fun t => ReconcileError t (wrapError errReconcileCreate e)];
  returnWithStatus requeueResult m record.

(** Lines 1280-1402. *)
Definition reconcileCreate m record (managedPreOp : Managed) : prog meff Out :=
  now ← trigger ENow;
  let m := set_meta (SetExternalCreatePending now (mgMeta m)) m in
  '(m, err) ← trigger (EUpdate m);
  match err with
  | Some e =>
      if IsConflict (Some e) then requeue m record
      else
        _ ← warn record m "CannotUpdateManagedResource" (wrapError errUpdateManaged e);
        m ← markConditions m [Creating; fun t => ReconcileError t (wrapError errUpdateManaged e)];
        returnWithStatus requeueResult m record
  | None =>
      '(m, creation, err) ← trigger (ECreate m);
      match err with
      | Some e => createFailed m record creation e managedPreOp
      | None => createSucceeded m creation managedPreOp
      end
  end.

(** Lines 1249-1280: publish, add the finalizer, create if needed. *)
Definition reconcileExisting r m record policy (observation : ExternalObservation) (managedPreOp : Managed) : prog meff Out :=
  '(m, err) ← trigger (EPublishConnection m (obsConnectionDetails observation));
  match err with
  | Some e =>
      if IsConflict (Some e) then requeue m record
      else
        _ ← warn record m "CannotPublishConnectionDetails" e;
        m ← markConditions m [fun t => ReconcileError t e];
        returnWithStatus requeueResult m record
  | None =>
      '(m, err) ← trigger (EAddFinalizer m);
      match err with
      | Some e =>
          if IsConflict (Some e) then requeue m record
          else
            m ← markConditions m [fun t => ReconcileError t e];
            returnWithStatus requeueResult m record
      | None =>
          if negb (ResourceExists observation) && pShouldCreate policy then reconcileCreate m record managedPreOp
          else reconcileLateInit r m record policy observation managedPreOp
      end
  end.

(** ** Deleting *)

(** Lines 980-1020 and 1206-1246: unpublish and remove the finalizer. *)
Definition finalize m record (details : ConnectionDetails) : prog meff Out :=
  '(m, err) ← trigger (EUnpublishConnection m details);
  match err with
  | Some e =>
      if IsConflict (Some e) then requeue m record
      else
        _ ← warn record m "CannotUnpublishConnectionDetails" e;
        m ← markConditions m [Deleting; fun t => ReconcileError t e];
        returnWithStatus requeueResult m record
  | None =>
      '(m, err) ← trigger (ERemoveFinalizer m);
      match err with
      | Some e =>
          if IsConflict (Some e) then requeue m record
          else
            m ← markConditions m [Deleting; fun t => ReconcileError t e];
            returnWithStatus requeueResult m record
      | None =>
          _ ← trigger (EMetric Deleted m);
          mret (MkOut emptyResult None m record)
      end
  end.

(** Lines 1163-1247. *)
Definition reconcileDeleted m record policy (observation : ExternalObservation) (managedPreOp : Managed) : prog meff Out :=
  if ResourceExists observation && pShouldDelete policy then
    '(m, deletion, err) ← trigger (EDelete m);
    match err with
    | Some e =>
        _ ← trigger (EChangeLog managedPreOp OPERATION_TYPE_DELETE (Some e) (chAdditionalDetails deletion));
        _ ← warn record m "CannotDeleteExternalResource" e;
        m ← markConditions m [Deleting; fun t => ReconcileError t (wrapError errReconcileDelete e)];
        returnWithStatus requeueResult m record
    | None =>
        _ ← trigger (EChangeLog managedPreOp OPERATION_TYPE_DELETE None (chAdditionalDetails deletion));
        _ ← emit_event record m TypeNormal "DeletedExternalResource" "Successfully requested deletion of external resource";
        m ← markConditions m [Deleting; ReconcileSuccess];
        returnWithStatus requeueResult m record
    end
  else finalize m record (obsConnectionDetails observation).

(** ** Observing *)

(** Lines 1116-1163. *)
Definition reconcileConnected r m record policy : prog meff Out :=
  '(m, observation, err) ← trigger (EObserve m);
  match err with
  | Some e =>
      if IsConflict (Some e) then requeue m record
      else
        _ ← warn record m "CannotObserveExternalResource" e;
        m ← markConditions m [fun t => ReconcileError t (wrapError errReconcileObserve e)];
        returnWithStatus requeueResult m record
  | None =>
      if negb (ResourceExists observation) && pShouldOnlyObserve policy then
        _ ← warn record m "CannotObserveExternalResource" (errorString errExternalResourceNotExist);
        m ← markConditions m [fun t => ReconcileError t (wrapError errReconcileObserve (errorString errExternalResourceNotExist))];
        returnWithStatus requeueResult m record
      else
        (* [time.Since] reads the clock only when there is a time to compare with. *)
        within ← (if negb (ResourceExists observation) && negb (IsZero (GetExternalCreateSucceeded (mgMeta m)))
                  then now ← trigger ENow; mret (ExternalCreateSucceededDuring now (mgMeta m) (creationGracePeriod r))
                  else mret false);
        if negb (ResourceExists observation) && within then
          _ ← emit_event record m TypeNormal "PendingExternalResource" "Waiting for external resource existence to be confirmed";
          requeue m record
        else
          let managedPreOp := m in (* [managed.DeepCopyObject().(resource.Managed)]: a copy of a managed resource always is one *)
          if WasDeleted (mgMeta m) then reconcileDeleted m record policy observation managedPreOp
          else reconcileExisting r m record policy observation managedPreOp
  end.

(** Lines 1104-1114, the deferred function. *)
Definition disconnect (out : Out) : prog meff Out :=
  err ← trigger EDisconnectConnector;
  _ ← match err with
      | Some e => warn (outRecord out) (outManaged out) "CannotDisconnectFromProvider" e
      | None => mret ()
      end;
  err ← trigger EDisconnectClient;
  _ ← match err with
      | Some e => warn (outRecord out) (outManaged out) "CannotDisconnectFromProvider" e
      | None => mret ()
      end;
  mret out.

(** Lines 1085-1114. *)
Definition reconcileConnect r m record policy : prog meff Out :=
  '(m, err) ← trigger (EConnect m);
  match err with
  | Some e =>
      if IsConflict (Some e) then requeue m record
      else
        _ ← warn record m "CannotConnectToProvider" e;
        m ← markConditions m [fun t => ReconcileError t (wrapError errReconcileConnect e)];
        returnWithStatus requeueResult m record
  | None => out ← reconcileConnected r m record policy; disconnect out
  end.

(** Lines 1065-1083. *)
Definition reconcileResolve r m record policy : prog meff Out :=
  if negb (WasDeleted (mgMeta m)) then
    '(m, err) ← trigger (EResolveReferences m);
    match err with
    | Some e =>
        if IsConflict (Some e) then requeue m record
        else
          _ ← warn record m "CannotResolveResourceReferences" e;
          m ← markConditions m [fun t => ReconcileError t e];
          returnWithStatus requeueResult m record
    | None => reconcileConnect r m record policy
    end
  else reconcileConnect r m record policy.

(** Lines 1023-1054. *)
Definition reconcileInitialize r m record policy : prog meff Out :=
  '(m, err) ← trigger (EInitialize m);
  match err with
  | Some e =>
      if IsConflict (Some e) then requeue m record
      else
        _ ← warn record m "CannotInitializeManagedResource" e;
        m ← markConditions m [fun t => ReconcileError t e];
        returnWithStatus requeueResult m record
  | None =>
      if ExternalCreateIncomplete (mgMeta m) && negb (deterministicExternalName r) then
        _ ← warn record m "CannotInitializeManagedResource" (errorString errCreateIncomplete);
        m ← markConditions m [Creating; fun t => ReconcileError t (errorString errCreateIncomplete)];
        returnWithStatus emptyResult m record
      else reconcileResolve r m record policy
  end.

(** ** Policies *)

Definition pausedMessage : string :=
  "Reconciliation is paused either through the `spec.managementPolicies` or the pause annotation".

(** Lines 908-972. *)
Definition reconcileManaged r m : prog meff Out :=
  _ ← trigger (EMetric FirstTimeReconciled m);
  let record := GetExternalName (mgMeta m) in
  let policy := newPolicy r m in
  if IsPaused (mgMeta m) || pIsPaused policy then
    _ ← emit_event record m TypeNormal "ReconciliationPaused" pausedMessage;
    m ← markConditions m [ReconcilePaused];
    returnWithStatus emptyResult m record
  else
    match pValidate policy with
    | Some e =>
        if IsConflict (Some e) then requeue m record
        else
          _ ← warn record m "CannotUseInvalidManagementPolicy" e;
          m ← markConditions m [fun t => ReconcileError t e];
          returnWithStatus emptyResult m record
    | None =>
        if WasDeleted (mgMeta m) && negb (pShouldDelete policy) then finalize m record ∅
        else reconcileInitialize r m record policy
    end.

(** Lines 886-906: get the object; the deferred [SilentlyRequeueOnConflict]. *)
Definition Reconcile r (req : string * string) : prog meff (Result * option error) :=
  '(m, err) ← trigger (EGet req);
  match err with
  | Some e => mret (SilentlyRequeueOnConflict emptyResult (Wrap (IgnoreNotFound (Some e)) errGetManaged))
  | None =>
      out ← reconcileManaged r m;
      mret (SilentlyRequeueOnConflict (outResult out) (outErr out))
  end.

End reconciler.
