(* ===== verification/ManagedSafety.v ===== *)
(** * What the managed reconciler may do, and when

    [view] summarises what has happened so far in a reconcile.  [allowed] is
    the contract: which calls may be made given that summary.  [reconcile_wp]
    proves that every execution of [Reconcile], whatever the answers of the
    API server, the external system and the components, honours it. *)

From S2P Require Import Prelude GoErrors GoTime Json Conditions Meta Policies Prog Managed ManagedReconciler.

Record view := MkView {
  vGot : option Managed;                            (* the object, once it was read *)
  vInit : option Managed;                           (* the object as Initialize left it *)
  vResolved : bool;                                 (* references were resolved *)
  vConnected : bool;                                (* connected and not yet disconnected *)
  vHalf : bool;                                     (* the connector was asked to disconnect *)
  vObs : option (Managed * ExternalObservation);    (* what Observe reported *)
  vFinalizer : bool;                                (* AddFinalizer succeeded *)
  vCreating : option (Managed * option error);      (* Create was called and its outcome is not yet recorded *)
  vStatusErr : option error;                        (* the last status update failed *)
  vLast : option (event meff)                       (* the last event *)
}.

Definition view0 : view := MkView None None false false false None false None None None.

Definition nil_err (err : option error) : bool := match err with None => true | Some _ => false end.

Definition step (v : view) (ev : event meff) : view :=
  let '(MkView g i rs c hf o f cr st _) := v in
  let l := Some ev in
  match ev with
  | @Ev _ X e x =>
      match e in meff Y return Y -> view with
      | EGet _ => fun '(m, err) => MkView (if nil_err err then Some m else None) i rs c hf o f cr st l
      | EInitialize _ => fun '(m, err) => MkView g (if nil_err err then Some m else None) rs c hf o f cr st l
      | EResolveReferences _ => fun '(_, err) => MkView g i (nil_err err) c hf o f cr st l
      | EConnect _ => fun '(_, err) => MkView g i rs (if nil_err err then true else c) (if nil_err err then false else hf) o f cr st l
      | EDisconnectConnector => fun _ => MkView g i rs c true o f cr st l
      | EDisconnectClient => fun _ => MkView g i rs false hf o f cr st l
      | EObserve _ => fun '(m, obs, err) => MkView g i rs c hf (if nil_err err then Some (m, obs) else None) f cr st l
      | EAddFinalizer _ => fun '(_, err) => MkView g i rs c hf o (nil_err err) cr st l
      | ECreate _ => fun '(m, _, err) => MkView g i rs c hf o f (Some (m, err)) st l
      | EUpdateCriticalAnnotations _ => fun _ => MkView g i rs c hf o f None st l
      | EStatusUpdate _ => fun '(_, err) => MkView g i rs c hf o f cr err l
      | _ => fun _ => MkView g i rs c hf o f cr st l
      end x
  end.

Section safety.
Context {KE : KErrors} {LP : LenientParser} (r : Reconciler).

(** The object is not paused and its policies are valid. *)
Definition proceeds (v : view) (mg : Managed) : Prop :=
  vGot v = Some mg /\ IsPaused (mgMeta mg) = false /\ pIsPaused (newPolicy r mg) = false /\
  pValidate (newPolicy r mg) = None.

(** The object is not being deleted with its external resource left alone. *)
Definition not_orphaning (mg : Managed) : Prop :=
  WasDeleted (mgMeta mg) = true -> pShouldDelete (newPolicy r mg) = true.

(** A previous creation is not left in doubt. *)
Definition creation_known (mi : Managed) : Prop :=
  ExternalCreateIncomplete (mgMeta mi) = false \/ deterministicExternalName r = true.

(** The reconciler got as far as connecting. *)
Definition may_connect (v : view) (mg : Managed) : Prop :=
  proceeds v mg /\ not_orphaning mg /\
  exists mi, vInit v = Some mi /\ creation_known mi /\ (WasDeleted (mgMeta mi) = false -> vResolved v = true).

(** It is connected, and Observe reported [obs] on [mo]. *)
Definition observed (v : view) (mg mo : Managed) (obs : ExternalObservation) : Prop :=
  may_connect v mg /\ vConnected v = true /\ vObs v = Some (mo, obs).

(** The annotation that records the outcome of Create. *)
Definition create_recorded (m m' : Managed) (err : option error) (t : Time) : Prop :=
  m = set_meta (match err with
                | Some _ => SetExternalCreateFailed t (mgMeta m')
                | None => SetExternalCreateSucceeded t (mgMeta m')
                end) m'.

Definition create_pending (m m0 : Managed) (t : Time) : Prop :=
  m = set_meta (SetExternalCreatePending t (mgMeta m0)) m0.

(** Why the finalizer may be removed: the external resource is left alone on
    purpose, or is gone. *)
Definition finished (v : view) (mg : Managed) : Prop :=
  (WasDeleted (mgMeta mg) = true /\ pShouldDelete (newPolicy r mg) = false) \/
  exists mo obs, observed v mg mo obs /\ WasDeleted (mgMeta mo) = true /\
    (ResourceExists obs = false \/ pShouldDelete (newPolicy r mg) = false).

(** Whether an event is harmless: it neither writes the object (other than its
    status) nor reaches the external system or a component. *)
Definition harmless {X} (e : meff X) : bool :=
  match e with
  | EGet _ | EStatusUpdate _ | EEvent _ _ _ _ _ | EMetric _ _ | ENow => true
  | _ => false
  end.

Definition allowed (v : view) (ev : event meff) : Prop :=
  match ev with
  | @Ev _ X e x =>
      match e with
      | EGet _ => v = view0
      | EStatusUpdate _ | EEvent _ _ _ _ _ | EMetric _ _ | ENow => True
      | EInitialize _ => exists mg, proceeds v mg /\ not_orphaning mg /\ vInit v = None
      | EResolveReferences m =>
          exists mg, proceeds v mg /\ not_orphaning mg /\ vInit v = Some m /\ creation_known m /\
            WasDeleted (mgMeta m) = false
      | EConnect _ => exists mg, may_connect v mg /\ vConnected v = false
      | EObserve _ => exists mg, may_connect v mg /\ vConnected v = true /\ vObs v = None
      | EPublishConnection _ _ | EPollInterval _ _ =>
          exists mg mo obs, observed v mg mo obs /\ WasDeleted (mgMeta mo) = false
      | EAddFinalizer m =>
          exists mg mo obs, observed v mg mo obs /\ WasDeleted (mgMeta mo) = false /\
            vLast v = Some (Ev (EPublishConnection mo (obsConnectionDetails obs)) (m, None))
      | EUpdate m =>
          exists mg mo obs, observed v mg mo obs /\ WasDeleted (mgMeta mo) = false /\ vFinalizer v = true /\
            ((ResourceExists obs = false /\ pShouldCreate (newPolicy r mg) = true /\ exists m0 t, create_pending m m0 t) \/
             (ResourceLateInitialized obs = true /\ pShouldLateInitialize (newPolicy r mg) = true))
      | ECreate m =>
          exists mg mo obs m0 t, observed v mg mo obs /\ WasDeleted (mgMeta mo) = false /\ vFinalizer v = true /\
            ResourceExists obs = false /\ pShouldCreate (newPolicy r mg) = true /\ vCreating v = None /\
            exists m1, create_pending m1 m0 t /\ vLast v = Some (Ev (EUpdate m1) (m, None))
      | EUpdateCriticalAnnotations m =>
          (exists mg, proceeds v mg) /\ exists m' err t, vCreating v = Some (m', err) /\ create_recorded m m' err t
      | EExternalUpdate m =>
          exists mg mo obs, observed v mg mo obs /\ WasDeleted (mgMeta mo) = false /\ vFinalizer v = true /\
            ResourceUpToDate obs = false /\ pShouldUpdate (newPolicy r mg) = true /\
            (ResourceExists obs = true \/ pShouldCreate (newPolicy r mg) = false)
      | EDelete m =>
          exists mg obs, observed v mg m obs /\ WasDeleted (mgMeta m) = true /\
            ResourceExists obs = true /\ pShouldDelete (newPolicy r mg) = true
      | EUnpublishConnection _ _ => exists mg, proceeds v mg /\ finished v mg
      | ERemoveFinalizer m =>
          exists mg m0 c, proceeds v mg /\ finished v mg /\
            vLast v = Some (Ev (EUnpublishConnection m0 c) (m, None))
      | EDisconnectConnector => (exists mg, proceeds v mg) /\ vConnected v = true
      | EDisconnectClient => (exists mg, proceeds v mg) /\ vConnected v = true /\ vHalf v = true
      | EChangeLog _ _ _ _ => exists mg mo obs, observed v mg mo obs
      end
  end.

(** How the body of [Reconcile] ends: nothing is left unrecorded, and the only
    error it returns is that of the status update. *)
Definition ends (g : option Managed) (c : bool) (v : view) (ro : option Out) : Prop :=
  exists out, ro = Some out /\ vGot v = g /\ vCreating v = None /\ vConnected v = c /\
    (outErr out = None \/ exists e, vStatusErr v = Some e /\ outErr out = Some (wrapError errUpdateManagedStatus e)).

Implicit Types (v : view) (m : Managed) (record : string).

Abbreviation WP := (wp step allowed).

(** Unfold the next effect of the program. *)
Ltac next := cbn [vGot wp mbind prog_bind bind_prog trigger mret prog_ret warn emit_event requeue].

Definition with_last (l : option (event meff)) v : view :=
  MkView (vGot v) (vInit v) (vResolved v) (vConnected v) (vHalf v) (vObs v) (vFinalizer v) (vCreating v) (vStatusErr v) l.

Lemma wp_timed (cs : list (Z -> Condition)) v (Q : view -> option (list Condition) -> Prop) :
  (forall l conds, Q (with_last l v) (Some conds)) -> WP (timed cs) v Q.
Proof.
  revert v Q. induction cs as [|c cs IH]; intros v Q HQ; cbn [timed]; next.
  - specialize (HQ (vLast v) []). by destruct v.
  - intros t. split; [done|]. apply wp_bind, IH. intros l conds. next. specialize (HQ l (c (instant t) :: conds)).
    by destruct v.
Qed.

(** [markConditions] only reads the clock and sets conditions. *)
Lemma wp_mark v m (cs : list (Z -> Condition)) (Q : view -> option Managed -> Prop) :
  (forall l c, Q (with_last l v) (Some (set_conditions c m))) -> WP (markConditions m cs) v Q.
Proof. intros HQ. unfold markConditions. next. apply wp_bind, wp_timed. intros l conds. next. apply HQ. Qed.

Lemma wp_return v m record (result : Result) (g : option Managed) (c : bool) :
  vGot v = g -> vCreating v = None -> vConnected v = c -> WP (returnWithStatus result m record) v (ends g c).
Proof.
  intros Hg Hcr Hc. unfold returnWithStatus. next. intros [m' err]. split; [done|]. next.
  destruct v. cbn in *. eexists. split_and!; [done..|]. destruct err as [e|]; [right|by left].
  by exists e.
Qed.

(** [markConditions], then update the status and return. *)
Lemma wp_report v m record (cs : list (Z -> Condition)) (result : Result) (g : option Managed) (c : bool) :
  vGot v = g -> vCreating v = None -> vConnected v = c ->
  WP (bind_prog (fun m => returnWithStatus result m record) (markConditions m cs)) v (ends g c).
Proof. intros Hg Hcr Hc. apply wp_bind, wp_mark. intros l cs'. by apply wp_return. Qed.

(** Perform the next effect, which [tac] shows to be allowed. *)
Tactic Notation "effect" simple_intropattern(x) "by" tactic3(tac) :=
  next; intros x; (split; [cbn [allowed]; tac|cbn [step nil_err]; next]).

(** Perform an effect that is always allowed. *)
Tactic Notation "effect" := effect ? by done.

(** Return, or report an error and return. *)
Ltac finish :=
  first [ apply wp_report; done
        | apply wp_return; done
        | next; eexists; split_and!; [done..|by left] ].

Section connected.
Context (mg mo : Managed) (obs : ExternalObservation).

Lemma wp_reconcileUpdate v m record pre :
  observed v mg mo obs -> vCreating v = None -> WasDeleted (mgMeta mo) = false -> vFinalizer v = true ->
  ResourceExists obs = true \/ pShouldCreate (newPolicy r mg) = false ->
  WP (reconcileUpdate r m record (newPolicy r mg) obs pre) v (ends (vGot v) true).
Proof.
  intros Hobs Hcr Hdel Hf Hex. pose proof (proj1 (proj2 Hobs)) as Hc. destruct v as [g i rs c hf o f cr st l].
  cbn in Hcr, Hf, Hc. subst. unfold reconcileUpdate. destruct (ResourceUpToDate obs) eqn:Hup.
  - effect after by (by exists mg, mo, obs). apply wp_bind, wp_mark. intros l1 c1. effect. effect. finish.
  - destruct (pShouldUpdate (newPolicy r mg)) eqn:Hsu; cbn [negb].
    + effect [[m1 upd] [e|]] by (by exists mg, mo, obs).
      * effect ? by (by exists mg, mo, obs). effect. finish.
      * effect. effect ? by (by exists mg, mo, obs).
        effect [m2 [e|]] by (by exists mg, mo, obs).
        -- effect. finish.
        -- effect after by (by exists mg, mo, obs). effect. finish.
    + effect after by (by exists mg, mo, obs). finish.
Qed.

Lemma wp_reconcileLateInit v m record pre :
  observed v mg mo obs -> vCreating v = None -> WasDeleted (mgMeta mo) = false -> vFinalizer v = true ->
  ResourceExists obs = true \/ pShouldCreate (newPolicy r mg) = false ->
  WP (reconcileLateInit r m record (newPolicy r mg) obs pre) v (ends (vGot v) true).
Proof.
  intros Hobs Hcr Hdel Hf Hex. unfold reconcileLateInit.
  destruct (ResourceLateInitialized obs && pShouldLateInitialize (newPolicy r mg)) eqn:Hl; [|by apply wp_reconcileUpdate].
  apply andb_true_iff in Hl. pose proof (proj1 (proj2 Hobs)) as Hc. destruct v as [g i rs c hf o f cr st l].
  cbn in Hcr, Hf, Hc. subst. effect [m1 [e|]] by (exists mg, mo, obs; auto).
  - effect. finish.
  - by apply wp_reconcileUpdate.
Qed.

Lemma wp_createSucceeded v m creation pre :
  observed v mg mo obs -> vCreating v = Some (m, None) -> WasDeleted (mgMeta mo) = false ->
  WP (createSucceeded m creation pre) v (ends (vGot v) true).
Proof.
  intros Hobs Hcr Hdel. pose proof (proj1 (proj2 Hobs)) as Hc. destruct v as [g i rs c hf o f cr st l].
  cbn in Hcr, Hc. subst. unfold createSucceeded.
  effect ? by (by exists mg, mo, obs). effect now by done.
  effect [m1 [e|]] by (split; [exists mg; apply Hobs|by exists m, None, now]).
  - destruct (IsConflict (Some e)); [finish|]. effect. finish.
  - effect [m2 [e|]] by (by exists mg, mo, obs).
    + destruct (IsConflict (Some e)); [finish|]. effect. finish.
    + effect. finish.
Qed.

Lemma wp_createFailed v m record creation e pre :
  observed v mg mo obs -> vCreating v = Some (m, Some e) -> WasDeleted (mgMeta mo) = false ->
  WP (createFailed m record creation e pre) v (ends (vGot v) true).
Proof.
  intros Hobs Hcr Hdel. pose proof (proj1 (proj2 Hobs)) as Hc. destruct v as [g i rs c hf o f cr st l].
  cbn in Hcr, Hc. subst. unfold createFailed.
  next. destruct (IsConflict (Some e)); next; [|effect].
  all: effect now by done; effect [m1 [e1|]] by (split; [exists mg; apply Hobs|by exists m, (Some e), now]); [effect|next].
  all: effect ? by (by exists mg, mo, obs); finish.
Qed.

Lemma wp_reconcileCreate v m record pre :
  observed v mg mo obs -> vCreating v = None -> WasDeleted (mgMeta mo) = false -> vFinalizer v = true ->
  ResourceExists obs = false -> pShouldCreate (newPolicy r mg) = true ->
  WP (reconcileCreate m record pre) v (ends (vGot v) true).
Proof.
  intros Hobs Hcr Hdel Hf Hex Hsc. pose proof (proj1 (proj2 Hobs)) as Hc. destruct v as [g i rs c hf o f cr st l].
  cbn in Hcr, Hf, Hc. subst. unfold reconcileCreate. effect now by done.
  effect [m1 [e|]] by (exists mg, mo, obs; split_and!; [done..|left; split_and!; [done..|by exists m, now]]).
  - destruct (IsConflict (Some e)); [finish|]. effect. finish.
  - effect [[m2 creation] [e|]] by
      (exists mg, mo, obs, m, now; split_and!; [done..|eexists; split; [|done]; done]).
    + by apply wp_createFailed.
    + by apply wp_createSucceeded.
Qed.

Lemma wp_reconcileExisting v record pre :
  observed v mg mo obs -> vCreating v = None -> WasDeleted (mgMeta mo) = false ->
  WP (reconcileExisting r mo record (newPolicy r mg) obs pre) v (ends (vGot v) true).
Proof.
  intros Hobs Hcr Hdel. pose proof (proj1 (proj2 Hobs)) as Hc. destruct v as [g i rs c hf o f cr st l].
  cbn in Hcr, Hc. subst. unfold reconcileExisting.
  effect [m1 [e|]] by (by exists mg, mo, obs); [destruct (IsConflict (Some e)); [finish|]; effect; finish|].
  effect [m2 [e|]] by (by exists mg, mo, obs); [destruct (IsConflict (Some e)); finish|].
  destruct (negb (ResourceExists obs) && pShouldCreate (newPolicy r mg)) eqn:E.
  - apply andb_true_iff in E as [E%negb_true_iff E']. by apply wp_reconcileCreate.
  - apply wp_reconcileLateInit; [done..|]. apply andb_false_iff in E as [E%negb_false_iff|E]; auto.
Qed.

Lemma wp_finalize v m record details (c : bool) :
  proceeds v mg -> finished v mg -> vCreating v = None -> vConnected v = c ->
  WP (finalize m record details) v (ends (vGot v) c).
Proof.
  intros Hp Hfin Hcr Hc. destruct v as [g i rs c' hf o f cr st l]. cbn in Hcr, Hc. subst. unfold finalize.
  effect [m1 [e|]] by (by exists mg); [destruct (IsConflict (Some e)); [finish|]; effect; finish|].
  effect [m2 [e|]] by (by exists mg, m, details); [destruct (IsConflict (Some e)); finish|].
  effect. finish.
Qed.

Lemma wp_reconcileDeleted v record pre :
  observed v mg mo obs -> vCreating v = None -> WasDeleted (mgMeta mo) = true ->
  WP (reconcileDeleted mo record (newPolicy r mg) obs pre) v (ends (vGot v) true).
Proof.
  intros Hobs Hcr Hdel. pose proof (proj1 (proj2 Hobs)) as Hc. unfold reconcileDeleted.
  destruct (ResourceExists obs && pShouldDelete (newPolicy r mg)) eqn:E.
  - apply andb_true_iff in E as [E1 E2]. destruct v as [g i rs c hf o f cr st l]. cbn in Hcr, Hc. subst.
    effect [[m1 del] [e|]] by (by exists mg, obs); effect ? by (by exists mg, mo, obs).
    + effect. finish.
    + effect. finish.
  - apply wp_finalize; [apply Hobs| |done..]. right. exists mo, obs. split_and!; [done..|].
    apply andb_false_iff in E as [E|E]; auto.
Qed.

End connected.

Lemma wp_reconcileConnected v m record mg :
  may_connect v mg -> vConnected v = true -> vObs v = None -> vCreating v = None ->
  WP (reconcileConnected r m record (newPolicy r mg)) v (ends (vGot v) true).
Proof.
  intros Hm Hc Hob Hcr. destruct v as [g i rs c hf o f cr st l]. cbn in Hcr, Hc, Hob. subst. unfold reconcileConnected.
  effect [[m1 obs] [e|]] by (by exists mg); [destruct (IsConflict (Some e)); [finish|]; effect; finish|].
  assert (forall l, observed (MkView g i rs true hf (Some (m1, obs)) f None st l) mg m1 obs) as Hobs by done.
  destruct (negb (ResourceExists obs) && pShouldOnlyObserve (newPolicy r mg)); [effect; finish|].
  assert (forall within l, WP
    (if negb (ResourceExists obs) && within then
       bind_prog (fun _ => requeue m1 record)
         (emit_event record m1 TypeNormal "PendingExternalResource" "Waiting for external resource existence to be confirmed")
     else if WasDeleted (mgMeta m1) then reconcileDeleted m1 record (newPolicy r mg) obs m1
     else reconcileExisting r m1 record (newPolicy r mg) obs m1)
    (MkView g i rs true hf (Some (m1, obs)) f None st l) (ends g true)) as Hrest.
  { intros within l'. destruct (negb (ResourceExists obs) && within); [effect; finish|].
    destruct (WasDeleted (mgMeta m1)) eqn:Hd; [by apply wp_reconcileDeleted|by eapply wp_reconcileExisting]. }
  destruct (negb (ResourceExists obs) && negb (IsZero (GetExternalCreateSucceeded (mgMeta m1)))).
  - effect. apply Hrest.
  - apply Hrest.
Qed.

Lemma wp_disconnect v (out : Out) :
  ends (vGot v) true v (Some out) -> (exists mg, proceeds v mg) -> WP (disconnect out) v (ends (vGot v) false).
Proof.
  intros (out' & [= <-] & _ & Hcr & Hc & He) Hp. destruct v as [g i rs c hf o f cr st l]. cbn in Hcr, Hc, He. subst.
  unfold disconnect. effect [e|] by done; [effect|next]; effect [e'|] by done; try effect; by exists out.
Qed.

Lemma wp_reconcileConnect v m record mg :
  may_connect v mg -> vConnected v = false -> vObs v = None -> vCreating v = None ->
  WP (reconcileConnect r m record (newPolicy r mg)) v (ends (vGot v) false).
Proof.
  intros Hm Hc Hob Hcr. destruct v as [g i rs c hf o f cr st l]. cbn in Hcr, Hc, Hob. subst. unfold reconcileConnect.
  effect [m1 [e|]] by (by exists mg); [destruct (IsConflict (Some e)); [finish|]; effect; finish|].
  apply wp_bind. eapply wp_mono; [by apply wp_reconcileConnected|].
  intros v' ro (out & -> & Hg & Hends). cbn [vGot] in Hg. rewrite <- Hg. apply wp_disconnect; [by exists out|].
  exists mg. split; [rewrite Hg|]; apply Hm.
Qed.

Lemma wp_reconcileResolve v m record mg :
  proceeds v mg -> not_orphaning mg -> vInit v = Some m -> creation_known m ->
  vConnected v = false -> vObs v = None -> vCreating v = None ->
  WP (reconcileResolve r m record (newPolicy r mg)) v (ends (vGot v) false).
Proof.
  intros Hp Ho Hi Hk Hc Hob Hcr. unfold reconcileResolve. destruct (WasDeleted (mgMeta m)) eqn:Hd; cbn [negb].
  - apply wp_reconcileConnect; [|done..]. split_and!; [done..|]. exists m. split_and!; [done..|congruence].
  - destruct v as [g i rs c hf o f cr st l]. cbn in Hcr, Hc, Hob, Hi. subst.
    effect [m1 [e|]] by (by exists mg); [destruct (IsConflict (Some e)); [finish|]; effect; finish|].
    apply wp_reconcileConnect; [|done..]. split_and!; [done..|]. by exists m.
Qed.

Lemma wp_reconcileInitialize v m record mg :
  proceeds v mg -> not_orphaning mg -> vInit v = None -> vConnected v = false -> vObs v = None -> vCreating v = None ->
  WP (reconcileInitialize r m record (newPolicy r mg)) v (ends (vGot v) false).
Proof.
  intros Hp Ho Hi Hc Hob Hcr. destruct v as [g i rs c hf o f cr st l]. cbn in Hcr, Hc, Hob, Hi. subst. unfold reconcileInitialize.
  effect [m1 [e|]] by (by exists mg); [destruct (IsConflict (Some e)); [finish|]; effect; finish|].
  destruct (ExternalCreateIncomplete (mgMeta m1) && negb (deterministicExternalName r)) eqn:E; [effect; finish|].
  apply wp_reconcileResolve; [done..| |done|done|done].
  apply andb_false_iff in E as [E|E%negb_false_iff]; [by left|by right].
Qed.

Lemma wp_reconcileManaged v m :
  vGot v = Some m -> vInit v = None -> vConnected v = false -> vObs v = None -> vCreating v = None ->
  WP (reconcileManaged r m) v (ends (vGot v) false).
Proof.
  intros Hg Hi Hc Hob Hcr. destruct v as [g i rs c hf o f cr st l]. cbn in Hcr, Hc, Hob, Hg, Hi. subst. unfold reconcileManaged. effect.
  destruct (IsPaused (mgMeta m) || pIsPaused (newPolicy r m)) eqn:Hpause; [effect; finish|].
  apply orb_false_iff in Hpause as [Hp1 Hp2]. destruct (pValidate (newPolicy r m)) as [e|] eqn:Hval.
  { destruct (IsConflict (Some e)); [finish|]. effect. finish. }
  destruct (WasDeleted (mgMeta m) && negb (pShouldDelete (newPolicy r m))) eqn:E.
  - apply andb_true_iff in E as [E1 E2%negb_true_iff]. apply (wp_finalize m); [done| |done..]. by left.
  - apply wp_reconcileInitialize; [done| |done..]. intros Hd. rewrite Hd in E. by apply negb_false_iff in E.
Qed.

(** What [Reconcile] returns, given the summary at the end. *)
Definition reconcile_ends (v : view) (ro : option (Result * option error)) : Prop :=
  vCreating v = None /\ vConnected v = false /\
  exists result err, ro = Some (result, err) /\ IsConflict err = false /\
    forall e, err = Some e ->
      (vGot v = None /\ exists e', e = wrapError errGetManaged e') \/
      (exists e', vStatusErr v = Some e' /\ e = wrapError errUpdateManagedStatus e').

Lemma SilentlyRequeueOnConflict_no_conflict (result : Result) (err : option error) :
  IsConflict (SilentlyRequeueOnConflict result err).2 = false.
Proof. rewrite SilentlyRequeueOnConflict_spec. destruct (IsConflict err) eqn:E; [apply reason_nil|done]. Qed.

Lemma SilentlyRequeueOnConflict_err (result : Result) (err : option error) (e : error) :
  (SilentlyRequeueOnConflict result err).2 = Some e -> err = Some e.
Proof. rewrite SilentlyRequeueOnConflict_spec. by destruct (IsConflict err). Qed.

(** Every execution of [Reconcile] honours the contract. *)
Lemma reconcile_wp (req : string * string) : WP (Reconcile r req) view0 reconcile_ends.
Proof.
  unfold Reconcile. effect [m [e|]] by done.
  - split_and!; [done..|]. pose proof (SilentlyRequeueOnConflict_no_conflict emptyResult (Wrap (IgnoreNotFound (Some e)) errGetManaged)) as Hn.
    pose proof (SilentlyRequeueOnConflict_err emptyResult (Wrap (IgnoreNotFound (Some e)) errGetManaged)) as He.
    destruct (SilentlyRequeueOnConflict _ _) as [res err]. exists res, err. split_and!; [done..|].
    intros e' ->. specialize (He e' eq_refl). left. split; [done|].
    destruct (IgnoreNotFound (Some e)) as [e1|]; [|done]. injection He as <-. by exists e1.
  - apply wp_bind. eapply wp_mono; [by apply wp_reconcileManaged|].
    intros v ro (out & -> & _ & Hcr & Hc & He). next. split_and!; [done..|].
    pose proof (SilentlyRequeueOnConflict_no_conflict (outResult out) (outErr out)) as Hn.
    pose proof (SilentlyRequeueOnConflict_err (outResult out) (outErr out)) as Hs.
    destruct (SilentlyRequeueOnConflict _ _) as [res err]. exists res, err. split_and!; [done..|].
    intros e ->. right. specialize (Hs e eq_refl). destruct He as [He|(e' & H1 & H2)]; [congruence|].
    exists e'. split; [done|congruence].
Qed.

(** ** Properties *)

Definition view_of (tr : list (event meff)) : view := foldl step view0 tr.

Lemma step_last v (ev : event meff) : vLast (step v ev) = Some ev.
Proof. destruct v, ev as [X e x]. destruct e; try done; by destruct x as [[] ?] || destruct x as [? []]. Qed.

Lemma view_of_snoc (tr : list (event meff)) (ev : event meff) : view_of (tr ++ [ev]) = step (view_of tr) ev.
Proof. unfold view_of. by rewrite foldl_app. Qed.

Lemma view_of_last (tr : list (event meff)) : vLast (view_of tr) = last tr.
Proof.
  destruct tr as [|ev tr] using rev_ind; [done|]. by rewrite view_of_snoc, step_last, last_snoc.
Qed.

(** Each event of a trace is allowed after the events before it. *)
Lemma reconcile_allowed (req : string * string) (tr : list (event meff)) res (i : nat) (ev : event meff) :
  exec (Reconcile r req) tr res -> tr !! i = Some ev -> allowed (view_of (take i tr)) ev.
Proof.
  intros He Hi. destruct (wp_sound _ _ _ _ _ _ _ (reconcile_wp req) He) as [Hs _].
  apply (Hs (take i tr) ev (drop (S i) tr)). symmetry. by apply take_drop_middle.
Qed.

Lemma reconcile_final (req : string * string) (tr : list (event meff)) res :
  exec (Reconcile r req) tr res -> reconcile_ends (view_of tr) res.
Proof. intros He. exact (proj2 (wp_sound _ _ _ _ _ _ _ (reconcile_wp req) He)). Qed.

(** C2: an external resource is only created when the object is not paused, its
    policies are valid and allow creation, no earlier creation is in doubt
    (or the name is deterministic), Observe reported that it does not exist and
    the object is not being deleted, the finalizer was added, and the very
    last call was an update, accepted by the API server, that marked creation
    as pending on the object that is passed to Create. *)
Theorem reconcile_create_guarded (req : string * string) (tr : list (event meff)) res (i : nat) (m : Managed) x :
  exec (Reconcile r req) tr res -> tr !! i = Some (Ev (ECreate m) x) ->
  exists mg mi mo obs m0 t,
    let v := view_of (take i tr) in
    vGot v = Some mg /\ IsPaused (mgMeta mg) = false /\ pValidate (newPolicy r mg) = None /\
    pShouldCreate (newPolicy r mg) = true /\
    vInit v = Some mi /\ (ExternalCreateIncomplete (mgMeta mi) = false \/ deterministicExternalName r = true) /\
    vConnected v = true /\ vObs v = Some (mo, obs) /\ ResourceExists obs = false /\ WasDeleted (mgMeta mo) = false /\
    vFinalizer v = true /\
    last (take i tr) = Some (Ev (EUpdate (set_meta (SetExternalCreatePending t (mgMeta m0)) m0)) (m, None)).
Proof.
  intros He Hi. pose proof (reconcile_allowed _ _ _ _ _ He Hi) as Ha. cbn [allowed] in Ha.
  destruct Ha as (mg & mo & obs & m0 & t & (((Hg & Hp & _ & Hv) & _ & mi & Hi1 & Hk & _) & Hc & Ho) & Hd & Hf & Hex & Hs & _ & m1 & -> & Hl).
  rewrite view_of_last in Hl. by exists mg, mi, mo, obs, m0, t.
Qed.

(** Only recording its outcome ends the creating state. *)
Lemma creating_ends (v : view) (tr : list (event meff)) m err :
  vCreating v = Some (m, err) -> vCreating (foldl step v tr) = None ->
  (forall i ev, tr !! i = Some ev -> allowed (foldl step v (take i tr)) ev) ->
  exists m1 t x, Ev (EUpdateCriticalAnnotations m1) x ∈ tr /\ create_recorded m1 m err t.
Proof.
  revert v. induction tr as [|ev tr IH]; intros v Hcr Hend Hall; [simpl in Hend; congruence|].
  pose proof (Hall 0 ev eq_refl) as H0. simpl in H0.
  assert (forall v', v' = step v ev -> vCreating v' = Some (m, err) ->
    exists m1 t x, Ev (EUpdateCriticalAnnotations m1) x ∈ ev :: tr /\ create_recorded m1 m err t) as Hrec.
  { intros v' -> Hv. destruct (IH (step v ev) Hv Hend) as (m1 & t & x & Hin & Hc).
    - intros i ev' Hi. exact (Hall (S i) ev' Hi).
    - exists m1, t, x. split; [by right|done]. }
  destruct v as [g i rs c hf o f cr st l], ev as [X e x]. cbn in Hcr. subst.
  destruct e; try (by eapply Hrec); try (destruct x as [? ?]; by eapply Hrec);
    try (destruct x as [[? ?] ?]; by eapply Hrec).
  - destruct H0 as (_ & m1 & err1 & t & [= <- <-] & Hc). exists m0, t, x. split; [by left|done].
  - by destruct H0 as (? & ? & ? & ? & ? & _ & _ & _ & _ & _ & ? & _).
Qed.

(** The outcome of a Create is passed to the updater of critical annotations. *)
Lemma create_outcome_recorded (req : string * string) (tr : list (event meff)) res (i : nat) (m m' : Managed) c err :
  exec (Reconcile r req) tr res -> tr !! i = Some (Ev (ECreate m) (m', c, err)) ->
  exists t x, Ev (EUpdateCriticalAnnotations
    (set_meta (match err with
               | Some _ => SetExternalCreateFailed t (mgMeta m')
               | None => SetExternalCreateSucceeded t (mgMeta m')
               end) m')) x ∈ drop (S i) tr.
Proof.
  intros He Hi. pose proof (reconcile_final _ _ _ He) as (Hend & _).
  pose proof (take_drop_middle tr i _ Hi) as Htr.
  assert (vCreating (view_of (take i tr ++ [Ev (ECreate m) (m', c, err)])) = Some (m', err)) as Hcr.
  { rewrite view_of_snoc. by destruct (view_of (take i tr)). }
  destruct (creating_ends _ (drop (S i) tr) m' err Hcr) as (m1 & t & x & Hin & ->).
  - unfold view_of in *. rewrite <- foldl_app, <- app_assoc. simpl. by rewrite Htr.
  - intros j ev Hj. rewrite lookup_drop in Hj. pose proof (reconcile_allowed _ _ _ _ _ He Hj) as Ha.
    assert (take (S i + j) tr = (take i tr ++ [Ev (ECreate m) (m', c, err)]) ++ take j (drop (S i) tr)) as Heq.
    { rewrite <- take_S_r with (1:=Hi). by rewrite take_take_drop. }
    rewrite Heq in Ha. unfold view_of in *. by rewrite foldl_app in Ha.
  - by exists t, x.
Qed.

(** C3: whatever Create answers, its outcome is written back before Reconcile
    returns: the critical annotations of the object as Create left it are
    updated with the time of the success or of the failure. *)
Theorem reconcile_create_recorded (req : string * string) (tr : list (event meff)) res (i : nat) (m m' : Managed) c err :
  exec (Reconcile r req) tr res -> tr !! i = Some (Ev (ECreate m) (m', c, err)) ->
  exists t x, Ev (EUpdateCriticalAnnotations
    (set_meta (match err with
               | Some _ => SetExternalCreateFailed t (mgMeta m')
               | None => SetExternalCreateSucceeded t (mgMeta m')
               end) m')) x ∈ drop (S i) tr.
Proof. apply create_outcome_recorded. Qed.

(** C9: the external resource is only updated when the policies are valid and
    allow it, Observe reported that it is out of date, the object is not being
    deleted and has its finalizer; if Observe reported that it does not exist,
    then only because the policies forbid creating it. *)
Theorem reconcile_update_guarded (req : string * string) (tr : list (event meff)) res (i : nat) (m : Managed) x :
  exec (Reconcile r req) tr res -> tr !! i = Some (Ev (EExternalUpdate m) x) ->
  exists mg mo obs,
    let v := view_of (take i tr) in
    vGot v = Some mg /\ IsPaused (mgMeta mg) = false /\ pValidate (newPolicy r mg) = None /\
    pShouldUpdate (newPolicy r mg) = true /\
    vConnected v = true /\ vObs v = Some (mo, obs) /\ ResourceUpToDate obs = false /\ WasDeleted (mgMeta mo) = false /\
    vFinalizer v = true /\ (ResourceExists obs = true \/ pShouldCreate (newPolicy r mg) = false).
Proof.
  intros He Hi. pose proof (reconcile_allowed _ _ _ _ _ He Hi) as Ha. cbn [allowed] in Ha.
  destruct Ha as (mg & mo & obs & (((Hg & Hp & _ & Hv) & _) & Hc & Ho) & Hd & Hf & Hup & Hs & Hex).
  by exists mg, mo, obs.
Qed.

(** C8: the external resource is only deleted when the object being reconciled
    is itself being deleted, the policies are valid and allow it, and Observe
    reported that the resource exists. *)
Theorem reconcile_delete_guarded (req : string * string) (tr : list (event meff)) res (i : nat) (m : Managed) x :
  exec (Reconcile r req) tr res -> tr !! i = Some (Ev (EDelete m) x) ->
  exists mg obs,
    let v := view_of (take i tr) in
    vGot v = Some mg /\ IsPaused (mgMeta mg) = false /\ pValidate (newPolicy r mg) = None /\
    pShouldDelete (newPolicy r mg) = true /\
    vConnected v = true /\ vObs v = Some (m, obs) /\ ResourceExists obs = true /\ WasDeleted (mgMeta m) = true.
Proof.
  intros He Hi. pose proof (reconcile_allowed _ _ _ _ _ He Hi) as Ha. cbn [allowed] in Ha.
  destruct Ha as (mg & obs & (((Hg & Hp & _ & Hv) & _) & Hc & Ho) & Hd & Hex & Hs). by exists mg, obs.
Qed.

(** C7: the finalizer is only removed right after connection details were
    unpublished, and only when the object is being deleted and its external
    resource either must not be deleted or was just observed not to exist: no
    external resource that should be deleted is forgotten. *)
Theorem reconcile_finalizer_guarded (req : string * string) (tr : list (event meff)) res (i : nat) (m : Managed) x :
  exec (Reconcile r req) tr res -> tr !! i = Some (Ev (ERemoveFinalizer m) x) ->
  exists mg m0 c,
    let v := view_of (take i tr) in
    vGot v = Some mg /\ pValidate (newPolicy r mg) = None /\
    last (take i tr) = Some (Ev (EUnpublishConnection m0 c) (m, None)) /\
    ((WasDeleted (mgMeta mg) = true /\ pShouldDelete (newPolicy r mg) = false) \/
     exists mo obs, vObs v = Some (mo, obs) /\ WasDeleted (mgMeta mo) = true /\
       (ResourceExists obs = false \/ pShouldDelete (newPolicy r mg) = false)).
Proof.
  intros He Hi. pose proof (reconcile_allowed _ _ _ _ _ He Hi) as Ha. cbn [allowed] in Ha.
  destruct Ha as (mg & m0 & c & (Hg & _ & _ & Hv) & Hfin & Hl). rewrite view_of_last in Hl.
  exists mg, m0, c. split_and!; [done..|]. destruct Hfin as [Hfin|(mo & obs & (_ & _ & Ho) & Hd & Hex)]; [by left|].
  right. by exists mo, obs.
Qed.

(** What was read at the start stays: there is one Get. *)
Lemma view_step_stable v (ev : event meff) :
  allowed v ev ->
  (forall mg, vGot v = Some mg -> vGot (step v ev) = Some mg) /\
  (forall mi, vInit v = Some mi -> vInit (step v ev) = Some mi) /\
  (forall ob, vObs v = Some ob -> vObs (step v ev) = Some ob).
Proof.
  destruct v as [g i rs c hf o f cr st l], ev as [X e x]. intros Ha.
  destruct e; cbn in Ha |- *; try (split_and!; done); try (destruct x; split_and!; done); try (destruct x as [[]]; split_and!; done).
  - unfold view0 in Ha. destruct x. split_and!; intros; simplify_eq.
  - destruct Ha as (mg & _ & _ & ->). destruct x. by split_and!.
  - destruct Ha as (mg & _ & _ & ->). destruct x as [[]]. by split_and!.
Qed.

Lemma view_prefix_stable (req : string * string) (tr : list (event meff)) res (i j : nat) :
  exec (Reconcile r req) tr res -> i <= j ->
  (forall mg, vGot (view_of (take i tr)) = Some mg -> vGot (view_of (take j tr)) = Some mg) /\
  (forall mi, vInit (view_of (take i tr)) = Some mi -> vInit (view_of (take j tr)) = Some mi) /\
  (forall ob, vObs (view_of (take i tr)) = Some ob -> vObs (view_of (take j tr)) = Some ob).
Proof.
  intros He Hij. replace j with (i + (j - i)) by lia. generalize (j - i) as k. clear j Hij.
  induction k as [|k (IH1 & IH2 & IH3)]; [by rewrite Nat.add_0_r|].
  destruct (tr !! (i + k)) as [ev|] eqn:Hev.
  - replace (i + S k) with (S (i + k)) by lia. rewrite (take_S_r _ _ _ Hev), view_of_snoc.
    destruct (view_step_stable _ _ (reconcile_allowed _ _ _ _ _ He Hev)) as (H1 & H2 & H3). split_and!; auto.
  - apply lookup_ge_None in Hev. rewrite (take_ge tr (i + S k)) by lia. by rewrite (take_ge tr (i + k)) in IH1, IH2, IH3 by lia.
Qed.

Lemma view_final_stable (req : string * string) (tr : list (event meff)) res (i : nat) :
  exec (Reconcile r req) tr res ->
  (forall mg, vGot (view_of (take i tr)) = Some mg -> vGot (view_of tr) = Some mg) /\
  (forall mi, vInit (view_of (take i tr)) = Some mi -> vInit (view_of tr) = Some mi) /\
  (forall ob, vObs (view_of (take i tr)) = Some ob -> vObs (view_of tr) = Some ob).
Proof.
  intros He. pose proof (view_prefix_stable req tr res i (i + length tr) He ltac:(lia)) as H.
  by rewrite (take_ge tr (i + length tr)) in H by lia.
Qed.

(** Events that reach the external system. *)
Definition external {X} (e : meff X) : bool :=
  match e with
  | EConnect _ | EObserve _ | ECreate _ | EExternalUpdate _ | EDelete _ => true
  | _ => false
  end.

Lemma external_may_connect v X (e : meff X) x :
  external e = true -> allowed v (Ev e x) -> exists mg, may_connect v mg.
Proof. destruct e; try done; intros _ Ha; cbn [allowed] in Ha; unfold observed in Ha; naive_solver. Qed.

(** C11: when the object is paused, by its annotation or by an empty policy, a
    reconcile only reads it, updates its status, and records an event and a
    metric: no component is called and the external system is not contacted. *)
Theorem reconcile_paused (req : string * string) (tr : list (event meff)) res (mg : Managed) :
  exec (Reconcile r req) tr res -> vGot (view_of tr) = Some mg ->
  IsPaused (mgMeta mg) = true \/ pIsPaused (newPolicy r mg) = true ->
  forall X (e : meff X) x, Ev e x ∈ tr -> harmless e = true.
Proof.
  intros He Hg Hp X e x Hin. apply list_elem_of_lookup in Hin as [i Hi].
  pose proof (reconcile_allowed _ _ _ _ _ He Hi) as Ha.
  destruct (harmless e) eqn:Hh; [done|]. exfalso.
  assert (exists mg', proceeds (view_of (take i tr)) mg') as (mg' & Hg' & H1 & H2 & _).
  { destruct e; try done; cbn [allowed] in Ha; unfold observed, may_connect in Ha; naive_solver. }
  apply (proj1 (view_final_stable _ _ _ i He)) in Hg'. rewrite Hg in Hg'. simplify_eq. destruct Hp; congruence.
Qed.

(** The policy a resolver answers with when only observing is allowed. *)
Lemma only_observe_forbids (mg : Managed) :
  pShouldOnlyObserve (newPolicy r mg) = true ->
  pShouldCreate (newPolicy r mg) = false /\ pShouldUpdate (newPolicy r mg) = false /\
  pShouldDelete (newPolicy r mg) = false /\ pShouldLateInitialize (newPolicy r mg) = false.
Proof.
  unfold newPolicy. destruct (legacy r); cbn [pShouldOnlyObserve pShouldCreate pShouldUpdate pShouldDelete pShouldLateInitialize
    NewManagementPoliciesResolver NewLegacyManagementPoliciesResolver checker].
  all: unfold ShouldOnlyObserve; destruct (enabled _) eqn:E; [|done]; cbn [negb]; intros Ho%bool_decide_eq_true.
  all: unfold ShouldCreate, ShouldUpdate, ShouldDelete, ShouldLateInitialize, LegacyShouldDelete; cbn [resolver deletionPolicy];
    rewrite E, Ho; cbn [negb]; split_and!; try by vm_compute.
  by destruct (bool_decide (mgDeletionPolicy mg = DeletionDelete)).
Qed.

(** C12: under the observe-only policy the external resource is never created,
    updated or deleted, and Reconcile itself never updates the object: what the
    external system observed is not written to it (late initialization), nor
    is anything else.  The components that initialize the object, resolve its
    references and add its finalizer are still called, and may write it. *)
Theorem reconcile_observe_only (req : string * string) (tr : list (event meff)) res (mg : Managed) :
  exec (Reconcile r req) tr res -> vGot (view_of tr) = Some mg ->
  pShouldOnlyObserve (newPolicy r mg) = true ->
  forall X (e : meff X) x, Ev e x ∈ tr ->
    match e with ECreate _ | EExternalUpdate _ | EDelete _ | EUpdate _ => False | _ => True end.
Proof.
  intros He Hg Ho X e x Hin. apply list_elem_of_lookup in Hin as [i Hi].
  pose proof (reconcile_allowed _ _ _ _ _ He Hi) as Ha.
  pose proof (proj1 (view_final_stable _ _ _ i He)) as Hst.
  destruct (only_observe_forbids mg Ho) as (Hc & Hu & Hd & Hl).
  destruct e; try done; cbn [allowed] in Ha; unfold observed, may_connect, proceeds in Ha; destruct_and?;
    repeat match goal with H : exists _, _ |- _ => destruct H as [? H] | H : _ /\ _ |- _ => destruct H end;
    match goal with H : vGot _ = Some ?m |- _ => apply Hst in H; rewrite Hg in H; simplify_eq end; try congruence.
  match goal with H : _ \/ _ |- _ => destruct H as [(_ & H & _)|[_ H]] end; congruence.
Qed.

(** C10: when a previous creation was left in doubt and the external name is not
    deterministic, or the object is being deleted and its external resource is
    to be left alone, the external system is not contacted at all. *)
Theorem reconcile_no_external (req : string * string) (tr : list (event meff)) res (mg : Managed) :
  exec (Reconcile r req) tr res -> vGot (view_of tr) = Some mg ->
  (exists mi, vInit (view_of tr) = Some mi /\ ExternalCreateIncomplete (mgMeta mi) = true /\
     deterministicExternalName r = false) \/
  (WasDeleted (mgMeta mg) = true /\ pShouldDelete (newPolicy r mg) = false) ->
  forall X (e : meff X) x, Ev e x ∈ tr -> external e = false.
Proof.
  intros He Hg Hcase X e x Hin. destruct (external e) eqn:Hext; [|done]. exfalso.
  apply list_elem_of_lookup in Hin as [i Hi].
  destruct (external_may_connect _ _ _ _ Hext (reconcile_allowed _ _ _ _ _ He Hi)) as (mg' & (Hg' & _) & Ho & mi' & Hi' & Hk & _).
  destruct (view_final_stable _ _ _ i He) as (Hst1 & Hst2 & _). apply Hst1 in Hg'. apply Hst2 in Hi'.
  rewrite Hg in Hg'. simplify_eq. destruct Hcase as [(mi & H1 & H2 & H3)|[H1 H2]].
  - rewrite Hi' in H1. simplify_eq. destruct Hk; congruence.
  - rewrite (Ho H1) in H2. done.
Qed.

(** Only disconnecting the client ends a connection, and it follows the
    connector's own disconnect. *)
Lemma connected_ends v (tr : list (event meff)) :
  vConnected v = true -> vHalf v = false -> vConnected (foldl step v tr) = false ->
  (forall i ev, tr !! i = Some ev -> allowed (foldl step v (take i tr)) ev) ->
  exists x y, Ev EDisconnectConnector x ∈ tr /\ Ev EDisconnectClient y ∈ tr.
Proof.
  intros Hc Hh Hend Hall.
  assert (forall v h, vConnected v = true -> vHalf v = h -> vConnected (foldl step v tr) = false ->
    (forall i ev, tr !! i = Some ev -> allowed (foldl step v (take i tr)) ev) ->
    (h = false -> exists x, Ev EDisconnectConnector x ∈ tr) /\ exists y, Ev EDisconnectClient y ∈ tr) as Hgen.
  { clear. induction tr as [|ev tr IH]; intros v h Hc Hh Hend Hall; [simpl in Hend; congruence|].
    pose proof (Hall 0 ev eq_refl) as Hev. simpl in Hev.
    assert (forall h', vConnected (step v ev) = true -> vHalf (step v ev) = h' -> (h = false -> h' = false) ->
      (h = false -> exists x, Ev EDisconnectConnector x ∈ ev :: tr) /\ exists y, Ev EDisconnectClient y ∈ ev :: tr) as Hrec.
    { intros h' H1 H2 H3. destruct (IH (step v ev) h' H1 H2 Hend) as [IH1 (y & IH2)].
      - intros i ev' Hi. exact (Hall (S i) ev' Hi).
      - split; [|exists y; by right]. intros Hf. destruct (IH1 (H3 Hf)) as [x Hx]. exists x. by right. }
    destruct v as [g i rs c hf o f cr st l], ev as [X e x]. cbn in Hc, Hh. subst.
    destruct e; try (by eapply Hrec); try (destruct x as [? ?]; by eapply Hrec);
      try (destruct x as [[? ?] ?]; by eapply Hrec).
    - destruct x as [m' [e|]]; by eapply Hrec.
    - split; [intros _; exists x; by left|]. destruct (IH (MkView g i rs true true o f cr st (Some (Ev EDisconnectConnector x))) true
        eq_refl eq_refl Hend) as [_ (y & Hy)]; [intros j ev' Hj; exact (Hall (S j) ev' Hj)|]. exists y. by right.
    - destruct Hev as (_ & _ & Hh). cbn in Hh. subst. split; [done|]. exists x. by left. }
  destruct (Hgen v false Hc Hh Hend Hall) as [H1 (y & H2)]. destruct (H1 eq_refl) as [x Hx]. by exists x, y.
Qed.

(** C16: once connected to the provider, the reconciler disconnects both the
    connector and the client before it returns, whatever happens in between. *)
Theorem reconcile_disconnects (req : string * string) (tr : list (event meff)) res (i : nat) (m m' : Managed) :
  exec (Reconcile r req) tr res -> tr !! i = Some (Ev (EConnect m) (m', None)) ->
  exists x y, Ev EDisconnectConnector x ∈ drop (S i) tr /\ Ev EDisconnectClient y ∈ drop (S i) tr.
Proof.
  intros He Hi. pose proof (reconcile_final _ _ _ He) as (_ & Hend & _).
  pose proof (take_drop_middle tr i _ Hi) as Htr.
  assert (forall p : view -> Prop, p (step (view_of (take i tr)) (Ev (EConnect m) (m', None))) ->
     p (view_of (take i tr ++ [Ev (EConnect m) (m', None)]))) as Hv by (intros p; by rewrite view_of_snoc).
  apply (connected_ends (view_of (take i tr ++ [Ev (EConnect m) (m', None)]))).
  - apply (Hv (fun v => vConnected v = true)). by destruct (view_of (take i tr)).
  - apply (Hv (fun v => vHalf v = false)). by destruct (view_of (take i tr)).
  - unfold view_of in *. rewrite <- foldl_app, <- app_assoc. simpl. by rewrite Htr.
  - intros j ev Hj. rewrite lookup_drop in Hj. pose proof (reconcile_allowed _ _ _ _ _ He Hj) as Ha.
    assert (take (S i + j) tr = (take i tr ++ [Ev (EConnect m) (m', None)]) ++ take j (drop (S i) tr)) as Heq.
    { rewrite <- take_S_r with (1:=Hi). by rewrite take_take_drop. }
    rewrite Heq in Ha. unfold view_of in *. by rewrite foldl_app in Ha.
Qed.

(** C17: a reconcile always returns, and only returns an error when the object
    could not be read or its status could not be written; conflicts never
    surface as errors. *)
Theorem reconcile_errors (req : string * string) (tr : list (event meff)) res :
  exec (Reconcile r req) tr res ->
  exists result err, res = Some (result, err) /\ IsConflict err = false /\
    forall e, err = Some e ->
      (vGot (view_of tr) = None /\ exists e', e = wrapError errGetManaged e') \/
      (exists e', vStatusErr (view_of tr) = Some e' /\ e = wrapError errUpdateManagedStatus e').
Proof. intros He. by destruct (reconcile_final _ _ _ He) as (_ & _ & Hres). Qed.

(** ** Progress *)

(** The answers of a reconcile in which nothing fails and the external resource
    does not exist: of an object to be created ([deleted = false]) or of one
    being deleted. *)
Definition smooth (deleted : bool) (ev : event meff) : Prop :=
  match ev with
  | @Ev _ X e x =>
      match e in meff Y return Y -> Prop with
      | EGet _ => fun '(m, err) => err = None /\ IsPaused (mgMeta m) = false /\ pIsPaused (newPolicy r m) = false /\
          pValidate (newPolicy r m) = None /\ WasDeleted (mgMeta m) = deleted /\
          (deleted = false -> pShouldCreate (newPolicy r m) = true)
      | EInitialize _ => fun '(m, err) => err = None /\ creation_known m /\ WasDeleted (mgMeta m) = deleted
      | EObserve _ => fun '(m, obs, err) => err = None /\ ResourceExists obs = false /\ WasDeleted (mgMeta m) = deleted /\
          IsZero (GetExternalCreateSucceeded (mgMeta m)) = true
      | EResolveReferences _ | EConnect _ | EPublishConnection _ _ | EAddFinalizer _ | EUpdate _
      | EUnpublishConnection _ _ => fun '(_, err) => err = None
      | _ => fun _ => True
      end x
  end.

#[global] Instance smooth_dec (deleted : bool) (ev : event meff) : Decision (smooth deleted ev).
Proof.
  destruct ev as [X e x]. unfold smooth, creation_known. destruct e; try apply _;
    first [destruct x as [[? ?] ?]|destruct x as [? ?]|idtac]; apply _.
Defined.

(** Take the next step of an execution whose answers are smooth. *)
Tactic Notation "estep" simple_intropattern(pat) :=
  cbn [exec mbind prog_bind bind_prog trigger mret prog_ret warn emit_event] in *;
  match goal with
  | He : exists x tr', _ = Ev _ x :: tr' /\ _, Hs : Forall _ _ |- _ =>
      let x := fresh "x" in let tr' := fresh "tr" in let Hx := fresh "Hx" in
      destruct He as (x & tr' & -> & He); apply Forall_cons in Hs as [Hx Hs]; cbn [smooth] in Hx;
      revert Hx He; destruct x as pat; intros Hx He
  end.

Definition creates (tr : list (event meff)) : Prop := exists m x, Ev (ECreate m) x ∈ tr.
Definition finalizes (tr : list (event meff)) : Prop := exists m x, Ev (ERemoveFinalizer m) x ∈ tr.

Lemma creates_cons (ev : event meff) (tr : list (event meff)) : creates tr -> creates (ev :: tr).
Proof. intros (m & x & H). exists m, x. by right. Qed.

Lemma finalizes_cons (ev : event meff) (tr : list (event meff)) : finalizes tr -> finalizes (ev :: tr).
Proof. intros (m & x & H). exists m, x. by right. Qed.

Lemma creates_app (tr1 tr2 : list (event meff)) : creates tr1 -> creates (tr1 ++ tr2).
Proof. intros (m & x & H). exists m, x. apply elem_of_app. by left. Qed.

Lemma finalizes_app (tr1 tr2 : list (event meff)) : finalizes tr1 -> finalizes (tr1 ++ tr2).
Proof. intros (m & x & H). exists m, x. apply elem_of_app. by left. Qed.

Hint Resolve creates_cons finalizes_cons : core.

(** A property of all executions of a program holds of the program in a bind. *)
Lemma exec_bind_inner {A B} (f : A -> prog meff B) (p : prog meff A) (tr : list (event meff)) res (R S : list (event meff) -> Prop) :
  exec (bind_prog f p) tr res -> R tr -> (forall tr1 tr2, R (tr1 ++ tr2) -> R tr1) ->
  (forall tr1 tr2, S tr1 -> S (tr1 ++ tr2)) -> (forall tr1 res1, exec p tr1 res1 -> R tr1 -> S tr1) -> S tr.
Proof. intros [[He _]|(a & tr1 & tr2 & -> & He & _)]%exec_bind HR HR' HS Hp; eauto. Qed.

Lemma smooth_app (d : bool) (tr1 tr2 : list (event meff)) :
  Forall (smooth d) (tr1 ++ tr2) -> Forall (smooth d) tr1.
Proof. by intros [? _]%Forall_app. Qed.

Lemma known_proceeds (m : Managed) :
  creation_known m -> ExternalCreateIncomplete (mgMeta m) && negb (deterministicExternalName r) = false.
Proof. intros [->| ->]; [done|]. apply andb_false_r. Qed.

Lemma creates_existing m record policy obs pre tr ro :
  ResourceExists obs = false -> pShouldCreate policy = true ->
  exec (reconcileExisting r m record policy obs pre) tr ro -> Forall (smooth false) tr -> creates tr.
Proof.
  intros Hex Hc He Hs. unfold reconcileExisting in He. estep [m1 err]. subst. estep [m2 err]. subst.
  rewrite Hex, Hc in He. cbn [negb andb] in He. unfold reconcileCreate in He. estep [now z]. estep [m3 err]. subst.
  estep [[m4 ch] err]. do 4 apply creates_cons. exists m3, (m4, ch, err). by left.
Qed.

(** The stretch from Observe on, for an external resource that does not exist. *)
Lemma smooth_observed d m record policy tr ro :
  pShouldOnlyObserve policy = false ->
  exec (reconcileConnected r m record policy) tr ro -> Forall (smooth d) tr ->
  exists ev tr' m1 obs, tr = ev :: tr' /\ ResourceExists obs = false /\ WasDeleted (mgMeta m1) = d /\
    exec (if WasDeleted (mgMeta m1) then reconcileDeleted m1 record policy obs m1
          else reconcileExisting r m1 record policy obs m1) tr' ro /\ Forall (smooth d) tr'.
Proof.
  intros Hoo He Hs. unfold reconcileConnected in He. estep [[m1 obs] err].
  destruct Hx as (-> & Hex & Hd & Hz). rewrite Hex, Hz in He. cbn [negb andb] in He.
  rewrite Hoo in He.
  cbn [mret prog_ret bind_prog exec] in He. eexists _, _, m1, obs. split_and!; [done..|exact He|done].
Qed.

Lemma creates_connect m record policy tr ro :
  pShouldOnlyObserve policy = false -> pShouldCreate policy = true ->
  exec (reconcileConnect r m record policy) tr ro -> Forall (smooth false) tr -> creates tr.
Proof.
  intros Hoo Hc He Hs. unfold reconcileConnect in He. estep [m1 err]. subst. apply creates_cons.
  eapply exec_bind_inner; [exact He|exact Hs|apply smooth_app|apply creates_app|].
  intros tr1 ro1 He1 Hs1. destruct (smooth_observed false _ _ _ _ _ Hoo He1 Hs1)
    as (ev & tr' & m2 & obs & -> & Hex & Hd & He2 & Hs2). rewrite Hd in He2.
  apply creates_cons. by eapply creates_existing.
Qed.

Lemma finalizes_finalize m record details tr ro d :
  exec (finalize m record details) tr ro -> Forall (smooth d) tr -> finalizes tr.
Proof.
  intros He Hs. unfold finalize in He. estep [m1 err]. subst. estep [m2 err]. apply finalizes_cons.
  exists m1, (m2, err). by left.
Qed.

Lemma finalizes_connect m record policy tr ro :
  pShouldOnlyObserve policy = false ->
  exec (reconcileConnect r m record policy) tr ro -> Forall (smooth true) tr -> finalizes tr.
Proof.
  intros Hoo He Hs. unfold reconcileConnect in He. estep [m1 err]. subst. apply finalizes_cons.
  eapply exec_bind_inner; [exact He|exact Hs|apply smooth_app|apply finalizes_app|].
  intros tr1 ro1 He1 Hs1. destruct (smooth_observed true _ _ _ _ _ Hoo He1 Hs1)
    as (ev & tr' & m2 & obs & -> & Hex & Hd & He2 & Hs2). rewrite Hd in He2. unfold reconcileDeleted in He2.
  rewrite Hex in He2. cbn [andb] in He2. apply finalizes_cons. by eapply finalizes_finalize.
Qed.

(** When nothing fails, and the object is not paused nor being deleted and
    has valid policies that allow creation, and its external resource does not
    exist and was never created, a reconcile does create it. *)
Theorem reconcile_creates (req : string * string) (tr : list (event meff)) res :
  exec (Reconcile r req) tr res -> Forall (smooth false) tr -> exists m x, Ev (ECreate m) x ∈ tr.
Proof.
  intros He Hs. change (creates tr). unfold Reconcile in He. estep [mg err].
  destruct Hx as (-> & Hp1 & Hp2 & Hv & Hd & Hc). specialize (Hc eq_refl). apply creates_cons.
  assert (pShouldOnlyObserve (newPolicy r mg) = false) as Hoo.
  { destruct (pShouldOnlyObserve _) eqn:E; [|done]. destruct (only_observe_forbids mg E). congruence. }
  eapply exec_bind_inner; [exact He|exact Hs|apply smooth_app|apply creates_app|]. clear He Hs. intros tr1 ro He Hs.
  unfold reconcileManaged in He. estep []. rewrite Hp1, Hp2, Hv, Hd in He. cbn [orb andb] in He.
  unfold reconcileInitialize in He. estep [m1 err]. destruct Hx0 as (-> & Hk & Hd1).
  rewrite (known_proceeds _ Hk) in He. unfold reconcileResolve in He. rewrite Hd1 in He. cbn [negb] in He.
  estep [m2 err]. subst. do 3 apply creates_cons. by eapply creates_connect.
Qed.

(** When nothing fails, and the object is being deleted, is not paused and
    has valid policies, and its external resource is gone, a reconcile removes
    the finalizer: deletion is not held up. *)
Theorem reconcile_finalizes (req : string * string) (tr : list (event meff)) res :
  exec (Reconcile r req) tr res -> Forall (smooth true) tr -> exists m x, Ev (ERemoveFinalizer m) x ∈ tr.
Proof.
  intros He Hs. change (finalizes tr). unfold Reconcile in He. estep [mg err].
  destruct Hx as (-> & Hp1 & Hp2 & Hv & Hd & _). apply finalizes_cons.
  eapply exec_bind_inner; [exact He|exact Hs|apply smooth_app|apply finalizes_app|]. clear He Hs. intros tr1 ro He Hs.
  unfold reconcileManaged in He. estep []. rewrite Hp1, Hp2, Hv, Hd in He. cbn [orb andb] in He. apply finalizes_cons.
  destruct (pShouldDelete (newPolicy r mg)) eqn:Hsd; cbn [negb] in He; [|by eapply finalizes_finalize].
  assert (pShouldOnlyObserve (newPolicy r mg) = false) as Hoo.
  { destruct (pShouldOnlyObserve _) eqn:E; [|done]. destruct (only_observe_forbids mg E) as (_ & _ & ? & _). congruence. }
  unfold reconcileInitialize in He. estep [m1 err]. destruct Hx0 as (-> & Hk & Hd1).
  rewrite (known_proceeds _ Hk) in He. unfold reconcileResolve in He. rewrite Hd1 in He. cbn [negb] in He.
  apply finalizes_cons. by eapply finalizes_connect.
Qed.

End safety.

(** ** Concrete runs *)

#[local] Instance demoKE : KErrors := KErrorsStd.
#[local] Instance demoLP : LenientParser := fun _ => None.

Definition demoObject (deleted : bool) (policies : list string) (annotations : gmap string string) : Managed :=
  MkManaged (MkObjectMeta "db" "" "uid" 1 "1" None (Some annotations) [] [] (if deleted then Some demoTime else None) demoTime)
    [] policies DeletionDelete None ANil ANil.

Definition noChange : ExternalChange := MkChange ∅ ∅.

Definition demoObservation (exists_ upToDate : bool) : ExternalObservation :=
  MkObservation exists_ upToDate false ∅ "".

(** An environment in which every call succeeds and leaves the object alone. *)
Definition demoOracle (m : Managed) (obs : ExternalObservation) (X : Type) (i : nat) (e : meff X) : X :=
  match e in meff Y return Y with
  | EGet _ => (m, None)
  | EUpdate m | EStatusUpdate m | EInitialize m | EResolveReferences m | EAddFinalizer m | ERemoveFinalizer m
  | EUpdateCriticalAnnotations m | EPublishConnection m _ | EUnpublishConnection m _ | EConnect m => (m, None)
  | EDisconnectConnector | EDisconnectClient | EChangeLog _ _ _ _ => None
  | EObserve m => (m, obs, None)
  | ECreate m | EExternalUpdate m | EDelete m => (m, noChange, None)
  | EEvent _ _ _ _ _ | EMetric _ _ => tt
  | EPollInterval _ i => i
  | ENow => demoTime
  end.

Definition demoRun (r : Reconciler) (m : Managed) (obs : ExternalObservation) : list (event meff) * option (Result * option error) :=
  run_with (demoOracle m obs) 0 (Reconcile r ("", "db")).

Lemma demoRun_exec (r : Reconciler) (m : Managed) (obs : ExternalObservation) :
  exec (Reconcile r ("", "db")) (demoRun r m obs).1 (demoRun r m obs).2.
Proof. apply run_with_exec. Qed.

Definition demoReconciler : Reconciler := NewReconciler false [WithManagementPolicies].

Definition createRun : list (event meff) * option (Result * option error) :=
  demoRun demoReconciler (demoObject false ["*"] ∅) (demoObservation false false).

Definition updateRun : list (event meff) * option (Result * option error) :=
  demoRun demoReconciler (demoObject false ["*"] ∅) (demoObservation true false).

Definition deleteRun : list (event meff) * option (Result * option error) :=
  demoRun demoReconciler (demoObject true ["*"] ∅) (demoObservation true false).

Definition finalizeRun : list (event meff) * option (Result * option error) :=
  demoRun demoReconciler (demoObject true ["*"] ∅) (demoObservation false false).

Lemma reconcile_create_guarded_witness :
  exists m x, createRun.1 !! 10 = Some (Ev (ECreate m) x) /\ vFinalizer (view_of (take 10 createRun.1)) = true.
Proof.
  eexists _, _. split; [vm_compute; reflexivity|].
  edestruct (reconcile_create_guarded demoReconciler ("", "db") createRun.1 createRun.2 10)
    as (mg & mi & mo & obs & m0 & t & H); [apply demoRun_exec|vm_compute; reflexivity|]. apply H.
Defined.

Lemma reconcile_create_recorded_witness :
  exists m x, Ev (EUpdateCriticalAnnotations m) x ∈ createRun.1.
Proof.
  edestruct (reconcile_create_recorded demoReconciler ("", "db") createRun.1 createRun.2 10)
    as (t & x & H); [apply demoRun_exec|vm_compute; reflexivity|]. eexists _, x.
  rewrite <- (take_drop 11 createRun.1). apply elem_of_app. right. exact H.
Defined.

Lemma reconcile_update_guarded_witness :
  exists m x, updateRun.1 !! 8 = Some (Ev (EExternalUpdate m) x) /\ vFinalizer (view_of (take 8 updateRun.1)) = true.
Proof.
  eexists _, _. split; [vm_compute; reflexivity|].
  edestruct (reconcile_update_guarded demoReconciler ("", "db") updateRun.1 updateRun.2 8)
    as (mg & mo & obs & H); [apply demoRun_exec|vm_compute; reflexivity|]. apply H.
Defined.

Lemma reconcile_delete_guarded_witness :
  exists m x, deleteRun.1 !! 5 = Some (Ev (EDelete m) x) /\ vConnected (view_of (take 5 deleteRun.1)) = true.
Proof.
  eexists _, _. split; [vm_compute; reflexivity|].
  edestruct (reconcile_delete_guarded demoReconciler ("", "db") deleteRun.1 deleteRun.2 5)
    as (mg & obs & H); [apply demoRun_exec|vm_compute; reflexivity|]. apply H.
Defined.

Lemma reconcile_finalizer_guarded_witness :
  exists m0 c m, last (take 6 finalizeRun.1) = Some (Ev (EUnpublishConnection m0 c) (m, None)).
Proof.
  edestruct (reconcile_finalizer_guarded demoReconciler ("", "db") finalizeRun.1 finalizeRun.2 6)
    as (mg & m0 & c & H); [apply demoRun_exec|vm_compute; reflexivity|]. exists m0, c. eexists. apply H.
Defined.

Lemma reconcile_paused_witness :
  Forall (fun ev => match ev with @Ev _ X e _ => harmless e = true end)
    (demoRun demoReconciler (demoObject false [] ∅) (demoObservation false false)).1.
Proof.
  apply Forall_forall. intros [X e x]. revert X e x.
  eapply (reconcile_paused demoReconciler ("", "db") _ _ (demoObject false [] ∅) (demoRun_exec _ _ _)).
  - vm_compute. reflexivity.
  - right. vm_compute. reflexivity.
Defined.

Lemma reconcile_observe_only_witness :
  Forall (fun ev => match ev with
                    | @Ev _ X e _ => match e with ECreate _ | EExternalUpdate _ | EDelete _ | EUpdate _ => False | _ => True end
                    end)
    (demoRun demoReconciler (demoObject false ["Observe"] ∅) (demoObservation true false)).1.
Proof.
  apply Forall_forall. intros [X e x]. revert X e x.
  eapply (reconcile_observe_only demoReconciler ("", "db") _ _ (demoObject false ["Observe"] ∅) (demoRun_exec _ _ _)).
  - vm_compute. reflexivity.
  - vm_compute. reflexivity.
Defined.

Lemma reconcile_no_external_witness :
  Forall (fun ev => match ev with @Ev _ X e _ => external e = false end)
    (demoRun demoReconciler
      (demoObject false ["*"] {[AnnotationKeyExternalCreatePending := "2024-12-01T12:00:00Z"]}) (demoObservation true false)).1.
Proof.
  apply Forall_forall. intros [X e x]. revert X e x.
  eapply (reconcile_no_external demoReconciler ("", "db") _ _
    (demoObject false ["*"] {[AnnotationKeyExternalCreatePending := "2024-12-01T12:00:00Z"]}) (demoRun_exec _ _ _)).
  - vm_compute. reflexivity.
  - left. eexists. split; [vm_compute; reflexivity|]. split; vm_compute; reflexivity.
Defined.

Lemma reconcile_disconnects_witness : exists y, Ev EDisconnectClient y ∈ createRun.1.
Proof.
  edestruct (reconcile_disconnects demoReconciler ("", "db") createRun.1 createRun.2 4)
    as (x & y & _ & H); [apply demoRun_exec|vm_compute; reflexivity|]. exists y.
  rewrite <- (take_drop 5 createRun.1). apply elem_of_app. right. exact H.
Defined.

Lemma reconcile_errors_witness : exists result err, createRun.2 = Some (result, err) /\ IsConflict err = false.
Proof.
  destruct (reconcile_errors demoReconciler ("", "db") createRun.1 createRun.2 (demoRun_exec _ _ _))
    as (result & err & H1 & H2 & _). by exists result, err.
Defined.

Lemma reconcile_creates_witness : exists m x, Ev (ECreate m) x ∈ createRun.1.
Proof.
  apply (reconcile_creates demoReconciler ("", "db") createRun.1 createRun.2 (demoRun_exec _ _ _)).
  apply (bool_decide_eq_true_1 (Forall _ _)). vm_compute. reflexivity.
Defined.

Lemma reconcile_finalizes_witness : exists m x, Ev (ERemoveFinalizer m) x ∈ finalizeRun.1.
Proof.
  apply (reconcile_finalizes demoReconciler ("", "db") finalizeRun.1 finalizeRun.2 (demoRun_exec _ _ _)).
  apply (bool_decide_eq_true_1 (Forall _ _)). vm_compute. reflexivity.
Defined.
