(* ===== verification/Resolver.v ===== *)
(** * Resolving the references of a managed resource
      (APISimpleReferenceResolver of pkg/reconciler/managed/api.go)

    The resolver asks the object to resolve its own references, which is code
    each provider generates, and sends what changed to the API server as one
    server-side apply patch. *)

From S2P Require Import Prelude GoErrors Json Meta Prog Managed.

(** What the resolver calls: the object's ResolveReferences method, and the
    client's Patch with the document of an apply patch. *)
Inductive reff : Type -> Type :=
| RResolve (m : Managed) : reff (Managed * option error)
| RPatch (m : Managed) (patch : any) : reff (Managed * option error).

(** The type of the managed resources, encoding/json, go-cmp and the jsonpatch
    package. [cmpEqual] is [cmp.Equal] with [cmpopts.EquateEmpty]; [marshal]
    encodes an object whose group, version and kind are the given ones. *)
Class ManagedType := {
  hasReferences : Managed -> bool;
  gvkOf : Managed -> GroupVersionKind;
  cmpEqual : Managed -> Managed -> bool;
  marshal : GroupVersionKind -> Managed -> any + error;
  CreateMergePatch : any -> any -> any + error;
  cmpEqual_refl m : cmpEqual m m = true
}.

Section resolver.
Context {MT : ManagedType}.
Implicit Types (m existing resolved : Managed).

Definition zeroGVK : GroupVersionKind := MkGVK "" "" "".

(** [prepareJSONMerge]; the kind it clears on [existing] is restored. *)
Definition prepareJSONMerge existing resolved : any + error :=
  match marshal zeroGVK existing with
  | inr err => inr (wrapError "cannot marshal the existing object into JSON" err)
  | inl eBuff =>
      match marshal (gvkOf resolved) resolved with
      | inr err => inr (wrapError "cannot marshal the object with the resolved references into JSON" err)
      | inl rBuff =>
          match CreateMergePatch eBuff rBuff with
          | inr err => inr (wrapError "cannot prepare the JSON merge patch for the resolved object" err)
          | inl patch => inl patch
          end
      end
  end.

Definition errResolveReferences : string := "cannot resolve references".
Definition errPatchManaged : string := "cannot patch the managed resource via server-side apply".

(** [APISimpleReferenceResolver.ResolveReferences] *)
Definition ResolveReferences (mg : Managed) : prog reff (Managed * option error) :=
  if negb (hasReferences mg) then mret (mg, None)
  else
    let existing := mg in
    '(mg, err) ← trigger (RResolve mg);
    match err with
    | Some e => mret (mg, Some (wrapError errResolveReferences e))
    | None =>
        if cmpEqual existing mg then mret (mg, None)
        else
          match prepareJSONMerge existing mg with
          | inr err => mret (mg, Some err)
          | inl patch =>
              '(mg, err) ← trigger (RPatch mg patch);
              mret (mg, Wrap err errPatchManaged)
          end
    end.

(** Whatever is resolved, the API server is sent at most one patch, and only
    when resolving succeeded and changed the object; the patch is the difference
    of the two, and a nil error means that it was accepted. *)
Theorem resolver_patches_change (mg : Managed) (tr : list (event reff)) res :
  exec (ResolveReferences mg) tr res ->
  exists m' err, res = Some (m', err) /\
    ((tr = [] /\ hasReferences mg = false /\ m' = mg /\ err = None) \/
     exists m1 e, hasReferences mg = true /\
       ((tr = [Ev (RResolve mg) (m1, e)] /\ m' = m1 /\
         (err = None -> e = None /\ cmpEqual mg m1 = true)) \/
        exists e0 r0 patch x,
          tr = [Ev (RResolve mg) (m1, e); Ev (RPatch m1 patch) (m', x)] /\ e = None /\ m1 <> mg /\
          marshal zeroGVK mg = inl e0 /\ marshal (gvkOf m1) m1 = inl r0 /\ CreateMergePatch e0 r0 = inl patch /\
          (err = None <-> x = None))).
Proof.
  unfold ResolveReferences. destruct (hasReferences mg) eqn:Hr; cbn [negb].
  2: { intros [-> ->]. exists mg, None. split; [done|]. by left. }
  cbn [mbind prog_bind bind_prog trigger exec]. intros ([m1 e] & tr' & -> & He).
  destruct e as [e|]; cbn [exec mret prog_ret] in He.
  { destruct He as [-> ->]. eexists _, _. split; [done|]. right. exists m1, (Some e). split; [done|]. by left. }
  destruct (cmpEqual mg m1) eqn:Hc; cbn [exec mret prog_ret] in He.
  { destruct He as [-> ->]. eexists _, _. split; [done|]. right. exists m1, None. split; [done|]. by left. }
  unfold prepareJSONMerge in He.
  destruct (marshal zeroGVK mg) as [e0|err] eqn:H0;
    [destruct (marshal (gvkOf m1) m1) as [r0|err] eqn:H1; [destruct (CreateMergePatch e0 r0) as [patch|err] eqn:H2|]|].
  2-4: destruct He as [-> ->]; eexists _, _; split; [done|]; right; exists m1, None; split; [done|]; left; by split_and!.
  cbn [mbind prog_bind bind_prog trigger exec mret prog_ret] in He. destruct He as ([m2 x] & tr2 & -> & -> & ->).
  eexists _, _. split; [done|]. right. exists m1, None. split; [done|]. right. exists e0, r0, patch, x.
  split_and!; [done|done| |done..|apply Wrap_eq_None]. intros ->. by rewrite cmpEqual_refl in Hc.
Qed.

End resolver.
