(* ===== verification/ChangeLog.v ===== *)
(** * Change logs (pkg/reconciler/managed/changelogger.go)

    The logger that sends one entry per change of an external resource to a
    change log service, the snapshot of the object it contains
    (AsProtobufStruct of pkg/resource/resource.go), and the theorem that the
    reconciler logs every change it asks for, once, with its outcome. *)

From S2P Require Import Prelude GoErrors GoTime Json Conditions Meta Policies Prog Managed ManagedReconciler ManagedSafety.

(** ** Snapshots *)

(** The dynamic type of an object: [*unstructured.Unstructured], a [Wrapper]
    around one, or any other type, which encoding/json encodes. *)
Inductive RuntimeObject (T : Type) :=
| UnstructuredObject (content : gmap string any)
| WrapperObject (content : gmap string any)
| TypedObject (o : T).
Arguments UnstructuredObject {T} _.
Arguments WrapperObject {T} _.
Arguments TypedObject {T} _.

(** structpb: building a [Struct] from a map, and decoding one. *)
Class StructPB := {
  Struct : Type;
  NewStruct : gmap string any -> Struct + error;
  UnmarshalStruct : string -> Struct + error
}.

Definition wrapInr {A} (message : string) (x : A + error) : A + error :=
  match x with inl a => inl a | inr err => inr (wrapError message err) end.

Definition AsProtobufStruct `{StructPB} `{Json T} (o : RuntimeObject T) : Struct + error :=
  match o with
  | UnstructuredObject u | WrapperObject u => wrapInr "cannot create Struct" (NewStruct u)
  | TypedObject t =>
      match Marshal t with
      | inr err => inr (wrapError "cannot marshal to JSON" err)
      | inl b => wrapInr "cannot unmarshal JSON data" (UnmarshalStruct b)
      end
  end.

(** ** The logger *)

Section logger.
Context {MV : MetaV1} {SP : StructPB} {JM : Json Managed}.

Record ChangeLogEntry := MkEntry {
  Timestamp : Time;
  Provider : string;
  ApiVersion : string;
  EntryKind : string;
  EntryName : string;
  EntryExternalName : string;
  Operation : OperationType;
  Snapshot : Struct;
  ErrorMessage : option string;
  EntryAdditionalDetails : AdditionalDetails
}.

(** The clock and the service. *)
Inductive leff : Type -> Type :=
| LNow : leff Time
| LSend (timeout : Z) (entry : ChangeLogEntry) : leff (option error).

Record GRPCChangeLogger := MkChangeLogger { providerVersion : string; sendTimeout : Z }.

Definition defaultSendTimeout : Z := 10 * second.

Definition GRPCChangeLoggerOption : Type := GRPCChangeLogger -> GRPCChangeLogger.

Definition NewGRPCChangeLogger (o : list GRPCChangeLoggerOption) : GRPCChangeLogger :=
  foldl (fun g clo => clo g) (MkChangeLogger "" defaultSendTimeout) o.

Definition WithProviderVersion (version : string) : GRPCChangeLoggerOption := fun g => MkChangeLogger version (sendTimeout g).
Definition WithSendTimeout (timeout : Z) : GRPCChangeLoggerOption := fun g => MkChangeLogger (providerVersion g) timeout.

(** [GRPCChangeLogger.Log]; [gvk] is the object's kind. *)
Definition Log (g : GRPCChangeLogger) (gvk : Managed -> GroupVersionKind) (managed : Managed) (opType : OperationType)
    (changeErr : option error) (ad : AdditionalDetails) : prog leff (option error) :=
  let changeErrMessage := Error <$> changeErr in
  match AsProtobufStruct (TypedObject managed) with
  | inr err => mret (Some (wrapError "cannot snapshot managed resource" err))
  | inl snapshot =>
      now ← trigger LNow;
      let entry := MkEntry now (providerVersion g) (ToAPIVersionAndKind (gvk managed)).1 (GKind (gvk managed))
        (Name (mgMeta managed)) (GetExternalName (mgMeta managed)) opType snapshot changeErrMessage ad in
      err ← trigger (LSend (sendTimeout g) entry);
      mret (Wrap err "cannot send change log entry")
  end.

(** Log sends one entry with the snapshot of the object and the text of the
    error, unless it cannot encode the object; nil means that the service took it. *)
Theorem log_sends_entry (g : GRPCChangeLogger) (gvk : Managed -> GroupVersionKind) (m : Managed) (op : OperationType)
    (changeErr : option error) (ad : AdditionalDetails) (tr : list (event leff)) res :
  exec (Log g gvk m op changeErr ad) tr res ->
  exists err, res = Some err /\
    ((tr = [] /\ err <> None /\ exists e, AsProtobufStruct (TypedObject m) = inr e) \/
     exists now entry x, tr = [Ev LNow now; Ev (LSend (sendTimeout g) entry) x] /\ (err = None <-> x = None) /\
       AsProtobufStruct (TypedObject m) = inl (Snapshot entry) /\ Timestamp entry = now /\ Operation entry = op /\
       (ErrorMessage entry = None <-> changeErr = None) /\ EntryAdditionalDetails entry = ad).
Proof.
  unfold Log. destruct (AsProtobufStruct (TypedObject m)) as [s|e].
  - cbn [mbind prog_bind bind_prog trigger exec mret prog_ret]. intros (now & tr1 & -> & x & tr2 & -> & -> & ->).
    eexists. split; [done|]. right. eexists now, _, x. split_and!; [done|apply Wrap_eq_None|done..| |done].
    destruct changeErr; naive_solver.
  - intros [-> ->]. eexists. split; [done|]. left. eauto.
Qed.

End logger.

(** ** What the reconciler logs *)

Definition changeRecord : Type := OperationType * option error * AdditionalDetails.

(** The changes of a trace, with their outcomes. *)
Definition changeOf (ev : event meff) : option changeRecord :=
  match ev with
  | @Ev _ X e x =>
      match e in meff Y return Y -> option changeRecord with
      | ECreate _ => fun '(_, ch, err) => Some (OPERATION_TYPE_CREATE, err, chAdditionalDetails ch)
      | EExternalUpdate _ => fun '(_, ch, err) => Some (OPERATION_TYPE_UPDATE, err, chAdditionalDetails ch)
      | EDelete _ => fun '(_, ch, err) => Some (OPERATION_TYPE_DELETE, err, chAdditionalDetails ch)
      | _ => fun _ => None
      end x
  end.

(** The entries of a trace. *)
Definition logOf (ev : event meff) : option (Managed * changeRecord) :=
  match ev with
  | @Ev _ X e _ => match e with EChangeLog m op err ad => Some (m, (op, err, ad)) | _ => None end
  end.

(** The object as Observe left it. *)
Definition observedBy (ev : event meff) : option Managed :=
  match ev with
  | @Ev _ X e x =>
      match e in meff Y return Y -> option Managed with
      | EObserve _ => fun '(m, _, err) => if nil_err err then Some m else None
      | _ => fun _ => None
      end x
  end.

(** The monitor: the object observed last, the changes and the entries. *)
Record lview := MkLView { lObserved : option Managed; lChanges : list changeRecord; lLogs : list (Managed * changeRecord) }.

Definition snoc_option {A} (l : list A) (o : option A) : list A := match o with Some a => l ++ [a] | None => l end.

Definition lstep (s : lview) (ev : event meff) : lview :=
  MkLView (match observedBy ev with Some m => Some m | None => lObserved s end)
    (snoc_option (lChanges s) (changeOf ev)) (snoc_option (lLogs s) (logOf ev)).

Definition lview_of (tr : list (event meff)) : lview := foldl lstep (MkLView None [] []) tr.

Lemma lview_of_spec (tr : list (event meff)) :
  lChanges (lview_of tr) = omap changeOf tr /\ lLogs (lview_of tr) = omap logOf tr /\
  (forall m, lObserved (lview_of tr) = Some m -> exists mx obs, Ev (EObserve mx) (m, obs, None) ∈ tr).
Proof.
  induction tr as [|ev tr (IH1 & IH2 & IH3)] using rev_ind; [done|]. unfold lview_of in *. rewrite foldl_app. cbn [foldl lstep lChanges lLogs lObserved].
  rewrite !omap_app, IH1, IH2. split_and!.
  - cbn. destruct (changeOf ev); cbn; [done|by rewrite app_nil_r].
  - cbn. destruct (logOf ev); cbn; [done|by rewrite app_nil_r].
  - intros m. destruct (observedBy ev) as [m'|] eqn:E.
    + intros [= ->]. destruct ev as [X e x]. destruct e; try done. destruct x as [[m' obs] [err|]]; [done|].
      injection E as ->. exists m0, obs. set_solver.
    + intros H. destruct (IH3 m H) as (mx & obs & Hin). exists mx, obs. set_solver.
Qed.

Section reconcile_logs.
Context {KE : KErrors} {LP : LenientParser} (r : Reconciler).

Abbreviation WPL := (wp lstep (fun _ _ => True)).

(** Nothing is pending: every change was logged with the object observed. *)
Definition logged (s : lview) : Prop :=
  length (lChanges s) <= 1 /\
  exists m, lLogs s = (fun ch => (m, ch)) <$> lChanges s /\ (lChanges s <> [] -> lObserved s = Some m).

Lemma wpl_mark (s : lview) m (cs : list (Z -> Condition)) (Q : lview -> option Managed -> Prop) :
  (forall c, Q s (Some (set_conditions c m))) -> WPL (markConditions m cs) s Q.
Proof.
  intros HQ. unfold markConditions. apply wp_bind.
  assert (forall (Q : lview -> option (list Condition) -> Prop), (forall l, Q s (Some l)) -> WPL (timed cs) s Q) as Ht.
  { clear HQ. induction cs as [|c cs IH]; intros Q' HQ'; cbn; [apply HQ'|]. intros t. split; [done|]. destruct s. apply wp_bind, IH.
    intros l. apply HQ'. }
  apply Ht. intros l. apply HQ.
Qed.

Lemma wpl_return (s : lview) (result : Result) m record (Q : lview -> option Out -> Prop) :
  (forall out, Q s (Some out)) -> WPL (returnWithStatus result m record) s Q.
Proof. intros HQ. cbn. intros [m' err]. split; [done|]. destruct s. apply HQ. Qed.

Lemma wpl_report (s : lview) (result : Result) m record (cs : list (Z -> Condition)) (Q : lview -> option Out -> Prop) :
  (forall out, Q s (Some out)) -> WPL (bind_prog (fun m => returnWithStatus result m record) (markConditions m cs)) s Q.
Proof. intros HQ. apply wp_bind, wpl_mark. intros c. by apply wpl_return. Qed.

(** How the body of [Reconcile] ends. *)
Definition lends (s : lview) (ro : option Out) : Prop := logged s.

Implicit Types (m mo : Managed) (record : string) (o : option Managed).

Lemma logged_none o : logged (MkLView o [] []).
Proof. split; [cbn; lia|]. destruct o as [m|]; [by exists m|]. exists (MkManaged (MkObjectMeta "" "" "" 0 "" None None [] [] None zeroTime) [] [] "" None ANil ANil). done. Qed.

Lemma logged_one mo ch : logged (MkLView (Some mo) [ch] [(mo, ch)]).
Proof. split; [cbn; lia|]. by exists mo. Qed.

#[local] Hint Resolve logged_none logged_one : golib.

(** Run to the end of a stretch, branching where it does. *)
Ltac lrun :=
  repeat first
    [ solve [unfold lends, lstep; cbn; auto with golib nocore]
    | apply wpl_report; intros ?
    | apply wp_bind, wpl_mark; intros ?
    | apply wpl_return; intros ?
    | progress cbn [wp mbind prog_bind bind_prog trigger mret prog_ret warn emit_event requeue lstep changeOf logOf observedBy
        snoc_option lObserved lChanges lLogs app nil_err]
    | match goal with
      | |- forall _, _ => intros ?
      | |- _ /\ _ => split; [done|]
      | |- context [match ?x with _ => _ end] => is_var x; destruct x
      | |- context [if ?b then _ else _] => destruct b
      end ].

Lemma wpl_reconcileUpdate mo m record policy obs :
  WPL (reconcileUpdate r m record policy obs mo) (MkLView (Some mo) [] []) lends.
Proof. unfold reconcileUpdate. lrun. Qed.

Lemma wpl_reconcileLateInit mo m record policy obs :
  WPL (reconcileLateInit r m record policy obs mo) (MkLView (Some mo) [] []) lends.
Proof.
  unfold reconcileLateInit. destruct (_ && _); [|apply wpl_reconcileUpdate]. intros [m1 [e|]]; (split; [done|]); [lrun|].
  apply wpl_reconcileUpdate.
Qed.

Lemma wpl_reconcileCreate mo m record : WPL (reconcileCreate m record mo) (MkLView (Some mo) [] []) lends.
Proof. unfold reconcileCreate, createSucceeded, createFailed. lrun. Qed.

Lemma wpl_reconcileExisting mo record policy obs :
  WPL (reconcileExisting r mo record policy obs mo) (MkLView (Some mo) [] []) lends.
Proof.
  unfold reconcileExisting. intros [m1 [e|]]; (split; [done|]); [lrun|]. intros [m2 [e|]]; (split; [done|]); [lrun|].
  destruct (_ && _); [apply wpl_reconcileCreate|apply wpl_reconcileLateInit].
Qed.

Lemma wpl_finalize m record details o : WPL (finalize m record details) (MkLView o [] []) lends.
Proof. unfold finalize. lrun. Qed.

Lemma wpl_reconcileDeleted mo record policy obs :
  WPL (reconcileDeleted mo record policy obs mo) (MkLView (Some mo) [] []) lends.
Proof. unfold reconcileDeleted. destruct (_ && _); [lrun|apply wpl_finalize]. Qed.

Lemma wpl_reconcileConnected m record policy : WPL (reconcileConnected r m record policy) (MkLView None [] []) lends.
Proof.
  unfold reconcileConnected. intros [[m1 obs] [e|]]; (split; [done|]); [lrun|]. 
  cbn [bind_prog mbind prog_bind trigger]. destruct (_ && _); [lrun|]. apply wp_bind.
  assert (forall within, WPL
    (if negb (ResourceExists obs) && within then
       bind_prog (fun _ => requeue m1 record)
         (emit_event record m1 TypeNormal "PendingExternalResource" "Waiting for external resource existence to be confirmed")
     else if WasDeleted (mgMeta m1) then reconcileDeleted m1 record policy obs m1
     else reconcileExisting r m1 record policy obs m1) (MkLView (Some m1) [] []) lends) as Hrest.
  { intros within. destruct (_ && within); [lrun|]. destruct (WasDeleted _); [apply wpl_reconcileDeleted|apply wpl_reconcileExisting]. }
  destruct (_ && _); [intros now; split; [done|]|]; apply Hrest.
Qed.

(** Disconnecting changes and logs nothing. *)
Lemma wpl_reconcileConnect m record policy : WPL (reconcileConnect r m record policy) (MkLView None [] []) lends.
Proof.
  unfold reconcileConnect. intros [m1 [e|]]; (split; [done|]); [lrun|].
  cbn [mbind prog_bind bind_prog trigger wp]. apply wp_bind. eapply wp_mono; [apply wpl_reconcileConnected|]. intros [o ch lg] [out|] Hs; [|done]. unfold disconnect.
  intros [e|]; (split; [done|]); [intros ?; split; [done|]|]; intros [e'|]; (split; [done|]); [intros ?; split; [done|]| |intros ?; split; [done|]|];
    exact Hs.
Qed.

Lemma wpl_reconcileManaged m : WPL (reconcileManaged r m) (MkLView None [] []) lends.
Proof.
  unfold reconcileManaged. intros ?; split; [done|]. cbn [bind_prog]. destruct (_ || _); [lrun|].
  destruct (pValidate _) as [e|]; [lrun|]. destruct (_ && _); [apply wpl_finalize|].
  unfold reconcileInitialize. intros [m1 [e|]]; (split; [done|]); [lrun|].
  cbn [mbind prog_bind bind_prog trigger wp]. destruct (_ && _); [lrun|]. unfold reconcileResolve. destruct (negb _); [|apply wpl_reconcileConnect].
  intros [m2 [e|]]; (split; [done|]); [lrun|]. apply wpl_reconcileConnect.
Qed.

Lemma reconcile_wpl (req : string * string) : WPL (Reconcile r req) (MkLView None [] []) (fun s _ => logged s).
Proof.
  unfold Reconcile. intros [m [e|]]; (split; [done|]); [apply logged_none|].
  cbn [mbind prog_bind bind_prog trigger wp]. apply wp_bind. eapply wp_mono; [apply wpl_reconcileManaged|]. by intros s [out|] Hs.
Qed.

(** C13: every change of the external resource Reconcile asks for is logged,
    once, with its kind, its error and its details, and with the object as
    Observe left it; nothing else is logged, and there is at most one change in
    a reconcile. *)
Theorem reconcile_changes_logged (req : string * string) (tr : list (event meff)) res :
  exec (Reconcile r req) tr res ->
  snd <$> omap logOf tr = omap changeOf tr /\ length (omap changeOf tr) <= 1 /\
  Forall (fun l => exists mx obs, Ev (EObserve mx) (l.1, obs, None) ∈ tr) (omap logOf tr).
Proof.
  intros He. pose proof (proj2 (wp_sound _ _ _ _ _ _ _ (reconcile_wpl req) He)) as (Hle & m & Hl & Ho).
  fold (lview_of tr) in *. destruct (lview_of_spec tr) as (H1 & H2 & H3). rewrite H1 in *. rewrite H2 in *.
  split_and!; [rewrite Hl|done|rewrite Hl].
  - rewrite <- list_fmap_compose. apply list_fmap_id.
  - apply Forall_fmap, Forall_forall. intros ch Hch. apply H3, Ho. intros Hn. rewrite Hn in Hch. by apply not_elem_of_nil in Hch.
Qed.

End reconcile_logs.

(** ** Concrete runs *)

#[local] Instance demoKE : KErrors := KErrorsStd.
#[local] Instance demoLP : LenientParser := fun _ => None.

Lemma reconcile_changes_logged_witness :
  omap changeOf createRun.1 = [(OPERATION_TYPE_CREATE, None, ∅)] /\
  snd <$> omap logOf createRun.1 = [(OPERATION_TYPE_CREATE, None, ∅)].
Proof.
  destruct (reconcile_changes_logged demoReconciler ("", "db") createRun.1 createRun.2 (demoRun_exec _ _ _)) as [H _].
  assert (omap changeOf createRun.1 = [(OPERATION_TYPE_CREATE, None, ∅)]) as H1 by (vm_compute; reflexivity).
  split; [exact H1|]. rewrite H. exact H1.
Defined.
