(* ===== verification/Metrics.v ===== *)
(** * Metrics (pkg/reconciler/managed/metrics.go, pkg/statemetrics)

    The recorder the reconciler reports to, as a state transformer over its two
    maps and the samples of its histograms, and the recorder that counts the
    managed resources of a kind, as a program over the client and the gauges. *)

From S2P Require Import Prelude GoStrings GoErrors GoTime Json Conditions Meta Prog Managed.

(** ** Durations *)

Definition maxDuration : Z := 2 ^ 63 - 1.
Definition minDuration : Z := - 2 ^ 63.

(** [now.Sub(t)] saturates. *)
Definition Sub (now t : Time) : Z := Z.max minDuration (Z.min maxDuration (instant now - instant t)).

(** ** The metric recorder *)

(** [schema.GroupVersionKind.String], and the kind of an object. *)
Class KindNames := { gvkString : GroupVersionKind -> string; kindOf : Managed -> GroupVersionKind }.

Inductive Histogram := mrDetected | mrFirstTimeReady | mrDeletion | mrDrift.

#[global] Instance Histogram_eq_dec : EqDecision Histogram.
Proof. solve_decision. Defined.

(** One observation of a histogram: the label and the duration, of which
    Prometheus is given the seconds. *)
Record Sample := MkSample { histogram : Histogram; label : string; duration : Z }.

(** [MRMetricRecorder]: its maps, and what its histograms were told. *)
Record MRMetricRecorder := MkMetricRecorder {
  firstObservation : gmap string Time;
  lastObservation : gmap string Time;
  samples : list Sample
}.

Definition NewMRMetricRecorder : MRMetricRecorder := MkMetricRecorder ∅ ∅ [].

Section recorder.
Context {KN : KindNames}.
Implicit Types (r : MRMetricRecorder) (m : Managed) (now : Time).

Definition getLabels m : string := gvkString (kindOf m).

Definition observe (h : Histogram) m (d : Z) r : MRMetricRecorder :=
  MkMetricRecorder (firstObservation r) (lastObservation r) (samples r ++ [MkSample h (getLabels m) d]).

Definition recordUnchanged (name : string) now r : MRMetricRecorder :=
  MkMetricRecorder (firstObservation r) (<[name := now]> (lastObservation r)) (samples r).

(** The clock is read for the sample, and again for the map. *)
Definition recordFirstTimeReconciled m now now' r : MRMetricRecorder :=
  if decide (CStatus (GetCondition TypeSynced (mgConditions m)) = ConditionUnknown) then
    let r := observe mrDetected m (Sub now (CreationTimestamp (mgMeta m))) r in
    MkMetricRecorder (<[Name (mgMeta m) := now']> (firstObservation r)) (lastObservation r) (samples r)
  else r.

Definition recordDrift m now now' r : MRMetricRecorder :=
  let name := Name (mgMeta m) in
  match lastObservation r !! name with
  | None => r
  | Some lt =>
      let r := observe mrDrift m (Sub now lt) r in
      MkMetricRecorder (firstObservation r) (<[name := now']> (lastObservation r)) (samples r)
  end.

(** [None]: the object has no deletion timestamp, and dereferencing it panics. *)
Definition recordDeleted m now r : option MRMetricRecorder :=
  match DeletionTimestamp (mgMeta m) with
  | None => None
  | Some t => Some (observe mrDeletion m (Sub now t) r)
  end.

Definition recordFirstTimeReady m now r : MRMetricRecorder :=
  if decide (CStatus (GetCondition TypeReady (mgConditions m)) = ConditionTrue) then
    match firstObservation r !! Name (mgMeta m) with
    | None => r
    | Some _ =>
        let r := observe mrFirstTimeReady m (Sub now (CreationTimestamp (mgMeta m))) r in
        MkMetricRecorder (delete (Name (mgMeta m)) (firstObservation r)) (lastObservation r) (samples r)
    end
  else r.

(** A call the reconciler makes ([Managed.EMetric]) with the readings of the clock. *)
Record call := MkCall { callKind : MetricKind; callObject : Managed; callNow : Time; callNow' : Time }.

Definition record1 r (c : call) : option MRMetricRecorder :=
  let m := callObject c in
  match callKind c with
  | FirstTimeReconciled => Some (recordFirstTimeReconciled m (callNow c) (callNow' c) r)
  | FirstTimeReady => Some (recordFirstTimeReady m (callNow c) r)
  | Unchanged => Some (recordUnchanged (Name (mgMeta m)) (callNow c) r)
  | Drift => Some (recordDrift m (callNow c) (callNow' c) r)
  | Deleted => recordDeleted m (callNow c) r
  end.

Fixpoint recordAll r (cs : list call) : option MRMetricRecorder :=
  match cs with
  | [] => Some r
  | c :: cs' => r ← record1 r c; recordAll r cs'
  end.

(** The samples of a histogram that calls on objects of a name added. *)
Definition added (h : Histogram) r r' : nat :=
  length (filter (fun s => histogram s = h) (samples r')) - length (filter (fun s => histogram s = h) (samples r)).

Fixpoint addedFor (h : Histogram) (name : string) r (cs : list call) : nat :=
  match cs with
  | [] => 0
  | c :: cs' =>
      match record1 r c with
      | None => 0
      | Some r' => (if decide (Name (mgMeta (callObject c)) = name) then added h r r' else 0) + addedFor h name r' cs'
      end
  end.

(** ** What is recorded *)

Definition known (name : string) r : nat := if decide (is_Some (firstObservation r !! name)) then 1 else 0.

Lemma added_refl (h : Histogram) r : added h r r = 0.
Proof. unfold added. lia. Qed.

Lemma added_observe (h h' : Histogram) (l : string) (d : Z) r f g :
  added h r (MkMetricRecorder f g (samples r ++ [MkSample h' l d])) = if decide (h' = h) then 1 else 0.
Proof.
  unfold added. simpl. rewrite filter_app, length_app. destruct (decide (h' = h)) as [->|Hne].
  - rewrite filter_cons_True by done. simpl. lia.
  - rewrite filter_cons_False by done. simpl. lia.
Qed.

(** A call changes what is known of a name by what it adds for that name. *)
Lemma record1_known (name : string) r r' (c : call) :
  record1 r c = Some r' ->
  let for_name := if decide (Name (mgMeta (callObject c)) = name) then 1 else 0 in
  for_name * added mrFirstTimeReady r r' + known name r' <= for_name * added mrDetected r r' + known name r.
Proof.
  destruct c as [k m now now']. unfold record1, known. cbn [callKind callObject callNow callNow']. intros Hr.
  destruct k; [unfold recordFirstTimeReconciled in Hr|unfold recordFirstTimeReady in Hr|unfold recordUnchanged in Hr|unfold recordDrift in Hr|unfold recordDeleted in Hr]; cbv zeta in Hr.
  - injection Hr as <-. destruct (decide (CStatus _ = _)).
    + rewrite !added_observe. cbn [firstObservation]. destruct (decide (Name (mgMeta m) = name)) as [<-|Hn].
      * rewrite lookup_insert_eq. repeat destruct (decide _); try lia; naive_solver.
      * rewrite lookup_insert_ne by done. simpl. lia.
    + rewrite !added_refl. repeat destruct (decide _); lia.
  - injection Hr as <-. destruct (decide (CStatus _ = _)); [destruct (firstObservation r !! Name (mgMeta m)) eqn:E|].
    + rewrite !added_observe. cbn [firstObservation]. destruct (decide (Name (mgMeta m) = name)) as [<-|Hn].
      * rewrite lookup_delete_eq, E. repeat destruct (decide _); try lia; naive_solver.
      * rewrite lookup_delete_ne by done. simpl. lia.
    + rewrite !added_refl. repeat destruct (decide _); lia.
    + rewrite !added_refl. repeat destruct (decide _); lia.
  - injection Hr as <-. unfold added. cbn [samples firstObservation]. repeat destruct (decide _); lia.
  - injection Hr as <-. destruct (lastObservation r !! _); [rewrite !added_observe|rewrite !added_refl];
      cbn [firstObservation]; repeat destruct (decide _); done || lia.
  - destruct (DeletionTimestamp _); [|done]. injection Hr as <-. unfold observe. rewrite !added_observe. cbn [firstObservation].
    repeat destruct (decide _); done || lia.
Qed.

(** However the reconciler's calls are ordered, a resource that was not known
    before is recorded as ready for the first time no more often than it was
    recorded as reconciled for the first time. *)
Theorem first_time_ready_bounded (name : string) (cs : list call) r :
  firstObservation r !! name = None -> addedFor mrFirstTimeReady name r cs <= addedFor mrDetected name r cs.
Proof.
  intros Hn. enough (addedFor mrFirstTimeReady name r cs <= addedFor mrDetected name r cs + known name r) as H
    by (unfold known in H; rewrite Hn in H; destruct (decide _) as [[? ?]|]; [done|lia]).
  clear Hn. revert r. induction cs as [|c cs IH]; intros r; simpl; [lia|].
  destruct (record1 r c) as [r'|] eqn:Hr; [|lia]. pose proof (record1_known name r r' c Hr) as Hk. specialize (IH r').
  simpl in Hk. destruct (decide (Name (mgMeta (callObject c)) = name)); lia.
Qed.

(** The clock does not go back: its readings, in the order of the calls. *)
Fixpoint monotone (t : Z) (cs : list call) : Prop :=
  match cs with
  | [] => True
  | c :: cs' => (t <= instant (callNow c) <= instant (callNow' c))%Z /\ monotone (instant (callNow' c)) cs'
  end.

(** Nothing was observed after [t]. *)
Definition observed_before (t : Z) r : Prop := forall name t', lastObservation r !! name = Some t' -> (instant t' <= t)%Z.

Definition drifts_nonnegative r : Prop :=
  Forall (fun s => histogram s = mrDrift -> (0 <= duration s <= maxDuration)%Z) (samples r).

Lemma Sub_bounds now t : (instant t <= instant now)%Z -> (0 <= Sub now t <= maxDuration)%Z.
Proof. unfold Sub, maxDuration, minDuration. lia. Qed.

Lemma record1_drift (t : Z) r r' (c : call) :
  observed_before t r -> (t <= instant (callNow c) <= instant (callNow' c))%Z -> drifts_nonnegative r -> record1 r c = Some r' ->
  observed_before (instant (callNow' c)) r' /\ drifts_nonnegative r'.
Proof.
  destruct c as [k m now now']. unfold record1, drifts_nonnegative. cbn [callKind callObject callNow callNow']. intros Ho Ht Hd Hr.
  assert (observed_before (instant now') r) as Ho' by (intros n t' Hn; specialize (Ho n t' Hn); lia).
  assert (forall n t', (instant t' <= instant now')%Z -> observed_before (instant now')
    (MkMetricRecorder (firstObservation r) (<[n := t']> (lastObservation r)) (samples r))) as Hins.
  { intros n t' Hle n' t1. cbn [lastObservation]. rewrite lookup_insert_Some. intros [[_ <-]|[_ H]]; [done|by apply (Ho' n')]. }
  destruct k; cbn [record1] in Hr.
  - injection Hr as <-. unfold recordFirstTimeReconciled. destruct (decide _); [|done]. split; [exact Ho'|].
    apply Forall_app. split; [done|]. by repeat constructor.
  - injection Hr as <-. unfold recordFirstTimeReady. destruct (decide _); [|done]. destruct (firstObservation r !! _); [|done].
    split; [exact Ho'|]. apply Forall_app. split; [done|]. by repeat constructor.
  - injection Hr as <-. split; [|done]. apply Hins. lia.
  - injection Hr as <-. unfold recordDrift. destruct (lastObservation r !! _) as [lt|] eqn:E; [|done].
    split; [by apply (Hins _ now')|]. apply Forall_app. split; [done|]. constructor; [|done]. intros _. apply Sub_bounds.
    specialize (Ho _ _ E). lia.
  - unfold recordDeleted in Hr. destruct (DeletionTimestamp _); [|done]. injection Hr as <-. split; [exact Ho'|].
    apply Forall_app. split; [done|]. by repeat constructor.
Qed.

(** While the clock does not go back, the time since the last observation of
    a resource that drifted is never negative, whatever the order of the calls. *)
Theorem drift_nonnegative (t : Z) (cs : list call) r r' :
  observed_before t r -> drifts_nonnegative r -> monotone t cs -> recordAll r cs = Some r' -> drifts_nonnegative r'.
Proof.
  revert t r. induction cs as [|c cs IH]; intros t r Ho Hd Hm; simpl; [by intros [= <-]|].
  destruct Hm as [Hc Hm]. destruct (record1 r c) as [r1|] eqn:Hr; [|done]. cbn.
  destruct (record1_drift t r r1 c Ho Hc Hd Hr) as [Ho1 Hd1]. eauto.
Qed.

End recorder.

(** ** Counting managed resources *)

Section state.
Context {KN : KindNames}.

(** [strings.Replace(s, old, "", 1)]: what is before and after the first
    occurrence of [old]. *)
Fixpoint removeFirst (old s : bytes) : bytes :=
  match s with
  | [] => []
  | c :: s' => if bool_decide (take (length old) s = old) then drop (length old) s else c :: removeFirst old s'
  end.

Inductive Gauge := GExists | GReady | GSynced.

(** The client's List and the gauges; [STick] answers whether the ticker fired,
    and not the context's end. *)
Inductive seff : Type -> Type :=
| SList : seff (list Managed * option error)
| SSet (gauge : Gauge) (label : string) (value : nat) : seff unit
| STick : seff bool.

(** [MRStateRecorder.getLabels]; [apiutil.GVKForObject] gives the list's kind. *)
Definition listLabels (gvk : GroupVersionKind + error) : string + error :=
  match gvk with
  | inr err => inr err
  | inl gvk => inl (b2s (removeFirst (s2b "List") (s2b (gvkString gvk))))
  end.

Definition statusTrue (ct : string) (m : Managed) : bool := bool_decide (CStatus (GetCondition ct (mgConditions m)) = ConditionTrue).

(** The loop over the items. *)
Fixpoint countStates (mrs : list Managed) (numReady numSynced : nat) : nat * nat :=
  match mrs with
  | [] => (numReady, numSynced)
  | o :: mrs' =>
      countStates mrs' (if statusTrue TypeReady o then S numReady else numReady)
        (if statusTrue TypeSynced o then S numSynced else numSynced)
  end.

Definition RecordState (gvk : GroupVersionKind + error) : prog seff (option error) :=
  '(mrs, err) ← trigger SList;
  match err with
  | Some e => mret (Some (wrapError "failed to list managed resources" e))
  | None =>
      match listLabels gvk with
      | inr e => mret (Some (wrapError "failed to get labels" e))
      | inl labels =>
          _ ← trigger (SSet GExists labels (length mrs));
          let '(numReady, numSynced) := countStates mrs 0 0 in
          _ ← trigger (SSet GReady labels numReady);
          _ ← trigger (SSet GSynced labels numSynced);
          mret None
      end
  end.

(** [MRStateRecorder.Start], for at most [fuel] ticks ([None]: still running). *)
Fixpoint StartState (fuel : nat) (gvk : GroupVersionKind + error) : prog seff (option (option error)) :=
  match fuel with
  | 0 => mret None
  | S n =>
      tick ← trigger STick;
      if (tick : bool) then
        err ← RecordState gvk;
        match err with
        | Some e => mret (Some (Some e))
        | None => StartState n gvk
        end
      else mret (Some None)
  end.

Lemma countStates_spec (mrs : list Managed) (a b : nat) :
  countStates mrs a b =
  (a + length (filter (fun m => statusTrue TypeReady m = true) mrs), b + length (filter (fun m => statusTrue TypeSynced m = true) mrs)).
Proof.
  revert a b. induction mrs as [|m mrs IH]; intros a b; simpl; [f_equal; lia|]. rewrite IH, !filter_cons.
  destruct (statusTrue TypeReady m) eqn:H1, (statusTrue TypeSynced m) eqn:H2; simpl; f_equal; lia.
Qed.

(** Recording the state of a kind sets each gauge once, to the number of the
    resources listed and of those that are ready and synced, neither of which
    exceeds the first; if listing fails no gauge is touched. *)
Theorem state_recorded (gvk : GroupVersionKind + error) (tr : list (event seff)) res :
  exec (RecordState gvk) tr res ->
  exists mrs lerr err, res = Some err /\
    ((err <> None /\ tr = [Ev SList (mrs, lerr)] /\ (lerr <> None \/ exists e, gvk = inr e)) \/
     exists l ready synced, err = None /\ lerr = None /\ listLabels gvk = inl l /\
       tr = [Ev SList (mrs, None); Ev (SSet GExists l (length mrs)) tt; Ev (SSet GReady l ready) tt; Ev (SSet GSynced l synced) tt] /\
       ready = length (filter (fun m => statusTrue TypeReady m = true) mrs) /\
       synced = length (filter (fun m => statusTrue TypeSynced m = true) mrs) /\
       ready <= length mrs /\ synced <= length mrs).
Proof.
  unfold RecordState. cbn [mbind prog_bind bind_prog trigger exec]. intros ([mrs lerr] & tr1 & -> & He).
  destruct lerr as [e|]; [destruct He as [-> ->]; eexists mrs, (Some e), _; split; [done|]; left; by split_and!; [| |left]|].
  destruct (listLabels gvk) as [l|e] eqn:Hl.
  - rewrite countStates_spec in He. cbn [mbind prog_bind bind_prog trigger exec mret prog_ret] in He.
    destruct He as ([] & tr2 & -> & [] & tr3 & -> & [] & tr4 & -> & -> & ->).
    eexists mrs, None, None. split; [done|]. right. eexists l, _, _. split_and!; [done..| | ]; simpl; apply length_filter.
  - destruct He as [-> ->]. eexists mrs, None, _. split; [done|]. left. split_and!; [done..|]. right.
    destruct gvk as [g|e']; [done|]. by exists e'.
Qed.

(** The loop ends without an error exactly when the context is done, and with
    one only when recording failed. *)
Lemma start_stops (fuel : nat) (gvk : GroupVersionKind + error) (tr : list (event seff)) err :
  exec (StartState fuel gvk) tr (Some (Some err)) ->
  match err with
  | None => exists tr', tr = tr' ++ [Ev STick false]
  | Some e => exists tr1 tr2, tr = tr1 ++ Ev STick true :: tr2 /\ exec (RecordState gvk) tr2 (Some (Some e))
  end.
Proof.
  revert tr. induction fuel as [|n IH]; intros tr; cbn [StartState]; [by intros [_ ?]|].
  cbn [mbind prog_bind bind_prog trigger exec]. intros ([] & tr1 & -> & He).
  - apply exec_bind in He as [[_ ?]|(e & tr2 & tr3 & -> & H1 & H2)]; [done|]. destruct e as [e|].
    + destruct H2 as [-> [= ->]]. exists [], tr2. by rewrite app_nil_r.
    + specialize (IH _ H2). destruct err as [e|].
      * destruct IH as (ta & tb & -> & Hb). exists (Ev STick true :: tr2 ++ ta), tb. split; [|done]. simpl. by rewrite <- app_assoc.
      * destruct IH as [ta ->]. exists (Ev STick true :: tr2 ++ ta). simpl. by rewrite <- app_assoc.
  - destruct He as [-> He]. injection He as ->. by exists [].
Qed.

(** The label is the kind of the items when "List" first occurs at the end. *)
Lemma removeFirst_suffix (old s : bytes) :
  old <> [] -> (forall i, i < length s -> take (length old) (drop i (s ++ old)) <> old) -> removeFirst old (s ++ old) = s.
Proof.
  intros Ho. induction s as [|c s IH]; intros Hs; simpl.
  - destruct old as [|c old]; [done|]. cbn [removeFirst]. rewrite bool_decide_eq_true_2 by apply firstn_all. apply skipn_all.
  - rewrite bool_decide_eq_false_2; [|apply (Hs 0); simpl; lia]. f_equal. apply IH. intros i Hi. apply (Hs (S i)). simpl. lia.
Qed.

End state.

(** ** Concrete runs *)

#[local] Instance demoKN : KindNames :=
  {| gvkString g := Group g +:+ "/" +:+ Version g +:+ ", Kind=" +:+ GKind g; kindOf _ := MkGVK "example.org" "v1" "Database" |}.

Definition demoMR (namespace : string) (synced ready : string) : Managed :=
  MkManaged (MkObjectMeta "db" namespace "uid" 1 "1" None None [] [] None zeroTime)
    [MkCondition TypeSynced synced 0 "" "" 0; MkCondition TypeReady ready 0 "" "" 0] [] "" None ANil ANil.

(** A resource is reconciled for the first time and becomes ready, twice. *)
Definition demoCalls : list call :=
  [MkCall FirstTimeReconciled (demoMR "a" "Unknown" "False") (MkTime 1 0) (MkTime 1 0);
   MkCall FirstTimeReady (demoMR "a" "True" "True") (MkTime 2 0) (MkTime 2 0);
   MkCall Unchanged (demoMR "a" "True" "True") (MkTime 3 0) (MkTime 3 0);
   MkCall FirstTimeReady (demoMR "a" "True" "True") (MkTime 4 0) (MkTime 4 0);
   MkCall Drift (demoMR "a" "True" "True") (MkTime 9 0) (MkTime 9 0)].

Lemma first_time_ready_bounded_witness :
  addedFor mrFirstTimeReady "db" NewMRMetricRecorder demoCalls = 1 /\
  addedFor mrFirstTimeReady "db" NewMRMetricRecorder demoCalls <= addedFor mrDetected "db" NewMRMetricRecorder demoCalls.
Proof. split; [vm_compute; reflexivity|]. apply first_time_ready_bounded. reflexivity. Defined.

Lemma drift_nonnegative_witness : exists r', recordAll NewMRMetricRecorder demoCalls = Some r' /\ drifts_nonnegative r'.
Proof.
  eexists. split; [vm_compute; reflexivity|].
  eapply (drift_nonnegative 0 demoCalls NewMRMetricRecorder); [|constructor| |vm_compute; reflexivity].
  - intros name t' H. simpl in H. by rewrite lookup_empty in H.
  - simpl. lia.
Defined.

Definition demoStateRun : list (event seff) * option (option error) :=
  run_with (fun X i (e : seff X) => match e in seff Y return Y with
                                    | SList => ([demoMR "a" "True" "True"; demoMR "b" "True" "False"], None)
                                    | SSet _ _ _ => tt
                                    | STick => true
                                    end) 0 (RecordState (inl (MkGVK "example.org" "v1" "DatabaseList"))).

Lemma state_recorded_witness :
  exists l (mrs : list Managed) ready, demoStateRun.1 !! 2 = Some (Ev (SSet GReady l ready) tt) /\ ready <= length mrs.
Proof.
  destruct (state_recorded (inl (MkGVK "example.org" "v1" "DatabaseList")) demoStateRun.1 demoStateRun.2)
    as (mrs & lerr & err & H1 & [(H2 & _)|(l & ready & synced & _ & _ & _ & H3 & _ & _ & H4 & _)]); [apply run_with_exec| |].
  - vm_compute in H1. congruence.
  - exists l, mrs, ready. split; [exact (f_equal (fun t => t !! 2) H3)|exact H4].
Defined.

(** The maps are keyed by name only: of two resources with one name in two
    namespaces that become ready, only the first is recorded. *)
Theorem first_time_ready_collides :
  let calls := [MkCall FirstTimeReconciled (demoMR "a" "Unknown" "False") (MkTime 1 0) (MkTime 1 0);
                MkCall FirstTimeReconciled (demoMR "b" "Unknown" "False") (MkTime 2 0) (MkTime 2 0);
                MkCall FirstTimeReady (demoMR "a" "True" "True") (MkTime 3 0) (MkTime 3 0);
                MkCall FirstTimeReady (demoMR "b" "True" "True") (MkTime 4 0) (MkTime 4 0)] in
  addedFor mrDetected "db" NewMRMetricRecorder calls = 2 /\ addedFor mrFirstTimeReady "db" NewMRMetricRecorder calls = 1.
Proof. vm_compute. split; reflexivity. Qed.

(** The first "List" is not always the suffix of a list's kind. *)
Theorem list_label_wrong :
  listLabels (inl (MkGVK "elbv2.example.org" "v1" "LBListenerList")) = inl "elbv2.example.org/v1, Kind=LBenerList".
Proof. vm_compute. reflexivity. Qed.
