(* ===== verification/Lifecycle.v ===== *)
(** * The life of a managed resource

    Reconciles of one object follow each other, may stop at any point (a crash
    loses everything but what the API server and the external system hold), and
    may read a version of the object that is out of date.  [world] is what
    outlives a reconcile: the versions of the object, whether the outcome of
    a call of Create is missing from the API server, and the clock.  [wstep]
    says what each call of [Reconcile] does to the world; other writers leave
    the annotations that track creation alone.

    The theorem: a managed resource is never created while the outcome of an
    earlier Create is not recorded, over any sequence of reconciles. *)

From S2P Require Import Prelude GoErrors GoTime Json Conditions Meta Policies Prog Managed ManagedReconciler ManagedSafety.

(** ** What the API server holds *)

(** The annotations that track creation. *)
Definition creation (m : Managed) : string * string * string :=
  (annotation AnnotationKeyExternalCreatePending (mgMeta m), annotation AnnotationKeyExternalCreateSucceeded (mgMeta m),
   annotation AnnotationKeyExternalCreateFailed (mgMeta m)).

Definition version (m : Managed) : string := ResourceVersion (mgMeta m).

Section creation.
Context {LP : LenientParser}.

Definition incomplete (m : Managed) : bool := ExternalCreateIncomplete (mgMeta m).

(** The outcomes recorded on the object are not later than [t]. *)
Definition outcomes_by (t : Z) (m : Managed) : Prop :=
  (instant (GetExternalCreateSucceeded (mgMeta m)) <= t /\ instant (GetExternalCreateFailed (mgMeta m)) <= t)%Z.

Lemma incomplete_creation (m m' : Managed) : creation m = creation m' -> incomplete m = incomplete m'.
Proof.
  unfold creation, incomplete, ExternalCreateIncomplete, GetExternalCreatePending, GetExternalCreateSucceeded, GetExternalCreateFailed.
  by intros [= -> -> ->].
Qed.

Lemma outcomes_creation (t : Z) (m m' : Managed) : creation m = creation m' -> outcomes_by t m -> outcomes_by t m'.
Proof. unfold creation, outcomes_by, GetExternalCreateSucceeded, GetExternalCreateFailed. by intros [= _ -> ->]. Qed.

Lemma outcomes_pending (t : Z) (u : Time) (m : Managed) :
  outcomes_by t m -> outcomes_by t (set_meta (SetExternalCreatePending u (mgMeta m)) m).
Proof.
  unfold outcomes_by, GetExternalCreateSucceeded, GetExternalCreateFailed, SetExternalCreatePending. cbn [set_meta mgMeta].
  rewrite !annotation_AddAnnotations. repeat (case_decide; try done).
Qed.

Lemma version_pending (u : Time) (m : Managed) : version (set_meta (SetExternalCreatePending u (mgMeta m)) m) = version m.
Proof. unfold version, SetExternalCreatePending, AddAnnotations. cbn [set_meta mgMeta]. by destruct (Annotations (mgMeta m)). Qed.

Record world := MkWorld {
  wCur : Managed;            (* the version the API server holds *)
  wOld : list Managed;       (* earlier versions, which a cache may still hold *)
  wUnknown : bool;           (* Create was called and its outcome is not recorded *)
  wOutcome : Z;              (* no outcome was recorded later than this *)
  wClock : Z
}.

Definition versions (w : world) : list Managed := wCur w :: wOld w.

(** The object is a version the API server had, up to what does not concern creation. *)
Definition based (w : world) (m : Managed) : Prop :=
  exists v, v ∈ versions w /\ version m = version v /\ creation m = creation v.

Definition pushed (w : world) (m : Managed) : world := MkWorld m (versions w) (wUnknown w) (wOutcome w) (wClock w).

(** A new version is written: its resource version is new. *)
Definition written (w : world) (m : Managed) (w' : world) : Prop := (version m ∉ (version <$> versions w)) /\ w' = pushed w m.

(** Other writes: any number of new versions with the same creation annotations. *)
Inductive grows : world -> world -> Prop :=
| grows_refl w : grows w w
| grows_write w m w1 w2 : written w m w1 -> creation m = creation (wCur w) -> grows w1 w2 -> grows w w2.

Definition withUnknown (b : bool) (w : world) : world := MkWorld (wCur w) (wOld w) b (wOutcome w) (wClock w).
Definition withOutcome (t : Z) (w : world) : world := MkWorld (wCur w) (wOld w) (wUnknown w) t (wClock w).
Definition withClock (t : Z) (w : world) : world := MkWorld (wCur w) (wOld w) (wUnknown w) (wOutcome w) t.

(** ** What calls do to it *)

(** An update with optimistic concurrency: accepted for the current version only. *)
Definition updated (w : world) (m m' : Managed) (w' : world) : Prop :=
  version m = version (wCur w) /\ creation m' = creation m /\ written w m' w'.

(** The outcome is recorded: the annotations of [m] are written to the latest
    version, whatever that is. *)
Definition recorded (w : world) (m : Managed) (w' : world) : Prop :=
  exists m' w1 t, written w m' w1 /\ creation m' = creation m /\ outcomes_by t m' /\ (wOutcome w <= t)%Z /\
    w' = withUnknown false (withOutcome t w1).

(** A component is given the object: it may write to the API server, and gives
    back the object, or a later version of it, with the same creation annotations. *)
Definition component (w : world) (m : Managed) (x : Managed * option error) (w' : world) : Prop :=
  grows w w' /\ (x.2 = None -> creation x.1 = creation m /\ (based w m -> based w' x.1)).

Definition wstep (w : world) (ev : event meff) (w' : world) : Prop :=
  match ev with
  | @Ev _ X e x =>
      match e in meff Y return Y -> Prop with
      | EGet _ => fun '(m, err) =>
          (* a reconcile starts at least a second after the last recorded outcome *)
          exists t, w' = withClock t w /\ (wClock w <= t)%Z /\ (wOutcome w + second <= t)%Z /\ (second <= t)%Z /\
            (err = None -> m ∈ versions w)
      | EUpdate m => fun '(m', err) =>
          (* an update that is reported as failed may have been made *)
          if nil_err err then updated w m m' w' else w' = w \/ exists m1, updated w m m1 w'
      | EUpdateCriticalAnnotations m => fun '(_, err) =>
          if nil_err err then recorded w m w' else w' = w \/ recorded w m w'
      | EInitialize m => fun x => component w m x w'
      | EResolveReferences m => fun x => component w m x w'
      | EAddFinalizer m => fun x => component w m x w'
      | ERemoveFinalizer m => fun x => component w m x w'
      | EPublishConnection m _ => fun x => component w m x w'
      | EUnpublishConnection m _ => fun x => component w m x w'
      | EConnect m => fun x => component w m x w'
      | EObserve m => fun '(m', _, err) => component w m (m', err) w'
      | EStatusUpdate _ => fun _ => grows w w'
      | ECreate m => fun _ => w' = withUnknown true w
      | ENow => fun t => printable t = true /\ (wClock w <= instant t)%Z /\ w' = withClock (instant t) w
      | _ => fun _ => w' = w
      end x
  end.

(** A run of calls, between which others write. *)
Inductive performs (w : world) : list (event meff) -> world -> Prop :=
| performs_nil : performs w [] w
| performs_snoc tr w1 w2 ev w3 :
    performs w tr w1 -> grows w1 w2 -> wstep w2 ev w3 -> performs w (tr ++ [ev]) w3.

End creation.

Section lifecycle.
Context {KE : KErrors} {LP : LenientParser} (r : Reconciler) (req : string * string).

(** The calls of a reconcile, or of one that stopped before its end. *)
Definition attempt (tr : list (event meff)) : Prop := exists tr2 res, exec (Reconcile r req) (tr ++ tr2) res.

(** The worlds reconciles lead to. *)
Inductive reachable (w0 : world) : world -> Prop :=
| reachable_start : reachable w0 w0
| reachable_write w w' : reachable w0 w -> grows w w' -> reachable w0 w'
| reachable_attempt w tr w' : reachable w0 w -> attempt tr -> performs w tr w' -> reachable w0 w'.

(** ** Invariant *)

Record winv (w : world) : Prop := MkWinv {
  winv_versions : NoDup (version <$> versions w);
  winv_unknown : wUnknown w = true -> incomplete (wCur w) = true;
  winv_outcomes : Forall (outcomes_by (wOutcome w)) (versions w)
}.

Lemma based_current (w : world) (m : Managed) :
  winv w -> based w m -> version m = version (wCur w) -> creation m = creation (wCur w).
Proof.
  intros [Hn _ _] (v & Hv & Hver & ->) Hm. f_equal. apply (NoDup_fmap_inj version (versions w) v (wCur w) Hn Hv); [by left|congruence].
Qed.

Lemma based_outcomes (w : world) (m : Managed) : winv w -> based w m -> outcomes_by (wOutcome w) m.
Proof.
  intros Hw (v & Hv & _ & Hc). apply (outcomes_creation _ v); [done|]. pose proof (winv_outcomes w Hw) as H.
  rewrite Forall_forall in H. by apply H.
Qed.

Lemma written_inv (w : world) (m : Managed) (w' : world) :
  winv w -> written w m w' -> outcomes_by (wOutcome w) m -> (wUnknown w = true -> incomplete m = true) -> winv w'.
Proof.
  intros [Hn Hu Ho] [Hf ->] Hm Hi. split; cbn [pushed wUnknown wCur wOutcome versions wOld].
  - apply NoDup_cons. done.
  - done.
  - by constructor.
Qed.

Lemma written_based (w : world) (m m1 : Managed) (w' : world) : written w m w' -> based w m1 -> based w' m1.
Proof. intros [_ ->] (v & Hv & H). exists v. split; [by right|done]. Qed.

(** What stays when others write. *)
Lemma grows_spec (w w' : world) :
  grows w w' ->
  (winv w -> winv w') /\ creation (wCur w') = creation (wCur w) /\ wUnknown w' = wUnknown w /\ wOutcome w' = wOutcome w /\
  wClock w' = wClock w /\ (forall m, based w m -> based w' m).
Proof.
  induction 1 as [w|w m w1 w2 Hw Hc _ (I1 & I2 & I3 & I4 & I5 & I6)]; [done|].
  pose proof Hw as [_ ->]. split_and!; [|by rewrite I2|done..|].
  - intros Hi. apply I1. eapply written_inv; [done..| |].
    + eapply (outcomes_creation _ (wCur w)); [done|]. pose proof (winv_outcomes w Hi) as Ho. by apply Forall_cons in Ho as [? _].
    + intros Hu. rewrite (incomplete_creation m (wCur w)) by done. by apply winv_unknown.
  - intros m1 Hm. apply I6. by eapply written_based.
Qed.

(** ** What the reconciler does with the object *)

(** The monitor: the object as it was initialized; the object in hand, until the
    external resource is changed; whether the components kept its creation
    annotations; the last reading of the clock; the update that was accepted
    last; and whether an outcome was recorded. *)
Record cview := MkCView {
  cInit : option Managed; cHand : option Managed; cOk : bool; cNow : option Time;
  cUpdate : option (Managed * Managed); cRecorded : bool
}.

Definition moved (s : cview) (m m' : Managed) (err : option error) : cview :=
  match cHand s, err with
  | Some _, None => MkCView (cInit s) (Some m') (cOk s && bool_decide (creation m' = creation m)) (cNow s) None (cRecorded s)
  | _, _ => s
  end.

Definition released (s : cview) (rec : bool) : cview := MkCView (cInit s) None (cOk s) (cNow s) None rec.

Definition cstep (s : cview) (ev : event meff) : cview :=
  match ev with
  | @Ev _ X e x =>
      match e in meff Y return Y -> cview with
      | EGet _ => fun '(m', err) => if nil_err err then MkCView None (Some m') true None None false else MkCView None None true None None false
      | EInitialize _ => fun '(m', err) =>
          if nil_err err then MkCView (Some m') (Some m') true (cNow s) None (cRecorded s) else s
      | EResolveReferences m => fun '(m', err) => moved s m m' err
      | EConnect m => fun '(m', err) => moved s m m' err
      | EPublishConnection m _ => fun '(m', err) => moved s m m' err
      | EAddFinalizer m => fun '(m', err) => moved s m m' err
      | EObserve m => fun '(m', _, err) => moved s m m' err
      | EUpdate m => fun '(m', err) =>
          MkCView (cInit s) (cHand s) (cOk s) (cNow s) (if nil_err err then Some (m, m') else None) (cRecorded s)
      | ECreate _ => fun _ => released s (cRecorded s)
      | EExternalUpdate _ => fun _ => released s (cRecorded s)
      | EUpdateCriticalAnnotations _ => fun _ => released s true
      | ENow => fun t => MkCView (cInit s) (cHand s) (cOk s) (Some t) (cUpdate s) (cRecorded s)
      | _ => fun _ => s
      end x
  end.

Definition cview0 : cview := MkCView None None true None None false.

(** What is in hand, if anything, is this object. *)
Definition held (s : cview) (m : Managed) : Prop := match cHand s with Some h => h = m | None => True end.

(** The object in hand is the one that was found not to be in doubt. *)
Definition in_hand (s : cview) (m : Managed) : Prop :=
  cHand s = Some m /\ cRecorded s = false /\ exists mi, cInit s = Some mi /\ creation_known r mi /\ (cOk s = true -> creation m = creation mi).

Definition pending_of (s : cview) (m1 m : Managed) : Prop :=
  exists t, cNow s = Some t /\ m1 = set_meta (SetExternalCreatePending t (mgMeta m)) m.

(** The object is updated as it is in hand, or marked as pending, and Create is
    called on what an update that marked it returned. *)
Definition callowed (s : cview) (ev : event meff) : Prop :=
  match ev with
  | @Ev _ X e x =>
      match e with
      | EUpdate m1 => exists m, in_hand s m /\ (m1 = m \/ pending_of s m1 m)
      | ECreate m => exists m0 m1, in_hand s m0 /\ pending_of s m1 m0 /\ cUpdate s = Some (m1, m)
      | EInitialize m => cHand s = Some m
      | EResolveReferences m | EConnect m | EObserve m | EPublishConnection m _ | EAddFinalizer m => held s m
      | _ => True
      end
  end.

Abbreviation WPC := (wp cstep callowed).

(** A call that takes the object in hand on. *)
Lemma in_hand_moved (s : cview) (m m' : Managed) : in_hand s m -> in_hand (moved s m m' None) m'.
Proof.
  intros (Hh & Hr & mi & Hi & Hk & Hc). unfold moved. rewrite Hh. split; [done|]. split; [done|]. exists mi. split_and!; [done..|]. cbn.
  intros [Hok Hm%bool_decide_eq_true]%andb_true_iff. rewrite Hm. auto.
Qed.

Lemma wpc_quiet_mark (s : cview) m (cs : list (Z -> Condition)) : WPC (markConditions m cs) s (fun _ _ => True).
Proof.
  unfold markConditions. apply wp_bind. revert s. induction cs as [|c cs IH]; intros s; cbn; [done|].
  intros t. split; [done|]. apply wp_bind. eapply wp_mono; [apply IH|]. by intros s' [].
Qed.

Lemma wpc_mark {A} (s : cview) m (cs : list (Z -> Condition)) (f : Managed -> prog meff A) :
  (forall s m, WPC (f m) s (fun _ _ => True)) -> WPC (bind_prog f (markConditions m cs)) s (fun _ _ => True).
Proof. intros Hf. apply wp_bind. eapply wp_mono; [apply wpc_quiet_mark|]. by intros s' [m'|] _. Qed.

(** Run the rest of a stretch in which the object is not written. *)
Ltac crun :=
  repeat first
    [ done
    | progress cbn [wp mbind prog_bind bind_prog trigger mret prog_ret warn emit_event requeue returnWithStatus callowed]
    | apply wpc_mark; intros ? ?
    | match goal with
      | |- forall _, _ => intros ?
      | |- _ /\ _ => split; [exact I || done|]
      | |- context [match ?x with _ => _ end] => is_var x; destruct x
      | |- context [if ?b then _ else _] => destruct b
      end ].

(** What is in hand is held. *)
Lemma in_hand_held (s : cview) (m : Managed) : in_hand s m -> held s m.
Proof. intros [Hh _]. unfold held. by rewrite Hh. Qed.

Lemma wpc_reconcileUpdate (s : cview) m record policy obs pre :
  WPC (reconcileUpdate r m record policy obs pre) s (fun _ _ => True).
Proof. unfold reconcileUpdate. crun. Qed.

Lemma wpc_finalize (s : cview) m record details : WPC (finalize m record details) s (fun _ _ => True).
Proof. unfold finalize. crun. Qed.

Lemma wpc_reconcileDeleted (s : cview) m record policy obs pre : WPC (reconcileDeleted m record policy obs pre) s (fun _ _ => True).
Proof. unfold reconcileDeleted. destruct (_ && _); [crun|apply wpc_finalize]. Qed.

Lemma wpc_reconcileLateInit (s : cview) m record policy obs pre :
  in_hand s m -> WPC (reconcileLateInit r m record policy obs pre) s (fun _ _ => True).
Proof.
  intros Hm. unfold reconcileLateInit. destruct (_ && _); [|apply wpc_reconcileUpdate].
  intros [m1 err]. split; [exists m; auto|]. destruct err; [cbn [bind_prog]; crun|apply wpc_reconcileUpdate].
Qed.

Lemma wpc_createOutcome (s : cview) m record (creation : ExternalChange) err pre :
  WPC match err with Some e => createFailed m record creation e pre | None => createSucceeded m creation pre end s (fun _ _ => True).
Proof. destruct err; unfold createFailed, createSucceeded; crun. Qed.

Lemma wpc_reconcileCreate (s : cview) m record pre : in_hand s m -> WPC (reconcileCreate m record pre) s (fun _ _ => True).
Proof.
  intros Hm. unfold reconcileCreate. intros t. split; [done|]. intros [m1 err].
  assert (in_hand (cstep s (Ev ENow t)) m) as Hm' by exact Hm.
  assert (pending_of (cstep s (Ev ENow t)) (set_meta (SetExternalCreatePending t (mgMeta m)) m) m) as Hp by (by exists t).
  split; [exists m; auto|]. destruct err as [e|]; [cbn [bind_prog]; crun|].
  intros [[m2 ch] err2]. split; [|apply wpc_createOutcome].
  exists m. eexists. split_and!; [exact Hm'|exact Hp|done].
Qed.

Lemma wpc_reconcileExisting (s : cview) m record policy obs pre :
  in_hand s m -> WPC (reconcileExisting r m record policy obs pre) s (fun _ _ => True).
Proof.
  intros Hm. unfold reconcileExisting. intros [m1 [e|]]; (split; [by apply in_hand_held|]); [cbn [bind_prog]; crun|].
  pose proof (in_hand_moved s m m1 Hm) as H1. intros [m2 [e|]]; (split; [by apply in_hand_held|]); [cbn [bind_prog]; crun|].
  pose proof (in_hand_moved _ m1 m2 H1) as H2. cbn [mbind prog_bind bind_prog trigger].
  destruct (_ && _); [by apply wpc_reconcileCreate|by apply wpc_reconcileLateInit].
Qed.

Lemma wpc_reconcileConnected (s : cview) m record policy :
  in_hand s m -> WPC (reconcileConnected r m record policy) s (fun _ _ => True).
Proof.
  intros Hm. unfold reconcileConnected. intros [[m1 obs] [e|]]; (split; [by apply in_hand_held|]); [cbn [bind_prog]; crun|].
  pose proof (in_hand_moved s m m1 Hm) as H1. cbn [bind_prog mbind prog_bind trigger].
  destruct (_ && _); [crun|]. apply wp_bind.
  assert (forall within s', in_hand s' m1 -> WPC
    (if negb (ResourceExists obs) && within then
       bind_prog (fun _ => requeue m1 record)
         (emit_event record m1 TypeNormal "PendingExternalResource" "Waiting for external resource existence to be confirmed")
     else if WasDeleted (mgMeta m1) then reconcileDeleted m1 record policy obs m1
     else reconcileExisting r m1 record policy obs m1) s' (fun _ _ => True)) as Hrest.
  { intros within s' Hs. destruct (_ && within); [crun|]. destruct (WasDeleted _); [apply wpc_reconcileDeleted|by apply wpc_reconcileExisting]. }
  destruct (_ && _); [intros now; split; [done|]|]; apply Hrest; exact H1.
Qed.

Lemma wpc_disconnect (s : cview) (out : Out) : WPC (disconnect out) s (fun _ _ => True).
Proof. unfold disconnect. crun. Qed.

Lemma wpc_reconcileConnect (s : cview) m record policy :
  in_hand s m -> WPC (reconcileConnect r m record policy) s (fun _ _ => True).
Proof.
  intros Hm. unfold reconcileConnect. intros [m1 [e|]]; (split; [by apply in_hand_held|]); [cbn [bind_prog]; crun|].
  cbn [mbind prog_bind bind_prog trigger wp]. apply wp_bind. eapply wp_mono; [apply wpc_reconcileConnected; by apply in_hand_moved|].
  intros s' [out|] _; [apply wpc_disconnect|done].
Qed.

Lemma reconcile_wpc : WPC (Reconcile r req) cview0 (fun _ _ => True).
Proof.
  unfold Reconcile. intros [m [e|]]; (split; [done|]); [done|]. cbn [mbind prog_bind bind_prog trigger wp]. apply wp_bind.
  eapply (wp_mono _ _ _ _ (fun _ _ => True)); [|by intros s' [] _]. unfold reconcileManaged. intros ?; split; [done|].
  cbn [mbind prog_bind bind_prog trigger wp]. destruct (_ || _); [crun|]. destruct (pValidate _) as [e|]; [crun|].
  destruct (_ && _); [apply wpc_finalize|]. unfold reconcileInitialize. intros [m1 [e|]]; (split; [done|]); [cbn [bind_prog]; crun|].
  cbn [mbind prog_bind bind_prog trigger wp]. destruct (ExternalCreateIncomplete (mgMeta m1) && negb (deterministicExternalName r)) eqn:E; [crun|].
  assert (creation_known r m1) as Hk by (apply andb_false_iff in E as [E|E%negb_false_iff]; [by left|by right]).
  assert (in_hand (cstep (cstep (cstep cview0 (Ev (EGet req) (m, None))) (Ev (EMetric FirstTimeReconciled m) x)) (Ev (EInitialize m) (m1, None))) m1) as Hm.
  { split; [done|]. split; [done|]. by exists m1. }
  unfold reconcileResolve. destruct (WasDeleted (mgMeta m1)); cbn [negb]; [by apply wpc_reconcileConnect|].
  intros [m2 [e|]]; (split; [by apply in_hand_held|]); [cbn [bind_prog]; crun|]. apply wpc_reconcileConnect. by apply in_hand_moved.
Qed.

(** ** The reconciler in the world *)

(** What the reconciler knows of the world. *)
Record sim (s : cview) (w : world) : Prop := MkSim {
  sim_ok : cOk s = true;
  sim_hand m : cHand s = Some m -> based w m /\ cRecorded s = false;
  sim_now t : cNow s = Some t -> printable t = true /\ wClock w = instant t;
  sim_clock : cHand s <> None -> cRecorded s = false -> (wOutcome w + second <= wClock w)%Z /\ (second <= wClock w)%Z;
  sim_update m1 m' : cUpdate s = Some (m1, m') ->
    creation (wCur w) = creation m1 /\ (cHand s = Some m1 \/ wUnknown w = false)
}.

Lemma sim_grows (s : cview) (w w' : world) : sim s w -> grows w w' -> sim s w'.
Proof using LP.
  intros [Ho Hh Hn Hc Hu] Hg. destruct (grows_spec _ _ Hg) as (_ & G2 & G3 & G4 & G5 & G6). split; rewrite ?G2, ?G3, ?G4, ?G5; [done| |done..].
  intros m Hm. destruct (Hh m Hm). auto.
Qed.

(** A component takes the object in hand on. *)
Lemma sim_component (s : cview) (w w' : world) m m' err :
  sim s w -> held s m -> component w m (m', err) w' -> sim (moved s m m' err) w'.
Proof using LP.
  intros Hs Hm [Hg Hx]. pose proof (sim_grows _ _ _ Hs Hg) as Hs'. unfold moved, held in *.
  destruct (cHand s) as [h|] eqn:Eh; [|done]. subst h. destruct err as [err|]; [done|]. cbn [fst snd] in Hx.
  destruct (Hx eq_refl) as [Hcr Hb]. destruct (sim_hand _ _ Hs m Eh) as [Hb0 Hrec]. destruct Hs' as [Ho _ Hn Hc _].
  split; cbn [cOk cHand cNow cUpdate cRecorded]; [| |done| |done].
  - rewrite Ho. by apply bool_decide_eq_true_2.
  - intros ? [= <-]. auto.
  - intros _. apply Hc. by rewrite Eh.
Qed.

(** What marking as pending means in this world. *)
Lemma pending_incomplete_world (s : cview) (w : world) m m1 :
  winv w -> sim s w -> in_hand s m -> pending_of s m1 m -> incomplete m1 = true.
Proof.
  intros Hw Hs [Hm [Hr _]] (t & Ht & ->). destruct (sim_now _ _ Hs t Ht) as [Hp Hc].
  destruct (sim_clock _ _ Hs ltac:(by rewrite Hm) Hr) as [H1 H2]. destruct (sim_hand _ _ Hs m Hm) as [Hb _].
  destruct (based_outcomes w m Hw Hb) as [O1 O2]. apply (pending_incomplete (mgMeta m) t); [done|lia|].
  unfold truncate. rewrite Hc in *. pose proof (Z.div_mod (instant t) second ltac:(done)) as Hd.
  pose proof (Z.mod_pos_bound (instant t) second ltac:(done)) as Hb'. lia.
Qed.

(** The object in hand is not in doubt. *)
Lemma in_hand_complete (s : cview) (w : world) m :
  deterministicExternalName r = false -> sim s w -> in_hand s m -> incomplete m = false.
Proof.
  intros Hdet Hs (_ & _ & mi & _ & [Hk|Hk] & Hc); [|congruence]. by rewrite (incomplete_creation m mi) by apply Hc, Hs.
Qed.

(** An update of the object in hand, or of it marked as pending, that is made. *)
Lemma updated_inv (s : cview) (w w' : world) m m1 m' :
  deterministicExternalName r = false -> winv w -> sim s w -> in_hand s m -> (m1 = m \/ pending_of s m1 m) -> updated w m1 m' w' ->
  winv w' /\ creation (wCur w') = creation m1 /\ (cHand s = Some m1 \/ wUnknown w' = false).
Proof.
  intros Hdet Hw Hs Hm Hm1 (Hv & Hcr & Hwr). pose proof (proj1 (sim_hand _ _ Hs m (proj1 Hm))) as Hb.
  assert (version m1 = version m) as Hv1 by (destruct Hm1 as [->|(t & _ & ->)]; [done|apply version_pending]).
  assert (creation m = creation (wCur w)) as Hcm by (apply based_current; [done..|congruence]).
  assert (outcomes_by (wOutcome w) m1) as Hout.
  { pose proof (based_outcomes w m Hw Hb). destruct Hm1 as [->|(t & _ & ->)]; [done|by apply outcomes_pending]. }
  assert (m1 = m \/ wUnknown w = false) as Hcase.
  { destruct Hm1 as [->|_]; [by left|right]. apply not_true_is_false. intros Hu. apply (winv_unknown w Hw) in Hu.
    rewrite <- (incomplete_creation m (wCur w)), (in_hand_complete s w m) in Hu by done. done. }
  split_and!.
  - eapply written_inv; [done..|by eapply outcomes_creation|]. intros Hu. destruct Hcase as [->|H]; [|congruence].
    rewrite (incomplete_creation m' (wCur w)) by congruence. by apply winv_unknown.
  - destruct Hwr as [_ ->]. done.
  - destruct Hwr as [_ ->]. destruct Hcase as [->|H]; [left; apply Hm|by right].
Qed.

(** Recording the outcome settles it. *)
Lemma recorded_inv (w w' : world) m : winv w -> recorded w m w' -> winv w' /\ wClock w' = wClock w.
Proof.
  intros [Hn _ Ho] (m' & w1 & t & [Hf ->] & _ & Hout & Hle & ->). split; [|done].
  split; cbn [withUnknown withOutcome pushed wUnknown wCur wOld wOutcome versions]; [by apply NoDup_cons|done|].
  constructor; [done|]. eapply Forall_impl; [exact Ho|]. intros v [H1 H2]. split; lia.
Qed.

Lemma winv_clock (t : Z) (w : world) : winv w -> winv (withClock t w).
Proof. by intros []. Qed.

Lemma sim_released (s : cview) (w : world) (rec : bool) :
  cOk s = true -> (forall t, cNow s = Some t -> printable t = true /\ wClock w = instant t) -> sim (released s rec) w.
Proof. intros Ho Hn. by split. Qed.

Definition creates_at (ev : event meff) : bool := match ev with @Ev _ X e _ => match e with ECreate _ => true | _ => false end end.

Lemma sim_step (s : cview) (w w' : world) (ev : event meff) :
  deterministicExternalName r = false -> winv w -> sim s w -> callowed s ev -> wstep w ev w' ->
  winv w' /\ sim (cstep s ev) w' /\ (creates_at ev = true -> wUnknown w = false).
Proof.
  intros Hdet Hw Hs Ha Hst.
  assert (forall w1, grows w w1 -> winv w1 /\ sim s w1) as Hg.
  { intros w1 H. split; [by apply (grows_spec w w1)|by eapply sim_grows]. }
  assert (forall m x w1, held s m -> component w m x w1 -> winv w1 /\ sim (moved s m x.1 x.2) w1) as Hcomp.
  { intros m [m' err] w1 Hh Hc. split; [apply Hg, Hc|by eapply sim_component]. }
  destruct ev as [X e x]. destruct e; cbn [wstep cstep callowed creates_at] in *;
    try (subst w'; by split_and!);
    try (destruct x as [m' err]; destruct (Hcomp _ _ _ Ha Hst); by split_and!);
    try (destruct (Hg _ Hst); by split_and!);
    try (destruct (Hg _ (proj1 Hst)); by split_and!).
  - destruct x as [m' err], Hst as (t & -> & H1 & H2 & H3 & Hm). split_and!; [by apply winv_clock| |done].
    destruct err as [e|]; [by split|]. cbn [nil_err]. specialize (Hm eq_refl).
    split; cbn [cOk cHand cNow cUpdate cRecorded]; try done. intros m [= <-]. split; [|done]. by exists m'.
  - destruct x as [m' err], Ha as (h & Hh & Hm1). destruct err as [e|]; cbn [nil_err] in *.
    + destruct Hst as [->|[m1 Hu]].
      * split_and!; [done| |done]. destruct Hs. by split.
      * destruct (updated_inv s w w' h m m1) as (H1 & _); [done..|]. split_and!; [done| |done].
        destruct Hu as (_ & _ & Hwr), Hs as [Ho Hha Hn Hc _]. pose proof Hwr as [_ ->]. split; [done| |done..].
        intros m2 Hm2. destruct (Hha m2 Hm2). split; [by eapply written_based|done].
    + destruct (updated_inv s w w' h m m') as (H1 & H2 & H3); [done..|]. split_and!; [done| |done].
      destruct Hst as (_ & _ & Hwr), Hs as [Ho Hha Hn Hc _]. pose proof Hwr as [_ ->]. split; [done| |done..|].
      * intros m2 Hm2. destruct (Hha m2 Hm2). split; [by eapply written_based|done].
      * intros m1 m2 [= <- <-]. done.
  - destruct x as [m' err], (Hcomp m (m', err) w') as [H1 H2]; [unfold held; by rewrite Ha|done|]. split_and!; [done| |done].
    destruct err as [e|]; [by apply Hg, Hst|]. cbn [nil_err]. cbn [fst snd] in H2. unfold moved in H2. rewrite Ha in H2.
    destruct H2 as [Ho Hha Hn Hc _]. by split.
  - destruct x as [m' err]. assert (w' = w \/ recorded w m w') as [->|Hrec] by (destruct err; cbn in Hst; auto).
    + split_and!; [done|apply sim_released; apply Hs|done].
    + destruct (recorded_inv w w' m Hw Hrec) as [H1 H2]. split_and!; [done| |done]. apply sim_released; [apply Hs|].
      rewrite H2. apply Hs.
  - destruct x as [[m' obs] err]. destruct (Hcomp m (m', err) w') as [H1 H2]; [done..|]. by split_and!.
  - destruct Ha as (m0 & m1 & Hh & Hp & Hup). pose proof (pending_incomplete_world s w m0 m1 Hw Hs Hh Hp) as Hinc.
    destruct (sim_update _ _ Hs _ _ Hup) as [Hcur Hcase]. subst w'. split_and!.
    + destruct Hw as [Hn _ Ho]. split; [done| |done]. intros _. cbn [withUnknown wCur]. by rewrite (incomplete_creation _ m1).
    + apply sim_released; apply Hs.
    + intros _. destruct Hcase as [Hh1|]; [|done]. destruct Hh as [Hh0 Hrest]. rewrite Hh0 in Hh1. injection Hh1 as <-.
      rewrite (in_hand_complete s w m0) in Hinc; done.
  - subst w'. split_and!; [done|apply sim_released; apply Hs|done].
  - destruct Hst as (Hp & Hle & ->), Hs as [Ho Hh Hn Hc Hu]. split_and!; [by apply winv_clock| |done].
    split; cbn [cOk cHand cNow cUpdate cRecorded withClock wClock wOutcome wCur wUnknown]; [done|done| | |done].
    + by intros t [= <-].
    + intros H1 H2. destruct (Hc H1 H2). lia.
Qed.

(** The invariant holds in every world reconciles lead to, and no Create is
    called while an outcome is missing. *)
Lemma performs_inv (w w' : world) (tr : list (event meff)) :
  deterministicExternalName r = false -> winv w -> attempt tr -> performs w tr w' ->
  winv w' /\ sim (foldl cstep cview0 tr) w'.
Proof.
  intros Hdet Hw Hat Hp. revert Hat. induction Hp as [|tr w1 w2 ev w3 _ IH Hg Hst]; intros (tr2 & res & He).
  - split; [done|]. by split.
  - rewrite <- app_assoc in He. destruct IH as [Hw1 Hs1]; [by exists (ev :: tr2), res|].
    pose proof (proj1 (wp_sound _ _ _ _ _ _ _ reconcile_wpc He) tr ev tr2 eq_refl) as Hc.
    rewrite foldl_app. cbn [foldl].
    destruct (sim_step (foldl cstep cview0 tr) w2 w3 ev) as (H1 & H2 & _); [done|by apply (grows_spec w1)|by eapply sim_grows|done..].
Qed.

Lemma reachable_inv (w0 w : world) : deterministicExternalName r = false -> winv w0 -> reachable w0 w -> winv w.
Proof.
  intros Hdet Hw. induction 1 as [|w w' _ IH Hg|w tr w' _ IH Hat Hp]; [done|by apply (grows_spec w)|by eapply performs_inv].
Qed.

(** C1: over any sequence of reconciles of an object, each of which may stop at
    any call and may start from an outdated version, and whatever other writers
    do that leave the creation annotations alone, Create is called only when
    the outcome of every earlier Create is recorded in the API server. This is
    for external names that are not deterministic, and if reconciles start at
    least a second after the outcome that was recorded last. *)
Theorem no_create_in_doubt (w0 w w1 w2 : world) (tr : list (event meff)) m x :
  deterministicExternalName r = false -> winv w0 -> reachable w0 w ->
  attempt (tr ++ [Ev (ECreate m) x]) -> performs w tr w1 -> grows w1 w2 ->
  wUnknown w2 = false.
Proof.
  intros Hdet Hw0 Hreach (tr2 & res & He) Hp Hg. pose proof (reachable_inv w0 w Hdet Hw0 Hreach) as Hw. rewrite <- app_assoc in He.
  destruct (performs_inv w w1 tr Hdet Hw) as [Hw1 Hs1]; [by exists ([Ev (ECreate m) x] ++ tr2), res|done|].
  pose proof (proj1 (wp_sound _ _ _ _ _ _ _ reconcile_wpc He) tr _ tr2 eq_refl) as Hc.
  destruct (sim_step (foldl cstep cview0 tr) w2 (withUnknown true w2) (Ev (ECreate m) x)) as (_ & _ & H);
    [done|by apply (grows_spec w1)|by eapply sim_grows|done|done|]. by apply H.
Qed.

End lifecycle.

(** ** A first life *)

#[local] Instance lifeKE : KErrors := KErrorsStd.
#[local] Instance lifeLP : LenientParser := fun _ => None.

Definition newborn : Managed := demoObject false ["*"] ∅.

(** The API server gives an updated object its second version. *)
Definition second_version (m : Managed) : Managed :=
  let o := mgMeta m in
  set_meta (MkObjectMeta (Name o) (Namespace o) (UID o) (Generation o) "2" (Labels o) (Annotations o) (Finalizers o)
              (OwnerReferences o) (DeletionTimestamp o) (CreationTimestamp o)) m.

Definition lifeOracle (X : Type) (i : nat) (e : meff X) : X :=
  match e in meff Y return Y -> Y with
  | EUpdate m => fun _ => (second_version m, None)
  | _ => fun x => x
  end (demoOracle newborn (demoObservation false false) X i e).

Definition lifeRun : list (event meff) * option (Result * option error) :=
  run_with lifeOracle 0 (Reconcile demoReconciler ("", "db")).

Definition birth : world := MkWorld newborn [] false 0 (instant demoTime).

(** The object of the first version, marked as pending. *)
Definition expectant : Managed := second_version (set_meta (SetExternalCreatePending demoTime (mgMeta newborn)) newborn).

Lemma performs_take (w w1 w2 : world) (l : list (event meff)) (n : nat) (ev : event meff) :
  performs w (take n l) w1 -> l !! n = Some ev -> wstep w1 ev w2 -> performs w (take (S n) l) w2.
Proof. intros Hp Hn Hs. rewrite (take_S_r l n ev) by done. eapply performs_snoc; [done|constructor|done]. Qed.

Lemma component_refl (w : world) (m : Managed) : component w m (m, None) w.
Proof. split; [constructor|done]. Qed.

Lemma birth_inv : winv birth.
Proof. split; [apply NoDup_singleton|done|]. repeat constructor; vm_compute; discriminate. Qed.

Lemma lifeRun_performs : performs birth (take 10 lifeRun.1) (pushed birth expectant).
Proof.
  eapply performs_take with (w1 := birth); [|vm_compute; reflexivity|].
  - repeat match goal with
           | |- performs _ (take (S _) _) _ =>
               eapply performs_take with (w1 := birth); [|vm_compute; reflexivity|first [apply component_refl|reflexivity|idtac]]
           end; [constructor| |].
    + exists (instant demoTime). split_and!; [reflexivity|vm_compute; discriminate..|]. intros _. by left.
    + split_and!; [reflexivity|vm_compute; discriminate|reflexivity].
  - split_and!; [reflexivity..|]. split; [|vm_compute; reflexivity]. vm_compute. intros H. by apply list_elem_of_singleton in H.
Qed.

Lemma no_create_in_doubt_witness : wUnknown (pushed birth expectant) = false.
Proof.
  eapply (no_create_in_doubt demoReconciler ("", "db") birth birth _ _ (take 10 lifeRun.1));
    [reflexivity|exact birth_inv|constructor| |exact lifeRun_performs|constructor].
  exists (drop 11 lifeRun.1), lifeRun.2. rewrite <- app_assoc. cbn [app].
  erewrite (take_drop_middle lifeRun.1 10); [apply run_with_exec|vm_compute; reflexivity].
Defined.
