(* ===== verification/Convergence.v ===== *)
(** * Convergence

    What reconciles achieve together.  [cluster] is an API server and an
    external system that do what they are asked: every call succeeds, an update
    is stored, Create creates, Update brings up to date, Delete deletes, and
    nothing is late initialized.  The clock may show any time that can be
    printed, as long as it does not go back.  In a cluster,
    reconciling an object over and over brings its external resource about and
    keeps it, or deletes it and releases the object. *)

From S2P Require Import Prelude GoErrors GoTime Json Conditions Meta Policies Prog Managed ManagedReconciler ManagedSafety.

Record cluster := MkCluster {
  cObject : option Managed;     (* the object in the API server, until it is gone *)
  cExternal : option bool;      (* the external resource, if any: is it up to date *)
  cReads : nat                  (* how often the clock was read *)
}.

Section cluster.
Context {KE : KErrors} {LP : LenientParser}.

(** What the clock shows when it is read for the [n]th time, whether a resource
    is up to date once it is created, and the reconciler's finalizer. *)
Context (clock : nat -> Time) (fresh : bool) (finalizer : string).
Implicit Types (c : cluster) (m : Managed).

Definition store m c : cluster := MkCluster (Some m) (cExternal c) (cReads c).
Definition withExternal (x : option bool) c : cluster := MkCluster (cObject c) x (cReads c).
Definition withReads (n : nat) c : cluster := MkCluster (cObject c) (cExternal c) n.

Definition observation c : ExternalObservation :=
  MkObservation (bool_decide (is_Some (cExternal c))) (default false (cExternal c)) false ∅ "".

(** An object that is being deleted is gone when its last finalizer is. *)
Definition release m c : cluster :=
  match filter (fun f => f <> finalizer) (Finalizers (mgMeta m)) with
  | [] => MkCluster None (cExternal c) (cReads c)
  | fs => store (set_meta (SetFinalizers fs (mgMeta m)) m) c
  end.

Definition answer c {X} (e : meff X) : X * cluster :=
  match e in meff Y return Y * cluster with
  | EGet _ => (match cObject c with
               | Some m => (m, None)
               | None => (MkManaged (MkObjectMeta "" "" "" 0 "" None None [] [] None (MkTime 0 0)) [] [] "" None ANil ANil,
                          Some (statusError "NotFound" "not found"))
               end, c)
  | EUpdate m | EUpdateCriticalAnnotations m => ((m, None), store m c)
  | EStatusUpdate m =>
      match cObject c with
      | Some o => let o := set_conditions (mgConditions m) o in ((o, None), store o c)
      | None => ((m, None), c)
      end
  | EAddFinalizer m => let m := set_meta (AddFinalizer finalizer (mgMeta m)) m in ((m, None), store m c)
  | ERemoveFinalizer m => ((m, None), release m c)
  | EInitialize m | EResolveReferences m | EConnect m | EPublishConnection m _ | EUnpublishConnection m _ => ((m, None), c)
  | EDisconnectConnector | EDisconnectClient | EChangeLog _ _ _ _ => (None, c)
  | EObserve m => ((m, observation c, None), c)
  | ECreate m => ((m, noChange, None), withExternal (Some fresh) c)
  | EExternalUpdate m => ((m, noChange, None), withExternal (Some true) c)
  | EDelete m => ((m, noChange, None), withExternal None c)
  | EEvent _ _ _ _ _ | EMetric _ _ => (tt, c)
  | EPollInterval _ i => (i, c)
  | ENow => (clock (cReads c), withReads (S (cReads c)) c)
  end.

(** A program run in the cluster. *)
Fixpoint run {A} c (p : prog meff A) : option A * cluster :=
  match p with
  | Ret a => (Some a, c)
  | Panic _ => (None, c)
  | Vis e k => let '(x, c') := answer c e in run c' (k x)
  end.

(** ** Programs that end in a state *)

Definition ends {A} c (p : prog meff A) (Q : A -> cluster -> Prop) : Prop :=
  match run c p with (Some a, c') => Q a c' | (None, _) => False end.

Lemma ends_bind {A B} c (p : prog meff A) (f : A -> prog meff B) (Q : B -> cluster -> Prop) :
  ends c p (fun a c' => ends c' (f a) Q) -> ends c (bind_prog f p) Q.
Proof.
  unfold ends. revert c. induction p as [a|why|X e k IH]; intros c; cbn; [done..|]. destruct (answer c e) as [x c']. apply IH.
Qed.

Lemma ends_mono {A} c (p : prog meff A) (Q Q' : A -> cluster -> Prop) :
  ends c p Q -> (forall a c', Q a c' -> Q' a c') -> ends c p Q'.
Proof. unfold ends. destruct (run c p) as [[a|] c']; auto. Qed.

Lemma ends_call {X A} c (e : meff X) (k : X -> prog meff A) (Q : A -> cluster -> Prop) :
  ends (answer c e).2 (k (answer c e).1) Q -> ends c (Vis e k) Q.
Proof. unfold ends. cbn. by destruct (answer c e). Qed.

Lemma ends_ret {A} c (a : A) (Q : A -> cluster -> Prop) : Q a c -> ends c (Ret a) Q.
Proof. done. Qed.

Ltac call :=
  cbn [mbind prog_bind bind_prog trigger mret prog_ret warn emit_event requeue];
  refine (ends_call _ _ _ _ _); cbn [answer fst snd mbind prog_bind bind_prog trigger mret prog_ret].

(** Conditions that were made of [cs]. *)
Definition made (conds : list Condition) (cs : list (Z -> Condition)) : Prop := Forall2 (fun cond k => exists t, cond = k t) conds cs.

Lemma ends_timed c (cs : list (Z -> Condition)) (Q : list Condition -> cluster -> Prop) :
  (forall conds n, cReads c <= n -> made conds cs -> Q conds (withReads n c)) -> ends c (timed cs) Q.
Proof.
  revert c Q. induction cs as [|k cs IH]; intros c Q HQ; cbn.
  - unfold ends. cbn. specialize (HQ [] (cReads c) ltac:(lia) ltac:(by constructor)). by destruct c.
  - unfold ends. cbn. fold (ends (withReads (S (cReads c)) c) (bind_prog (fun l => mret (k (instant (clock (cReads c))) :: l)) (timed cs)) Q).
    apply ends_bind, IH. intros conds n Hn Hm. cbn in *. unfold ends. cbn. apply (HQ _ n); [lia|]. constructor; [by eexists|done].
Qed.

Lemma ends_mark {A} c m (cs : list (Z -> Condition)) (f : Managed -> prog meff A) (Q : A -> cluster -> Prop) :
  (forall conds n, cReads c <= n -> made conds cs ->
     ends (withReads n c) (f (set_conditions (MarkConditions (Generation (mgMeta m)) conds (mgConditions m)) m)) Q) ->
  ends c (markConditions m cs ≫= f) Q.
Proof. intros HQ. apply ends_bind. unfold markConditions. apply ends_bind, ends_timed. intros conds n Hn Hm. by apply HQ. Qed.

Definition synced m : Prop := CStatus (GetCondition TypeSynced (mgConditions m)) = ConditionTrue.

Lemma synced_marked gen (s : ConditionedStatus) (conds : list Condition) (cs : list (Z -> Condition)) :
  made conds (cs ++ [ReconcileSuccess]) -> CStatus (GetCondition TypeSynced (MarkConditions gen conds s)) = ConditionTrue.
Proof.
  intros (l1 & l2 & _ & Hr & ->)%Forall2_app_inv_r. apply Forall2_cons_inv_r in Hr as (k & l & (t & ->) & Hl & ->).
  apply Forall2_nil_inv_r in Hl as ->. unfold MarkConditions. rewrite fmap_app.
  change (CStatus (erase (GetCondition TypeSynced (SetConditions ((WithObservedGeneration gen <$> l1) ++ [WithObservedGeneration gen (ReconcileSuccess t)]) s))) = ConditionTrue).
  rewrite SetConditions_get. generalize (GetCondition TypeSynced s) as d.
  induction l1 as [|x l1 IH]; intros d; [done|]. apply IH.
Qed.

(** ** One reconcile *)

Context (r : Reconciler) (req : string * string).

(** An object the reconciler acts on. *)
Record followed m : Prop := MkFollowed {
  followed_paused : IsPaused (mgMeta m) = false;
  followed_known : creation_known r m;
  followed_active : pIsPaused (newPolicy r m) = false;
  followed_valid : pValidate (newPolicy r m) = None
}.

(** An object whose external resource is to exist. *)
Record wanted m : Prop := MkWanted {
  wanted_followed :> followed m;
  wanted_alive : WasDeleted (mgMeta m) = false;
  wanted_create : pShouldCreate (newPolicy r m) = true;
  wanted_update : pShouldUpdate (newPolicy r m) = true
}.

(** An object that is being deleted, and its external resource with it. *)
Record unwanted m : Prop := MkUnwanted {
  unwanted_followed :> followed m;
  unwanted_deleted : WasDeleted (mgMeta m) = true;
  unwanted_delete : pShouldDelete (newPolicy r m) = true
}.

(** The stretches before Observe. *)
Lemma ends_until_observe c m (Q : Result * option error -> cluster -> Prop) :
  cObject c = Some m -> followed m -> (WasDeleted (mgMeta m) = true -> pShouldDelete (newPolicy r m) = true) ->
  ends c (reconcileConnected r m (GetExternalName (mgMeta m)) (newPolicy r m))
    (fun out c' => Q (SilentlyRequeueOnConflict (outResult out) (outErr out)) c') ->
  ends c (Reconcile r req) Q.
Proof.
  intros Ho [H1 H3 H4 H5] Hd HQ. unfold Reconcile. call. rewrite Ho. cbn [bind_prog]. apply ends_bind.
  unfold reconcileManaged. call. rewrite H1, H4, H5. cbn [orb andb].
  assert (WasDeleted (mgMeta m) && negb (pShouldDelete (newPolicy r m)) = false) as ->.
  { destruct (WasDeleted _); [by rewrite Hd|done]. }
  unfold reconcileInitialize. call. rewrite (known_proceeds r m H3).
  assert (ends c (reconcileConnect r m (GetExternalName (mgMeta m)) (newPolicy r m))
    (fun out c' => ends c' (mret (SilentlyRequeueOnConflict (outResult out) (outErr out))) Q)).
  { unfold reconcileConnect. call. apply ends_bind. eapply ends_mono; [exact HQ|].
    intros out c' H. unfold disconnect. do 2 call. exact H. }
  unfold reconcileResolve. destruct (negb _); [by call|done].
Qed.

(** ** A resource that is wanted *)

(** It exists, is up to date or not, and is protected. *)
Definition settled (x : bool) c : Prop :=
  cExternal c = Some x /\ exists m, cObject c = Some m /\ wanted m /\ finalizer ∈ Finalizers (mgMeta m) /\ synced m.

(** What marking, adding the finalizer and recording do not change. *)
Lemma wanted_meta m (o : ObjectMeta) :
  wanted m -> IsPaused o = IsPaused (mgMeta m) -> WasDeleted o = WasDeleted (mgMeta m) -> creation_known r (set_meta o m) -> wanted (set_meta o m).
Proof. intros [[H1 H2 H3 H4] H5 H6 H7] Hp Hd Hk. split; [split; [by rewrite <- H1|done..]|by rewrite <- H5|done..]. Qed.

Lemma wanted_conditions m (conds : ConditionedStatus) : wanted m -> wanted (set_conditions conds m).
Proof. intros [[H1 H2 H3 H4] H5 H6 H7]. by repeat split. Qed.

Lemma wanted_finalizer m : wanted m -> wanted (set_meta (AddFinalizer finalizer (mgMeta m)) m).
Proof.
  intros Hm. unfold AddFinalizer. destruct (existsb _ _); (apply wanted_meta; [done..|]); exact (followed_known m Hm).
Qed.

Lemma wanted_created m (t t' : Time) :
  wanted m -> printable t = true -> printable t' = true -> (second <= instant t <= instant t')%Z ->
  wanted (set_meta (SetExternalCreateSucceeded t' (SetExternalCreatePending t (mgMeta m))) m).
Proof.
  intros Hm Ht Ht' Hs. apply wanted_meta; [done|..].
  - unfold IsPaused, SetExternalCreateSucceeded, SetExternalCreatePending. by rewrite !annotation_AddAnnotations.
  - unfold WasDeleted, SetExternalCreateSucceeded, SetExternalCreatePending, AddAnnotations. by destruct (Annotations (mgMeta m)).
  - left. cbn [set_meta mgMeta]. exact (proj1 (outcome_complete (mgMeta m) t t' Ht Ht' Hs)).
Qed.

Lemma finalizer_added (o : ObjectMeta) : finalizer ∈ Finalizers (AddFinalizer finalizer o).
Proof. apply FinalizerExists_elem. unfold AddFinalizer. destruct (existsb _ _) eqn:E; [done|]. apply FinalizerExists_elem. cbn. set_solver. Qed.

Lemma finalizers_annotated (a : gmap string string) (o : ObjectMeta) : Finalizers (AddAnnotations a o) = Finalizers o.
Proof. unfold AddAnnotations. by destruct (Annotations o). Qed.

(** An object that is marked as synced and reported. *)
Lemma ends_settled c m m1 record (result : Result) (x : bool) (cs : list (Z -> Condition)) (conds : list Condition) gen s n :
  made conds (cs ++ [ReconcileSuccess]) -> cObject c = Some m1 -> cExternal c = Some x -> wanted m1 -> finalizer ∈ Finalizers (mgMeta m1) ->
  ends (withReads n c) (returnWithStatus result (set_conditions (MarkConditions gen conds s) m) record) (fun _ => settled x).
Proof.
  intros Hc Ho Hx Hm Hf. unfold returnWithStatus. call. cbn [withReads cObject]. rewrite Ho. cbn. split; [done|]. eexists. split; [done|].
  split_and!; [by apply wanted_conditions|done|by eapply synced_marked].
Qed.

(** A resource that exists is up to date in the end. *)
Lemma reconcile_existing c m (x : bool) :
  cObject c = Some m -> wanted m -> cExternal c = Some x -> ends c (Reconcile r req) (fun _ => settled true).
Proof.
  intros Ho Hm Hx. eapply ends_until_observe; [done|apply Hm|by rewrite (wanted_alive m Hm)|]. unfold reconcileConnected. call.
  unfold observation. rewrite Hx. cbn [ResourceExists negb andb]. rewrite bool_decide_eq_true_2 by done. cbn [negb andb bind_prog].
  rewrite (wanted_alive m Hm). unfold reconcileExisting. do 2 call. cbn [ResourceExists negb andb]. unfold reconcileLateInit, reconcileUpdate.
  cbn [ResourceLateInitialized ResourceUpToDate default andb].
  set (m1 := set_meta (AddFinalizer finalizer (mgMeta m)) m).
  assert (wanted m1) as Hm1 by by apply wanted_finalizer.
  destruct x.
  - call. apply ends_mark. intros conds n _ Hc. do 2 call. by eapply (ends_settled _ _ m1 _ _ _ []); [..|apply finalizer_added].
  - rewrite (wanted_update m Hm). cbn [negb]. do 6 call. apply ends_mark. intros conds n _ Hc.
    by eapply (ends_settled _ _ m1 _ _ _ []); [..|apply finalizer_added].
Qed.

(** The grace period after a creation is over, whenever the clock is read next. *)
Definition grace_over (n : nat) m : Prop :=
  forall k, n <= k -> ExternalCreateSucceededDuring (clock k) (mgMeta m) (creationGracePeriod r) = false.

(** Waiting for a resource that was created to be seen. *)
Lemma ends_grace {A} c m (f : bool -> prog meff A) (Q : A -> cluster -> Prop) :
  grace_over (cReads c) m -> (forall n, cReads c <= n -> ends (withReads n c) (f false) Q) ->
  ends c (bind_prog f (if true && negb (IsZero (GetExternalCreateSucceeded (mgMeta m)))
                       then now ← trigger ENow; mret (ExternalCreateSucceededDuring now (mgMeta m) (creationGracePeriod r))
                       else mret false)) Q.
Proof.
  intros Hg HQ. destruct (IsZero _); cbn [andb negb].
  - specialize (HQ (cReads c) ltac:(lia)). by destruct c.
  - call. rewrite Hg by lia. apply (HQ (S (cReads c))). lia.
Qed.

(** The clock shows times that can be printed and does not go back. *)
Hypotheses (clock_printable : forall n, printable (clock n) = true) (clock_started : forall n, (second <= instant (clock n))%Z)
  (clock_mono : forall n k, n <= k -> (instant (clock n) <= instant (clock k))%Z).

(** A resource that does not exist is created. *)
Lemma reconcile_missing c m :
  cObject c = Some m -> wanted m -> cExternal c = None -> grace_over (cReads c) m -> ends c (Reconcile r req) (fun _ => settled fresh).
Proof using clock_printable clock_started clock_mono.
  intros Ho Hm Hx Hg. eapply ends_until_observe; [done|apply Hm|by rewrite (wanted_alive m Hm)|]. unfold reconcileConnected. call.
  assert (pShouldOnlyObserve (newPolicy r m) = false) as Hoo.
  { destruct (pShouldOnlyObserve _) eqn:E; [|done]. destruct (only_observe_forbids r m E). by rewrite (wanted_create m Hm) in *. }
  assert (ResourceExists (observation c) = false) as Hex by (unfold observation; by rewrite Hx).
  rewrite Hex, Hoo. cbn [negb andb]. apply ends_grace; [done|]. intros n Hn. cbn [andb].
  rewrite (wanted_alive m Hm). unfold reconcileExisting. do 2 call. rewrite Hex, (wanted_create m Hm). cbn [negb andb].
  set (m1 := set_meta (AddFinalizer finalizer (mgMeta m)) m).
  assert (wanted m1) as Hm1 by by apply wanted_finalizer.
  unfold reconcileCreate. do 3 call. unfold createSucceeded. do 5 call. apply ends_mark. intros conds k _ Hc.
  eapply (ends_settled _ _ _ _ _ _ [Creating]); [done|reflexivity..| |].
  - apply (wanted_created m1); [done|apply clock_printable..|]. split; [apply clock_started|apply clock_mono; cbn; lia].
  - unfold SetExternalCreateSucceeded, SetExternalCreatePending. cbn [set_meta mgMeta]. rewrite !finalizers_annotated. apply finalizer_added.
Qed.

(** ** A resource that is not wanted *)

(** The external resource is gone, and the object is not held back. *)
Definition released c : Prop :=
  cExternal c = None /\
  forall m, cObject c = Some m -> unwanted m /\ grace_over (cReads c) m /\ finalizer ∉ Finalizers (mgMeta m).

Lemma unwanted_conditions m (conds : ConditionedStatus) : unwanted m -> unwanted (set_conditions conds m).
Proof. intros [[H1 H2 H3 H4] H5 H6]. by repeat split. Qed.

Lemma unwanted_finalizers m (fs : list string) : unwanted m -> unwanted (set_meta (SetFinalizers fs (mgMeta m)) m).
Proof. intros [[H1 H2 H3 H4] H5 H6]. by repeat split. Qed.

Lemma grace_later (n k : nat) m : grace_over n m -> n <= k -> grace_over k m.
Proof. intros Hg Hn i Hi. apply Hg. lia. Qed.

(** A resource that exists is deleted. *)
Lemma reconcile_delete c m (x : bool) :
  cObject c = Some m -> unwanted m -> cExternal c = Some x -> grace_over (cReads c) m ->
  ends c (Reconcile r req) (fun _ c' => cExternal c' = None /\ exists m', cObject c' = Some m' /\ unwanted m' /\ grace_over (cReads c') m').
Proof.
  intros Ho Hm Hx Hg. eapply ends_until_observe; [done|apply Hm|intros _; apply Hm|]. unfold reconcileConnected. call.
  assert (ResourceExists (observation c) = true) as Hex by (unfold observation; by rewrite Hx).
  rewrite Hex, (unwanted_deleted m Hm). cbn [negb andb bind_prog]. unfold reconcileDeleted. rewrite Hex, (unwanted_delete m Hm). cbn [andb].
  do 3 call. apply ends_mark. intros conds n Hn _. unfold returnWithStatus. call. cbn [withReads withExternal cObject] in *. rewrite Ho.
  split; [done|]. eexists. split; [done|]. split; [by apply unwanted_conditions|]. by eapply grace_later.
Qed.

(** The object is released once the resource is gone. *)
Lemma reconcile_release c m :
  cObject c = Some m -> unwanted m -> cExternal c = None -> grace_over (cReads c) m -> ends c (Reconcile r req) (fun _ => released).
Proof.
  intros Ho Hm Hx Hg. eapply ends_until_observe; [done|apply Hm|intros _; apply Hm|]. unfold reconcileConnected. call.
  assert (pShouldOnlyObserve (newPolicy r m) = false) as Hoo.
  { destruct (pShouldOnlyObserve _) eqn:E; [|done]. destruct (only_observe_forbids r m E) as (_ & _ & H & _). by rewrite (unwanted_delete m Hm) in H. }
  assert (ResourceExists (observation c) = false) as Hex by (unfold observation; by rewrite Hx).
  rewrite Hex, Hoo. cbn [negb andb]. apply ends_grace; [done|]. intros n Hn. cbn [andb].
  rewrite (unwanted_deleted m Hm). unfold reconcileDeleted. rewrite Hex. cbn [andb]. unfold finalize. do 3 call. apply ends_ret.
  unfold release. destruct (filter _ _) as [|f fs] eqn:E; [split; [done|]; discriminate|]. split; [done|]. cbn. intros ? [= <-].
  split_and!; [by apply unwanted_finalizers|by eapply grace_later|]. rewrite <- E. cbn. intros [? _]%list_elem_of_filter. done.
Qed.

Lemma reconcile_gone c : cObject c = None -> ends c (Reconcile r req) (fun _ c' => c' = c).
Proof. intros Ho. unfold Reconcile. call. rewrite Ho. done. Qed.

(** ** Reconciles one after the other *)

Definition reconcileOnce c : cluster := (run c (Reconcile r req)).2.

Lemma once_ends c (Q : cluster -> Prop) : ends c (Reconcile r req) (fun _ => Q) -> Q (reconcileOnce c).
Proof. unfold ends, reconcileOnce. by destruct (run c _) as [[]]. Qed.

Lemma settled_stays (x : bool) c : settled x c -> settled true (reconcileOnce c).
Proof. intros (Hx & m & Ho & Hm & _). apply once_ends. by eapply reconcile_existing. Qed.

Lemma released_stays c : released c -> released (reconcileOnce c).
Proof.
  intros [Hx H]. apply once_ends. destruct (cObject c) as [m|] eqn:Ho.
  - destruct (H m eq_refl) as (Hm & Hg & _). by eapply reconcile_release.
  - eapply ends_mono; [by apply reconcile_gone|]. intros _ ? ->. split; [done|]. by rewrite Ho.
Qed.

(** C14: in a cluster that does what it is asked, with a clock that does not go
    back and shows times that can be printed, two reconciles bring about the
    external resource of an object that is [wanted]: it is not paused nor being
    deleted, its policies are valid and allow to create and update it, and its
    creation is not in doubt.  If the resource does not exist, the grace period
    of an earlier creation is over.  Whether the resource did not exist or was
    out of date, from then on it exists and is up to date, and the object has
    its finalizer and is reported as synced. *)
Theorem reconcile_converges c m n :
  cObject c = Some m -> wanted m -> (cExternal c = None -> grace_over (cReads c) m) -> 2 <= n ->
  settled true (Nat.iter n reconcileOnce c).
Proof using clock_printable clock_started clock_mono.
  intros Ho Hm Hg Hn. assert (exists x, settled x (reconcileOnce c)) as [x H1].
  { destruct (cExternal c) as [x|] eqn:Hx; eexists; apply once_ends; [by eapply reconcile_existing|by apply (reconcile_missing c m Ho Hm Hx (Hg eq_refl))]. }
  destruct n as [|[|n]]; [lia..|]. clear Hn. induction n as [|n IH]; [by eapply settled_stays|by eapply settled_stays].
Qed.

(** C15: in a cluster that does what it is asked, two reconciles delete the
    external resource of an object that is [unwanted] and that no grace period
    protects, and release the object: it is gone, or only the finalizers of
    others hold it.  Unwanted is an object that is being deleted and not paused,
    whose policies are valid and allow to delete the resource, and whose
    creation is not in doubt. *)
Theorem deletion_converges c m n :
  cObject c = Some m -> unwanted m -> grace_over (cReads c) m -> 2 <= n ->
  released (Nat.iter n reconcileOnce c).
Proof.
  intros Ho Hm Hg Hn. destruct n as [|[|n]]; [lia..|]. clear Hn. induction n as [|n IH]; [|by apply released_stays]. cbn.
  destruct (cExternal c) as [x|] eqn:Hx.
  - destruct (once_ends c _ (reconcile_delete c m x Ho Hm Hx Hg)) as (Hx' & m' & Ho' & Hm' & Hg').
    apply once_ends. by eapply reconcile_release.
  - apply released_stays, once_ends. by eapply reconcile_release.
Qed.

End cluster.

(** ** Concrete clusters *)

#[local] Instance convergeKE : KErrors := KErrorsStd.
#[local] Instance convergeLP : LenientParser := fun _ => None.

Definition newObject : cluster := MkCluster (Some (demoObject false ["*"] ∅)) None 0.
Definition dyingObject : cluster := MkCluster (Some (demoObject true ["*"] ∅)) (Some false) 0.

Lemma reconcile_converges_witness :
  settled "fin" demoReconciler true (Nat.iter 3 (reconcileOnce (fun _ => demoTime) false "fin" demoReconciler ("", "db")) newObject).
Proof.
  refine (reconcile_converges (fun _ => demoTime) false "fin" demoReconciler ("", "db") _ _ _ newObject (demoObject false ["*"] ∅) 3 _ _ _ _).
  - intros _. reflexivity.
  - intros _. vm_compute. discriminate.
  - intros _ _ _. reflexivity.
  - reflexivity.
  - split; [split; [|left| |]|..]; vm_compute; reflexivity.
  - intros _ k _. vm_compute. reflexivity.
  - lia.
Defined.

Lemma deletion_converges_witness :
  released (fun _ => demoTime) "fin" demoReconciler
    (Nat.iter 2 (reconcileOnce (fun _ => demoTime) false "fin" demoReconciler ("", "db")) dyingObject).
Proof.
  refine (deletion_converges (fun _ => demoTime) false "fin" demoReconciler ("", "db") dyingObject (demoObject true ["*"] ∅) 2 _ _ _ _).
  - reflexivity.
  - split; [split; [|left| |]|..]; vm_compute; reflexivity.
  - intros k _. vm_compute. reflexivity.
  - lia.
Defined.
