(* ===== verification/Components.v ===== *)
(** * The components of the managed reconciler
      (pkg/reconciler/managed/reconciler.go, reconciler_typed.go, reconciler_deprecated.go)

    The interfaces through which [Reconcile] reaches the API server, the external
    system and its other components, the adapters the package offers, the
    defaults and the options that replace them.  Components are programs over a
    signature [E] of effects.  [handle] runs a call of the reconciler on the
    component it belongs to; the client that Connect returned is its state. *)

From S2P Require Import Prelude GoErrors GoTime Meta Prog Managed ManagedReconciler.

Definition nilPointer : string := "runtime error: invalid memory address or nil pointer dereference".

(** ** Managed types *)

(** [mg.(managed)] for the kind [M] of a typed client, and the [%T] of an
    object. A kind is a view of the same object. *)
Class TypedManaged (M : Type) := {
  typeAssert : Managed -> option M;
  asManaged : M -> Managed;
  typeName : Managed -> string;
  typeAssert_asManaged cr : typeAssert (asManaged cr) = Some cr;
  asManaged_typeAssert mg cr : typeAssert mg = Some cr -> asManaged cr = mg
}.

#[global] Instance ManagedTyped : TypedManaged Managed :=
  {| typeAssert := Some; asManaged m := m; typeName _ := "resource.Managed";
     typeAssert_asManaged _ := eq_refl; asManaged_typeAssert mg cr H := eq_sym (inj Some _ _ H) |}.

(** The two interfaces a kind may implement to own a connection secret. *)
Inductive secretOwner := localConnectionSecretOwner | connectionSecretOwner | noConnectionSecretOwner.

Section components.
Context {E : Type -> Type}.
Implicit Types (mg : Managed).

(** ** External clients *)

(** [TypedExternalClient]; [ExternalClient] is that of [Managed]. *)
Record TypedExternalClient (M : Type) := MkClient {
  Observe : M -> prog E (M * ExternalObservation * option error);
  Create : M -> prog E (M * ExternalChange * option error);
  Update : M -> prog E (M * ExternalChange * option error);
  Delete : M -> prog E (M * ExternalChange * option error);
  Disconnect : prog E (option error)
}.
#[global] Arguments MkClient {M} _ _ _ _ _.
#[global] Arguments Observe {M} _ _.
#[global] Arguments Create {M} _ _.
#[global] Arguments Update {M} _ _.
#[global] Arguments Delete {M} _ _.
#[global] Arguments Disconnect {M} _.

Definition ExternalClient : Type := TypedExternalClient Managed.

(** [TypedExternalConnector]: the object as the call left it, the client, which
    may be nil, and the error. *)
Definition TypedExternalConnector (M : Type) : Type := M -> prog E (M * option (TypedExternalClient M) * option error).

Record TypedExternalConnectDisconnector (M : Type) := MkConnectDisconnector {
  Connect : TypedExternalConnector M;
  DisconnectProvider : prog E (option error)
}.
#[global] Arguments MkConnectDisconnector {M} _ _.
#[global] Arguments Connect {M} _ _.
#[global] Arguments DisconnectProvider {M} _.

Definition ExternalConnectDisconnector : Type := TypedExternalConnectDisconnector Managed.

(** A method whose function was not set is a call of a nil function. *)
Definition callFn {A B} (fn : option (A -> prog E B)) (a : A) : prog E B :=
  match fn with Some f => f a | None => Panic nilPointer end.

(** [TypedExternalClientFns] *)
Record TypedExternalClientFns (M : Type) := MkClientFns {
  ObserveFn : option (M -> prog E (M * ExternalObservation * option error));
  CreateFn : option (M -> prog E (M * ExternalChange * option error));
  UpdateFn : option (M -> prog E (M * ExternalChange * option error));
  DeleteFn : option (M -> prog E (M * ExternalChange * option error));
  DisconnectFn : option (unit -> prog E (option error))
}.
#[global] Arguments MkClientFns {M} _ _ _ _ _.

Definition clientOfFns {M} (e : TypedExternalClientFns M) : TypedExternalClient M :=
  MkClient (callFn (ObserveFn M e)) (callFn (CreateFn M e)) (callFn (UpdateFn M e)) (callFn (DeleteFn M e))
    (callFn (DisconnectFn M e) tt).

(** [TypedExternalConnectDisconnectorFns] *)
Definition connectDisconnectorOfFns {M} (ConnectFn : option (TypedExternalConnector M))
    (DisconnectFn : option (unit -> prog E (option error))) : TypedExternalConnectDisconnector M :=
  MkConnectDisconnector (callFn ConnectFn) (callFn DisconnectFn tt).

(** [NewTypedNopDisconnector] *)
Definition NewTypedNopDisconnector {M} (c : TypedExternalConnector M) : TypedExternalConnectDisconnector M :=
  MkConnectDisconnector c (mret None).

(** [NopClient] *)
Definition NopClient : ExternalClient :=
  MkClient (fun mg => mret (mg, MkObservation false false false ∅ "", None))
    (fun mg => mret (mg, MkChange ∅ ∅, None)) (fun mg => mret (mg, MkChange ∅ ∅, None))
    (fun mg => mret (mg, MkChange ∅ ∅, None)) (mret None).

Definition NopConnector : TypedExternalConnector Managed := fun mg => mret (mg, Some NopClient, None).

Definition defaultMRExternal : ExternalConnectDisconnector := NewTypedNopDisconnector NopConnector.

(** ** Typed clients *)

Section typed.
Context {M : Type} {TM : TypedManaged M}.

Definition errUnexpectedObjectType mg : error := errorString ("unexpected object type " +:+ typeName mg).

(** The methods of [typedExternalClientWrapper] have one shape. *)
Definition typedCall {R} (zero : R) (method : M -> prog E (M * R * option error)) mg : prog E (Managed * R * option error) :=
  match typeAssert mg with
  | None => mret (mg, zero, Some (errUnexpectedObjectType mg))
  | Some cr => '(cr, x, err) ← method cr; mret (asManaged cr, x, err)
  end.

(** [typedExternalClientWrapper] around a client that may be nil. *)
Definition typedExternalClientWrapper (c : option (TypedExternalClient M)) : ExternalClient :=
  MkClient
    (typedCall (MkObservation false false false ∅ "") (callFn (Observe <$> c)))
    (typedCall (MkChange ∅ ∅) (callFn (Create <$> c)))
    (typedCall (MkChange ∅ ∅) (callFn (Update <$> c)))
    (typedCall (MkChange ∅ ∅) (callFn (Delete <$> c)))
    (match c with Some c => Disconnect c | None => Panic nilPointer end).

(** [typedExternalConnectDisconnectorWrapper.Connect] *)
Definition typedConnect (c : TypedExternalConnectDisconnector M) : TypedExternalConnector Managed := fun mg =>
  match typeAssert mg with
  | None => mret (mg, None, Some (errUnexpectedObjectType mg))
  | Some cr =>
      '(cr, external, err) ← Connect c cr;
      match err with
      | Some e => mret (asManaged cr, None, Some e)
      | None => mret (asManaged cr, Some (typedExternalClientWrapper external), None)
      end
  end.

Definition typedExternalConnectDisconnectorWrapper (c : TypedExternalConnectDisconnector M) : ExternalConnectDisconnector :=
  MkConnectDisconnector (typedConnect c) (DisconnectProvider c).

End typed.

(** ** The components *)

(** [ConnectionPublisher] and [LocalConnectionPublisher]; a publisher is given
    the object by reference. *)
Record Publisher := MkPublisher {
  PublishDetails : Managed -> ConnectionDetails -> prog E (Managed * bool * option error);
  UnpublishDetails : Managed -> ConnectionDetails -> prog E (Managed * option error)
}.

(** [ConnectionPublisherFns] and [LocalConnectionPublisherFns] *)
Definition publisherOfFns (PublishConnectionFn : option (Managed * ConnectionDetails -> prog E (Managed * bool * option error)))
    (UnpublishConnectionFn : option (Managed * ConnectionDetails -> prog E (Managed * option error))) : Publisher :=
  MkPublisher (fun mg c => callFn PublishConnectionFn (mg, c)) (fun mg c => callFn UnpublishConnectionFn (mg, c)).

Definition Initializer : Type := Managed -> prog E (Managed * option error).

(** [InitializerChain.Initialize] *)
Fixpoint InitializerChain (cc : list Initializer) : Initializer := fun mg =>
  match cc with
  | [] => mret (mg, None)
  | c :: cc' =>
      '(mg, err) ← c mg;
      match err with
      | Some e => mret (mg, Some e)
      | None => InitializerChain cc' mg
      end
  end.

Record mrManaged := MkMrManaged {
  CriticalAnnotationUpdater : Managed -> prog E (Managed * option error);
  ConnectionPublisher : Publisher;
  FinalizerAdd : Managed -> prog E (Managed * option error);
  FinalizerRemove : Managed -> prog E (Managed * option error);
  ManagedInitializer : Initializer;
  ReferenceResolver : Managed -> prog E (Managed * option error);
  LocalConnectionPublisher : Publisher
}.

Definition errManagedNotImplemented : string := "managed resource does not implement connection details".

(** [mrManaged.PublishConnection] *)
Definition mrPublishConnection (m : mrManaged) (kind : secretOwner) mg (c : ConnectionDetails) : prog E (Managed * bool * option error) :=
  match kind with
  | localConnectionSecretOwner => PublishDetails (LocalConnectionPublisher m) mg c
  | connectionSecretOwner => PublishDetails (ConnectionPublisher m) mg c
  | noConnectionSecretOwner => mret (mg, false, New errManagedNotImplemented)
  end.

Definition mrUnpublishConnection (m : mrManaged) (kind : secretOwner) mg (c : ConnectionDetails) : prog E (Managed * option error) :=
  match kind with
  | localConnectionSecretOwner => UnpublishDetails (LocalConnectionPublisher m) mg c
  | connectionSecretOwner => UnpublishDetails (ConnectionPublisher m) mg c
  | noConnectionSecretOwner => mret (mg, New errManagedNotImplemented)
  end.

(** The client the reconciler uses itself, and the clock. *)
Record Kube := MkKube {
  kubeGet : string * string -> prog E (Managed * option error);
  kubeUpdate : Managed -> prog E (Managed * option error);
  kubeStatusUpdate : Managed -> prog E (Managed * option error);
  kubeNow : prog E Time
}.

(** The fields of [Reconciler] that are components. *)
Record Components := MkComponents {
  kube : Kube;
  managed : mrManaged;
  external : ExternalConnectDisconnector;
  recorder : string -> Managed -> EventType -> string -> string -> prog E unit;
  metricRecorder : MetricKind -> Managed -> prog E unit;
  change : Managed -> OperationType -> option error -> AdditionalDetails -> prog E (option error);
  pollIntervalHook : Managed -> Z -> prog E Z
}.

Definition NopRecorder (externalName : string) mg (type : EventType) (reason message : string) : prog E unit := mret ().
Definition NopMetricRecorder (kind : MetricKind) mg : prog E unit := mret ().
Definition nopChangeLogger mg (op : OperationType) (err : option error) (ad : AdditionalDetails) : prog E (option error) := mret None.
Definition defaultPollIntervalHook mg (pollInterval : Z) : prog E Z := mret pollInterval.

(** ** Options *)

Definition Option_ : Type := Components -> Components.

Definition onManaged (f : mrManaged -> mrManaged) : Option_ := fun c =>
  MkComponents (kube c) (f (managed c)) (external c) (recorder c) (metricRecorder c) (change c) (pollIntervalHook c).

Definition WithExternalConnectDisconnector (x : ExternalConnectDisconnector) : Option_ := fun c =>
  MkComponents (kube c) (managed c) x (recorder c) (metricRecorder c) (change c) (pollIntervalHook c).

Definition WithExternalConnector (x : TypedExternalConnector Managed) : Option_ :=
  WithExternalConnectDisconnector (NewTypedNopDisconnector x).

Definition WithTypedExternalConnectDisconnector {M} `{TypedManaged M} (x : TypedExternalConnectDisconnector M) : Option_ :=
  WithExternalConnectDisconnector (typedExternalConnectDisconnectorWrapper x).

Definition WithTypedExternalConnector {M} `{TypedManaged M} (x : TypedExternalConnector M) : Option_ :=
  WithExternalConnectDisconnector (typedExternalConnectDisconnectorWrapper (NewTypedNopDisconnector x)).

Definition WithMetricRecorder (x : MetricKind -> Managed -> prog E unit) : Option_ := fun c =>
  MkComponents (kube c) (managed c) (external c) (recorder c) x (change c) (pollIntervalHook c).

Definition WithRecorder (x : string -> Managed -> EventType -> string -> string -> prog E unit) : Option_ := fun c =>
  MkComponents (kube c) (managed c) (external c) x (metricRecorder c) (change c) (pollIntervalHook c).

Definition WithChangeLogger (x : Managed -> OperationType -> option error -> AdditionalDetails -> prog E (option error)) : Option_ := fun c =>
  MkComponents (kube c) (managed c) (external c) (recorder c) (metricRecorder c) x (pollIntervalHook c).

Definition WithPollIntervalHook (x : Managed -> Z -> prog E Z) : Option_ := fun c =>
  MkComponents (kube c) (managed c) (external c) (recorder c) (metricRecorder c) (change c) x.

Definition WithCriticalAnnotationUpdater (u : Managed -> prog E (Managed * option error)) : Option_ := onManaged (fun m =>
  MkMrManaged u (ConnectionPublisher m) (FinalizerAdd m) (FinalizerRemove m) (ManagedInitializer m) (ReferenceResolver m)
    (LocalConnectionPublisher m)).

Definition withConnectionPublishers (p : Publisher) : Option_ := onManaged (fun m =>
  MkMrManaged (CriticalAnnotationUpdater m) p (FinalizerAdd m) (FinalizerRemove m) (ManagedInitializer m) (ReferenceResolver m)
    (LocalConnectionPublisher m)).

Definition withLocalConnectionPublishers (p : Publisher) : Option_ := onManaged (fun m =>
  MkMrManaged (CriticalAnnotationUpdater m) (ConnectionPublisher m) (FinalizerAdd m) (FinalizerRemove m) (ManagedInitializer m)
    (ReferenceResolver m) p).

Definition WithInitializers (i : list Initializer) : Option_ := onManaged (fun m =>
  MkMrManaged (CriticalAnnotationUpdater m) (ConnectionPublisher m) (FinalizerAdd m) (FinalizerRemove m) (InitializerChain i)
    (ReferenceResolver m) (LocalConnectionPublisher m)).

Definition WithFinalizer (add remove : Managed -> prog E (Managed * option error)) : Option_ := onManaged (fun m =>
  MkMrManaged (CriticalAnnotationUpdater m) (ConnectionPublisher m) add remove (ManagedInitializer m) (ReferenceResolver m)
    (LocalConnectionPublisher m)).

Definition WithReferenceResolver (rr : Managed -> prog E (Managed * option error)) : Option_ := onManaged (fun m =>
  MkMrManaged (CriticalAnnotationUpdater m) (ConnectionPublisher m) (FinalizerAdd m) (FinalizerRemove m) (ManagedInitializer m) rr
    (LocalConnectionPublisher m)).

(** The components of [NewReconciler], given the client and the components
    [defaultMRManaged] builds from it. *)
Definition NewComponents (k : Kube) (m : mrManaged) (o : list Option_) : Components :=
  foldl (fun c co => co c)
    (MkComponents k m defaultMRExternal NopRecorder NopMetricRecorder nopChangeLogger defaultPollIntervalHook) o.

(** ** Running the reconciler *)

(** A call of the external client, which is nil before Connect. *)
Definition withClient {X} (client : option ExternalClient) (f : ExternalClient -> prog E X) : prog E (X * option ExternalClient) :=
  match client with
  | None => Panic nilPointer
  | Some c => x ← f c; mret (x, client)
  end.

Definition keep {X} (client : option ExternalClient) (p : prog E X) : prog E (X * option ExternalClient) :=
  x ← p; mret (x, client).

Definition handle (c : Components) (kind : secretOwner) (X : Type) (client : option ExternalClient) (e : meff X)
    : prog E (X * option ExternalClient) :=
  match e in meff Y return prog E (Y * option ExternalClient) with
  | EGet n => keep client (kubeGet (kube c) n)
  | EUpdate m => keep client (kubeUpdate (kube c) m)
  | EStatusUpdate m => keep client (kubeStatusUpdate (kube c) m)
  | ENow => keep client (kubeNow (kube c))
  | EInitialize m => keep client (ManagedInitializer (managed c) m)
  | EResolveReferences m => keep client (ReferenceResolver (managed c) m)
  | EAddFinalizer m => keep client (FinalizerAdd (managed c) m)
  | ERemoveFinalizer m => keep client (FinalizerRemove (managed c) m)
  | EUpdateCriticalAnnotations m => keep client (CriticalAnnotationUpdater (managed c) m)
  | EPublishConnection m d => keep client ('(m, _, err) ← mrPublishConnection (managed c) kind m d; mret (m, err))
  | EUnpublishConnection m d => keep client (mrUnpublishConnection (managed c) kind m d)
  | EConnect m => '(m, client, err) ← Connect (external c) m; mret ((m, err), client)
  | EDisconnectConnector => keep client (DisconnectProvider (external c))
  | EDisconnectClient => withClient client Disconnect
  | EObserve m => withClient client (fun x => Observe x m)
  | ECreate m => withClient client (fun x => Create x m)
  | EExternalUpdate m => withClient client (fun x => Update x m)
  | EDelete m => withClient client (fun x => Delete x m)
  | EChangeLog m op err ad => keep client (change c m op err ad)
  | EEvent n m type reason message => keep client (recorder c n m type reason message)
  | EMetric k m => keep client (metricRecorder c k m)
  | EPollInterval m i => keep client (pollIntervalHook c m i)
  end.

(** [Reconcile] with its components. *)
Definition ReconcileWith {KE : KErrors} {LP : LenientParser} (c : Components) (kind : secretOwner) (r : Reconciler)
    (req : string * string) : prog E ((Result * option error) * option ExternalClient) :=
  interpS (handle c kind) None (Reconcile r req).

End components.

Arguments TypedExternalClient E M : clear implicits.
Arguments ExternalClient E : clear implicits.
Arguments TypedExternalConnector E M : clear implicits.
Arguments TypedExternalConnectDisconnector E M : clear implicits.
Arguments ExternalConnectDisconnector E : clear implicits.
Arguments Publisher E : clear implicits.
Arguments Initializer E : clear implicits.
Arguments mrManaged E : clear implicits.
Arguments Kube E : clear implicits.
Arguments Components E : clear implicits.
Arguments Option_ E : clear implicits.

(** ** Typed clients *)

Section typedFacts.
Context {E : Type -> Type} {M : Type} {TM : TypedManaged M}.

(** A typed method is called exactly on the objects of its type, and what it
    does to the object is done to the managed resource. *)
Lemma exec_typedCall {R} (zero : R) (method : M -> prog E (M * R * option error)) (mg : Managed) (tr : list (event E)) (m' : Managed) x err :
  exec (typedCall zero method mg) tr (Some (m', x, err)) <->
  match typeAssert mg with
  | None => tr = [] /\ m' = mg /\ x = zero /\ err = Some (errUnexpectedObjectType mg)
  | Some cr => exists cr', m' = asManaged cr' /\ exec (method cr) tr (Some (cr', x, err))
  end.
Proof.
  unfold typedCall. destruct (typeAssert mg) as [cr|].
  - split.
    + intros [[_ ?]|([[cr' x'] err'] & tr1 & tr2 & -> & H1 & [-> [= -> -> ->]])]%exec_bind; [done|].
      rewrite app_nil_r. eauto.
    + intros (cr' & -> & H). apply exec_bind. right. exists (cr', x, err), tr, []. by rewrite app_nil_r.
  - simpl. split; [by intros [-> [= -> -> ->]]|by intros (-> & -> & -> & ->)].
Qed.

(** What a typed connector is to the reconciler: an object of another type is
    refused without a call, and what the typed client does is all that the
    client it gets does. *)
Theorem typed_connector_faithful (c : TypedExternalConnectDisconnector E M) (mg : Managed) (tr : list (event E))
    (m' : Managed) client err :
  exec (Connect (typedExternalConnectDisconnectorWrapper c) mg) tr (Some (m', client, err)) ->
  match typeAssert mg with
  | None => tr = [] /\ m' = mg /\ client = None /\ err = Some (errUnexpectedObjectType mg)
  | Some cr =>
      exists cr' typed, exec (Connect c cr) tr (Some (cr', typed, err)) /\ m' = asManaged cr' /\
        match err with
        | Some _ => client = None
        | None => exists cl, client = Some cl /\ forall tc, typed = Some tc ->
            forall mg2 tr2 m2 obs e2, exec (Observe cl mg2) tr2 (Some (m2, obs, e2)) <->
              match typeAssert mg2 with
              | None => tr2 = [] /\ m2 = mg2 /\ obs = MkObservation false false false ∅ "" /\ e2 = Some (errUnexpectedObjectType mg2)
              | Some cr2 => exists cr2', m2 = asManaged cr2' /\ exec (Observe tc cr2) tr2 (Some (cr2', obs, e2))
              end
        end
  end.
Proof.
  cbn [typedExternalConnectDisconnectorWrapper Connect]. unfold typedConnect. destruct (typeAssert mg) as [cr|].
  - intros [[_ ?]|([[cr' typed] e] & tr1 & tr2 & -> & H1 & H2)]%exec_bind; [done|].
    destruct e as [e|]; destruct H2 as [-> [= -> -> ->]]; rewrite app_nil_r; exists cr', typed; split_and!; [done..|].
    eexists. split; [done|]. intros tc -> mg2 tr2 m2 obs e2. apply exec_typedCall.
  - by intros [-> [= -> -> ->]].
Qed.

End typedFacts.
