(* ===== verification/Composition.v ===== *)
(** * The reconciler with its default components

    [Reconcile] calls its components through interfaces.  Here they are the ones
    [NewReconciler] chooses: the calls become programs over the Kubernetes client,
    and what is left are the calls of the client and of the components a
    provider supplies, which are traced.  The theorems carry the guarantees of
    the reconciler over to these calls, and show that a reconciler whose
    components do not panic does not panic. *)

From S2P Require Import Prelude GoErrors GoTime Json Meta Policies Prog Managed ManagedReconciler ManagedSafety Applicator ManagedApi Resolver Components.

Definition FinalizerName : string := "finalizer.managedresource.crossplane.io".

(** ** Reconcilers do not panic *)

(** The program does not panic. *)
Definition returns {E A} (p : prog E A) : Prop := forall tr, ~ exec p tr None.

Lemma returns_bind {E A B} (f : A -> prog E B) (p : prog E A) :
  returns p -> (forall a, returns (f a)) -> returns (bind_prog f p).
Proof. intros Hp Hf tr [[H _]|(a & tr1 & tr2 & _ & _ & H)]%exec_bind; [by apply (Hp tr)|by apply (Hf a tr2)]. Qed.

Lemma returns_ret {E A} (a : A) : returns (E := E) (Ret a).
Proof. by intros tr [_ ?]. Qed.

Lemma returns_trigger {E X} (e : E X) : returns (trigger e).
Proof. by intros tr (x & tr' & _ & _ & ?). Qed.

Lemma returns_vis {E A X} (e : E X) (k : X -> prog E A) : (forall x, returns (k x)) -> returns (Vis e k).
Proof. intros Hk tr (x & tr' & _ & H). by apply (Hk x tr'). Qed.

Lemma returns_via {E F A} (f : forall X, F X -> E X) (p : prog F A) : returns p -> returns (interp (fun X e => trigger (f X e)) p).
Proof.
  induction p as [a|why|X e k IH]; intros Hp.
  - apply returns_ret.
  - exfalso. by apply (Hp []).
  - apply returns_bind; [apply returns_trigger|]. intros x. apply IH. intros tr H. apply (Hp (Ev e x :: tr)). by exists x, tr.
Qed.

Create HintDb returns discriminated.
#[export] Hint Resolve returns_trigger returns_via : returns.

(** Follow a program to its ends. *)
Ltac solve_returns :=
  repeat first
    [ progress auto with returns nocore
    | apply returns_bind; [|intros ?]
    | apply returns_ret
    | apply returns_vis; intros ?
    | match goal with |- context [match ?x with _ => _ end] => destruct x end ].

Record client_returns {E} (c : ExternalClient E) : Prop := MkClientReturns {
  observe_returns m : returns (Observe c m);
  create_returns m : returns (Create c m);
  update_returns m : returns (Update c m);
  delete_returns m : returns (Delete c m);
  disconnect_returns : returns (Disconnect c)
}.

(** No component panics, nor does a client that Connect returns without an error. *)
Record well_behaved {E} (c : Components E) : Prop := MkWellBehaved {
  wb_get n : returns (kubeGet (kube c) n);
  wb_update m : returns (kubeUpdate (kube c) m);
  wb_status m : returns (kubeStatusUpdate (kube c) m);
  wb_now : returns (kubeNow (kube c));
  wb_init m : returns (ManagedInitializer (managed c) m);
  wb_resolve m : returns (ReferenceResolver (managed c) m);
  wb_add m : returns (FinalizerAdd (managed c) m);
  wb_remove m : returns (FinalizerRemove (managed c) m);
  wb_critical m : returns (CriticalAnnotationUpdater (managed c) m);
  wb_publish kind m d : returns (mrPublishConnection (managed c) kind m d);
  wb_unpublish kind m d : returns (mrUnpublishConnection (managed c) kind m d);
  wb_connect m : returns (Connect (external c) m);
  wb_disconnect : returns (DisconnectProvider (external c));
  wb_change m op err ad : returns (change c m op err ad);
  wb_record n m type reason message : returns (recorder c n m type reason message);
  wb_metric k m : returns (metricRecorder c k m);
  wb_poll m i : returns (pollIntervalHook c m i);
  wb_client m tr m' cl : exec (Connect (external c) m) tr (Some (m', Some cl, None)) -> client_returns cl
}.

(** Connect answers neither a client nor an error. *)
Definition nil_client {E} (c : Components E) (tr : list (event E)) : Prop :=
  exists m m', exec (Connect (external c) m) tr (Some (m', None, None)).

(** The reconciler has a client while it is connected. *)
Definition has_client {E} (v : view) (s : option (ExternalClient E)) : Prop :=
  vConnected v = true -> exists cl, s = Some cl /\ client_returns cl.

Lemma exec_keep {E X} (s : option (ExternalClient E)) (p : prog E X) (tr : list (event E)) res :
  exec (keep s p) tr res <-> exec p tr (fst <$> res) /\ (forall xs, res = Some xs -> xs.2 = s).
Proof.
  unfold keep, mbind, prog_bind. rewrite exec_bind. split.
  - intros [[H ->]|(x & tr1 & tr2 & -> & H & [-> ->])]; [done|]. rewrite app_nil_r. split; [done|]. by intros xs [= <-].
  - destruct res as [[x s']|]; intros [H Hs]; [right|by left]. rewrite <- (Hs _ eq_refl). exists x, tr, []. by rewrite app_nil_r.
Qed.

(** An effect that leaves the client alone, and after which the reconciler is
    not more connected than before. *)
Lemma keep_invariant {E X} (c : Components E) (e : meff X) (v : view) (s : option (ExternalClient E)) (p : prog E X) (tr : list (event E)) res :
  returns p -> has_client v s -> exec (keep s p) tr res ->
  (forall x, vConnected (step v (Ev e x)) = true -> vConnected v = true) ->
  exists x s', res = Some (x, s') /\ (has_client (step v (Ev e x)) s' \/ nil_client c tr).
Proof.
  intros Hp Hc [H Hs]%exec_keep Hv. destruct res as [[x s']|]; [|by apply Hp in H].
  pose proof (Hs _ eq_refl) as Hs'. simpl in Hs'. subst s'. exists x, s. split; [done|]. left. intros H'. apply Hc. by eapply Hv.
Qed.

Lemma client_invariant {E X} (c : Components E) (e : meff X) (v : view) (s : option (ExternalClient E)) (f : ExternalClient E -> prog E X) (tr : list (event E)) res :
  (forall cl, client_returns cl -> returns (f cl)) -> has_client v s -> vConnected v = true -> exec (withClient s f) tr res ->
  (forall x, vConnected (step v (Ev e x)) = true -> vConnected v = true) ->
  exists x s', res = Some (x, s') /\ (has_client (step v (Ev e x)) s' \/ nil_client c tr).
Proof.
  intros Hp Hc Hv He Hx. destruct (Hc Hv) as (cl & -> & Hcl). eapply (keep_invariant c e v (Some cl) (f cl)); eauto.
Qed.

Section no_panic.
Context {KE : KErrors} {LP : LenientParser} {E : Type -> Type} (c : Components E) (kind : secretOwner) (r : Reconciler).

Lemma handle_invariant (WB : well_behaved c) X (e : meff X) (v : view) (s : option (ExternalClient E)) (tr : list (event E)) res :
  has_client v s -> (forall x, allowed r v (Ev e x)) -> exec (handle c kind X s e) tr res ->
  exists x s', res = Some (x, s') /\ (has_client (step v (Ev e x)) s' \/ nil_client c tr).
Proof.
  intros Hc Ha He. destruct v as [g i rs cn hf o f cr st l].
  assert (forall Y (e' : meff Y), (forall x, vConnected (step (MkView g i rs cn hf o f cr st l) (Ev e' x)) = true -> cn = true) ->
    forall x, vConnected (step (MkView g i rs cn hf o f cr st l) (Ev e' x)) = true -> vConnected (MkView g i rs cn hf o f cr st l) = true) as Hcn by done.
  destruct e; cbn [handle] in He;
    try (eapply keep_invariant; [|exact Hc|exact He|]; [by destruct WB; eauto|by intros [] || by intros x; destruct x as [[] ?]]).
  - eapply keep_invariant; [|exact Hc|exact He|by intros []].
    apply returns_bind; [apply WB|]. intros [[] ?]. apply returns_ret.
  - apply exec_bind in He as [[He _]|([[m1 client] err] & tr1 & tr2 & -> & He & [-> ->])]; [by apply (wb_connect _ WB) in He|].
    eexists _, _. split; [done|]. rewrite app_nil_r. destruct err as [err|]; [|destruct client as [cl|]; [|by right; exists m, m1]]; left; intros Hv.
    + exfalso. destruct (Ha (m1, None)) as (mg & _ & Hcn'). cbn in Hcn', Hv. congruence.
    + exists cl. split; [done|]. by eapply (wb_client _ WB).
  - eapply client_invariant; [|exact Hc| |exact He|by intros]; [by intros cl []|]. by destruct (Ha None) as (_ & ? & _).
  - eapply client_invariant; [|exact Hc| |exact He|by intros [[] ?]]; [by intros cl []|].
    destruct (Ha (m, MkObservation false false false ∅ "", None)) as (mg & _ & ? & _). done.
  - eapply client_invariant; [|exact Hc| |exact He|by intros [[] ?]]; [by intros cl []|].
    destruct (Ha (m, MkChange ∅ ∅, None)) as (mg & mo & obs & m0 & t & (_ & ? & _) & _). done.
  - eapply client_invariant; [|exact Hc| |exact He|by intros [[] ?]]; [by intros cl []|].
    destruct (Ha (m, MkChange ∅ ∅, None)) as (mg & mo & obs & (_ & ? & _) & _). done.
  - eapply client_invariant; [|exact Hc| |exact He|by intros [[] ?]]; [by intros cl []|].
    destruct (Ha (m, MkChange ∅ ∅, None)) as (mg & obs & (_ & ? & _) & _). done.
Qed.

(** C6: where the components do not panic, and neither do the clients that
    Connect returns, Reconcile ends with a result, or Connect answered neither a
    client nor an error.  The external client is nil until Connect has returned
    one, and a call of a nil client panics: Reconcile never calls it before
    Connect has succeeded nor after it has failed, on any path. *)
Theorem reconcile_no_panic (req : string * string) (tr : list (event E)) res :
  well_behaved c -> exec (ReconcileWith c kind r req) tr res ->
  (exists result err client, res = Some ((result, err), client)) \/ (exists t1 t2 t3, tr = t1 ++ t2 ++ t3 /\ nil_client c t2).
Proof.
  intros WB He. destruct (interpS_blame (handle c kind) step (allowed r) has_client (nil_client c) _ view0 None _ _ _
    (reconcile_wp r req) ltac:(done) ltac:(by intros v (_ & _ & ? & ? & ? & _)) (handle_invariant WB) He) as [([result err] & s' & ->)|]; eauto.
Qed.

End no_panic.

(** ** The default components *)

(** Calls that are left: those of the client for managed resources and for
    secrets, of the resource's own code, and of what a provider supplies. *)
Inductive deff : Type -> Type :=
| DClient X (e : ceff Managed X) : deff X
| DStatusUpdate (m : Managed) : deff (Managed * option error)
| DNow : deff Time
| DSecret X (e : ceff Secret X) : deff X
| DResolve X (e : reff X) : deff X
| DRest X (e : meff X) : deff X.
Arguments DClient {X} _.
Arguments DSecret {X} _.
Arguments DResolve {X} _.
Arguments DRest {X} _.

Definition onClient {A} (p : prog (ceff Managed) A) : prog deff A := interp (fun X e => trigger (DClient e)) p.
Definition onSecrets {A} (p : prog (ceff Secret) A) : prog deff A := interp (fun X e => trigger (DSecret e)) p.
Definition onResolver {A} (p : prog reff A) : prog deff A := interp (fun X e => trigger (DResolve e)) p.

(** What a provider supplies, traced. *)
Definition tracingClient : ExternalClient deff :=
  MkClient (fun m => trigger (DRest (EObserve m))) (fun m => trigger (DRest (ECreate m)))
    (fun m => trigger (DRest (EExternalUpdate m))) (fun m => trigger (DRest (EDelete m))) (trigger (DRest EDisconnectClient)).

Definition tracingConnector : TypedExternalConnector deff Managed := fun m =>
  '(m, err) ← trigger (DRest (EConnect m));
  mret (m, if nil_err err then Some tracingClient else None, err).

Definition tracing : list (Option_ deff) :=
  [WithExternalConnector tracingConnector;
   WithRecorder (fun n m type reason message => trigger (DRest (EEvent n m type reason message)));
   WithMetricRecorder (fun k m => trigger (DRest (EMetric k m)));
   WithChangeLogger (fun m op err ad => trigger (DRest (EChangeLog m op err ad)));
   WithPollIntervalHook (fun m i => trigger (DRest (EPollInterval m i)))].

Section composition.
Context {KE : KErrors} {LP : LenientParser} {MV : MetaV1} {OT : ObjectTyper} {MT : ManagedType}.
Context (newManaged : Managed) (kind : secretOwner).

Definition defaultKube : Kube deff :=
  MkKube (fun n => trigger (DClient (CGet n newManaged))) (fun m => trigger (DClient (CUpdate m)))
    (fun m => trigger (DStatusUpdate m)) (trigger DNow).

(** The secret publishers do not change the object. *)
Definition secretPublisher (publish : Managed -> ConnectionDetails -> prog (ceff Secret) (bool * option error))
    (unpublish : Managed -> ConnectionDetails -> prog (ceff Secret) (option error)) : Publisher deff :=
  MkPublisher (fun m c => '(b, err) ← onSecrets (publish m c); mret (m, b, err))
    (fun m c => err ← onSecrets (unpublish m c); mret (m, err)).

Definition defaultMRManaged : mrManaged deff :=
  MkMrManaged (fun m => onClient (UpdateCriticalAnnotations m))
    (secretPublisher PublishConnection UnpublishConnection)
    (fun m => onClient (APIAddFinalizer FinalizerName m))
    (fun m => onClient (APIRemoveFinalizer FinalizerName m))
    (fun m => onClient (NameAsExternalName m))
    (fun m => onResolver (ResolveReferences m))
    (secretPublisher LocalPublishConnection UnpublishConnection).

(** [NewReconciler] with the components of a provider. *)
Definition defaultComponents : Components deff := NewComponents defaultKube defaultMRManaged tracing.

Definition ReconcileDefault (r : Reconciler) (req : string * string)
    : prog deff ((Result * option error) * option (ExternalClient deff)) :=
  ReconcileWith defaultComponents kind r req.

Lemma OnError_returns {O} (steps : nat) (retriable : option error -> bool) (fn : O -> prog (ceff O) (O * option error)) (o : O) :
  (forall o, returns (fn o)) -> returns (OnError steps retriable fn o).
Proof. intros Hfn. revert o. induction steps as [|n IH]; intros o; cbn [OnError]; solve_returns. Qed.

Lemma publishSecret_returns (uid : string) (s : Secret) : returns (publishSecret uid s).
Proof.
  apply returns_bind; [|intros []; solve_returns]. apply OnError_returns. intros o. unfold PatchingApply, create. solve_returns.
Qed.

#[local] Hint Resolve publishSecret_returns : returns.

(** The other default components do not panic where every kind is registered;
    removing a finalizer may, when it is repeated ([Meta.remove_finalizer_repeated]). *)
Lemma default_well_behaved (add remove : Managed -> prog deff (Managed * option error)) :
  (forall m, exists gvk, GetKind m = inl gvk) -> (forall m, returns (add m)) -> (forall m, returns (remove m)) ->
  well_behaved (NewComponents defaultKube defaultMRManaged (WithFinalizer add remove :: tracing)).
Proof.
  intros Hk Hadd Hremove.
  assert (forall m c, returns (PublishConnection m c) /\ returns (LocalPublishConnection m c)) as Hp.
  { intros m c. unfold PublishConnection, LocalPublishConnection, MustGetKind. destruct (Hk m) as [gvk ->].
    split; destruct (mgSecretRef m); solve_returns. }
  split; cbn -[onClient onSecrets onResolver UpdateCriticalAnnotations].
  - intros. solve_returns.
  - intros. solve_returns.
  - intros. solve_returns.
  - solve_returns.
  - intros m. apply returns_via. unfold NameAsExternalName. solve_returns.
  - intros m. apply returns_via. unfold ResolveReferences. solve_returns.
  - done.
  - done.
  - intros m. apply returns_via, returns_bind; [|intros []; solve_returns]. apply OnError_returns. intros o.
    unfold updateAnnotations. solve_returns.
  - intros [] m c; cbn -[onClient onSecrets onResolver]; solve_returns; apply returns_via, Hp.
  - intros [] m c; cbn -[onSecrets]; solve_returns; apply returns_via; intros tr [_ ?]; done.
  - intros m. solve_returns.
  - solve_returns.
  - intros. solve_returns.
  - intros. solve_returns.
  - intros. solve_returns.
  - intros. solve_returns.
  - intros m tr m' cl ([m1 err] & tr' & _ & _ & [= _ Hcl <-]). simplify_eq/=. split; intros; apply returns_trigger.
Qed.

(** The same without a state: the client is the traced one. *)
Definition defaults (X : Type) (e : meff X) : prog deff X :=
  match e in meff Y return prog deff Y with
  | EGet n => trigger (DClient (CGet n newManaged))
  | EUpdate m => trigger (DClient (CUpdate m))
  | EStatusUpdate m => trigger (DStatusUpdate m)
  | ENow => trigger DNow
  | EInitialize m => onClient (NameAsExternalName m)
  | EResolveReferences m => onResolver (ResolveReferences m)
  | EAddFinalizer m => onClient (APIAddFinalizer FinalizerName m)
  | ERemoveFinalizer m => onClient (APIRemoveFinalizer FinalizerName m)
  | EUpdateCriticalAnnotations m => onClient (UpdateCriticalAnnotations m)
  | EPublishConnection m c => '(m, _, err) ← mrPublishConnection defaultMRManaged kind m c; mret (m, err)
  | EUnpublishConnection m c => mrUnpublishConnection defaultMRManaged kind m c
  | EDisconnectConnector => mret None
  | e => trigger (DRest e)
  end.

(** The client is the traced one while the reconciler is connected. *)
Definition traced (v : view) (s : option (ExternalClient deff)) : Prop := vConnected v = true -> s = Some tracingClient.

Lemma handle_defaults (r : Reconciler) X (e : meff X) (v : view) (s : option (ExternalClient deff)) (tr : list (event deff)) x s' :
  traced v s -> (forall x, allowed r v (Ev e x)) -> exec (handle defaultComponents kind X s e) tr (Some (x, s')) ->
  exec (defaults X e) tr (Some x) /\ traced (step v (Ev e x)) s'.
Proof.
  intros Ht Ha He. destruct v as [g i rs cn hf o f cr st l].
  assert (forall s0 p, traced (MkView g i rs cn hf o f cr st l) s0 -> s0 = s ->
    (forall y, vConnected (step (MkView g i rs cn hf o f cr st l) (Ev e y)) = true -> cn = true) ->
    exec (keep s0 p) tr (Some (x, s')) -> exec p tr (Some x) /\ traced (step (MkView g i rs cn hf o f cr st l) (Ev e x)) s') as Hkeep.
  { intros s0 p Ht0 -> Hv [Hp Hs]%exec_keep. pose proof (Hs _ eq_refl) as Hs'. simpl in Hs'. subst s'. split; [done|].
    intros H. apply Ht. by eapply Hv. }
  assert (cn = true -> forall p, exec (withClient s p) tr (Some (x, s')) ->
    (forall y, vConnected (step (MkView g i rs cn hf o f cr st l) (Ev e y)) = true -> cn = true) ->
    exec (p tracingClient) tr (Some x) /\ traced (step (MkView g i rs cn hf o f cr st l) (Ev e x)) s') as Hclient.
  { intros Hcn p Hp Hv. rewrite (Ht Hcn) in Hp. by eapply (Hkeep (Some tracingClient)); [|symmetry; apply Ht| |]. }
  destruct e; cbn [handle defaults] in He |- *;
    try (eapply Hkeep; [exact Ht|done| |exact He]; by intros [] || by intros y; destruct y as [[] ?]).
  - apply exec_bind in He as [[_ ?]|([[m1 client] err] & tr1 & tr2 & -> & He & [-> [= -> ->]])]; [done|].
    rewrite app_nil_r. apply exec_bind in He as [[_ ?]|([m2 err'] & tr1' & tr2 & -> & He & [-> [= -> -> ->]])]; [done|].
    rewrite app_nil_r. split; [done|]. destruct (Ha (m2, None)) as (mg & _ & Hcn). cbn in Hcn. subst cn. by destruct err'.
  - refine (Hclient _ _ He _); [|by intros]. by destruct (Ha None) as (_ & ? & _).
  - refine (Hclient _ _ He _); [|by intros [[] ?]]. by destruct (Ha (m, MkObservation false false false ∅ "", None)) as (mg & _ & ? & _).
  - refine (Hclient _ _ He _); [|by intros [[] ?]]. by destruct (Ha (m, MkChange ∅ ∅, None)) as (mg & mo & obs & m0 & t & (_ & ? & _) & _).
  - refine (Hclient _ _ He _); [|by intros [[] ?]]. by destruct (Ha (m, MkChange ∅ ∅, None)) as (mg & mo & obs & (_ & ? & _) & _).
  - refine (Hclient _ _ He _); [|by intros [[] ?]]. by destruct (Ha (m, MkChange ∅ ∅, None)) as (mg & obs & (_ & ? & _) & _).
Qed.

(** A run of the reconciler with its components is a run with the handlers that
    have no state. *)
Lemma default_interp (r : Reconciler) (req : string * string) (tr : list (event deff)) res s :
  exec (ReconcileDefault r req) tr (Some (res, s)) -> exec (interp defaults (Reconcile r req)) tr (Some res).
Proof.
  intros He. eapply (interpS_interp (handle defaultComponents kind) step (allowed r) traced defaults _ view0 None s _ _ _
    (reconcile_wp r req)); [done| |exact He]. intros X e v s0 tr0 x s'. apply handle_defaults.
Qed.

(** ** Traces *)

Definition fromClient (ev : event (ceff Managed)) : event deff := match ev with @Ev _ X e x => Ev (DClient e) x end.
Definition fromSecrets (ev : event (ceff Secret)) : event deff := match ev with @Ev _ X e x => Ev (DSecret e) x end.

(** The event of the reconciler that is left as it is. *)
Definition rest (ev : event deff) : option (event meff) :=
  match ev with
  | @Ev _ X d x => match d in deff Y return Y -> option (event meff) with DRest e => fun x => Some (Ev e x) | _ => fun _ => None end x
  end.

Lemma exec_onClient {A} (p : prog (ceff Managed) A) (tr : list (event deff)) res :
  exec (onClient p) tr res -> exists tr', tr = fromClient <$> tr' /\ exec p tr' res.
Proof.
  unfold onClient. revert tr. induction p as [a|why|X e k IH]; intros tr; cbn [interp bind_prog trigger exec].
  - intros [-> ->]. by exists [].
  - intros [-> ->]. by exists [].
  - intros (x & tr1 & -> & (tr' & -> & He)%IH). exists (Ev e x :: tr'). split; [done|]. by exists x, tr'.
Qed.

Lemma exec_via {F : Type -> Type} (f : forall X, F X -> deff X) {A} (p : prog F A) (tr : list (event deff)) res :
  (forall X (e : F X) x, rest (Ev (f X e) x) = None) ->
  exec (interp (fun X e => trigger (f X e)) p) tr res -> Forall (fun ev => rest ev = None) tr.
Proof.
  intros Hf. revert tr. induction p as [a|why|X e k IH]; intros tr; cbn [interp bind_prog trigger exec].
  - intros [-> _]. constructor.
  - intros [-> _]. constructor.
  - intros (x & tr1 & -> & He%IH). by constructor.
Qed.

Lemma exec_onSecrets {A} (p : prog (ceff Secret) A) (tr : list (event deff)) res :
  exec (onSecrets p) tr res -> Forall (fun ev => rest ev = None) tr.
Proof. by apply exec_via. Qed.

Lemma exec_onResolver {A} (p : prog reff A) (tr : list (event deff)) res :
  exec (onResolver p) tr res -> Forall (fun ev => rest ev = None) tr.
Proof. by apply exec_via. Qed.

(** The default publishers change secrets only. *)
Lemma exec_publisher (m : Managed) c (tr : list (event deff)) m' b err :
  exec (mrPublishConnection defaultMRManaged kind m c) tr (Some (m', b, err)) -> m' = m /\ Forall (fun ev => rest ev = None) tr.
Proof.
  unfold mrPublishConnection. destruct kind; cbn [defaultMRManaged ConnectionPublisher LocalConnectionPublisher secretPublisher PublishDetails].
  1,2: intros [[_ ?]|([b' e] & tr1 & tr2 & -> & He%exec_onSecrets & [-> [= -> _ _]])]%exec_bind; [done|]; by rewrite app_nil_r.
  by intros [-> [= -> _ _]].
Qed.

Lemma exec_unpublisher (m : Managed) c (tr : list (event deff)) res :
  exec (mrUnpublishConnection defaultMRManaged kind m c) tr (Some res) -> Forall (fun ev => rest ev = None) tr.
Proof.
  unfold mrUnpublishConnection. destruct kind; cbn [defaultMRManaged ConnectionPublisher LocalConnectionPublisher secretPublisher UnpublishDetails].
  1,2: intros [[_ ?]|(e & tr1 & tr2 & -> & He%exec_onSecrets & [-> _])]%exec_bind; [done|]; by rewrite app_nil_r.
  by intros [-> _].
Qed.

Lemma fromClient_rest (tr : list (event (ceff Managed))) : Forall (fun ev => rest ev = None) (fromClient <$> tr).
Proof. apply Forall_fmap, Forall_forall. by intros [X e x] _. Qed.

(** A default component makes no call of the rest, or is the call itself. *)
Lemma exec_defaults X (e : meff X) (tr : list (event deff)) x :
  exec (defaults X e) tr (Some x) -> tr = [Ev (DRest e) x] \/ Forall (fun ev => rest ev = None) tr.
Proof.
  destruct e; cbn [defaults].
  all: try (cbn [trigger exec]; intros (y & tr' & -> & -> & [= ->]); (by left) || (right; by repeat constructor)).
  all: try (intros (tr' & -> & _)%exec_onClient; right; apply fromClient_rest).
  - intros He%exec_onResolver. by right.
  - intros [[_ ?]|([[m1 b] err] & tr1 & tr2 & -> & [_ He]%exec_publisher & [-> _])]%exec_bind; [done|]. right. by rewrite app_nil_r.
  - intros He%exec_unpublisher. by right.
  - intros [-> _]. by right.
Qed.

(** Where the trace of the whole is cut at a call of the rest, the trace of the
    reconciler can be cut too. *)
Lemma refines_cut (trs : list (event meff)) (tr t1 t2 : list (event deff)) X (e : meff X) x :
  refines defaults trs tr -> tr = t1 ++ Ev (DRest e) x :: t2 ->
  exists trs1 trs2, trs = trs1 ++ Ev e x :: trs2 /\ refines defaults trs1 t1 /\ refines defaults trs2 t2.
Proof.
  intros Hr. revert t1. induction Hr as [|Y e' y tr1 tr2 trs He Hr IH]; intros t1 Heq; [by destruct t1|].
  destruct (app_eq_inv tr1 tr2 t1 (Ev (DRest e) x :: t2) Heq) as [(k & Hk1 & Hk2)|(k & Hk1 & Hk2)].
  - destruct k as [|ev k].
    + rewrite app_nil_r in Hk1. subst t1. simpl in Hk2.
      destruct (IH [] (eq_sym Hk2)) as (trs1 & trs2 & -> & H1 & H2). exists (Ev e' y :: trs1), trs2. split_and!; [done| |done].
      rewrite <- (app_nil_r tr1). by constructor.
    + injection Hk2 as <- Hk2. destruct (exec_defaults _ _ _ _ He) as [->|Hf].
      * destruct t1 as [|ev t1]; [|apply (f_equal length) in Hk1; simpl in Hk1; rewrite length_app in Hk1; simpl in Hk1; lia].
        pose proof (f_equal (fun l => head l ≫= rest) Hk1) as Hh. cbn in Hh. apply (inj Some) in Hh.
        pose proof (f_equal tail Hk1) as Ht. simpl in Ht. subst k. simpl in Hk2. subst tr2.
        exists [], trs. rewrite Hh. split_and!; [done|constructor|done].
      * subst tr1. apply Forall_app in Hf as [_ Hf]. by apply Forall_cons in Hf as [? _].
  - destruct (IH k Hk2) as (trs1 & trs2 & -> & H1 & H2). exists (Ev e' y :: trs1), trs2. split_and!; [done| |done].
    rewrite Hk1. by constructor.
Qed.

(** What the summary remembers did happen. *)
Lemma view_evidence (tr : list (event meff)) :
  (vFinalizer (view_of tr) = true -> exists tr1 tr2 o o', tr = tr1 ++ Ev (EAddFinalizer o) (o', None) :: tr2) /\
  (forall mi, vInit (view_of tr) = Some mi -> exists m, Ev (EInitialize m) (mi, None) ∈ tr) /\
  (forall mo obs, vObs (view_of tr) = Some (mo, obs) -> exists m, Ev (EObserve m) (mo, obs, None) ∈ tr).
Proof.
  induction tr as [|ev tr (IH1 & IH2 & IH3)] using rev_ind; [done|]. rewrite view_of_snoc.
  assert (forall e, e ∈ tr -> e ∈ tr ++ [ev]) as Hin by set_solver.
  assert ((exists tr1 tr2 o o', tr = tr1 ++ Ev (EAddFinalizer o) (o', None) :: tr2) ->
    exists tr1 tr2 o o', tr ++ [ev] = tr1 ++ Ev (EAddFinalizer o) (o', None) :: tr2) as Hsnoc.
  { intros (tr1 & tr2 & o & o' & ->). exists tr1, (tr2 ++ [ev]), o, o'. by rewrite <- app_assoc. }
  assert ((vFinalizer (view_of tr) = true -> exists tr1 tr2 o o', tr ++ [ev] = tr1 ++ Ev (EAddFinalizer o) (o', None) :: tr2) /\
    (forall mi, vInit (view_of tr) = Some mi -> exists m, Ev (EInitialize m) (mi, None) ∈ tr ++ [ev]) /\
    (forall mo obs, vObs (view_of tr) = Some (mo, obs) -> exists m, Ev (EObserve m) (mo, obs, None) ∈ tr ++ [ev])) as Hold.
  { split_and!; [auto|..].
    - intros mi Hm. destruct (IH2 mi Hm) as [m H]. eauto.
    - intros mo obs Hm. destruct (IH3 mo obs Hm) as [m H]. eauto. }
  clear IH1 IH2 IH3 Hsnoc. destruct (view_of tr) as [g i rs c hf o f cr st l], ev as [X e x].
  cbn [vFinalizer vInit vObs] in Hold.
  destruct e; cbn [step]; try exact Hold; try (destruct x as [x err]; exact Hold); try (destruct x as [[x y] err]; exact Hold).
  - destruct x as [mi' [e|]]; cbn [nil_err vFinalizer vInit vObs]; (split_and!; [apply Hold| |apply Hold]); [done|].
    intros mi [= ->]. exists m. set_solver.
  - destruct x as [o' [e|]]; cbn [nil_err vFinalizer vInit vObs]; (split_and!; [|apply Hold..]); [done|].
    intros _. by exists tr, [], m, o'.
  - destruct x as [[mo' obs'] [e|]]; cbn [nil_err vFinalizer vInit vObs]; (split_and!; [apply Hold..|]); [done|].
    intros mo obs [= -> ->]. exists m. set_solver.
Qed.

(** The calls a component made are among the calls of the whole. *)
Lemma refines_in (trs : list (event meff)) (tr : list (event deff)) X (e : meff X) x :
  refines defaults trs tr -> Ev e x ∈ trs ->
  exists ta, exec (defaults X e) ta (Some x) /\ (forall ev, ev ∈ ta -> ev ∈ tr).
Proof.
  intros Hr (trs1 & trs2 & ->)%list_elem_of_split. apply refines_app_inv in Hr as (t1 & t2 & -> & _ & Hr).
  apply refines_cons_inv in Hr as (ta & tb & -> & He & _). exists ta. split; [done|]. set_solver.
Qed.

(** Publishing leaves the object alone. *)
Lemma exec_publish (m o : Managed) c (ta : list (event deff)) err :
  exec (defaults _ (EPublishConnection m c)) ta (Some (o, err)) -> o = m.
Proof.
  cbn [defaults]. intros [[_ ?]|([[m1 b] e] & tr1 & tr2 & _ & [-> _]%exec_publisher & [_ [= -> _]])]%exec_bind; done.
Qed.

(** A finalizer that was added is on the object, or was written. *)
Lemma exec_add_finalizer (m o : Managed) (ta : list (event deff)) :
  exec (defaults _ (EAddFinalizer m)) ta (Some (o, None)) ->
  FinalizerName ∈ Finalizers (mgMeta m) \/
  exists mt, Ev (DClient (CUpdate (set_meta mt m))) (o, None) ∈ ta /\ FinalizerName ∈ Finalizers mt.
Proof.
  cbn [defaults]. intros (tr' & -> & He)%exec_onClient. unfold APIAddFinalizer in He.
  destruct (FinalizerExists (metaOf m) FinalizerName) eqn:Hf; [left; by apply FinalizerExists_elem in Hf|].
  cbn [mbind prog_bind bind_prog trigger exec mret prog_ret] in He.
  destruct He as ([o1 err] & tr2 & -> & -> & Hr). injection Hr as -> Herr. symmetry in Herr. apply Wrap_eq_None in Herr as ->.
  right. eexists. split; [apply list_elem_of_singleton; done|].
  apply FinalizerExists_elem. unfold AddFinalizer. destruct (existsb _ _) eqn:E; [done|].
  apply FinalizerExists_elem. simpl. set_solver.
Qed.

(** C4: with the default components, and whatever the API server and the
    external system answer, Create is called only on an object that was just
    updated in the API server to say that creation is pending, after Observe
    reported that the resource does not exist for an object that is not being
    deleted, and that object has the finalizer, or it was written in between. *)
Theorem default_create_guarded (r : Reconciler) (req : string * string) (tr t1 t2 : list (event deff)) res s (m : Managed) x :
  exec (ReconcileDefault r req) tr (Some (res, s)) -> tr = t1 ++ Ev (DRest (ECreate m)) x :: t2 ->
  exists m0 t mx mo obs,
    last t1 = Some (Ev (DClient (CUpdate (set_meta (SetExternalCreatePending t (mgMeta m0)) m0))) (m, None)) /\
    Ev (DRest (EObserve mx)) (mo, obs, None) ∈ t1 /\ ResourceExists obs = false /\ WasDeleted (mgMeta mo) = false /\
    (FinalizerName ∈ Finalizers (mgMeta mo) \/
     exists mt o, Ev (DClient (CUpdate (set_meta mt mo))) (o, None) ∈ t1 /\ FinalizerName ∈ Finalizers mt).
Proof.
  intros He%default_interp Heq. destruct (interp_refines _ _ _ _ He) as (trs & Hh & Hr).
  destruct (refines_cut trs tr t1 t2 _ _ _ Hr Heq) as (trs1 & trs2 & -> & Hr1 & _).
  pose proof (reconcile_allowed r req _ _ (length trs1) _ Hh (list_lookup_middle _ _ _ _ eq_refl)) as Ha.
  rewrite take_app_length in Ha. destruct Ha as (mg & mo & obs & m0 & t & (_ & _ & Hobs) & Hd & Hf & Hex & _ & _ & m1 & Hm1 & Hl).
  rewrite view_of_last in Hl. apply last_Some in Hl as [trs0 Hl].
  destruct (proj2 (proj2 (view_evidence trs1)) mo obs Hobs) as [mx Hmx].
  exists m0, t, mx, mo, obs. split_and!; [|..|done|done|].
  - rewrite Hl in Hr1. apply refines_app_inv in Hr1 as (ta & tb & -> & _ & Hb).
    apply refines_cons_inv in Hb as (tc & td & -> & Hc & Hn). cbn [defaults trigger exec] in Hc.
    destruct Hc as (y & te & -> & -> & [= <-]). inversion Hn; subst. rewrite <- Hm1. by rewrite last_app.
  - destruct (refines_in _ _ _ _ _ Hr1 Hmx) as (ta & Hc & Hin). apply Hin. cbn [defaults trigger exec] in Hc.
    destruct Hc as (y & te & -> & -> & [= <-]). by left.
  - destruct (proj1 (view_evidence trs1) Hf) as (a & b & o & o' & Hab).
    assert ((trs1 ++ Ev (ECreate m) x :: trs2) !! length a = Some (Ev (EAddFinalizer o) (o', None))) as Hia.
    { rewrite Hab, <- app_assoc. by apply list_lookup_middle. }
    pose proof (reconcile_allowed r req _ _ _ _ Hh Hia) as (mg' & mo' & obs' & (_ & _ & Hobs') & _ & Hla).
    rewrite view_of_last in Hla. rewrite Hab, <- app_assoc, take_app_length in Hla.
    assert (mo' = mo) as ->.
    { pose proof (proj2 (proj2 (view_prefix_stable r req _ _ (length a) (length trs1) Hh ltac:(rewrite Hab, length_app; lia))) _ Hobs') as H.
      rewrite take_app_length in H. congruence. }
    apply last_Some in Hla as [a' ->].
    destruct (refines_in _ _ _ (EPublishConnection mo (obsConnectionDetails obs')) (o, None) Hr1) as (tp & Hp & _); [rewrite Hab; set_solver|].
    apply exec_publish in Hp as ->.
    destruct (refines_in _ _ _ (EAddFinalizer mo) (o', None) Hr1) as (tf & Hp & Hin); [rewrite Hab; set_solver|].
    destruct (exec_add_finalizer _ _ _ Hp) as [?|(mt & Hmt & ?)]; [by left|right]. exists mt, o'. auto.
Qed.

(** Updating critical annotations starts with an update of the object itself. *)
Lemma exec_update_annotations (m o : Managed) err (ta : list (event deff)) :
  exec (defaults _ (EUpdateCriticalAnnotations m)) ta (Some (o, err)) ->
  exists x, Ev (DClient (CUpdate m)) x ∈ ta.
Proof.
  cbn [defaults]. intros (tr' & -> & He)%exec_onClient. unfold UpdateCriticalAnnotations, updateAnnotations in He.
  cbn [OnError mbind prog_bind bind_prog trigger exec] in He. destruct He as (x & tr2 & -> & _). exists x. by left.
Qed.

(** C5: with the default components, whatever Create answers is written down:
    after a call of Create the object it left is sent to the API server with
    the annotation that says whether creation succeeded or failed. *)
Theorem default_create_recorded (r : Reconciler) (req : string * string) (tr t1 t2 : list (event deff)) res s (m m' : Managed) c err :
  exec (ReconcileDefault r req) tr (Some (res, s)) -> tr = t1 ++ Ev (DRest (ECreate m)) (m', c, err) :: t2 ->
  exists t x, Ev (DClient (CUpdate (set_meta (match err with
                                              | Some _ => SetExternalCreateFailed t (mgMeta m')
                                              | None => SetExternalCreateSucceeded t (mgMeta m')
                                              end) m'))) x ∈ t2.
Proof.
  intros He%default_interp Heq. destruct (interp_refines _ _ _ _ He) as (trs & Hh & Hr).
  destruct (refines_cut trs tr t1 t2 _ _ _ Hr Heq) as (trs1 & trs2 & -> & _ & Hr2).
  destruct (create_outcome_recorded r req _ _ (length trs1) m m' c err Hh (list_lookup_middle _ _ _ _ eq_refl)) as (t & [o e] & Hin).
  rewrite drop_app_ge in Hin by lia. replace (S (length trs1) - length trs1) with 1 in Hin by lia. cbn [drop] in Hin.
  destruct (refines_in _ _ _ _ _ Hr2 Hin) as (ta & [x Hx]%exec_update_annotations & Hsub). exists t, x. auto.
Qed.

End composition.

(** ** A concrete run *)

#[local] Instance demoKE : KErrors := KErrorsStd.
#[local] Instance demoLP : LenientParser := fun _ => None.
#[local] Instance demoMV : MetaV1 := MetaV1First.
#[local] Instance demoOT : ObjectTyper := fun _ => ([MkGVK "g" "v1" "Database"], false, None).

(** Kinds that reference nothing. *)
#[local] Instance demoMT : ManagedType :=
  {| hasReferences _ := false; gvkOf _ := MkGVK "g" "v1" "Database"; cmpEqual _ _ := true;
     marshal _ _ := inl ANil; CreateMergePatch _ r := inl r; cmpEqual_refl _ := eq_refl |}.

(** The API server stores what it is sent; everything else succeeds. *)
Definition storeOracle {O X} (e : ceff O X) : X :=
  match e in ceff _ Y return Y with
  | CGet _ o | CCreate o | CUpdate o | CPatch o _ => (o, None)
  | CSleep => tt
  end.

Definition demoDefaultOracle (X : Type) (i : nat) (d : deff X) : X :=
  match d in deff Y return Y with
  | DClient e => storeOracle e
  | DSecret e => storeOracle e
  | DStatusUpdate m => (m, None)
  | DNow => demoTime
  | DResolve e => match e in reff Y return Y with RResolve m | RPatch m _ => (m, None) end
  | DRest e => demoOracle (demoObject false ["*"] ∅) (demoObservation false false) _ i e
  end.

Definition demoDefaultRun : list (event deff) * option ((Result * option error) * option (ExternalClient deff)) :=
  run_with demoDefaultOracle 0
    (ReconcileDefault (demoObject false ["*"] ∅) localConnectionSecretOwner demoReconciler ("", "db")).

Lemma demoDefaultRun_exec :
  exec (ReconcileDefault (demoObject false ["*"] ∅) localConnectionSecretOwner demoReconciler ("", "db"))
    demoDefaultRun.1 demoDefaultRun.2.
Proof. apply run_with_exec. Qed.

(** The same, with finalizers that are added and removed by others. *)
Definition demoComponents : Components deff :=
  NewComponents (defaultKube (demoObject false ["*"] ∅)) defaultMRManaged
    (WithFinalizer (fun m => trigger (DClient (CUpdate m))) (fun m => trigger (DClient (CUpdate m))) :: tracing).

Lemma demo_connects (tr : list (event deff)) : ~ nil_client demoComponents tr.
Proof. by intros (m & m' & [m1 err] & tr' & _ & _ & [= _ H <-]). Qed.

Lemma reconcile_no_panic_witness :
  exists result err client,
    (run_with demoDefaultOracle 0 (ReconcileWith demoComponents localConnectionSecretOwner demoReconciler ("", "db"))).2 =
    Some ((result, err), client).
Proof.
  destruct (reconcile_no_panic demoComponents localConnectionSecretOwner demoReconciler ("", "db") _ _
    ltac:(apply default_well_behaved; [by eexists|intros; apply returns_trigger..]) (run_with_exec demoDefaultOracle 0 _))
    as [H|(t1 & t2 & t3 & _ & Hn)]; [exact H|by apply demo_connects in Hn].
Defined.

(** A connector that answers neither a client nor an error makes Reconcile panic,
    one that answers an error and no client does not. *)
Definition connecting (err : option error) : list (event deff) * option ((Result * option error) * option (ExternalClient deff)) :=
  run_with demoDefaultOracle 0 (ReconcileWith (WithExternalConnector (fun m => mret (m, None, err)) demoComponents)
    localConnectionSecretOwner demoReconciler ("", "db")).

Example nil_client_panics : (connecting None).2 = None /\ (connecting (New "boom")).2 = Some ((MkResult true 0, None), None).
Proof. vm_compute. done. Qed.

(** The run creates the resource with its ninth call. *)
Lemma demoDefaultRun_split :
  exists m m' c res s, demoDefaultRun.1 = take 8 demoDefaultRun.1 ++ Ev (DRest (ECreate m)) (m', c, None) :: drop 9 demoDefaultRun.1 /\
    demoDefaultRun.2 = Some (res, s).
Proof. eexists _, _, _, _, _. vm_compute. split; reflexivity. Qed.

Lemma default_create_guarded_witness :
  exists m0 t m, last (take 8 demoDefaultRun.1) =
    Some (Ev (DClient (CUpdate (set_meta (SetExternalCreatePending t (mgMeta m0)) m0))) (m, None)).
Proof.
  destruct demoDefaultRun_split as (m & m' & c & res & s & Hs & Hres).
  pose proof demoDefaultRun_exec as He. rewrite Hres in He.
  destruct (default_create_guarded _ _ demoReconciler ("", "db") _ _ _ res s m _ He Hs)
    as (m0 & t & mx & mo & obs & H & _). by exists m0, t, m.
Defined.

Lemma default_create_recorded_witness :
  exists t x m, Ev (DClient (CUpdate (set_meta (SetExternalCreateSucceeded t (mgMeta m)) m))) x ∈ drop 9 demoDefaultRun.1.
Proof.
  destruct demoDefaultRun_split as (m & m' & c & res & s & Hs & Hres).
  pose proof demoDefaultRun_exec as He. rewrite Hres in He.
  destruct (default_create_recorded _ _ demoReconciler ("", "db") _ _ _ res s m m' c None He Hs)
    as (t & x & H). by exists t, x, m'.
Defined.
