(* ===== verification/Jitter.v ===== *)
(** * The jitter of poll intervals (WithPollJitterHook of pkg/reconciler/managed/reconciler.go)

    The hook adds [(rand.Float64()-0.5)*2*float64(jitter)] to the poll interval.
    The operations are those of IEEE 754: the float64 nearest to the exact
    result, which is a whole number times a power of two.  The sign of a zero
    and values that are not finite do not matter here. *)

From Stdlib Require Import SpecFloat.
From S2P Require Import Prelude GoErrors Prog Managed Setup FloatValues ManagedReconciler ManagedSafety Components.

(** ** Arithmetic *)

(** A finite float as [n * 2^e]. *)
Definition dyadic (x : float64) : option (Z * Z) :=
  match x with
  | S754_zero _ => Some (0, 0)%Z
  | S754_finite s m e => Some (if s then Zneg m else Zpos m, e)
  | _ => None
  end.

(** The float nearest to [n * 2^e]. *)
Definition rounded (n e : Z) : option float64 := nearest (n <? 0)%Z (Z.abs n * 2 ^ Z.max 0 e)%Z (2 ^ Z.max 0 (- e))%Z.

Definition subFloat (x y : float64) : option float64 :=
  '(n1, e1) ← dyadic x; '(n2, e2) ← dyadic y;
  let e := Z.min e1 e2 in rounded (n1 * 2 ^ (e1 - e) - n2 * 2 ^ (e2 - e)) e.

Definition mulFloat (x y : float64) : option float64 :=
  '(n1, e1) ← dyadic x; '(n2, e2) ← dyadic y; rounded (n1 * n2) (e1 + e2).

(** [int64(x)], for values in range: the fraction is dropped. *)
Definition truncated (x : float64) : option Z :=
  '(n, e) ← dyadic x; Some (if (0 <=? e)%Z then n * 2 ^ e else Z.quot n (2 ^ (- e)))%Z.

(** [time.Duration((r-0.5)*2*float64(jitter))] *)
Definition jitterOf (r : float64) (jitter : Z) : option Z :=
  half ← rounded 1 (-1); two ← rounded 2 0; j ← rounded jitter 0;
  a ← subFloat r half; b ← mulFloat a two; c ← mulFloat b j; truncated c.

(** What math/rand makes of a number [k] that [Int63] gives:
    [float64(r.Int63()) / (1 << 63)], drawn again if it is 1. *)
Definition int63Float (k : Z) : option float64 :=
  f ← rounded k 0; '(n, e) ← dyadic f; rounded n (e - 63).

Definition one : float64 := S754_finite false 4503599627370496 (-52).

Example jitter_examples :
  (int63Float 0 ≫= fun r => jitterOf r 1000) = Some (-1000)%Z /\ (int63Float (2 ^ 62) ≫= fun r => jitterOf r 1000) = Some 0%Z /\
  (int63Float (2 ^ 63 - 1024) ≫= fun r => jitterOf r 1000) = Some 999%Z /\ (int63Float (3 * 2 ^ 61) ≫= fun r => jitterOf r 1000) = Some 500%Z.
Proof. vm_compute. done. Qed.

(** The subtraction rounds: the smallest numbers are lost in it. *)
Example subtraction_rounds : int63Float 1 <> int63Float 0 /\ (int63Float 1 ≫= fun r => jitterOf r 1000) = Some (-1000)%Z /\ int63Float (2 ^ 63 - 1) = Some one.
Proof. vm_compute. done. Qed.

(** The operations agree with those of the Standard Library's floats. *)
Example agrees_SpecFloat :
  mulFloat (S754_finite false 6755399441055744 (-51)) (S754_finite true 7205759403792794 (-56)) =
    Some (SFmul 53 1024 (S754_finite false 6755399441055744 (-51)) (S754_finite true 7205759403792794 (-56))) /\
  subFloat (S754_finite false 6755399441055744 (-51)) (S754_finite false 7205759403792794 (-56)) =
    Some (SFsub 53 1024 (S754_finite false 6755399441055744 (-51)) (S754_finite false 7205759403792794 (-56))).
Proof. vm_compute. done. Qed.

(** ** The hook *)

Section hook.
Context {E : Type -> Type}.

(** [rand] is [rand.Float64()]. *)
Definition jitterHook (rand : prog E float64) (jitter : Z) : Managed -> Z -> prog E Z := fun _ pollInterval =>
  r ← rand; mret (int64 (pollInterval + default 0%Z (jitterOf r jitter))).

Definition WithPollJitterHook (rand : prog E float64) (jitter : Z) : Option_ E := WithPollIntervalHook (jitterHook rand jitter).

End hook.

(** ** Rounding *)

Lemma roundHalfEven_scale (num den c : Z) : (0 < den)%Z -> (0 < c)%Z -> roundHalfEven (num * c) (den * c) = roundHalfEven num den.
Proof.
  intros Hd Hc. unfold roundHalfEven. rewrite Z.div_mul_cancel_r, Z.mul_mod_distr_r, Z.mul_assoc by lia.
  by rewrite <- (Zmult_compare_compat_r _ _ c) by lia.
Qed.

Lemma roundHalfEven_le (num den n : Z) : (0 < den)%Z -> (num <= n * den)%Z -> (roundHalfEven num den <= n)%Z.
Proof.
  intros Hd Hn. unfold roundHalfEven.
  pose proof (Z.div_mod num den ltac:(lia)) as Hdm. pose proof (Z.mod_pos_bound num den Hd) as Hm.
  assert (num / den <= n)%Z as Hq by (apply Z.div_le_upper_bound; lia).
  destruct (decide (num / den = n)%Z) as [Heq|]; [|destruct (2 * (num mod den) ?= den)%Z; [destruct (Z.even _)| |]; lia].
  assert (num mod den = 0)%Z as -> by nia. by rewrite Z.mul_0_r, (proj2 (Z.compare_lt_iff 0 den) Hd), Heq.
Qed.

Lemma roundHalfEven_nonneg (num den : Z) : (0 < den)%Z -> (0 <= num)%Z -> (0 <= roundHalfEven num den)%Z.
Proof.
  intros Hd Hn. unfold roundHalfEven. pose proof (Z.div_pos num den Hn Hd).
  destruct (2 * (num mod den) ?= den)%Z; [destruct (Z.even _)| |]; lia.
Qed.

Lemma nearest_scale (s : bool) (num den c : Z) : (0 <= num)%Z -> (0 < den)%Z -> (0 <= c)%Z -> nearest s (num * 2 ^ c) (den * 2 ^ c) = nearest s num den.
Proof.
  intros Hn Hd Hc. assert (0 < 2 ^ c)%Z as Hp by (apply Z.pow_pos_nonneg; lia). unfold nearest.
  destruct (Z.eqb_spec num 0) as [->|Hz]; [done|]. rewrite (proj2 (Z.eqb_neq _ 0)) by nia.
  rewrite !Z.log2_mul_pow2 by lia. replace (c + Z.log2 num - (c + Z.log2 den))%Z with (Z.log2 num - Z.log2 den)%Z by lia.
  set (d := (Z.log2 num - Z.log2 den)%Z).
  assert (forall a b, (den * 2 ^ c * a <=? num * 2 ^ c * b)%Z = (den * a <=? num * b)%Z) as Hle.
  { intros a b. apply Bool.eq_iff_eq_true. rewrite !Z.leb_le. rewrite (Z.mul_shuffle0 den), (Z.mul_shuffle0 num). symmetry. apply Z.mul_le_mono_pos_r. lia. }
  rewrite Hle. set (e := Z.max _ _).
  rewrite (Z.mul_shuffle0 num), (Z.mul_shuffle0 den). rewrite roundHalfEven_scale; [done| |done].
  apply Z.mul_pos_pos; [done|]. apply Z.pow_pos_nonneg; lia.
Qed.

(** Values, as multiples of a small power of two. *)
Definition bias : Z := 4000.

Definition valued (x : float64) (v : Z) : Prop := exists n e, dyadic x = Some (n, e) /\ (-1074 <= e)%Z /\ v = (n * 2 ^ (e + bias))%Z.

Definition nearestTo (v : Z) : option float64 := nearest (v <? 0)%Z (Z.abs v) (2 ^ bias).

Lemma rounded_value (n e : Z) : (- bias <= e)%Z -> rounded n e = nearestTo (n * 2 ^ (e + bias)).
Proof.
  intros He. unfold rounded, nearestTo. assert (0 < 2 ^ (e + bias))%Z as Hp by (apply Z.pow_pos_nonneg; lia).
  assert (0 < 2 ^ Z.max 0 (- e))%Z as Hp2 by (apply Z.pow_pos_nonneg; lia).
  assert (0 < 2 ^ Z.max 0 e)%Z as Hp3 by (apply Z.pow_pos_nonneg; lia).
  replace (n * 2 ^ (e + bias) <? 0)%Z with (n <? 0)%Z by (apply Bool.eq_iff_eq_true; rewrite !Z.ltb_lt; nia).
  rewrite Z.abs_mul, (Z.abs_eq (2 ^ (e + bias))) by lia.
  rewrite <- (nearest_scale _ _ _ (bias - Z.max 0 (- e))) by (unfold bias in *; nia || lia).
  rewrite <- Z.mul_assoc, <- !Z.pow_add_r by (unfold bias in *; lia).
  f_equal; [f_equal; f_equal; lia|f_equal; lia].
Qed.

Lemma nearest_exact_value (v n e : Z) :
  (Z.abs n < 2 ^ 53)%Z -> (-1074 <= e <= 900)%Z -> v = (n * 2 ^ (e + bias))%Z -> exists x, nearestTo v = Some x /\ valued x v.
Proof.
  intros Hn He ->. destruct (decide (n = 0%Z)) as [->|Hz].
  { exists (S754_zero false). split; [done|]. by exists 0%Z, 0%Z. }
  unfold nearestTo. assert (0 < 2 ^ (e + bias))%Z as Hp by (apply Z.pow_pos_nonneg; unfold bias; lia).
  rewrite Z.abs_mul, (Z.abs_eq (2 ^ _)) by lia. set (m := Z.abs n) in *. assert (0 < m)%Z as Hm by lia.
  pose proof (Z.log2_spec m Hm) as Hl. pose proof (Z.log2_nonneg m) as Hl0.
  assert (Z.log2 m < 53)%Z as Hl53 by (apply Z.log2_lt_pow2; lia).
  unfold nearest. rewrite (proj2 (Z.eqb_neq _ 0)) by nia.
  rewrite Z.log2_mul_pow2, Z.log2_pow2 by (unfold bias; lia). replace (e + bias + Z.log2 m - bias)%Z with (e + Z.log2 m)%Z by lia.
  set (d := (e + Z.log2 m)%Z).
  assert (2 ^ bias * 2 ^ Z.max 0 d <= m * 2 ^ (e + bias) * 2 ^ Z.max 0 (- d))%Z as Hle.
  { rewrite <- Z.mul_assoc, <- !Z.pow_add_r by (unfold bias; lia).
    replace (bias + Z.max 0 d)%Z with (Z.log2 m + (e + bias + Z.max 0 (- d)))%Z by lia.
    rewrite Z.pow_add_r by (unfold bias; lia). apply Z.mul_le_mono_nonneg_r; [|lia]. apply Z.lt_le_incl, Z.pow_pos_nonneg; unfold bias; lia. }
  rewrite (proj2 (Z.leb_le _ _) Hle). set (e' := Z.max (-1074) (d - 52)). assert (e' <= e)%Z as He' by lia.
  assert (m * 2 ^ (e + bias) * 2 ^ Z.max 0 (- e') = m * 2 ^ (e - e') * (2 ^ bias * 2 ^ Z.max 0 e'))%Z as ->.
  { rewrite <- !Z.mul_assoc, <- !Z.pow_add_r by (unfold bias; lia). do 2 f_equal. lia. }
  rewrite roundHalfEven_exact by (apply Z.mul_pos_pos; apply Z.pow_pos_nonneg; unfold bias; lia).
  assert (0 < m * 2 ^ (e - e') < 2 ^ 53)%Z as Hq.
  { split; [apply Z.mul_pos_pos; [lia|apply Z.pow_pos_nonneg; lia]|].
    replace (2 ^ 53)%Z with (2 ^ (53 - (e - e')) * 2 ^ (e - e'))%Z by (rewrite <- Z.pow_add_r by lia; f_equal; lia).
    apply Z.mul_lt_mono_pos_r; [apply Z.pow_pos_nonneg; lia|]. eapply Z.lt_le_trans; [apply Hl|]. apply Z.pow_le_mono_r; lia. }
  rewrite (proj2 (Z.eqb_neq _ _)) by lia. rewrite (proj2 (Z.ltb_ge _ _)) by lia.
  destruct (m * 2 ^ (e - e'))%Z as [|q|q] eqn:Eq; [lia| |lia]. eexists. split; [done|].
  exists (if (n * 2 ^ (e + bias) <? 0)%Z then Zneg q else Zpos q), e'. split; [done|]. split; [lia|].
  replace (n * 2 ^ (e + bias) <? 0)%Z with (n <? 0)%Z by (apply Bool.eq_iff_eq_true; rewrite !Z.ltb_lt; nia).
  replace (e + bias)%Z with ((e - e') + (e' + bias))%Z by lia. rewrite Z.pow_add_r, Z.mul_assoc by (unfold bias; lia). f_equal.
  destruct (Z.ltb_spec n 0); [rewrite <- Pos2Z.opp_pos|]; rewrite <- Eq; unfold m; nia.
Qed.

(** A value within a number of at most 53 bits is rounded to one within it. *)
Lemma nearest_within (v bound p : Z) :
  (0 <= bound < 2 ^ 53)%Z -> (-1074 <= p <= 900)%Z -> (Z.abs v <= bound * 2 ^ (p + bias))%Z ->
  exists x w, nearestTo v = Some x /\ valued x w /\ (Z.abs w <= bound * 2 ^ (p + bias))%Z /\ (0 <= v -> 0 <= w)%Z.
Proof.
  intros Hb Hp Hv. assert (0 < 2 ^ (p + bias))%Z as Hpp by (apply Z.pow_pos_nonneg; unfold bias; lia).
  destruct (decide (v = 0%Z)) as [->|Hz].
  { exists (S754_zero false), 0%Z. split_and!; [done|by exists 0%Z, 0%Z|nia|done]. }
  unfold nearestTo. set (m := Z.abs v) in *. assert (0 < m)%Z as Hm by lia.
  assert (0 < 2 ^ bias)%Z as Hpb by (by apply Z.pow_pos_nonneg).
  assert (Z.log2 m < 53 + (p + bias))%Z as Hl by (apply Z.log2_lt_pow2; [lia|]; rewrite Z.pow_add_r by (unfold bias; lia); nia).
  unfold nearest. rewrite (proj2 (Z.eqb_neq m 0)), Z.log2_pow2 by (done || lia).
  set (d := if (_ <=? _)%Z then _ else _). assert (d <= 52 + p)%Z as Hd by (unfold d; case_match; lia).
  set (e := Z.max (-1074) (d - 52)). assert (-1074 <= e <= p)%Z as He by lia.
  assert (0 < 2 ^ bias * 2 ^ Z.max 0 e)%Z as Hden by (apply Z.mul_pos_pos; [done|apply Z.pow_pos_nonneg; lia]).
  assert (0 < 2 ^ Z.max 0 (- e))%Z as Hpe by (apply Z.pow_pos_nonneg; lia).
  assert (m * 2 ^ Z.max 0 (- e) <= bound * 2 ^ (p - e) * (2 ^ bias * 2 ^ Z.max 0 e))%Z as Hnum.
  { transitivity (bound * 2 ^ (p + bias) * 2 ^ Z.max 0 (- e))%Z; [nia|]. rewrite <- !Z.mul_assoc, <- !Z.pow_add_r by (unfold bias; lia).
    apply Z.eq_le_incl. do 2 f_equal. lia. }
  pose proof (roundHalfEven_le _ _ _ Hden Hnum) as Hq. pose proof (roundHalfEven_nonneg (m * 2 ^ Z.max 0 (- e)) _ Hden ltac:(nia)) as Hq0.
  set (q := roundHalfEven _ _) in *.
  assert (exists q' e', (if (q =? 2 ^ 53)%Z then (2 ^ 52, e + 1)%Z else (q, e)) = (q', e') /\ (-1074 <= e' <= p)%Z /\ (0 <= q' <= bound * 2 ^ (p - e'))%Z)
    as (q' & e' & -> & He' & Hq').
  { destruct (Z.eqb_spec q (2 ^ 53)) as [E|]; [|exists q, e; split_and!; [done|lia..]].
    assert (e < p)%Z by (destruct (decide (e = p)) as [E0|]; [rewrite E0, Z.sub_diag in Hq; cbn in Hq; lia|lia]).
    exists (2 ^ 52)%Z, (e + 1)%Z. split_and!; [done|lia..|]. rewrite E in Hq.
    replace (p - e)%Z with (p - (e + 1) + 1)%Z in Hq by lia. rewrite Z.pow_add_r, Z.pow_1_r in Hq by lia. lia. }
  rewrite (proj2 (Z.ltb_ge _ _)) by lia. destruct q' as [|qp|qp]; [|clear q Hq Hq0|lia].
  { eexists _, 0%Z. split_and!; [done|by exists 0%Z, 0%Z|nia|done]. }
  assert (0 < 2 ^ (e' + bias))%Z as Hpe' by (apply Z.pow_pos_nonneg; unfold bias; lia).
  eexists _, ((if (v <? 0)%Z then Zneg qp else Zpos qp) * 2 ^ (e' + bias))%Z.
  split_and!; [done|eexists _, e'; split_and!; [done|lia|done]| |intros ?; destruct (Z.ltb_spec v 0); [lia|apply Z.mul_nonneg_nonneg; lia]].
  rewrite Z.abs_mul, (Z.abs_eq (2 ^ _)) by lia.
  replace (p + bias)%Z with ((p - e') + (e' + bias))%Z by lia. rewrite (Z.pow_add_r 2 (p - e')), Z.mul_assoc by (unfold bias; lia).
  apply Z.mul_le_mono_nonneg_r; [lia|]. destruct (v <? 0)%Z; cbn [Z.abs]; lia.
Qed.

(** Dropping the fraction does not leave a whole bound. *)
Lemma truncated_within (x : float64) (w bound : Z) :
  valued x w -> (Z.abs w <= bound * 2 ^ bias)%Z -> exists d, truncated x = Some d /\ (Z.abs d <= bound)%Z.
Proof.
  intros (n & e & Hx & He & ->) Hw. unfold truncated. rewrite Hx. cbn. eexists. split; [done|].
  assert (0 < 2 ^ bias)%Z as Hb by (by apply Z.pow_pos_nonneg).
  rewrite Z.abs_mul, (Z.abs_eq (2 ^ _)) in Hw by (apply Z.pow_nonneg; lia). destruct (Z.leb_spec 0 e) as [H0|H0].
  - assert (0 < 2 ^ e)%Z by (by apply Z.pow_pos_nonneg). rewrite Z.pow_add_r in Hw by (unfold bias in *; lia). rewrite Z.abs_mul, (Z.abs_eq (2 ^ e)) by lia. nia.
  - assert (0 < 2 ^ (- e))%Z by (apply Z.pow_pos_nonneg; lia). rewrite <- Z.quot_abs, (Z.abs_eq (2 ^ (- e))), Z.quot_div_nonneg by lia.
    apply Z.div_le_upper_bound; [lia|]. assert (0 < 2 ^ (e + bias))%Z by (apply Z.pow_pos_nonneg; unfold bias; lia).
    assert (2 ^ bias = 2 ^ (- e) * 2 ^ (e + bias))%Z as Hbe by (rewrite <- Z.pow_add_r by (unfold bias; lia); f_equal; lia). rewrite Hbe in Hw. nia.
Qed.

Lemma subFloat_valued (x y : float64) (v w : Z) : valued x v -> valued y w -> subFloat x y = nearestTo (v - w).
Proof.
  intros (n1 & e1 & Hx & H1 & ->) (n2 & e2 & Hy & H2 & ->). unfold subFloat. rewrite Hx, Hy. cbn. rewrite rounded_value by (unfold bias; lia).
  f_equal. rewrite Z.mul_sub_distr_r, <- !Z.mul_assoc, <- !Z.pow_add_r by (unfold bias; lia). f_equal; do 2 f_equal; lia.
Qed.

Lemma mulFloat_valued (x y : float64) (v w : Z) : valued x v -> valued y w -> exists u, (u * 2 ^ bias = v * w)%Z /\ mulFloat x y = nearestTo u.
Proof.
  intros (n1 & e1 & Hx & H1 & ->) (n2 & e2 & Hy & H2 & ->). unfold mulFloat. rewrite Hx, Hy. cbn. rewrite rounded_value by (unfold bias; lia).
  eexists. split; [|done]. rewrite <- Z.mul_assoc, <- Z.pow_add_r by (unfold bias; lia).
  replace (e1 + e2 + bias + bias)%Z with ((e1 + bias) + (e2 + bias))%Z by lia. rewrite Z.pow_add_r by (unfold bias; lia). ring.
Qed.

(** A float64 in [0, 1), which is what [rand.Float64] returns. *)
Definition unitFloat (r : float64) : Prop := exists v, valued r v /\ (0 <= v < 2 ^ bias)%Z.

(** The product of a value within one and a value within a bound. *)
Lemma mul_within (v w u b c : Z) : (u * 2 ^ bias = v * w)%Z -> (Z.abs v <= b)%Z -> (Z.abs w <= c * 2 ^ bias)%Z -> (0 <= c)%Z -> (Z.abs u <= b * c)%Z.
Proof.
  intros Hu Hv Hw Hc. assert (0 < 2 ^ bias)%Z as Hp by (by apply Z.pow_pos_nonneg).
  apply (Z.mul_le_mono_pos_r _ _ (2 ^ bias)); [done|].
  transitivity (Z.abs v * Z.abs w)%Z; [rewrite <- Z.abs_mul, <- Hu, Z.abs_mul, (Z.abs_eq (2 ^ bias)) by lia; lia|nia].
Qed.

Lemma jitter_bounded (r : float64) (jitter : Z) :
  unitFloat r -> (0 <= jitter < 2 ^ 53)%Z -> exists d, jitterOf r jitter = Some d /\ (Z.abs d <= jitter)%Z.
Proof.
  intros (v & Hr & Hv) Hj. unfold jitterOf. rewrite !rounded_value by done.
  destruct (nearest_exact_value (1 * 2 ^ (-1 + bias)) 1 (-1)) as (h & -> & Hh); [lia|lia|done|].
  destruct (nearest_exact_value (2 * 2 ^ (0 + bias)) 2 0) as (t & -> & Ht); [lia|lia|done|].
  destruct (nearest_exact_value (jitter * 2 ^ (0 + bias)) jitter 0) as (j & -> & Hjj); [lia|lia|done|].
  assert (2 ^ bias = 2 * 2 ^ (-1 + bias))%Z as Hhalf by (by rewrite <- (Z.pow_add_r 2 1)).
  cbn [mbind option_bind]. rewrite (subFloat_valued r h _ _ Hr Hh).
  destruct (nearest_within (v - 1 * 2 ^ (-1 + bias)) 1 (-1)) as (a & wa & -> & Ha & Hwa & _); [lia|lia|lia|].
  cbn [mbind option_bind]. destruct (mulFloat_valued a t _ _ Ha Ht) as (u & Hu & ->). rewrite Z.add_0_l in *.
  assert (Z.abs u <= 1 * 2 ^ (-1 + bias) * 2)%Z as Hub by (eapply mul_within; [exact Hu|exact Hwa|lia|lia]).
  destruct (nearest_within u 1 0) as (b & wb & -> & Hb & Hwb & _); [lia|lia|rewrite Z.add_0_l; lia|].
  cbn [mbind option_bind]. destruct (mulFloat_valued b j _ _ Hb Hjj) as (u' & Hu' & ->). rewrite Z.add_0_l in *.
  assert (Z.abs u' <= 1 * 2 ^ bias * jitter)%Z as Hub' by (eapply mul_within; [exact Hu'|exact Hwb|lia|lia]).
  destruct (nearest_within u' jitter 0) as (c & wc & -> & Hc & Hwc & _); [done|lia|rewrite Z.add_0_l; lia|].
  cbn [mbind option_bind]. rewrite Z.add_0_l in Hwc. by eapply truncated_within.
Qed.

(** What math/rand makes of every number that [Int63] may give is in [0, 1), or
    it is 1 and is drawn again. *)
Lemma int63Float_unit (k : Z) : (0 <= k < 2 ^ 63)%Z -> exists r, int63Float k = Some r /\ (unitFloat r \/ valued r (2 ^ bias)).
Proof.
  intros Hk. unfold int63Float. rewrite rounded_value by done.
  assert (0 < 2 ^ (0 + bias))%Z as Hp by (by apply Z.pow_pos_nonneg).
  assert (2 ^ (63 + bias) = 2 ^ 63 * 2 ^ (0 + bias))%Z as E63 by (by rewrite <- (Z.pow_add_r 2 63)).
  destruct (nearest_within (k * 2 ^ (0 + bias)) 1 63) as (f & w & -> & (n & e & Hf & He & ->) & Hle & Hpos); [lia|lia|rewrite E63; nia|].
  cbn [mbind option_bind]. rewrite Hf. cbn [mbind option_bind]. rewrite rounded_value by (unfold bias; lia).
  assert (2 ^ (e + bias) = 2 ^ 63 * 2 ^ (e - 63 + bias))%Z as E2 by (rewrite <- (Z.pow_add_r 2 63) by (unfold bias; lia); f_equal; lia).
  rewrite E2, E63 in *. rewrite Z.add_0_l in *. set (u := (2 ^ (e - 63 + bias))%Z) in *. set (o := (2 ^ bias)%Z) in *.
  destruct (nearest_within (n * u) 1 0) as (r & v & -> & Hv & Hb & Hn); [lia|lia|rewrite Z.add_0_l; fold o; lia|].
  rewrite Z.add_0_l in Hb. fold o in Hb. exists r. split; [done|].
  destruct (decide (v = o)) as [->|]; [by right|left]. exists v. split; [done|]. fold o. lia.
Qed.

(** C34: the poll interval the hook gives is at most the jitter away from the one
    that was configured, for every float64 in [0, 1) that [rand.Float64] may
    return and with the rounding of every floating point operation.  This is
    for jitters that are not negative and below 2^53 nanoseconds (104 days), and
    where neither bound leaves the 64 bits of a duration. *)
Theorem poll_jitter_bounded {E : Type -> Type} (rand : prog E float64) (m : Managed) (jitter poll res : Z) (tr : list (event E)) :
  (forall tr r, exec rand tr (Some r) -> unitFloat r) -> (0 <= jitter < 2 ^ 53)%Z ->
  (- 2 ^ 63 <= poll - jitter)%Z -> (poll + jitter < 2 ^ 63)%Z ->
  exec (jitterHook rand jitter m poll) tr (Some res) -> (poll - jitter <= res <= poll + jitter)%Z.
Proof.
  intros Hd Hj Hl Hu He. apply exec_bind in He as [[_ ?]|(r & tr1 & tr2 & _ & Hr & [_ Hres])]; [done|].
  destruct (jitter_bounded r jitter (Hd _ _ Hr) Hj) as (d & Hjd & Hle). rewrite Hjd in Hres. cbn in Hres.
  injection Hres as ->. rewrite int64_small; lia.
Qed.

(** The smallest number above zero that math/rand draws, 2^-63. *)
Definition tiny : float64 := S754_finite false 4503599627370496 (-115).

Lemma poll_jitter_bounded_witness :
  int63Float 1 = Some tiny /\
  exec (jitterHook (E:=fun _ => Empty_set) (mret tiny) 1000 (demoObject false ["*"] ∅) 60000) [] (Some 59000%Z) /\ (60000 - 1000 <= 59000 <= 60000 + 1000)%Z.
Proof.
  split; [by vm_compute|].
  assert (exec (jitterHook (E:=fun _ => Empty_set) (mret tiny) 1000 (demoObject false ["*"] ∅) 60000) [] (Some 59000%Z)) as He by (by vm_compute).
  split; [exact He|]. apply (poll_jitter_bounded (E:=fun _ => Empty_set) (mret tiny) (demoObject false ["*"] ∅) 1000 60000 59000 []); [|done|done|done|exact He].
  intros tr r [_ [= ->]]. exists (4503599627370496 * 2 ^ (-115 + bias))%Z. split; [by exists 4503599627370496%Z, (-115)%Z|].
  split; [apply Z.mul_nonneg_nonneg; [lia|apply Z.pow_nonneg; lia]|].
  change bias with (115 + (-115 + bias))%Z at 2. rewrite (Z.pow_add_r 2 115) by done. apply Z.mul_lt_mono_pos_r; [by apply Z.pow_pos_nonneg|done].
Defined.

(** A longer jitter is rounded to a float first, and may be exceeded. *)
Example long_jitter_rounded : jitterOf (S754_zero false) (2 ^ 53 + 3) = Some (- (2 ^ 53 + 4))%Z.
Proof. vm_compute. done. Qed.
